(* ===== verification/_CoqProject ===== *)
-Q . S2P
Prelude.v
Json.v
Prog.v
Vault.v
VaultFacts.v
Types.v
Calls.v
Helpers.v
Cooperation.v
CloudInit.v
MachineController.v
ClusterController.v
Concrete.v
Scenario.v
MachineFacts.v
MachineSafety.v
MachineOrder.v
Linked.v
MachineLifecycle.v
MachineTeardown.v
CloudInitFacts.v
ClusterTenants.v
ClusterStatus.v
ClusterDeletion.v
ClusterTeardown.v
ClusterProvisioning.v
MachineProvisioning.v
Startup.v
Memory.v
MemoryTypes.v
DeepCopy.v
