(* ===== verification/Prelude.v ===== *)
(** * A verified model of cluster-api-provider-waldur

    The provider is a Kubernetes operator. Two controllers keep custom resources
    of Cluster API in step with the Waldur marketplace:

    - a [WaldurCluster] has one OpenStack tenant per datacenter, each bought by a
      marketplace order; its controller orders the missing tenants, reads the
      others again, reports readiness, finds the control-plane endpoint, and on
      deletion terminates the tenants before their projects and the finalizer go;
    - a [WaldurMachine] is one virtual machine in such a tenant; its controller
      builds the node's user data (through Vault, when there is one), orders the
      VM, follows it, publishes its provider ID, and on deletion stops and
      terminates it.

    The two meet in Kubernetes only: the machine controller reads the cluster's
    status for the tenant to order from, the cluster controller lists the
    machines to find the first running control-plane node. The machine controller
    uses Vault through a client of its own (src/internal/vault), and main
    (src/cmd/main.go) reads the configuration, makes the clients and starts the
    controllers.

    ** The model

    A function that calls out is a [Prog.prog]: a finite tree of calls whose
    branches are the answers. Nothing is assumed of the answers, so a theorem over
    [Prog.execs] holds whatever Kubernetes, Waldur and Vault do: errors, wrong
    status codes, missing fields, objects changed by somebody else. A nil
    dereference ends the program ([Panic]; controller-runtime recovers and
    retries). The trees are finite because every loop of the code goes over a
    list or a map in memory, so every program ends once its calls are answered, and
    no fuel is needed. The one function with fuel is the JSON parser of Json.v:
    [parse] gives it twice the length of the text and two, and [parse_value_enough]
    proves that more never changes the answer.

    - Prelude.v: Go errors, results, [fmt.Sprintf], 64-bit integers that wrap,
      list lemmas, tactics.
    - Prog.v: programs, executions, the weakest precondition [wp] over traces,
      footprints ([only]) and call counts ([at_most]), runs against an environment
      ([runs], [yields]), equivalence of programs.
    - Types.v: the data of src/api/v1beta2 and what the code reads of Kubernetes,
      Cluster API and Waldur objects.
    - Json.v: what the Vault client uses of encoding/json: printing with Go's
      escapes and sorted keys, parsing, decoding into a struct by folded names.
    - Vault.v: src/internal/vault/client.go, over HTTP requests and file reads; a
      method returns the client it leaves.
    - Calls.v: the calls the controllers make, as a signature [ctl], and the pure
      library functions they use, as classes with their documented laws.
    - Helpers.v: waldur_helpers.go.
    - Cooperation.v: how those functions run against a Waldur that does what it is
      asked.
    - CloudInit.v: cloudinit.go; the YAML library is a class.
    - MachineController.v: waldurmachine_controller.go. [createVM] is split into
      [prepareUserData], [buildOrderPayload] and [submitVMOrder], [Reconcile] into
      [provision], [setProviderID] and [publish], [reconcileDelete] calls [stopVM].
    - ClusterController.v: waldurcluster_controller.go. The loop bodies are
      [reconcile_datacenter], [delete_tenant] and [delete_project_of].
    - Linked.v: a controller with its Vault calls carried out by the client of
      Vault.v: one program that makes the other calls and HTTP requests.
    - Startup.v: main, from the parsed flags to the exit status.
    - Memory.v, MemoryTypes.v, DeepCopy.v: a heap with typed pointers, slices and
      maps; the structs of src/api/v1beta2 in it and the values they represent;
      zz_generated.deepcopy.go.
    - Concrete.v, Scenario.v: concrete libraries that satisfy the laws, and a
      concrete backend. The theorems' witnesses run the controllers on them.

    ** The theorems

    - MachineLifecycle.v: the life of a machine, as a step relation in which users,
      other controllers and the API server act between and during reconciles, and
      restarts cut reconciles off: which orders Waldur accepted, and what is left of
      them when the object is gone. The orders of reconciles that panicked, were cut
      off or whose status patch was answered by an error are kept apart; the code
      forgets them, and the theorems say nothing of them.
    - MachineProvisioning.v, ClusterProvisioning.v: a cluster, and a machine in it, are
      ready after a bounded number of reconciles once Waldur reports them as OK, each
      missing tenant and VM ordered at most once.
    - MachineTeardown.v, ClusterTeardown.v: deletion completes in a bounded number of
      reconciles; a machine whose resource cannot be read is never released.
    - MachineSafety.v: in one reconcile, a machine is ordered at most once, terminated
      only when stopped, and loses its finalizer only when nothing is left behind; the
      provider ID is written once; what is requeued.
    - MachineOrder.v: the order's payload, its record in the status, the fate of
      the Vault credential, the refresh of a machine.
    - CloudInitFacts.v: the contents of the user data; the RKE2 join token that is
      taken out of it, and written to Vault.
    - ClusterTenants.v: the limits of a tenant order, with the bounds within which
      they do not overflow; which tenants a reconcile orders, datacenter by datacenter.
    - ClusterStatus.v: readiness, endpoint, and the machine events that agree with
      the endpoint's search.
    - ClusterDeletion.v: tenants first, then projects, then the finalizer; tenant by
      tenant, what is terminated; what a deletion that returns has done.
    - VaultFacts.v: an authenticated request is retried once; what each operation
      answers; the JSON round trips.
    - Linked.v: the linked program refines the controllers over the interface, so
      that their theorems hold of its HTTP requests.
    - DeepCopy.v: a copy represents the same value in cells of its own.
    - Startup.v: what is configured when the manager starts, and the exit status of a
      run that ends ([mgr.Start] is a call that answers when the manager has stopped).
    - Some theorems state what the code does where it falls short of its purpose:
      orders lost between acceptance and status patch, a termination answered
      202, a credential left valid, an empty join token, readiness counted rather
      than matched, a status lost to the patch of the provider ID ([published] of
      MachineProvisioning.v).

    The four theorems of whole provisionings and deletions run the reconciles one after
    the other against an API server that keeps the one object, takes every write and
    gives an object under deletion up with its last finalizer. What they assume of
    Waldur's answers is a record of its own ([cooperative], [cluster_cooperative],
    [vm_provisions], [provisions]), may differ from one reconcile to the next, and is
    met by the concrete answers of the witnesses.

    ** Choices

    - A Go pointer is an [option], a [(value, error)] pair a [result]; a function
      that mutates its argument returns it. [DeepCopy] is the identity on values;
      DeepCopy.v proves that the generated code, on memory, is that.
    - The answer of a Kubernetes [Update] or [Patch] is the object in memory
      afterwards. After a status patch the local map [tenants] of the cluster
      controller is the map of the patched object, because both name one Go map.
    - The order of a [range] over a map is an answer too ([Range]), constrained to
      be a permutation of the keys.
    - Errors keep their format and arguments instead of the formatted text.
    - Logging and contexts are left out.

    ** Not modelled

    - [SetupWithManager] of either controller, the flag parsing and the scheme
      registration of src/cmd/main.go, which hand over to libraries;
    - the transport of net/http: a request is answered by a status and a body or
      by an error;
    - informer caches: in the theorems about several reconciles a read answers the
      stored object, that is the cache has caught up with the controller's last write;
    - the validation markers, which the API server enforces. *)
From Stdlib Require Import ZArith Lia Ascii.
From stdpp Require Import base gmap strings list.

(** ** Scope and hint databases *)

Declare Scope go_scope.
Delimit Scope go_scope with go.

(** [go_footprint]: which external calls a program can make.
    [go_simpl]: equations of the library, for [autorewrite]. *)
Create HintDb go_footprint.
Create Rewrite HintDb go_simpl.

(** ** Go errors

    The code builds errors with [errors.New], [errors.Errorf] and
    [errors.Wrap]; an error made by a library is opaque, except for what
    [apierrors.IsNotFound] reports of it. Messages are kept as format and
    arguments. *)
Inductive fmt_arg :=
| FStr (s : string)
| FInt (z : Z).

Inductive error :=
| errBootstrapNotReady
| ErrLib (not_found : bool) (msg : string)
| Errorf (format : string) (args : list fmt_arg)
| Wrapf (cause : error) (format : string) (args : list fmt_arg).

Definition Wrap (cause : error) (msg : string) : error := Wrapf cause msg [].

#[export] Instance fmt_arg_eq_dec : EqDecision fmt_arg.
Proof. solve_decision. Defined.

#[export] Instance error_eq_dec : EqDecision error.
Proof. solve_decision. Defined.

(** [errors.Is(err, errBootstrapNotReady)]: the sentinel is compared along the
    chain of causes. *)
Fixpoint Is_errBootstrapNotReady (e : error) : bool :=
  match e with
  | errBootstrapNotReady => true
  | Wrapf e' _ _ => Is_errBootstrapNotReady e'
  | _ => false
  end.

(** [apierrors.IsNotFound(err)], on the error a client call returned. *)
Fixpoint IsNotFound (e : error) : bool :=
  match e with
  | ErrLib nf _ => nf
  | Wrapf e' _ _ => IsNotFound e'
  | _ => false
  end.

(** A Go pair [(value, error)] of which exactly one half is meaningful. *)
Inductive result (A : Type) :=
| Ok (a : A)
| Err (e : error).
Arguments Ok {A} a.
Arguments Err {A} e.

#[export] Instance result_eq_dec `{EqDecision A} : EqDecision (result A).
Proof. solve_decision. Defined.

(** ** Strings

    [fmt.Sprintf] on the verbs the code uses with string arguments: [%s], and
    [%%] for a percent sign. A missing or an extra argument is reported in the
    output the way package fmt does for strings. *)
Section Strings.
Local Open Scope string_scope.

Fixpoint Sprintf (format : string) (args : list string) : string :=
  match format with
  | "" =>
      match args with
      | [] => ""
      | a :: rest =>
          "%!(EXTRA string=" +:+ a +:+
          foldr (fun b acc => ", string=" +:+ b +:+ acc) ")" rest
      end
  | String "%"%char (String "s"%char rest) =>
      match args with
      | [] => "%!s(MISSING)" +:+ Sprintf rest []
      | a :: args' => a +:+ Sprintf rest args'
      end
  | String "%"%char (String "%"%char rest) => String "%"%char (Sprintf rest args)
  | String c rest => String c (Sprintf rest args)
  end.

(** Text between a Go raw string's backquotes cannot hold a backquote; here a
    backquote stands for the double quote. *)
Fixpoint raw (s : string) : string :=
  match s with
  | "" => ""
  | String "`"%char rest => String (Ascii.ascii_of_nat 34) (raw rest)
  | String c rest => String c (raw rest)
  end.

Example Sprintf_ex : Sprintf "%s_%s: 100%%" ["org"; "dc"] = "org_dc: 100%".
Proof. reflexivity. Qed.

Lemma string_app_inj_l (s t1 t2 : string) : s +:+ t1 = s +:+ t2 -> t1 = t2.
Proof. induction s; simpl; [done|]. intros [=]. auto. Qed.

Lemma string_app_assoc (s t u : string) : (s +:+ t) +:+ u = s +:+ (t +:+ u).
Proof. induction s as [|c s IH]; [done|]. apply (f_equal (String c)), IH. Qed.

Lemma string_length_app (s t : string) :
  String.length (s +:+ t) = String.length s + String.length t.
Proof. induction s as [|c s IH]; [done|]. apply (f_equal S), IH. Qed.

Lemma string_app_nil_r (s : string) : s +:+ "" = s.
Proof. induction s as [|c s IH]; [done|]. apply (f_equal (String c)), IH. Qed.
End Strings.

(** ** 64-bit signed integers

    Go's [int] on the platforms the provider is built for: two's complement,
    every operation wraps. *)
Definition int_modulus : Z := (2 ^ 64)%Z.
Definition int_min : Z := (- 2 ^ 63)%Z.
Definition int_max : Z := (2 ^ 63 - 1)%Z.

Definition int_wrap (z : Z) : Z := ((z + 2 ^ 63) mod 2 ^ 64 - 2 ^ 63)%Z.
Definition int_add (x y : Z) : Z := int_wrap (x + y).
Definition int_mul (x y : Z) : Z := int_wrap (x * y).

Definition fits_int (z : Z) : Prop := (int_min <= z <= int_max)%Z.

Section IntLemmas.
Local Open Scope Z_scope.

Lemma int_wrap_range z : fits_int (int_wrap z).
Proof.
  unfold fits_int, int_wrap, int_min, int_max.
  pose proof (Z.mod_pos_bound (z + 2 ^ 63) (2 ^ 64)). lia.
Qed.

Lemma int_wrap_id z : fits_int z -> int_wrap z = z.
Proof.
  unfold fits_int, int_wrap, int_min, int_max. intros ?.
  rewrite Z.mod_small; lia.
Qed.

Lemma int_wrap_idemp z : int_wrap (int_wrap z) = int_wrap z.
Proof. apply int_wrap_id, int_wrap_range. Qed.

(** [int_wrap] is a canonical representative modulo [2^64]. *)
Lemma int_wrap_eq x y :
  int_wrap x = int_wrap y <-> exists k, x = y + k * 2 ^ 64.
Proof.
  unfold int_wrap. split.
  - intros H. exists ((x + 2 ^ 63) / 2 ^ 64 - (y + 2 ^ 63) / 2 ^ 64).
    pose proof (Z.div_mod (x + 2 ^ 63) (2 ^ 64)).
    pose proof (Z.div_mod (y + 2 ^ 63) (2 ^ 64)). lia.
  - intros [k ->].
    replace (y + k * 2 ^ 64 + 2 ^ 63) with (y + 2 ^ 63 + k * 2 ^ 64) by lia.
    rewrite Z.mod_add by lia. done.
Qed.

Lemma int_wrap_congr z : exists k, int_wrap z = z + k * 2 ^ 64.
Proof. apply int_wrap_eq. apply int_wrap_idemp. Qed.

Lemma int_wrap_add_l x y : int_wrap (int_wrap x + y) = int_wrap (x + y).
Proof.
  apply int_wrap_eq. destruct (int_wrap_congr x) as [k ->]. exists k. lia.
Qed.

Lemma int_wrap_add_r x y : int_wrap (x + int_wrap y) = int_wrap (x + y).
Proof. rewrite !(Z.add_comm x). apply int_wrap_add_l. Qed.

Lemma int_wrap_mul_l x y : int_wrap (int_wrap x * y) = int_wrap (x * y).
Proof.
  apply int_wrap_eq. destruct (int_wrap_congr x) as [k ->].
  exists (k * y). lia.
Qed.
End IntLemmas.

#[export] Hint Rewrite int_wrap_idemp int_wrap_add_l int_wrap_add_r
  int_wrap_mul_l : go_simpl.

(** ** Lists *)

Section ListLemmas.
Context {A : Type}.

Lemma existsb_Permutation (f : A -> bool) l1 l2 :
  l1 ≡ₚ l2 -> existsb f l1 = existsb f l2.
Proof.
  induction 1 as [|x l1 l2 _ IH|x y l|l1 l2 l3 _ IH1 _ IH2]; simpl; auto.
  - by rewrite IH.
  - by destruct (f x), (f y).
  - congruence.
Qed.

Lemma length_filter_Permutation (f : A -> bool) l1 l2 :
  l1 ≡ₚ l2 -> length (List.filter f l1) = length (List.filter f l2).
Proof.
  induction 1 as [|x l1 l2 _ IH|x y l|l1 l2 l3 _ IH1 _ IH2]; simpl; auto.
  - by destruct (f x); simpl; rewrite IH.
  - by destruct (f x), (f y).
  - congruence.
Qed.

Lemma existsb_true (f : A -> bool) l :
  existsb f l = true <-> exists x, x ∈ l /\ f x = true.
Proof. rewrite existsb_exists. setoid_rewrite list_elem_of_In. done. Qed.

Lemma existsb_false (f : A -> bool) l :
  existsb f l = false <-> forall x, x ∈ l -> f x = false.
Proof.
  split.
  - intros Hf x Hx. destruct (f x) eqn:Hfx; [|done].
    enough (existsb f l = true) by congruence.
    apply existsb_true. eauto.
  - intros H. destruct (existsb f l) eqn:Hf; [|done].
    apply existsb_true in Hf as (x & Hx & Hfx). apply H in Hx. congruence.
Qed.
End ListLemmas.

(** ** Tactics *)

(** Case analysis on the innermost [match] or [if] of the goal, remembering
    the equation. *)
Ltac go_case :=
  match goal with
  | |- context [match ?x with _ => _ end] =>
      lazymatch x with
      | context [match _ with _ => _ end] => fail
      | _ => destruct x eqn:?
      end
  end.

Ltac go_cases := repeat (go_case; simpl; simplify_eq; try done).
