(* ===== verification/Json.v ===== *)
(** Go's encoding/json, as the Vault client uses it: [json.Marshal] of maps of
    strings, and [Decoder.Decode] into a struct with one string field inside one
    struct field.

    A string is a sequence of bytes; text is UTF-8 where the library treats it as
    such. [parse_value] takes fuel; [parse_value_enough] shows that the length of
    the input is enough for it, so running out of fuel never is the reason of a
    failure. [parse_print] and [Decode_print] are the round trips. *)
From S2P Require Import Prelude.
From Stdlib Require Import ZArith Lia Ascii.
From stdpp Require Import base gmap strings list sorting.
Local Open Scope string_scope.
Local Open Scope char_scope.
Local Open Scope string_scope.

(** A JSON document; a number keeps its text, an object the order of its members. *)
#[warnings="-register-all"]
Inductive json :=
| JNull
| JBool (b : bool)
| JNum (text : string)
| JStr (s : string)
| JArr (l : list json)
| JObj (members : list (string * json)).

(** ** UTF-8 *)

Definition between (lo hi : N) (c : ascii) : bool :=
  ((lo <=? N_of_ascii c) && (N_of_ascii c <=? hi))%N.

Definition continuation : ascii -> bool := between 0x80 0xBF.

Definition is_ascii (c : ascii) : bool := between 0 0x7F c.

(** The well-formed sequences of two, three and four bytes: no overlong form, no
    surrogate, nothing beyond U+10FFFF. *)
Definition utf8_two (b0 b1 : ascii) : bool := between 0xC2 0xDF b0 && continuation b1.

Definition utf8_three (b0 b1 b2 : ascii) : bool :=
  (between 0xE0 0xE0 b0 && between 0xA0 0xBF b1 ||
   between 0xE1 0xEC b0 && continuation b1 ||
   between 0xED 0xED b0 && between 0x80 0x9F b1 ||
   between 0xEE 0xEF b0 && continuation b1) && continuation b2.

Definition utf8_four (b0 b1 b2 b3 : ascii) : bool :=
  (between 0xF0 0xF0 b0 && between 0x90 0xBF b1 ||
   between 0xF1 0xF3 b0 && continuation b1 ||
   between 0xF4 0xF4 b0 && between 0x80 0x8F b1) && continuation b2 && continuation b3.

Definition byte (n : N) : ascii := ascii_of_N n.

(** [utf8.EncodeRune]; a surrogate becomes U+FFFD. *)
Definition encode_rune (r : N) : string :=
  let cont (shift : N) := byte (0x80 + N.land (N.shiftr r shift) 0x3F) in
  if (r <? 0x80)%N then String (byte r) ""
  else if (r <? 0x800)%N then
    String (byte (0xC0 + N.shiftr r 6)) (String (cont 0%N) "")
  else if ((0xD800 <=? r) && (r <=? 0xDFFF))%N then
    String (byte 0xEF) (String (byte 0xBF) (String (byte 0xBD) ""))
  else if (r <? 0x10000)%N then
    String (byte (0xE0 + N.shiftr r 12)) (String (cont 6%N) (String (cont 0%N) ""))
  else
    String (byte (0xF0 + N.shiftr r 18))
      (String (cont 12%N) (String (cont 6%N) (String (cont 0%N) ""))).

Definition replacement : string := encode_rune 0xFFFD.

(** ** Printing *)

(** A lower-case hexadecimal digit. *)
Definition hex_digit (n : N) : ascii :=
  if (n <? 10)%N then byte (48 + n) else byte (87 + n).

Definition backslash : ascii := "\"%char.
Definition dquote : ascii := "034"%char.

(** One byte below 0x80 inside a string: the control characters, the quote, the
    backslash, and the three characters that are special in HTML are escaped. *)
Definition escape_ascii (c : ascii) : string :=
  match N_of_ascii c with
  | 34 | 92 => String backslash (String c "")
  | 8 => "\b"
  | 12 => "\f"
  | 10 => "\n"
  | 13 => "\r"
  | 9 => "\t"
  | n =>
      if ((n <? 32) || (n =? 60) || (n =? 62) || (n =? 38))%N
      then "\u00" +:+ String (hex_digit (N.shiftr n 4)) (String (hex_digit (N.land n 15)) "")
      else String c ""
  end%N.

(** U+2028 and U+2029, which JavaScript takes for line ends. *)
Definition escape_three (b0 b1 b2 : ascii) : string :=
  if bool_decide (b0 = "226"%char /\ b1 = "128"%char /\ b2 = "168"%char) then "\u2028"
  else if bool_decide (b0 = "226"%char /\ b1 = "128"%char /\ b2 = "169"%char) then "\u2029"
  else String b0 (String b1 (String b2 "")).

(** The text of a string between its quotes; a byte that begins no well-formed
    sequence is replaced. *)
Fixpoint escape (s : string) : string :=
  match s with
  | "" => ""
  | String b0 r0 =>
      if is_ascii b0 then escape_ascii b0 +:+ escape r0
      else
        match r0 with
        | "" => "\ufffd"
        | String b1 r1 =>
            if utf8_two b0 b1 then String b0 (String b1 (escape r1))
            else
              match r1 with
              | "" => "\ufffd" +:+ escape r0
              | String b2 r2 =>
                  if utf8_three b0 b1 b2 then escape_three b0 b1 b2 +:+ escape r2
                  else
                    match r2 with
                    | "" => "\ufffd" +:+ escape r0
                    | String b3 r3 =>
                        if utf8_four b0 b1 b2 b3
                        then String b0 (String b1 (String b2 (String b3 (escape r3))))
                        else "\ufffd" +:+ escape r0
                    end
              end
        end
  end.

Definition quote (s : string) : string :=
  String dquote (escape s +:+ String dquote "").

(** Values joined by commas. *)
Fixpoint commas (l : list string) : string :=
  match l with
  | [] => ""
  | [s] => s
  | s :: rest => s +:+ "," +:+ commas rest
  end.

Fixpoint print (v : json) : string :=
  match v with
  | JNull => "null"
  | JBool true => "true"
  | JBool false => "false"
  | JNum text => text
  | JStr s => quote s
  | JArr l => "[" +:+ commas (map print l) +:+ "]"
  | JObj ms => "{" +:+ commas (map (fun '(k, v) => quote k +:+ ":" +:+ print v) ms) +:+ "}"
  end.

(** The members of a Go map, which [json.Marshal] sorts by key. *)
Definition key_le (m1 m2 : string * json) : Prop := String.leb m1.1 m2.1 = true.
#[export] Instance key_le_dec m1 m2 : Decision (key_le m1 m2).
Proof. unfold key_le. apply _. Defined.

Definition sorted_members (ms : list (string * json)) : list (string * json) :=
  merge_sort key_le ms.

(** [json.Marshal] of a [map[string]string]. *)
Definition json_map (m : gmap string string) : json :=
  JObj (sorted_members (prod_map id JStr <$> map_to_list m)).

(** ** Parsing *)

Definition is_space (c : ascii) : bool :=
  match N_of_ascii c with 32 | 9 | 10 | 13 => true | _ => false end%N.

Fixpoint skip_space (s : string) : string :=
  match s with
  | String c rest => if is_space c then skip_space rest else s
  | "" => ""
  end.

Definition is_digit : ascii -> bool := between 48 57.

Definition hex_value (c : ascii) : option N :=
  let n := N_of_ascii c in
  if between 48 57 c then Some (n - 48)%N
  else if between 97 102 c then Some (n - 87)%N
  else if between 65 70 c then Some (n - 55)%N
  else None.

(** The four digits of a [\u] escape. *)
Definition hex4 (h1 h2 h3 h4 : ascii) : option N :=
  match hex_value h1, hex_value h2, hex_value h3, hex_value h4 with
  | Some a, Some b, Some c, Some d => Some (((a * 16 + b) * 16 + c) * 16 + d)%N
  | _, _, _, _ => None
  end.

(** [utf16.DecodeRune] of two halves that fit together. *)
Definition surrogates (r1 r2 : N) : option N :=
  if ((0xD800 <=? r1) && (r1 <? 0xDC00) && (0xDC00 <=? r2) && (r2 <? 0xE000))%N
  then Some (N.shiftl (r1 - 0xD800) 10 + (r2 - 0xDC00) + 0x10000)%N
  else None.

(** The character a one-letter escape stands for. *)
Definition simple_escape (c : ascii) : option ascii :=
  match N_of_ascii c with
  | 34 | 92 | 47 => Some c
  | 98 => Some (byte 8)
  | 102 => Some (byte 12)
  | 110 => Some (byte 10)
  | 114 => Some (byte 13)
  | 116 => Some (byte 9)
  | _ => None
  end%N.

(** The rest of a string after its opening quote: the text and what follows the
    closing quote. *)
Fixpoint parse_string (s : string) : option (string * string) :=
  let prepend text (res : option (string * string)) := prod_map (fun t => text +:+ t) id <$> res in
  match s with
  | "" => None
  | String b0 r0 =>
      if Ascii.eqb b0 dquote then Some ("", r0)
      else if Ascii.eqb b0 backslash then
        match r0 with
        | "" => None
        | String e r1 =>
            if Ascii.eqb e "u" then
              match r1 with
              | String h1 (String h2 (String h3 (String h4 r5))) =>
                  match hex4 h1 h2 h3 h4 with
                  | None => None
                  | Some rune =>
                      match r5 with
                      | String "\"%char (String "u"%char
                          (String g1 (String g2 (String g3 (String g4 r11))))) =>
                          match hex4 g1 g2 g3 g4 ≫= surrogates rune with
                          | Some full => prepend (encode_rune full) (parse_string r11)
                          | None => prepend (encode_rune rune) (parse_string r5)
                          end
                      | _ => prepend (encode_rune rune) (parse_string r5)
                      end
                  end
              | _ => None
              end
            else
              match simple_escape e with
              | Some c => prepend (String c "") (parse_string r1)
              | None => None
              end
        end
      else if (N_of_ascii b0 <? 32)%N then None
      else if is_ascii b0 then prepend (String b0 "") (parse_string r0)
      else
        match r0 with
        | "" => None
        | String b1 r1 =>
            if utf8_two b0 b1
            then prepend (String b0 (String b1 "")) (parse_string r1)
            else
              match r1 with
              | "" => prepend replacement (parse_string r0)
              | String b2 r2 =>
                  if utf8_three b0 b1 b2
                  then prepend (String b0 (String b1 (String b2 ""))) (parse_string r2)
                  else
                    match r2 with
                    | "" => prepend replacement (parse_string r0)
                    | String b3 r3 =>
                        if utf8_four b0 b1 b2 b3
                        then prepend (String b0 (String b1 (String b2 (String b3 ""))))
                               (parse_string r3)
                        else prepend replacement (parse_string r0)
                    end
              end
        end
  end.

(** Numbers: the grammar of RFC 8259. The text of the digits at the head. *)
Fixpoint digits (s : string) : string * string :=
  match s with
  | String c rest =>
      if is_digit c then prod_map (String c) id (digits rest) else ("", s)
  | "" => ("", "")
  end.

(** At least one digit. *)
Definition digits1 (s : string) : option (string * string) :=
  match digits s with
  | ("", _) => None
  | res => Some res
  end.

Definition parse_int (s : string) : option (string * string) :=
  match s with
  | String "0"%char rest => Some ("0", rest)
  | _ => digits1 s
  end.

Definition parse_frac (s : string) : option (string * string) :=
  match s with
  | String "."%char rest => prod_map (String "."%char) id <$> digits1 rest
  | _ => Some ("", s)
  end.

Definition parse_exp (s : string) : option (string * string) :=
  match s with
  | String e rest =>
      if Ascii.eqb e "e" || Ascii.eqb e "E" then
        match rest with
        | String sign rest' =>
            if Ascii.eqb sign "+" || Ascii.eqb sign "-"
            then prod_map (fun t => String e (String sign t)) id <$> digits1 rest'
            else prod_map (String e) id <$> digits1 rest
        | "" => None
        end
      else Some ("", s)
  | "" => Some ("", s)
  end.

Definition parse_sign (s : string) : string * string :=
  match s with
  | String c rest => if Ascii.eqb c "-" then ("-", rest) else ("", s)
  | "" => ("", "")
  end.

Definition parse_number (s : string) : option (string * string) :=
  let (sign, s0) := parse_sign s in
  '(int, s1) ← parse_int s0;
  '(frac, s2) ← parse_frac s1;
  '(exp, s3) ← parse_exp s2;
  Some (sign +:+ int +:+ frac +:+ exp, s3).

(** The literal at the head of a string. *)
Fixpoint strip_literal (literal s : string) : option string :=
  match literal, s with
  | "", _ => Some s
  | String c l, String d rest => if Ascii.eqb c d then strip_literal l rest else None
  | _, "" => None
  end.

Definition maxNestingDepth : N := 10000.

(** The next character that is no space, when it is [c]: what follows it. *)
Definition accept (c : ascii) (s : string) : option string :=
  match skip_space s with
  | String d rest => if Ascii.eqb d c then Some rest else None
  | "" => None
  end.

(** The value at the head of a string, and what follows it. [depth] counts the
    open arrays and objects. *)
Fixpoint parse_value (fuel : nat) (depth : N) (s : string) : option (json * string) :=
  match fuel with
  | O => None
  | S n =>
      match skip_space s with
      | "" => None
      | String c rest =>
          if Ascii.eqb c dquote then prod_map JStr id <$> parse_string rest
          else if Ascii.eqb c "{" then
            if (maxNestingDepth <=? depth)%N then None
            else
              match accept "}" rest with
              | Some rest' => Some (JObj [], rest')
              | None => prod_map JObj id <$> parse_members n (depth + 1) rest
              end
          else if Ascii.eqb c "[" then
            if (maxNestingDepth <=? depth)%N then None
            else
              match accept "]" rest with
              | Some rest' => Some (JArr [], rest')
              | None => prod_map JArr id <$> parse_elements n (depth + 1) rest
              end
          else if Ascii.eqb c "n" then pair JNull <$> strip_literal "null" (String c rest)
          else if Ascii.eqb c "t" then pair (JBool true) <$> strip_literal "true" (String c rest)
          else if Ascii.eqb c "f" then pair (JBool false) <$> strip_literal "false" (String c rest)
          else prod_map JNum id <$> parse_number (String c rest)
      end
  end
with parse_members (fuel : nat) (depth : N) (s : string) : option (list (string * json) * string) :=
  match fuel with
  | O => None
  | S n =>
      s0 ← accept dquote s;
      '(key, s1) ← parse_string s0;
      s2 ← accept ":" s1;
      '(v, s3) ← parse_value n depth s2;
      match accept "," s3 with
      | Some s4 => '(ms, s5) ← parse_members n depth s4; Some ((key, v) :: ms, s5)
      | None => s4 ← accept "}" s3; Some ([(key, v)], s4)
      end
  end
with parse_elements (fuel : nat) (depth : N) (s : string) : option (list json * string) :=
  match fuel with
  | O => None
  | S n =>
      '(v, s1) ← parse_value n depth s;
      match accept "," s1 with
      | Some s2 => '(l, s3) ← parse_elements n depth s2; Some (v :: l, s3)
      | None => s2 ← accept "]" s1; Some ([v], s2)
      end
  end.

(** Fuel for an input: two per byte, one per call. *)
Definition enough (s : string) : nat := S (S (2 * String.length s)).

(** [Decoder.Decode] reads the first value of its input; what follows is left. *)
Definition parse (s : string) : option json :=
  fst <$> parse_value (enough s) 0 s.

(** ** Decoding into a struct *)

(** A key folded the way the decoder matches field names: letters to upper case,
    U+212A to K and U+017F to S. *)
Fixpoint fold_name (s : string) : string :=
  match s with
  | String "226"%char (String "132"%char (String "170"%char rest)) => String "K"%char (fold_name rest)
  | String "197"%char (String "191"%char rest) => String "S"%char (fold_name rest)
  | String c rest =>
      String (if between 97 122 c then byte (N_of_ascii c - 32) else c) (fold_name rest)
  | "" => ""
  end.

Definition same_field (field key : string) : bool :=
  bool_decide (fold_name field = fold_name key).

(** The members of an object decoded into a struct whose only field is a string:
    the field, and whether some member had the wrong type. [null] changes
    nothing, the last member of the name counts, other members are ignored. *)
Definition decode_inner (field : string) (st : string * bool) (ms : list (string * json))
    : string * bool :=
  foldl (fun '(text, bad) '(key, v) =>
    if same_field field key then
      match v with
      | JNull => (text, bad)
      | JStr s => (s, bad)
      | _ => (text, true)
      end
    else (text, bad)) st ms.

(** The same one level up, for a struct whose only field is such a struct. *)
Definition decode_outer (outer field : string) (ms : list (string * json)) : string * bool :=
  foldl (fun '(text, bad) '(key, v) =>
    if same_field outer key then
      match v with
      | JNull => (text, bad)
      | JObj ms' => decode_inner field (text, bad) ms'
      | _ => (text, true)
      end
    else (text, bad)) ("", false) ms.

(** [Decode] of the text into such a struct: the inner field, or an error when
    the text is no JSON value or a member has the wrong type. *)
Definition Decode (outer field : string) (text : string) : option string :=
  match parse text with
  | None => None
  | Some JNull => Some ""
  | Some (JObj ms) =>
      match decode_outer outer field ms with
      | (value, false) => Some value
      | (_, true) => None
      end
  | Some _ => None
  end.

(** ** The fuel is enough *)

Section Fuel.

Lemma skip_space_length s : String.length (skip_space s) <= String.length s.
Proof. induction s as [|c s IH]; simpl; [done|]. destruct (is_space c); simpl; lia. Qed.

(** [H : prod_map f id <$> m = Some (t, r)]: what [m] was. *)
Ltac mapped H :=
  let E := fresh in
  apply fmap_Some in H as ([? ?] & H & E); cbn in E; injection E as -> ->.

(** What a parser leaves is shorter than what it was given. *)
Lemma parse_string_length s t r : parse_string s = Some (t, r) -> String.length r < String.length s.
Proof.
  remember (String.length s) as n eqn:Hn. revert s t r Hn.
  induction n as [n IH] using lt_wf_ind; intros s t r -> H.
  assert (IHs : forall s' t' r', parse_string s' = Some (t', r') ->
    String.length s' < String.length s -> String.length r' < String.length s).
  { intros s' t' r' H' Hlt. pose proof (IH _ Hlt _ _ _ eq_refl H'). lia. }
  destruct s as [|b0 r0]; [done|]. cbn [parse_string] in H.
  repeat match type of H with context [match ?x with _ => _ end] =>
    lazymatch x with context [match _ with _ => _ end] => fail | _ => destruct x; try discriminate H end
  end.
  all: try (injection H as <- <-; simpl; lia).
  all: mapped H; eapply IHs; [exact H|simpl; lia].
Qed.

Lemma digits_length s : String.length (digits s).2 <= String.length s.
Proof. induction s as [|c s IH]; simpl; [done|]. destruct (is_digit c); simpl in *; lia. Qed.

Lemma digits1_length s t r : digits1 s = Some (t, r) -> String.length r < String.length s.
Proof.
  unfold digits1. destruct s as [|c s]; simpl; [done|]. destruct (is_digit c); [|done].
  pose proof (digits_length s). destruct (digits s) as [u v]. simpl in *.
  intros [= <- <-]. lia.
Qed.

Lemma parse_int_length s t r : parse_int s = Some (t, r) -> String.length r < String.length s.
Proof.
  unfold parse_int. intros H.
  repeat match type of H with context [match ?x with _ => _ end] => destruct x end;
    first [by apply digits1_length in H|injection H as <- <-; simpl; lia].
Qed.

Lemma parse_frac_length s t r : parse_frac s = Some (t, r) -> String.length r <= String.length s.
Proof.
  unfold parse_frac. intros H.
  repeat match type of H with context [match ?x with _ => _ end] => destruct x end;
    first [injection H as <- <-; simpl; lia
          |mapped H; apply digits1_length in H; simpl; lia].
Qed.

Lemma parse_exp_length s t r : parse_exp s = Some (t, r) -> String.length r <= String.length s.
Proof.
  unfold parse_exp. intros H.
  repeat match type of H with context [match ?x with _ => _ end] => destruct x; try discriminate H end;
    first [injection H as <- <-; simpl; lia
          |mapped H; apply digits1_length in H; simpl in *; lia].
Qed.

Lemma parse_number_length s t r : parse_number s = Some (t, r) -> String.length r < String.length s.
Proof.
  unfold parse_number. intros H.
  assert (String.length (parse_sign s).2 <= String.length s) as Hp.
  { destruct s as [|c s]; simpl; [done|]. destruct (Ascii.eqb c "-"); simpl; lia. }
  destruct (parse_sign s) as [sign s0]. simpl in Hp.
  apply bind_Some in H as ([int s1] & H1 & H). apply bind_Some in H as ([frac s2] & H2 & H).
  apply bind_Some in H as ([exp s3] & H3 & H). injection H as <- <-.
  apply parse_int_length in H1. apply parse_frac_length in H2. apply parse_exp_length in H3. lia.
Qed.

Lemma strip_literal_length l s r :
  strip_literal l s = Some r -> String.length r + String.length l = String.length s.
Proof.
  revert s. induction l as [|c l IH]; intros s; simpl.
  - intros [= ->]. destruct r; simpl; lia.
  - destruct s as [|d s]; [done|]. destruct (Ascii.eqb c d); [|done].
    intros H%IH. simpl. lia.
Qed.

Lemma accept_length c s r : accept c s = Some r -> String.length r < String.length s.
Proof.
  unfold accept. pose proof (skip_space_length s). destruct (skip_space s) as [|d rest]; [done|].
  simpl in *. destruct (Ascii.eqb d c); [|done]. intros [= <-]. lia.
Qed.

Ltac bound H x := apply bind_Some in H as (x & ? & H).

#[local] Arguments strip_literal : simpl never.
#[local] Arguments parse_number : simpl never.

(** Every parser consumes its input. *)
Lemma parse_progress fuel :
  (forall d s v r, parse_value fuel d s = Some (v, r) -> String.length r < String.length s) /\
  (forall d s ms r, parse_members fuel d s = Some (ms, r) -> String.length r < String.length s) /\
  (forall d s l r, parse_elements fuel d s = Some (l, r) -> String.length r < String.length s).
Proof.
  induction fuel as [|n (IHv & IHm & IHe)]; [done|]. split_and!; intros d s v r H; simpl in H.
  - pose proof (skip_space_length s). destruct (skip_space s) as [|c rest] eqn:E; [done|].
    simpl in *.
    repeat match type of H with (if ?b then _ else _) = _ => destruct b; [try discriminate H|try discriminate H] end.
    all: try (destruct (accept _ rest) as [rest'|] eqn:Ha;
      [injection H as <- <-; apply accept_length in Ha; lia|]).
    all: mapped H || (apply fmap_Some in H as (? & H & [= -> ->])).
    + apply parse_string_length in H. lia.
    + apply IHm in H. lia.
    + apply IHe in H. lia.
    + apply (strip_literal_length "null") in H. simpl in H. lia.
    + apply (strip_literal_length "true") in H. simpl in H. lia.
    + apply (strip_literal_length "false") in H. simpl in H. lia.
    + apply parse_number_length in H. simpl in H. lia.
  - apply bind_Some in H as (s0 & H0 & H). apply bind_Some in H as ([key s1] & H1 & H).
    apply bind_Some in H as (s2 & H2 & H). apply bind_Some in H as ([v1 s3] & H3 & H).
    apply accept_length in H0. apply parse_string_length in H1. apply accept_length in H2.
    apply IHv in H3. destruct (accept "," s3) as [s4|] eqn:H4.
    + apply accept_length in H4. apply bind_Some in H as ([ms s5] & H5 & [= <- <-]).
      apply IHm in H5. lia.
    + apply bind_Some in H as (s4 & H5 & [= <- <-]). apply accept_length in H5. lia.
  - apply bind_Some in H as ([v1 s1] & H1 & H). apply IHv in H1.
    destruct (accept "," s1) as [s2|] eqn:H2.
    + apply accept_length in H2. apply bind_Some in H as ([l s3] & H3 & [= <- <-]).
      apply IHe in H3. lia.
    + apply bind_Some in H as (s2 & H3 & [= <- <-]). apply accept_length in H3. lia.
Qed.

(** The three parsers with one unit of fuel unfolded. *)
Lemma parse_value_S n d s :
  parse_value (S n) d s =
  match skip_space s with
  | "" => None
  | String c rest =>
      if Ascii.eqb c dquote then prod_map JStr id <$> parse_string rest
      else if Ascii.eqb c "{" then
        if (maxNestingDepth <=? d)%N then None
        else
          match accept "}" rest with
          | Some rest' => Some (JObj [], rest')
          | None => prod_map JObj id <$> parse_members n (d + 1) rest
          end
      else if Ascii.eqb c "[" then
        if (maxNestingDepth <=? d)%N then None
        else
          match accept "]" rest with
          | Some rest' => Some (JArr [], rest')
          | None => prod_map JArr id <$> parse_elements n (d + 1) rest
          end
      else if Ascii.eqb c "n" then pair JNull <$> strip_literal "null" (String c rest)
      else if Ascii.eqb c "t" then pair (JBool true) <$> strip_literal "true" (String c rest)
      else if Ascii.eqb c "f" then pair (JBool false) <$> strip_literal "false" (String c rest)
      else prod_map JNum id <$> parse_number (String c rest)
  end.
Proof. reflexivity. Qed.

Lemma parse_members_S n d s :
  parse_members (S n) d s =
  (s0 ← accept dquote s;
   '(key, s1) ← parse_string s0;
   s2 ← accept ":" s1;
   '(v, s3) ← parse_value n d s2;
   match accept "," s3 with
   | Some s4 => '(ms, s5) ← parse_members n d s4; Some ((key, v) :: ms, s5)
   | None => s4 ← accept "}" s3; Some ([(key, v)], s4)
   end).
Proof. reflexivity. Qed.

Lemma parse_elements_S n d s :
  parse_elements (S n) d s =
  ('(v, s1) ← parse_value n d s;
   match accept "," s1 with
   | Some s2 => '(l, s3) ← parse_elements n d s2; Some (v :: l, s3)
   | None => s2 ← accept "]" s1; Some ([v], s2)
   end).
Proof. reflexivity. Qed.

(** One more unit of fuel than enough changes nothing. *)
Lemma fuel_step fuel :
  (forall d s, 2 * String.length s + 2 <= fuel ->
     parse_value (S fuel) d s = parse_value fuel d s) /\
  (forall d s, 2 * String.length s + 1 <= fuel ->
     parse_members (S fuel) d s = parse_members fuel d s) /\
  (forall d s, 2 * String.length s + 3 <= fuel ->
     parse_elements (S fuel) d s = parse_elements fuel d s).
Proof.
  induction fuel as [|n (IHv & IHm & IHe)]; [split_and!; intros; lia|].
  pose proof (parse_progress n) as (Pv & _ & _).
  split_and!; intros d s Hs.
  - pose proof (skip_space_length s). rewrite !parse_value_S.
    destruct (skip_space s) as [|c rest] eqn:E; [done|]. simpl in H.
    rewrite IHm, IHe by lia. done.
  - rewrite !parse_members_S. destruct (accept dquote s) as [s0|] eqn:H0; [|done]. cbn [mbind option_bind].
    destruct (parse_string s0) as [[key s1]|] eqn:H1; [|done]. cbn [mbind option_bind].
    destruct (accept ":" s1) as [s2|] eqn:H2; [|done]. cbn [mbind option_bind].
    apply accept_length in H0, H2. apply parse_string_length in H1.
    rewrite IHv by lia. destruct (parse_value n d s2) as [[v s3]|] eqn:H3; [|done].
    cbn [mbind option_bind]. apply Pv in H3.
    destruct (accept "," s3) as [s4|] eqn:H4; [|done]. apply accept_length in H4.
    by rewrite IHm by lia.
  - rewrite !parse_elements_S, IHv by lia.
    destruct (parse_value n d s) as [[v s1]|] eqn:H1; [|done]. cbn [mbind option_bind].
    apply Pv in H1. destruct (accept "," s1) as [s2|] eqn:H2; [|done]. apply accept_length in H2.
    by rewrite IHe by lia.
Qed.

(** So no input fails for lack of fuel. *)
Lemma parse_value_enough fuel d s :
  enough s <= fuel -> parse_value fuel d s = parse_value (enough s) d s.
Proof.
  intros Hle. induction Hle as [|fuel Hle IH]; [done|]. rewrite <- IH.
  apply (fuel_step fuel). unfold enough in Hle. lia.
Qed.
End Fuel.

(** ** What is printed parses back *)

Section RoundTrip.

(** Strings the printer writes without replacing anything. *)
Fixpoint utf8_valid (s : string) : bool :=
  match s with
  | "" => true
  | String b0 r0 =>
      if is_ascii b0 then utf8_valid r0
      else
        match r0 with
        | "" => false
        | String b1 r1 =>
            if utf8_two b0 b1 then utf8_valid r1
            else
              match r1 with
              | "" => false
              | String b2 r2 =>
                  if utf8_three b0 b1 b2 then utf8_valid r2
                  else
                    match r2 with
                    | "" => false
                    | String b3 r3 => utf8_four b0 b1 b2 b3 && utf8_valid r3
                    end
              end
        end
  end.

(** The values the client prints: strings, and objects of them nested at most
    [h] deep. *)
Fixpoint plain (h : nat) (v : json) : bool :=
  match v with
  | JStr s => utf8_valid s
  | JObj ms =>
      match h with
      | O => false
      | S h' => forallb (fun '(k, v) => utf8_valid k && plain h' v) ms
      end
  | _ => false
  end.

Definition prepend (text : string) (res : option (string * string)) : option (string * string) :=
  prod_map (fun t => text +:+ t) id <$> res.

(** A [\u] escape that is not the first half of a pair. *)
Lemma parse_u h1 h2 h3 h4 n x :
  hex4 h1 h2 h3 h4 = Some n -> (n < 0xD800)%N ->
  parse_string (String backslash (String "u" (String h1 (String h2 (String h3 (String h4 x)))))) =
  prepend (encode_rune n) (parse_string x).
Proof.
  intros Hhex Hn.
  assert (forall m, surrogates n m = None) as Hs.
  { intros m. unfold surrogates. destruct (_ <=? n)%N eqn:E; [|done].
    apply N.leb_le in E. lia. }
  cbn -[hex4 encode_rune surrogates]. rewrite Hhex.
  repeat match goal with
    |- context [match ?y with _ => _ end] => is_var y; destruct y; try reflexivity
  end.
  clear Hhex. destruct (hex4 _ _ _ _) as [m|]; [|done].
  change (Some m ≫= surrogates n) with (surrogates n m). by rewrite Hs.
Qed.

(** One escaped byte. *)
Lemma parse_escape_ascii c x :
  is_ascii c = true ->
  parse_string (escape_ascii c +:+ x) = prepend (String c "") (parse_string x).
Proof.
  destruct c as [[][][][][][][][]]; intros Hc; try discriminate Hc; clear Hc.
  all: try reflexivity.
  all: etransitivity; [apply parse_u; [vm_compute; reflexivity|reflexivity]|reflexivity].
Qed.

Lemma not_ascii c :
  is_ascii c = false ->
  Ascii.eqb c dquote = false /\ Ascii.eqb c backslash = false /\ (N_of_ascii c <? 32)%N = false.
Proof.
  intros H. split_and!; [by apply Ascii.eqb_neq; intros ->..|].
  unfold is_ascii, between in H. apply N.ltb_ge.
  apply andb_false_iff in H as [H%N.leb_gt|H%N.leb_gt]; lia.
Qed.

Lemma string_strong_ind (P : string -> Prop) :
  (forall s, (forall t, String.length t < String.length s -> P t) -> P s) -> forall s, P s.
Proof.
  intros HP s. remember (String.length s) as n eqn:Hn. revert s Hn.
  induction n as [n IH] using lt_wf_ind. intros s ->. apply HP. intros t Ht. by apply (IH _ Ht).
Qed.

Lemma parse_escape_three b0 b1 b2 x :
  is_ascii b0 = false -> utf8_two b0 b1 = false -> utf8_three b0 b1 b2 = true ->
  parse_string (escape_three b0 b1 b2 +:+ x) =
  prepend (String b0 (String b1 (String b2 ""))) (parse_string x).
Proof.
  intros H0 H2 H3. destruct (not_ascii _ H0) as (Hq & Hb & Hc). unfold escape_three.
  repeat case_bool_decide; destruct_and?; subst.
  1-2: etransitivity; [apply parse_u; [vm_compute; reflexivity|reflexivity]|reflexivity].
  simpl. by rewrite Hq, Hb, Hc, H0, H2, H3.
Qed.

Lemma parse_escape s rest :
  utf8_valid s = true -> parse_string (escape s +:+ String dquote rest) = Some (s, rest).
Proof.
  induction s as [s IH] using string_strong_ind. destruct s as [|b0 r0]; [done|].
  cbn [utf8_valid escape]. destruct (is_ascii b0) eqn:H0.
  { intros Hr. rewrite string_app_assoc, parse_escape_ascii by done.
    rewrite IH by (simpl; auto with lia). done. }
  destruct (not_ascii _ H0) as (Hq & Hb & Hc).
  destruct r0 as [|b1 r1]; [done|]. destruct (utf8_two b0 b1) eqn:H2.
  { intros Hr. simpl. rewrite Hq, Hb, Hc, H0, H2.
    rewrite IH by (simpl; auto with lia). done. }
  destruct r1 as [|b2 r2]; [done|]. destruct (utf8_three b0 b1 b2) eqn:H3.
  { intros Hr. rewrite string_app_assoc, parse_escape_three by done.
    rewrite IH by (simpl; auto with lia). done. }
  destruct r2 as [|b3 r3]; [done|]. destruct (utf8_four b0 b1 b2 b3) eqn:H4; [|done].
  intros Hr. simpl. rewrite Hq, Hb, Hc, H0, H2, H3, H4.
  rewrite IH by (simpl; auto with lia). done.
Qed.

Lemma quote_app s rest : quote s +:+ rest = String dquote (escape s +:+ String dquote rest).
Proof. unfold quote. exact (f_equal (String dquote) (string_app_assoc _ _ _)). Qed.

Lemma parse_value_quote n d s rest :
  utf8_valid s = true -> parse_value (S n) d (quote s +:+ rest) = Some (JStr s, rest).
Proof.
  intros Hs. rewrite quote_app.
  change (parse_value (S n) d (String dquote ?t)) with (prod_map JStr id <$> parse_string t).
  by rewrite parse_escape.
Qed.

Definition print_member (m : string * json) : string := quote m.1 +:+ ":" +:+ print m.2.

Lemma print_obj ms : print (JObj ms) = "{" +:+ commas (map print_member ms) +:+ "}".
Proof. cbn [print]. do 3 f_equal. apply map_ext. by intros [k v]. Qed.

(** The members, once every value parses back. *)
Lemma parse_members_print d (ok : json -> bool) :
  (forall v fuel rest, ok v = true -> 2 * String.length (print v) + 2 <= fuel ->
     parse_value fuel d (print v +:+ rest) = Some (v, rest)) ->
  forall ms fuel rest, ms <> [] ->
  forallb (fun '(k, v) => utf8_valid k && ok v) ms = true ->
  2 * String.length (commas (map print_member ms)) + 1 <= fuel ->
  parse_members fuel d (commas (map print_member ms) +:+ String "}" rest) = Some (ms, rest).
Proof.
  intros Hv. induction ms as [|[k v] ms IH]; intros fuel rest Hne Hok Hfuel; [done|].
  cbn [forallb] in Hok. apply andb_true_iff in Hok as [[Hk Hokv]%andb_true_iff Hok].
  destruct fuel as [|n]; [lia|]. rewrite parse_members_S.
  assert (forall tail, accept dquote ((print_member (k, v) +:+ tail)) =
    Some (escape k +:+ String dquote (String ":" (print v +:+ tail)))) as Hhead.
  { intros tail. unfold print_member. cbn [fst snd].
    by rewrite string_app_assoc, quote_app, string_app_assoc. }
  assert (String.length (print v) + 3 <= String.length (print_member (k, v))) as Hlen.
  { unfold print_member, quote. cbn [fst snd]. rewrite !string_length_app.
    cbn [String.length]. rewrite !string_length_app. cbn [String.length]. lia. }
  destruct ms as [|m ms].
  - cbn [map commas] in *. rewrite Hhead. cbn [mbind option_bind].
    rewrite parse_escape by done. cbn [mbind option_bind].
    change (accept ":" (String ":" ?t)) with (Some t). cbn [mbind option_bind].
    rewrite Hv by (done || lia). done.
  - change (commas (map print_member ((k, v) :: m :: ms))) with
      (print_member (k, v) +:+ "," +:+ commas (map print_member (m :: ms))) in *.
    rewrite !string_length_app in Hfuel. change (String.length ",") with 1 in Hfuel.
    rewrite !string_app_assoc, Hhead. cbn [mbind option_bind].
    rewrite parse_escape by done. cbn [mbind option_bind].
    change (accept ":" (String ":" ?t)) with (Some t). cbn [mbind option_bind].
    rewrite Hv by (done || lia). cbn [mbind option_bind].
    change (accept "," ("," +:+ ?t)) with (Some t).
    cbv beta iota. rewrite IH by (done || lia). done.
Qed.

Lemma parse_value_print h : forall v d fuel rest,
  plain h v = true -> (d + N.of_nat h <= maxNestingDepth)%N ->
  2 * String.length (print v) + 2 <= fuel ->
  parse_value fuel d (print v +:+ rest) = Some (v, rest).
Proof.
  induction h as [|h IH]; intros v d fuel rest Hp Hd Hf; (destruct fuel as [|n]; [lia|]);
    destruct v as [| | |s| |ms]; try discriminate Hp;
    try exact (parse_value_quote _ _ _ _ Hp).
  cbn [plain] in Hp. rewrite print_obj in Hf |- *. rewrite !string_length_app in Hf.
  change (("{" +:+ ?x +:+ "}") +:+ ?y) with (String "{" ((x +:+ "}") +:+ y)).
  rewrite string_app_assoc. change ("}" +:+ rest) with (String "}" rest).
  rewrite parse_value_S. change (skip_space (String "{" ?t)) with (String "{" t). cbv iota.
  change (Ascii.eqb "{" dquote) with false. change (Ascii.eqb "{" "{") with true. cbv iota.
  destruct (maxNestingDepth <=? d)%N eqn:E; [apply N.leb_le in E; lia|].
  destruct ms as [|m ms]; [done|].
  assert (accept "}" (commas (map print_member (m :: ms)) +:+ String "}" rest) = None) as ->.
  { destruct ms; cbn [map commas]; unfold print_member; rewrite ?string_app_assoc, quote_app; done. }
  rewrite (parse_members_print (d + 1) (plain h)); [done| |done|done|].
  - intros v fuel rest' Hv Hf'. apply IH; [done|lia|done].
  - change (String.length "{") with 1 in Hf. change (String.length "}") with 1 in Hf. lia.
Qed.

Lemma parse_print h v :
  plain h v = true -> (N.of_nat h <= maxNestingDepth)%N -> parse (print v) = Some v.
Proof.
  intros Hp Hh. unfold parse.
  rewrite <- (string_app_nil_r (print v)) at 2.
  by rewrite (parse_value_print h) by (done || unfold enough; lia).
Qed.
End RoundTrip.

(** A body made of one string field inside one struct field decodes to it. *)
Lemma Decode_print outer field value :
  utf8_valid outer = true -> utf8_valid field = true -> utf8_valid value = true ->
  Decode outer field (print (JObj [(outer, JObj [(field, JStr value)])])) = Some value.
Proof.
  intros Ho Hf Hv. unfold Decode. rewrite (parse_print 2); [|simpl; by rewrite Ho, Hf, Hv|done].
  unfold decode_outer, decode_inner, same_field. simpl. by rewrite !bool_decide_eq_true_2 by done.
Qed.
