(* ===== verification/Prog.v ===== *)
(** Interaction programs: the semantic domain of the controllers.

    A Go function that calls out (Kubernetes API, Waldur API, Vault, HTTP) is a
    [prog]: a finite tree whose nodes are the calls it makes and whose branches
    are the answers it may get. The answers are chosen by an environment about
    which nothing is assumed, except [allowed] where the language fixes what an
    answer can be (the order in which a map is ranged over). A nil dereference
    or an index out of range ends the program with [Panic].

    - [execs]: the executions of a program as traces of call/answer pairs;
    - [run]: the execution against one concrete environment (computable);
    - [wp]: weakest precondition over traces, sound and complete for [execs];
    - [only], [at_most]: which calls a program can make, and how often;
    - [prog_equiv]: equality of programs up to pointwise continuations. *)
From S2P Require Import Prelude.
From Stdlib Require Import Lia Setoid Morphisms.
From stdpp Require Import base gmap strings list.

(** ** Signatures and programs *)

Record sig := Sig {
  call : Type;
  resp : call -> Type;
  allowed : forall c, resp c -> Prop;
}.
Arguments resp {s} _.
Arguments allowed {s} _ _.

Inductive outcome (A : Type) :=
| Done (a : A)
| Panicked.
Arguments Done {A} a.
Arguments Panicked {A}.

Record event (S : sig) := Ev { ev_call : call S; ev_resp : resp ev_call }.
Arguments Ev {S} _ _.
Arguments ev_call {S} _.
Arguments ev_resp {S} _.

Inductive prog (S : sig) (A : Type) :=
| Ret (a : A)
| Panic
| Vis (c : call S) (k : resp c -> prog S A).
Arguments Ret {S A} a.
Arguments Panic {S A}.
Arguments Vis {S A} c k.

Fixpoint bind {S A B} (m : prog S A) (f : A -> prog S B) : prog S B :=
  match m with
  | Ret a => f a
  | Panic => Panic
  | Vis c k => Vis c (fun r => bind (k r) f)
  end.

(** One call, its answer returned. *)
Definition perform {S : sig} (c : call S) : prog S (resp c) := Vis c Ret.

(** Dereference of a pointer: nil panics. *)
Definition deref {S A} (p : option A) : prog S A :=
  match p with Some a => Ret a | None => Panic end.

Notation "'let*' x ':=' m 'in' k" := (bind m (fun x => k))
  (at level 10, x pattern, m at level 100, k at level 200,
   format "'[v' 'let*'  x  ':='  m  'in' '/' k ']'") : go_scope.

(** [let? x := m else e => h in k]: Go's [x, err := m; if err != nil { h }; k]. *)
Notation "'let?' x ':=' m 'else' e '=>' h 'in' k" :=
  (bind m (fun r => match r with Ok x => k | Err e => h end))
  (at level 10, x pattern, e name, m at level 100, h at level 100, k at level 200,
   format "'[v' 'let?'  x  ':='  m  'else'  e  '=>'  h  'in' '/' k ']'") : go_scope.

(** A loop over a slice threading the loop's state; [for_each] never stops early. *)
Fixpoint for_each {S A W} (body : W -> A -> prog S W) (w : W) (l : list A) : prog S W :=
  match l with
  | [] => Ret w
  | a :: l => bind (body w a) (fun w' => for_each body w' l)
  end.

(** A loop whose body may [return] an error from the enclosing function. *)
Fixpoint for_each_err {S A W} (body : W -> A -> prog S (result W)) (w : W) (l : list A)
    : prog S (result W) :=
  match l with
  | [] => Ret (Ok w)
  | a :: l =>
      bind (body w a) (fun r =>
        match r with Ok w' => for_each_err body w' l | Err e => Ret (Err e) end)
  end.

(** ** Executions *)

Inductive execs {S A} : prog S A -> list (event S) -> outcome A -> Prop :=
| execs_ret a : execs (Ret a) [] (Done a)
| execs_panic : execs Panic [] Panicked
| execs_vis c k r tr o :
    allowed c r ->
    execs (k r) tr o ->
    execs (Vis c k) (Ev c r :: tr) o.
#[export] Hint Constructors execs : core.

(** A concrete environment with a state of its own. *)
Definition environment (S : sig) (W : Type) := forall c : call S, W -> resp c * W.

Fixpoint run {S A W} (env : environment S W) (w : W) (p : prog S A)
    : list (event S) * outcome A * W :=
  match p with
  | Ret a => ([], Done a, w)
  | Panic => ([], Panicked, w)
  | Vis c k =>
      let '(r, w') := env c w in
      let '(tr, o, w'') := run env w' (k r) in
      (Ev c r :: tr, o, w'')
  end.

Definition env_allowed {S W} (env : environment S W) : Prop :=
  forall c w, allowed c (env c w).1.

Definition run_trace {S A W} (env : environment S W) w (p : prog S A) := (run env w p).1.1.
Definition run_outcome {S A W} (env : environment S W) w (p : prog S A) := (run env w p).1.2.

Lemma run_execs {S A W} (env : environment S W) w (p : prog S A) :
  env_allowed env -> execs p (run_trace env w p) (run_outcome env w p).
Proof.
  intros Hok. unfold run_trace, run_outcome. revert w.
  induction p as [a| |c k IH]; intros w; simpl; auto.
  pose proof (Hok c w) as Hc. destruct (env c w) as [r w'] eqn:E.
  specialize (IH r w'). destruct (run env w' (k r)) as [[tr o] w'']. simpl in *.
  by constructor.
Qed.

(** ** Weakest preconditions over traces *)

Fixpoint wp {S A} (p : prog S A) (Q : list (event S) -> outcome A -> Prop) : Prop :=
  match p with
  | Ret a => Q [] (Done a)
  | Panic => Q [] Panicked
  | Vis c k => forall r, allowed c r -> wp (k r) (fun tr o => Q (Ev c r :: tr) o)
  end.

Lemma wp_sound {S A} (p : prog S A) Q tr o : wp p Q -> execs p tr o -> Q tr o.
Proof.
  intros H He. revert Q H.
  induction He as [a| |c k r tr o Hr _ IH]; intros Q H; simpl in H; [done..|].
  apply (IH (fun tr' o' => Q (Ev c r :: tr') o')). auto.
Qed.

Lemma wp_complete {S A} (p : prog S A) (Q : list (event S) -> outcome A -> Prop) :
  (forall tr o, execs p tr o -> Q tr o) -> wp p Q.
Proof. revert Q. induction p as [a| |c k IH]; intros Q HQ; simpl; auto. Qed.

Lemma wp_execs {S A} (p : prog S A) Q :
  wp p Q <-> forall tr o, execs p tr o -> Q tr o.
Proof. split; [intros ????; by eapply wp_sound|apply wp_complete]. Qed.

Lemma wp_mono {S A} (p : prog S A) (Q Q' : list (event S) -> outcome A -> Prop) :
  wp p Q -> (forall tr o, Q tr o -> Q' tr o) -> wp p Q'.
Proof. rewrite !wp_execs. eauto. Qed.

Lemma wp_and {S A} (p : prog S A) (Q Q' : list (event S) -> outcome A -> Prop) :
  wp p Q -> wp p Q' -> wp p (fun tr o => Q tr o /\ Q' tr o).
Proof. rewrite !wp_execs. eauto. Qed.

Lemma wp_true {S A} (p : prog S A) : wp p (fun _ _ => True).
Proof. by apply wp_execs. Qed.

(** Of the executions that return. *)
Lemma wp_done {S A} (p : prog S A) (Q : list (event S) -> A -> Prop) :
  wp p (fun tr o => match o with Done a => Q tr a | Panicked => True end) ->
  forall tr a, execs p tr (Done a) -> Q tr a.
Proof. intros H tr a He. exact (wp_sound _ _ _ _ H He). Qed.

(** What is left to do once the first half of a [bind] has run. *)
Definition bind_post {S A B} (f : A -> prog S B) (Q : list (event S) -> outcome B -> Prop)
    (tr : list (event S)) (o : outcome A) : Prop :=
  match o with
  | Done a => wp (f a) (fun tr' o' => Q (tr ++ tr') o')
  | Panicked => Q tr Panicked
  end.

Lemma wp_bind {S A B} (m : prog S A) (f : A -> prog S B) Q :
  wp (bind m f) Q <-> wp m (bind_post f Q).
Proof.
  revert Q. induction m as [a| |c k IH]; intros Q; simpl; [done..|].
  split; intros H r Hr; specialize (H r Hr).
  - apply IH in H. eapply wp_mono; [apply H|]. intros tr [a|]; simpl; auto.
  - apply IH. eapply wp_mono; [apply H|]. intros tr [a|]; simpl; auto.
Qed.

(** The usual way to use [wp_bind]: a specification of the first half. *)
Lemma wp_bind_mono {S A B} (m : prog S A) (f : A -> prog S B) P Q :
  wp m P ->
  (forall tr a, P tr (Done a) -> wp (f a) (fun tr' o' => Q (tr ++ tr') o')) ->
  (forall tr, P tr Panicked -> Q tr Panicked) ->
  wp (bind m f) Q.
Proof.
  intros Hm Hf Hp. apply wp_bind. eapply wp_mono; [exact Hm|].
  intros tr [a|]; simpl; eauto.
Qed.

(** With all that is known of the first half: that it ran. *)
Lemma wp_bind_execs {S A B} (m : prog S A) (f : A -> prog S B) Q :
  (forall tr a, execs m tr (Done a) -> wp (f a) (fun tr' o' => Q (tr ++ tr') o')) ->
  (forall tr, execs m tr Panicked -> Q tr Panicked) ->
  wp (bind m f) Q.
Proof.
  intros Hf Hp. apply (wp_bind_mono _ _ (execs m)); [|done..]. by apply wp_complete.
Qed.

(** ** Footprints *)

(** Every call of the program satisfies [φ]. *)
Fixpoint only {S A} (φ : call S -> Prop) (p : prog S A) : Prop :=
  match p with
  | Ret _ | Panic => True
  | Vis c k => φ c /\ forall r, allowed c r -> only φ (k r)
  end.

(** No execution makes more than [n] calls that satisfy [φ]. *)
Fixpoint at_most {S A} (φ : call S -> bool) (n : nat) (p : prog S A) : Prop :=
  match p with
  | Ret _ | Panic => True
  | Vis c k =>
      if φ c
      then match n with
           | O => False
           | Datatypes.S n' => forall r, allowed c r -> at_most φ n' (k r)
           end
      else forall r, allowed c r -> at_most φ n (k r)
  end.

Definition count {S} (φ : call S -> bool) (tr : list (event S)) : nat :=
  length (filter (fun e => Is_true (φ (ev_call e))) tr).

Section Footprints.
Context {S : sig}.
Implicit Types φ : call S -> bool.

Lemma only_wp {A} (P : call S -> Prop) (p : prog S A) :
  only P p -> wp p (fun tr _ => Forall (fun e => P (ev_call e)) tr).
Proof.
  induction p as [a| |c k IH]; simpl; auto.
  intros [Hc Hk] r Hr. eapply wp_mono; [by apply IH, Hk|]. simpl. auto.
Qed.

Lemma only_bind {A B} (P : call S -> Prop) (m : prog S A) (f : A -> prog S B) :
  only P m -> (forall a, only P (f a)) -> only P (bind m f).
Proof. induction m; simpl; auto. intros [? ?] ?. split; auto. Qed.

Lemma only_mono {A} (P P' : call S -> Prop) (p : prog S A) :
  only P p -> (forall c, P c -> P' c) -> only P' p.
Proof. intros H HP. induction p; simpl in *; auto. destruct H. split; auto. Qed.

Lemma only_perform (P : call S -> Prop) (c : call S) : P c -> only P (perform c).
Proof. by split. Qed.

Lemma only_deref {A} (P : call S -> Prop) (o : option A) : only P (deref (S := S) o).
Proof. by destruct o. Qed.

Lemma only_for_each {A W} (P : call S -> Prop) (body : W -> A -> prog S W) l :
  (forall w a, a ∈ l -> only P (body w a)) -> forall w, only P (for_each body w l).
Proof.
  induction l as [|a l IH]; intros Hb w; simpl; [done|].
  apply only_bind; [apply Hb; set_solver|]. intros w'. apply IH. set_solver.
Qed.

Lemma only_for_each_err {A W} (P : call S -> Prop) (body : W -> A -> prog S (result W)) l :
  (forall w a, a ∈ l -> only P (body w a)) -> forall w, only P (for_each_err body w l).
Proof.
  induction l as [|a l IH]; intros Hb w; simpl; [done|].
  apply only_bind; [apply Hb; set_solver|]. intros [w'|e]; [apply IH; set_solver|done].
Qed.

Lemma count_nil φ : count φ [] = 0.
Proof. done. Qed.

Lemma count_cons φ c (r : resp c) tr :
  count φ (Ev c r :: tr) = (if φ c then 1 else 0) + count φ tr.
Proof. unfold count. rewrite filter_cons. simpl. by destruct (φ c). Qed.

Lemma count_app φ tr1 tr2 : count φ (tr1 ++ tr2) = count φ tr1 + count φ tr2.
Proof. unfold count. rewrite filter_app, length_app. done. Qed.

Lemma count_0 φ tr :
  count φ tr = 0 <-> Forall (fun e => φ (ev_call e) = false) tr.
Proof.
  induction tr as [|[c r] tr IH]; [done|].
  rewrite count_cons, Forall_cons, <- IH. simpl.
  destruct (φ c); [split; [done|by intros [? _]]|split; [by split|by intros [_ ?]]].
Qed.

Lemma at_most_wp {A} φ n (p : prog S A) :
  at_most φ n p -> wp p (fun tr _ => count φ tr <= n).
Proof.
  revert n. induction p as [a| |c k IH]; intros n; simpl; [rewrite ?count_nil; lia..|].
  destruct (φ c) eqn:Hc.
  - destruct n as [|n]; [done|]. intros H r Hr.
    eapply wp_mono; [by apply IH, H|]. intros tr o ?; simpl in *. rewrite count_cons, Hc. lia.
  - intros H r Hr. eapply wp_mono; [by apply IH, H|].
    intros tr o ?; simpl in *. rewrite count_cons, Hc. lia.
Qed.

Lemma at_most_le {A} φ n m (p : prog S A) : n <= m -> at_most φ n p -> at_most φ m p.
Proof.
  revert n m. induction p as [a| |c k IH]; intros n m Hle; simpl; auto.
  destruct (φ c); [|eauto].
  destruct n as [|n]; [done|]. destruct m as [|m]; [lia|].
  intros H r Hr. eapply IH, H; [lia|done].
Qed.

Lemma at_most_bind {A B} φ n1 n2 (m : prog S A) (f : A -> prog S B) :
  at_most φ n1 m -> (forall a, at_most φ n2 (f a)) -> at_most φ (n1 + n2) (bind m f).
Proof.
  intros Hm Hf. revert n1 Hm. induction m as [a| |c k IH]; intros n1; simpl; auto.
  - intros _. eapply at_most_le, Hf. lia.
  - destruct (φ c); [|by auto]. destruct n1 as [|n1]; simpl; [done|by auto].
Qed.

(** A program whose calls all avoid [φ] makes none. *)
Lemma only_at_most {A} φ (p : prog S A) :
  only (fun c => φ c = false) p -> at_most φ 0 p.
Proof. induction p; simpl; auto. intros [-> ?]. auto. Qed.

Lemma at_most_bind_only {A B} φ n (m : prog S A) (f : A -> prog S B) :
  only (fun c => φ c = false) m -> (forall a, at_most φ n (f a)) -> at_most φ n (bind m f).
Proof. intros ? ?. apply (at_most_bind φ 0 n); auto using only_at_most. Qed.
End Footprints.

#[export] Hint Resolve only_deref : go_footprint.

(** ** Equality of programs *)

Inductive prog_equiv {S A} : prog S A -> prog S A -> Prop :=
| eq_ret a : prog_equiv (Ret a) (Ret a)
| eq_panic : prog_equiv Panic Panic
| eq_vis c k k' : (forall r, prog_equiv (k r) (k' r)) -> prog_equiv (Vis c k) (Vis c k').
#[export] Hint Constructors prog_equiv : core.

#[export] Instance prog_Equiv S A : Equiv (prog S A) := prog_equiv.

Lemma prog_equiv_vis_inv {S A} (c : call S) (k : resp c -> prog S A) q :
  prog_equiv (Vis c k) q ->
  exists k', q = Vis c k' /\ forall r, prog_equiv (k r) (k' r).
Proof.
  enough (forall p q : prog S A, prog_equiv p q ->
    match p with
    | Vis c0 k0 => exists k', q = Vis c0 k' /\ forall r, prog_equiv (k0 r) (k' r)
    | _ => True
    end) as H by apply (H (Vis c k)).
  intros p p' []; eauto.
Qed.

#[export] Instance prog_equivalence S A : Equivalence (equiv (A := prog S A)).
Proof.
  unfold equiv, prog_Equiv. split.
  - intros p. induction p; constructor; auto.
  - intros p q. induction 1; constructor; auto.
  - intros p q r Hpq. revert r. induction Hpq as [| |c k k' _ IH]; intros r Hr; auto.
    apply prog_equiv_vis_inv in Hr as (k2 & -> & Hk). constructor. eauto.
Qed.

#[export] Instance bind_proper {S A B} :
  Proper (equiv ==> pointwise_relation A equiv ==> equiv) (bind (S := S) (A := A) (B := B)).
Proof.
  intros m m' Hm f f' Hf. induction Hm as [a| |c k k' _ IH]; simpl; [apply Hf|done|].
  by constructor.
Qed.

#[export] Instance wp_proper {S A} :
  Proper (equiv ==> pointwise_relation _ (pointwise_relation _ iff) ==> iff) (wp (S := S) (A := A)).
Proof.
  intros p p' Hp. induction Hp as [a| |c k k' _ IH]; intros Q Q' HQ; simpl; [apply HQ..|].
  split; intros H r Hr; (eapply IH; [|by apply H]); intros tr o; split; apply HQ.
Qed.

#[export] Instance execs_proper {S A} :
  Proper (equiv ==> eq ==> eq ==> iff) (execs (S := S) (A := A)).
Proof.
  enough (forall (p p' : prog S A) tr o, p ≡ p' -> execs p tr o -> execs p' tr o) as H.
  { intros p p' Hp tr _ <- o _ <-. split; apply H; [done|by symmetry]. }
  intros p p' tr o Hp He. revert p' Hp.
  apply (wp_sound p (fun tr o => forall p', p ≡ p' -> execs p' tr o)); [|done].
  apply wp_complete. clear. intros tr o He p' Hp.
  assert (wp p' (fun tr o => execs p' tr o)) as Hw by by apply wp_complete.
  revert tr o He. apply wp_execs. by rewrite Hp.
Qed.

(** The monad laws. *)
Lemma bind_ret_l {S A B} (a : A) (f : A -> prog S B) : bind (Ret a) f = f a.
Proof. done. Qed.

Lemma bind_ret_r {S A} (m : prog S A) : bind m Ret ≡ m.
Proof. induction m; simpl; constructor; auto. Qed.

Lemma bind_assoc {S A B C} (m : prog S A) (f : A -> prog S B) (g : B -> prog S C) :
  bind (bind m f) g ≡ bind m (fun a => bind (f a) g).
Proof. induction m as [a| |c k IH]; simpl; [reflexivity|reflexivity|]. by constructor. Qed.

(** Executions of a [bind] are executions of the halves. *)
Lemma execs_bind {S A B} (m : prog S A) (f : A -> prog S B) tr o :
  execs (bind m f) tr o ->
  (exists tr1 tr2 a, tr = tr1 ++ tr2 /\ execs m tr1 (Done a) /\ execs (f a) tr2 o) \/
  (o = Panicked /\ execs m tr Panicked).
Proof.
  revert tr o. apply wp_execs, wp_bind, wp_execs.
  intros tr [a|] Hm; simpl; [|by right].
  apply wp_execs. intros tr' o' Hf. left. eauto 10.
Qed.

Lemma execs_bind_intro {S A B} (m : prog S A) (f : A -> prog S B) tr1 tr2 a o :
  execs m tr1 (Done a) -> execs (f a) tr2 o -> execs (bind m f) (tr1 ++ tr2) o.
Proof.
  intros Hm Hf.
  assert (wp m (fun tr o1 => o1 = Done a -> execs (bind m f) (tr ++ tr2) o)) as Hw.
  { clear Hm. induction m as [a'| |c k IH]; simpl; [by intros [= ->]|done|].
    intros r Hr. eapply wp_mono; [apply IH|]. simpl. intros tr o1 Hk ->. constructor; auto. }
  exact (wp_sound _ _ _ _ Hw Hm eq_refl).
Qed.

(** ** From footprints to executions *)

Lemma only_execs {S A} (P : call S -> Prop) (p : prog S A) tr o :
  only P p -> execs p tr o -> Forall (fun e => P (ev_call e)) tr.
Proof. intros H. exact (wp_sound _ _ _ _ (only_wp _ _ H)). Qed.

Lemma at_most_execs {S A} φ n (p : prog S A) tr o :
  at_most φ n p -> execs p tr o -> count φ tr <= n.
Proof. intros H. exact (wp_sound _ _ _ _ (at_most_wp _ _ _ H)). Qed.

Lemma only_count {S A} (φ : call S -> bool) (p : prog S A) tr o :
  only (fun c => φ c = false) p -> execs p tr o -> count φ tr = 0.
Proof. intros H He. apply count_0. exact (only_execs _ _ _ _ H He). Qed.

Lemma at_most_for_each {S A W} (φ : call S -> bool) (n : A -> nat)
    (body : W -> A -> prog S W) l :
  (forall w a, at_most φ (n a) (body w a)) ->
  forall w, at_most φ (sum_list_with n l) (for_each body w l).
Proof.
  intros Hb. induction l as [|a l IH]; intros w; simpl; [done|].
  apply at_most_bind; auto.
Qed.

(** An invariant of a loop's state. *)
Lemma wp_for_each {S A W} (body : W -> A -> prog S W) (I : W -> Prop) l :
  (forall w a, a ∈ l -> I w ->
     wp (body w a) (fun _ o => match o with Done w' => I w' | Panicked => True end)) ->
  forall w, I w ->
    wp (for_each body w l) (fun _ o => match o with Done w' => I w' | Panicked => True end).
Proof.
  induction l as [|a l IH]; intros Hb w Hw; simpl; [done|].
  eapply wp_bind_mono; [apply Hb; [set_solver|done]| |done].
  simpl. intros _ w' Hw'. apply IH; [|done]. set_solver.
Qed.

(** An invariant of a loop's trace and state, indexed by the elements that are
    done; [P] holds of the trace if the body panics. *)
Lemma wp_for_each_inv {S A W} (body : W -> A -> prog S W) (L : list A)
    (J : list (event S) -> list A -> W -> Prop) (P : list (event S) -> Prop) :
  (forall tr done a rest w, L = done ++ a :: rest -> J tr done w ->
     wp (body w a) (fun tr' o => match o with
                                 | Done w' => J (tr ++ tr') (done ++ [a]) w'
                                 | Panicked => P (tr ++ tr')
                                 end)) ->
  forall w, J [] [] w ->
    wp (for_each body w L) (fun tr' o => match o with Done w' => J tr' L w' | Panicked => P tr' end).
Proof.
  intros Hb w0 Hw0.
  enough (forall rest done tr w, L = done ++ rest -> J tr done w ->
    wp (for_each body w rest) (fun tr' o =>
      match o with Done w' => J (tr ++ tr') L w' | Panicked => P (tr ++ tr') end)) as Hrest
    by exact (Hrest L [] [] w0 eq_refl Hw0).
  induction rest as [|a rest IH]; intros done tr w HL HJ; simpl.
  { rewrite app_nil_r. rewrite app_nil_r in HL. by subst. }
  eapply wp_bind_mono; [exact (Hb tr done a rest w HL HJ)| |done].
  intros tr1 w1 HJ1. eapply wp_mono.
  - apply (IH (done ++ [a]) (tr ++ tr1) w1); [by rewrite HL, <- app_assoc|exact HJ1].
  - intros tr2 [w2|]; by rewrite app_assoc.
Qed.

(** A trace made of one part per element, in their order, each as [R] says. *)
Definition per_element {S A} (R : A -> list (event S) -> Prop) (l : list A) (tr : list (event S)) : Prop :=
  exists parts, tr = concat parts /\ Forall2 R l parts.

Lemma per_element_nil {S A} (R : A -> list (event S) -> Prop) l :
  (forall a, R a []) -> per_element R l [].
Proof.
  intros HR. exists ((fun _ => []) <$> l). split.
  - by induction l.
  - induction l; constructor; auto.
Qed.

Lemma per_element_cons {S A} (R : A -> list (event S) -> Prop) a l tr1 tr2 :
  R a tr1 -> per_element R l tr2 -> per_element R (a :: l) (tr1 ++ tr2).
Proof. intros Ha (parts & -> & Hp). exists (tr1 :: parts). split; [done|by constructor]. Qed.

Lemma per_element_count {S A} (R : A -> list (event S) -> Prop) (φ : call S -> bool) (test : A -> bool) l tr :
  (forall a tr, R a tr -> count φ tr <= if test a then 1 else 0) ->
  per_element R l tr -> count φ tr <= length (List.filter test l).
Proof.
  intros HR (parts & -> & Hp). induction Hp as [|a tr1 l parts Ha _ IH]; [done|].
  simpl. rewrite count_app. apply HR in Ha. destruct (test a); simpl; lia.
Qed.

Lemma per_element_in {S A} (R : A -> list (event S) -> Prop) l tr e :
  per_element R l tr -> e ∈ tr -> exists a tr', a ∈ l /\ R a tr' /\ e ∈ tr'.
Proof.
  intros (parts & -> & Hp). induction Hp as [|a tr1 l parts Ha _ IH]; simpl.
  - by intros ?%not_elem_of_nil.
  - intros [Hin|Hin]%elem_of_app; [exists a, tr1; split_and!; [left|done..]|].
    destruct (IH Hin) as (a' & tr' & ? & ? & ?). exists a', tr'. split_and!; [by right|done..].
Qed.

Lemma per_element_part {S A} (R : A -> list (event S) -> Prop) l tr a :
  per_element R l tr -> a ∈ l -> exists tr', R a tr' /\ tr' ⊆ tr.
Proof.
  intros (parts & -> & Hp) Ha. apply list_elem_of_lookup in Ha as [i Hi].
  destruct (Forall2_lookup_l _ _ _ _ _ Hp Hi) as (tr' & Hi' & HR). exists tr'. split; [done|].
  intros e He. apply list_elem_of_In, in_concat. exists tr'. rewrite <- !list_elem_of_In.
  split; [by eapply list_elem_of_lookup_2|done].
Qed.

(** A loop, part by part; the parts after a panic are empty. If the loop ends, each
    part is as [Rd] says too. *)
Lemma wp_for_each_parts {S A W} (body : W -> A -> prog S W) (L : list A)
    (R Rd : A -> list (event S) -> Prop) (J : list A -> W -> Prop) :
  (forall a, R a []) ->
  (forall done a rest w, L = done ++ a :: rest -> J done w ->
     wp (body w a) (fun tr o => R a tr /\
       match o with Done w' => J (done ++ [a]) w' /\ Rd a tr | Panicked => True end)) ->
  forall w, J [] w ->
    wp (for_each body w L) (fun tr o => per_element R L tr /\
      match o with Done w' => J L w' /\ per_element Rd L tr | Panicked => True end).
Proof.
  intros HR Hb w0 Hw0.
  enough (forall rest done w, L = done ++ rest -> J done w ->
    wp (for_each body w rest) (fun tr o => per_element R rest tr /\
      match o with Done w' => J L w' /\ per_element Rd rest tr | Panicked => True end)) as Hrest
    by exact (Hrest L [] w0 eq_refl Hw0).
  induction rest as [|a rest IH]; intros done w HL HJ; simpl.
  { rewrite app_nil_r in HL. subst. by split_and!; [exists []|..|exists []]. }
  eapply wp_bind_mono; [exact (Hb done a rest w HL HJ)|..].
  - intros tr1 w1 (Ha & HJ1 & Hd). eapply wp_mono; [apply (IH (done ++ [a])); [by rewrite HL, <- app_assoc|done]|].
    intros tr2 o [Hp Ho]. split; [by apply per_element_cons|].
    destruct o; [|done]. destruct Ho. split; [done|by apply per_element_cons].
  - intros tr1 [Ha _]. split; [|done]. rewrite <- (app_nil_r tr1).
    apply per_element_cons; [done|by apply per_element_nil].
Qed.

Lemma wp_for_each_per {S A W} (body : W -> A -> prog S W) (L : list A)
    (R : A -> list (event S) -> Prop) (J : list A -> W -> Prop) :
  (forall a, R a []) ->
  (forall done a rest w, L = done ++ a :: rest -> J done w ->
     wp (body w a) (fun tr o => R a tr /\
       match o with Done w' => J (done ++ [a]) w' | Panicked => True end)) ->
  forall w, J [] w ->
    wp (for_each body w L) (fun tr o => per_element R L tr /\
      match o with Done w' => J L w' | Panicked => True end).
Proof.
  intros HR Hb w Hw.
  eapply wp_mono; [apply (wp_for_each_parts body L R (fun _ _ => True) J HR); [|exact Hw]|].
  - intros done a rest w' HL HJ. eapply wp_mono; [exact (Hb done a rest w' HL HJ)|].
    intros tr o [? Ho]. split; [done|]. by destruct o.
  - intros tr o [? Ho]. split; [done|]. by destruct o; [destruct Ho|].
Qed.

(** ** Running a program against an environment *)

Section Running.
Context {S : sig} {W : Type} (env : environment S W).

(** The run of [p] from [w] ends as [Q] says. *)
Definition runs {A} (w : W) (p : prog S A) (Q : outcome A -> W -> Prop) : Prop :=
  Q (run_outcome env w p) (run env w p).2.

Lemma runs_ret {A} w (a : A) Q : Q (Done a) w -> runs w (Ret a) Q.
Proof. done. Qed.

Lemma runs_vis {A} w (c : call S) (k : resp c -> prog S A) Q :
  runs (env c w).2 (k (env c w).1) Q -> runs w (Vis c k) Q.
Proof.
  unfold runs, run_outcome. simpl. destruct (env c w) as [a w']. simpl.
  by destruct (run env w' (k a)) as [[tr o] w''].
Qed.

Lemma run_trace_vis {A} w (c : call S) (k : resp c -> prog S A) :
  run_trace env w (Vis c k) = Ev c (env c w).1 :: run_trace env (env c w).2 (k (env c w).1).
Proof.
  unfold run_trace. simpl. destruct (env c w) as [a w']. simpl.
  by destruct (run env w' (k a)) as [[tr o] w''].
Qed.

Lemma runs_bind {A B} w (m : prog S A) (f : A -> prog S B) Q :
  runs w m (fun o w' => match o with Done a => runs w' (f a) Q | Panicked => Q Panicked w' end) ->
  runs w (bind m f) Q.
Proof.
  revert w. induction m as [a| |c k IH]; intros w; [done..|].
  intros Hr. simpl. apply runs_vis, IH. revert Hr. unfold runs, run_outcome. simpl.
  destruct (env c w) as [a w']. simpl. by destruct (run env w' (k a)) as [[tr o] w''].
Qed.

Lemma runs_mono {A} w (p : prog S A) (Q Q' : outcome A -> W -> Prop) :
  runs w p Q -> (forall o w', Q o w' -> Q' o w') -> runs w p Q'.
Proof. unfold runs. auto. Qed.

(** The run returns a value that [P] holds of, and leaves the world alone. *)
Definition yields {A} (w : W) (P : A -> Prop) (o : outcome A) (w' : W) : Prop :=
  w' = w /\ exists a, o = Done a /\ P a.

Lemma runs_yield {A} w (a : A) (P : A -> Prop) : P a -> runs w (Ret a) (yields w P).
Proof. intros HP. apply runs_ret. split; eauto. Qed.

Lemma runs_bind_yields {A B} w (m : prog S A) (f : A -> prog S B) P Q :
  runs w m (yields w P) -> (forall a, P a -> runs w (f a) Q) -> runs w (bind m f) Q.
Proof.
  intros Hm Hf. apply runs_bind. eapply runs_mono; [exact Hm|]. intros o w' (-> & a & -> & Ha). by apply Hf.
Qed.

(** A loop whose body returns and leaves the world alone, with an invariant of its
    state indexed by the elements that are done. *)
Lemma runs_for_each {A V} (body : V -> A -> prog S V) (L : list A) (J : list A -> V -> Prop) w :
  (forall done a rest v, L = done ++ a :: rest -> J done v ->
     runs w (body v a) (yields w (J (done ++ [a])))) ->
  forall v, J [] v -> runs w (for_each body v L) (yields w (J L)).
Proof.
  intros Hb v0 Hv0.
  enough (forall rest done v, L = done ++ rest -> J done v ->
    runs w (for_each body v rest) (yields w (J L))) as Hrest
    by exact (Hrest L [] v0 eq_refl Hv0).
  induction rest as [|a rest IH]; intros done v HL HJ; simpl.
  - apply runs_yield. rewrite app_nil_r in HL. by subst.
  - eapply runs_bind_yields; [exact (Hb done a rest v HL HJ)|].
    intros v'. apply (IH (done ++ [a])). by rewrite HL, <- app_assoc.
Qed.

(** A loop whose body never returns an error, with an invariant of its state. *)
Lemma runs_for_each_ok {A V} (body : V -> A -> prog S (result V)) (I : V -> Prop) w l :
  (forall v a, a ∈ l -> I v -> runs w (body v a) (yields w (fun r => exists v', r = Ok v' /\ I v'))) ->
  forall v, I v -> runs w (for_each_err body v l) (yields w (fun r => exists v', r = Ok v' /\ I v')).
Proof.
  induction l as [|a l IH]; intros Hb v Hv; simpl; [apply runs_yield; eauto|].
  eapply runs_bind_yields; [apply Hb; [left|exact Hv]|].
  intros r (v' & -> & Hv'). apply IH; [|done]. intros v0 a0 Ha0. apply Hb. by right.
Qed.
End Running.

#[global] Arguments runs : simpl never.

(** ** Symbolic execution *)

Lemma wp_deref_bind {S A B} (p : option A) (f : A -> prog S B) Q :
  (forall a, p = Some a -> wp (f a) Q) -> (p = None -> Q [] Panicked) ->
  wp (bind (deref p) f) Q.
Proof. destruct p; simpl; auto. Qed.

(** Decompose a program to see its calls. Leaves a goal per call. *)
Ltac go_only :=
  repeat match goal with
  | |- only _ (bind _ _) => apply only_bind; [|intros ?]
  | |- only _ (Ret _) => exact I
  | |- only _ Panic => exact I
  | |- only _ (deref _) => apply only_deref
  | |- only _ (perform _) => apply only_perform
  | |- only _ (for_each _ _ _) => apply only_for_each; intros ?? _
  | |- only _ (for_each_err _ _ _) => apply only_for_each_err; intros ?? _
  | |- only _ (match ?x with _ => _ end) => destruct x
  | |- only _ _ => progress cbv beta zeta
  end.

(** Case analysis that remembers its equation unless the subject is a variable. *)
Ltac destruct_keep x := first [is_var x; destruct x|destruct x eqn:?].

(** One step of symbolic execution of a goal [wp p Q], calls apart: each
    signature adds the rule for its own. *)
Ltac wp_pure_step :=
  lazymatch goal with
  | |- wp (bind (deref _) _) _ => apply wp_deref_bind; [intros ? ?|intros ?]
  | |- wp (bind (Ret ?a) ?f) ?Q => change (wp (f a) Q)
  | |- wp (bind Panic _) ?Q => change (Q [] Panicked); cbv beta iota
  | |- wp (bind (bind _ _) _) _ => rewrite bind_assoc
  | |- wp (bind (match ?x with _ => _ end) _) _ => destruct_keep x
  | |- wp (match ?x with _ => _ end) _ => destruct_keep x
  | |- wp (Ret ?a) ?Q => change (Q [] (Done a)); cbv beta iota
  | |- wp Panic ?Q => change (Q [] Panicked); cbv beta iota
  end.

(** From a statement over executions to a weakest precondition. *)
Ltac by_wp :=
  lazymatch goal with
  | |- forall tr o, execs ?p tr o -> @?Q tr o => refine (proj1 (wp_execs p Q) _)
  end; cbv beta.

(** The same, of the executions that return. *)
Ltac by_wp_done :=
  lazymatch goal with
  | |- forall tr a, execs ?p tr (Done a) -> @?Q tr a => refine (wp_done p Q _)
  end; cbv beta.
