(* ===== verification/Vault.v ===== *)
(** The Vault client: src/internal/vault/client.go.

    It talks to Vault over HTTP and, for Kubernetes authentication, reads the
    pod's token file: the calls of the signature [net]. Its methods mutate the
    token it holds, so they return the client beside their answer. The HTTP
    transport is a parameter (the answers of [HttpDo]); the JSON of requests and
    responses is that of [Json]. A response's body is the text that could be read
    of it. *)
From S2P Require Import Prelude Json Prog.
From Stdlib Require Import ZArith Lia Ascii.
From stdpp Require Import base gmap strings list.
Local Open Scope string_scope.
Local Open Scope list_scope.
Local Open Scope go_scope.

(** ** The network *)

Record HttpResponse := mkHttpResponse { hr_StatusCode : Z; hr_Body : string }.

(** [HttpDo] is building a request and sending it: either may fail, and the code
    treats the two alike. *)
Inductive NetCall :=
| ReadFile (path : string)
| HttpDo (method url : string) (header : list (string * string)) (body : option string).

Definition NetCall_resp (c : NetCall) : Type :=
  match c with
  | ReadFile _ => result string
  | HttpDo _ _ _ _ => result HttpResponse
  end.

Definition net : sig := Sig NetCall NetCall_resp (fun _ _ => True).

(** The programs of the client. *)
Abbreviation V := (prog net).

Definition send (c : NetCall) : V (NetCall_resp c) := perform (S := net) c.

#[global] Arguments send : simpl never.

(** A call/answer pair of the client. *)
Abbreviation NEvt c r := (@Ev net c r).

(** ** The client *)

Definition defaultTokenPath : string := "/var/run/secrets/kubernetes.io/serviceaccount/token".

Inductive authMethod := authMethodAppRole | authMethodKubernetes.

Record Config := mkConfig {
  cfg_Addr : string;
  cfg_AuthPath : string;
  cfg_Role : string;
  cfg_TokenPath : string;
}.

Record client := mkclient {
  addr : string;
  vaultToken : string;
  method : authMethod;
  k8sAuthPath : string;
  k8sRole : string;
  k8sTokenPath : string;
  appRoleID : string;
  appSecretID : string;
}.

Definition set_vaultToken (c : client) (token : string) : client :=
  mkclient (addr c) token (method c) (k8sAuthPath c) (k8sRole c) (k8sTokenPath c)
    (appRoleID c) (appSecretID c).

Definition StatusOK : Z := 200.
Definition StatusNoContent : Z := 204.
Definition StatusUnauthorized : Z := 401.
Definition StatusForbidden : Z := 403.
Definition StatusNotFound : Z := 404.

Definition json_header : string * string := ("Content-Type", "application/json").

(** extractToken stores the token of a login response. *)
Definition extractToken (c : client) (body : string) : client * option error :=
  match Decode "auth" "client_token" body with
  | None => (c, Some (Wrap (ErrLib false "json") "vault: failed to decode auth response"))
  | Some token =>
      if bool_decide (token = "")
      then (c, Some (Errorf "vault: auth response contained empty token" []))
      else (set_vaultToken c token, None)
  end.

Definition kubernetes_credentials (c : client) (jwt : string) : string :=
  print (json_map {["role" := k8sRole c; "jwt" := jwt]}).

(** loginWithKubernetes exchanges the pod ServiceAccount JWT for a Vault token. *)
Definition loginWithKubernetes (c : client) : V (client * option error) :=
  let? jwt := send (ReadFile (k8sTokenPath c))
    else err => Ret (c, Some (Wrap err "vault: unable to read service account token")) in
  let body := kubernetes_credentials c jwt in
  let url := Sprintf "%s/v1/%s/login" [addr c; k8sAuthPath c] in
  let? resp := send (HttpDo "POST" url [json_header] (Some body))
    else err => Ret (c, Some (Wrap err "vault: kubernetes auth request failed")) in
  if negb (Z.eqb (hr_StatusCode resp) StatusOK)
  then Ret (c, Some (Errorf "vault: kubernetes auth returned %d: %s"
                       [FInt (hr_StatusCode resp); FStr (hr_Body resp)]))
  else Ret (extractToken c (hr_Body resp)).

Definition approle_credentials (c : client) : string :=
  print (json_map {["role_id" := appRoleID c; "secret_id" := appSecretID c]}).

(** loginWithAppRole authenticates to Vault using the AppRole method. *)
Definition loginWithAppRole (c : client) : V (client * option error) :=
  let body := approle_credentials c in
  let url := Sprintf "%s/v1/auth/approle/login" [addr c] in
  let? resp := send (HttpDo "POST" url [json_header] (Some body))
    else err => Ret (c, Some (Wrap err "vault: approle auth request failed")) in
  if negb (Z.eqb (hr_StatusCode resp) StatusOK)
  then Ret (c, Some (Errorf "vault: approle auth returned %d: %s"
                       [FInt (hr_StatusCode resp); FStr (hr_Body resp)]))
  else Ret (extractToken c (hr_Body resp)).

(** login dispatches to the appropriate auth method. *)
Definition login (c : client) : V (client * option error) :=
  match method c with
  | authMethodAppRole => loginWithAppRole c
  | authMethodKubernetes => loginWithKubernetes c
  end.

(** [s], or the default when it is empty. *)
Definition or_default (s dflt : string) : string := if bool_decide (s = "") then dflt else s.

(** NewClient creates a client that authenticates with the Kubernetes method. *)
Definition NewClient (cfg : Config) : V (result client) :=
  let c := mkclient (cfg_Addr cfg) "" authMethodKubernetes
             (or_default (cfg_AuthPath cfg) "auth/kubernetes") (cfg_Role cfg)
             (or_default (cfg_TokenPath cfg) defaultTokenPath) "" "" in
  let* (c, err) := login c in
  match err with
  | Some e => Ret (Err (Wrap e "vault: kubernetes auth login failed"))
  | None => Ret (Ok c)
  end.

(** NewClientWithAppRole creates a client that authenticates with AppRole. *)
Definition NewClientWithAppRole (address roleID secretID : string) : V (result client) :=
  let c := mkclient address "" authMethodAppRole "" "" "" roleID secretID in
  let* (c, err) := login c in
  match err with
  | Some e => Ret (Err (Wrap e "vault: approle auth login failed"))
  | None => Ret (Ok c)
  end.

(** [strings.TrimPrefix(path, "/")]. *)
Definition TrimPrefix_slash (path : string) : string :=
  match path with
  | String c rest => if Ascii.eqb c "/"%char then rest else path
  | "" => ""
  end.

(** The request [doOnce] sends with the token the client holds. Marshalling a
    map of strings never fails. *)
Definition request (c : client) (verb path : string) (body : option json) : NetCall :=
  HttpDo verb (Sprintf "%s/v1/%s" [addr c; TrimPrefix_slash path])
    (("X-Vault-Token", vaultToken c) :: match body with Some _ => [json_header] | None => [] end)
    (print <$> body).

Definition doOnce (c : client) (verb path : string) (body : option json)
    : V (result HttpResponse) :=
  send (request c verb path body).

(** The statuses that make [do] log in again. *)
Definition auth_rejected (resp : HttpResponse) : bool :=
  Z.eqb (hr_StatusCode resp) StatusUnauthorized || Z.eqb (hr_StatusCode resp) StatusForbidden.

(** do performs an authenticated request, retrying once after a new login. *)
Definition do (c : client) (verb path : string) (body : option json)
    : V (client * result HttpResponse) :=
  let? resp := doOnce c verb path body else err => Ret (c, Err err) in
  if auth_rejected resp
  then
    let* (c, loginErr) := login c in
    match loginErr with
    | Some e => Ret (c, Err (Wrap e "vault: re-authentication failed"))
    | None =>
        let* res := doOnce c verb path body in
        Ret (c, res)
    end
  else Ret (c, Ok resp).

(** ** The operations of the interface *)

Definition SecretExists (c : client) (path : string) : V (client * result bool) :=
  let* (c, res) := do c "GET" path None in
  match res with
  | Err err => Ret (c, Err (Wrapf err "vault: SecretExists GET %s" [FStr path]))
  | Ok resp =>
      if Z.eqb (hr_StatusCode resp) StatusNotFound then Ret (c, Ok false)
      else if negb (Z.eqb (hr_StatusCode resp) StatusOK)
      then Ret (c, Err (Errorf "vault: SecretExists returned %d: %s"
                          [FInt (hr_StatusCode resp); FStr (hr_Body resp)]))
      else Ret (c, Ok true)
  end.

Definition secret_payload (data : gmap string string) : json := JObj [("data", json_map data)].

Definition WriteSecret (c : client) (path : string) (data : gmap string string)
    : V (client * option error) :=
  let* (c, res) := do c "POST" path (Some (secret_payload data)) in
  match res with
  | Err err => Ret (c, Some (Wrapf err "vault: WriteSecret POST %s" [FStr path]))
  | Ok resp =>
      if negb (Z.eqb (hr_StatusCode resp) StatusOK) &&
         negb (Z.eqb (hr_StatusCode resp) StatusNoContent)
      then Ret (c, Some (Errorf "vault: WriteSecret returned %d: %s"
                           [FInt (hr_StatusCode resp); FStr (hr_Body resp)]))
      else Ret (c, None)
  end.

Definition GenerateSecretID (c : client) (roleName : string) : V (client * result string) :=
  let path := Sprintf "auth/approle/role/%s/secret-id" [roleName] in
  let* (c, res) := do c "POST" path (Some (JObj [])) in
  match res with
  | Err err => Ret (c, Err (Wrapf err "vault: GenerateSecretID for role %q" [FStr roleName]))
  | Ok resp =>
      if negb (Z.eqb (hr_StatusCode resp) StatusOK)
      then Ret (c, Err (Errorf "vault: GenerateSecretID returned %d: %s"
                          [FInt (hr_StatusCode resp); FStr (hr_Body resp)]))
      else
        match Decode "data" "secret_id" (hr_Body resp) with
        | None =>
            Ret (c, Err (Wrap (ErrLib false "json") "vault: failed to decode secret_id response"))
        | Some secretID =>
            if bool_decide (secretID = "")
            then Ret (c, Err (Errorf "vault: empty secret_id in response for role %q" [FStr roleName]))
            else Ret (c, Ok secretID)
        end
  end.

Definition revoke_payload (secretID : string) : json := json_map {["secret_id" := secretID]}.

Definition RevokeSecretID (c : client) (roleName secretID : string)
    : V (client * option error) :=
  let path := Sprintf "auth/approle/role/%s/secret-id/destroy" [roleName] in
  let* (c, res) := do c "POST" path (Some (revoke_payload secretID)) in
  match res with
  | Err err => Ret (c, Some (Wrapf err "vault: RevokeSecretID for role %q" [FStr roleName]))
  | Ok resp =>
      if negb (Z.eqb (hr_StatusCode resp) StatusNoContent) &&
         negb (Z.eqb (hr_StatusCode resp) StatusOK)
      then Ret (c, Some (Errorf "vault: RevokeSecretID returned %d: %s"
                           [FInt (hr_StatusCode resp); FStr (hr_Body resp)]))
      else Ret (c, None)
  end.
