(* ===== verification/VaultFacts.v ===== *)
(** What the Vault client does: how often it sends a request, when it logs in,
    what its operations answer, and what its requests carry. *)
From S2P Require Import Prelude Json Prog Vault.
From Stdlib Require Import ZArith Lia Ascii.
From stdpp Require Import base gmap strings list sorting.
Local Open Scope string_scope.
Local Open Scope list_scope.

Lemma wp_send_bind {A} (c : NetCall) (f : NetCall_resp c -> V A) Q :
  (forall r, wp (f r) (fun tr o => Q (NEvt c r :: tr) o)) -> wp (bind (send c) f) Q.
Proof. intros H r _. apply H. Qed.

(** One step of symbolic execution of a client program. *)
Ltac net_step :=
  cbv beta iota zeta;
  lazymatch goal with
  | |- wp (bind (send _) _) _ => apply wp_send_bind; intros ?
  | |- wp (send _) _ => intros ? _
  | |- _ => wp_pure_step
  end.

Ltac net_steps := repeat net_step.

(** ** Logging in *)

(** The same client but for its token. *)
Definition same_config (c c' : client) : Prop := c' = set_vaultToken c (vaultToken c').

Lemma same_config_refl c : same_config c c.
Proof. by destruct c. Qed.

Lemma same_config_trans c1 c2 c3 : same_config c1 c2 -> same_config c2 c3 -> same_config c1 c3.
Proof. unfold same_config. intros -> ->. by destruct c1. Qed.

Definition is_post (c : NetCall) : bool :=
  match c with HttpDo verb _ _ _ => bool_decide (verb = "POST") | _ => false end.

(** The calls of a login: at most the token file and one request that carries no
    token. *)
Definition login_calls (c : client) (tr : list (event net)) : Prop :=
  match method c with
  | authMethodAppRole =>
      exists a, tr = [NEvt (HttpDo "POST" (Sprintf "%s/v1/auth/approle/login" [addr c])
                        [json_header] (Some (approle_credentials c))) a]
  | authMethodKubernetes =>
      (exists e, tr = [NEvt (ReadFile (k8sTokenPath c)) (Err e)]) \/
      (exists jwt a, tr =
         [NEvt (ReadFile (k8sTokenPath c)) (Ok jwt);
          NEvt (HttpDo "POST" (Sprintf "%s/v1/%s/login" [addr c; k8sAuthPath c])
                  [json_header] (Some (kubernetes_credentials c jwt))) a])
  end.

(** What a login leaves: a fresh token, or an error and the client as it was. *)
Definition logged_in (c c' : client) (err : option error) : Prop :=
  match err with
  | Some _ => c' = c
  | None => same_config c c' /\ vaultToken c' <> ""
  end.

Lemma extractToken_spec c body :
  logged_in c (extractToken c body).1 (extractToken c body).2.
Proof.
  unfold extractToken. destruct (Decode _ _ _) as [token|]; [|done].
  case_bool_decide; [done|]. split; [by destruct c|done].
Qed.

Lemma login_spec c :
  wp (login c) (fun tr o => login_calls c tr /\
    exists c' err, o = Done (c', err) /\ logged_in c c' err).
Proof.
  unfold login, loginWithAppRole, loginWithKubernetes, login_calls.
  destruct (method c); net_steps; (split; [by eauto|]); try (by eexists _, _).
  all: eexists _, _; split; [by rewrite (surjective_pairing (extractToken _ _))|].
  all: apply extractToken_spec.
Qed.

(** ** Sending a request *)

(** What [do] does, in full: the request; if it is rejected as unauthenticated, one
    login, and if that succeeds the request again with the new token. *)
Inductive done_request (c : client) (verb path : string) (body : option json)
    : list (event net) -> client -> result HttpResponse -> Prop :=
| done_at_once a :
    (forall resp, a = Ok resp -> auth_rejected resp = false) ->
    done_request c verb path body [NEvt (request c verb path body) a] c a
| done_rejected first tr c' e :
    auth_rejected first = true ->
    login_calls c tr ->
    logged_in c c' (Some e) ->
    done_request c verb path body (NEvt (request c verb path body) (Ok first) :: tr) c'
      (Err (Wrap e "vault: re-authentication failed"))
| done_again first tr c' a :
    auth_rejected first = true ->
    login_calls c tr ->
    logged_in c c' None ->
    done_request c verb path body
      (NEvt (request c verb path body) (Ok first) :: tr ++ [NEvt (request c' verb path body) a])
      c' a.

Lemma do_spec c verb path body :
  wp (do c verb path body) (fun tr o =>
    exists c' res, o = Done (c', res) /\ done_request c verb path body tr c' res).
Proof.
  unfold do, doOnce. net_step. net_step; [|net_steps; eexists _, _; split; [done|by constructor]].
  net_step; [|net_steps; eexists _, _; split; [done|constructor; congruence]].
  eapply wp_bind_mono; [apply login_spec| |]; [|by intros tr (_ & ? & ? & ? & _)].
  intros tr p (Hcalls & c' & err & [= ->] & Hin). net_step.
  - net_steps. eexists _, _. split; [done|]. rewrite app_nil_r. by eapply done_rejected.
  - net_step. net_step. eexists _, _. split; [done|]. by eapply done_again.
Qed.

(** A client that holds a token keeps its configuration and holds one. *)
Lemma done_request_keeps c verb path body tr c' res :
  done_request c verb path body tr c' res -> vaultToken c <> "" ->
  same_config c c' /\ vaultToken c' <> "".
Proof.
  intros [a _|first t c1 e _ _ Hin|first t c1 a _ _ Hin] Hne; [|simpl in Hin; subst|exact Hin];
    auto using same_config_refl.
Qed.

Lemma NewClient_spec cfg :
  wp (NewClient cfg) (fun _ o => match o with
    | Done (Ok c) =>
        vaultToken c <> "" /\
        c = mkclient (cfg_Addr cfg) (vaultToken c) authMethodKubernetes
              (or_default (cfg_AuthPath cfg) "auth/kubernetes") (cfg_Role cfg)
              (or_default (cfg_TokenPath cfg) defaultTokenPath) "" ""
    | Done (Err _) => True
    | Panicked => False
    end).
Proof.
  unfold NewClient. eapply wp_bind_mono; [apply login_spec| |by intros tr (_ & ? & ? & ? & _)].
  intros tr p (_ & c' & err & [= ->] & Hin). net_steps; [done|].
  destruct Hin as [Hsame Hne]. by split.
Qed.

Lemma NewClientWithAppRole_spec address roleID secretID :
  wp (NewClientWithAppRole address roleID secretID) (fun _ o => match o with
    | Done (Ok c) =>
        vaultToken c <> "" /\
        c = mkclient address (vaultToken c) authMethodAppRole "" "" "" roleID secretID
    | Done (Err _) => True
    | Panicked => False
    end).
Proof.
  unfold NewClientWithAppRole.
  eapply wp_bind_mono; [apply login_spec| |by intros tr (_ & ? & ? & ? & _)].
  intros tr p (_ & c' & err & [= ->] & Hin). net_steps; [done|].
  destruct Hin as [Hsame Hne]. by split.
Qed.

(** C16. An authenticated request always returns, after at most four calls. Unless the
    first answer is 401 or 403 it is the answer, with the client unchanged;
    otherwise the client logs in once, and the request is made once more with the
    new token or fails if the login did. *)
Theorem request_retried_once c verb path body tr o :
  execs (do c verb path body) tr o ->
  (exists c' res, o = Done (c', res) /\ done_request c verb path body tr c' res) /\
  length tr <= 4.
Proof.
  intros (c' & res & -> & Hreq)%(wp_sound _ _ _ _ (do_spec c verb path body)).
  split; [by eauto|].
  assert (forall tr, login_calls c tr -> length tr <= 2) as Hlogin.
  { unfold login_calls. intros ?. destruct (method c); [intros [? ->]|intros [[? ->]|(? & ? & ->)]];
      simpl; lia. }
  destruct Hreq as [a _|first t c' e _ Ht _|first t c' a _ Ht _]; simpl; [lia|..];
    rewrite ?length_app; simpl; pose proof (Hlogin _ Ht); lia.
Qed.

(** ** What the operations answer *)

Definition status_in (res : result HttpResponse) (codes : list Z) : Prop :=
  exists resp, res = Ok resp /\ hr_StatusCode resp ∈ codes.

(** An operation is one [do], and an answer made of its response. *)
Definition operation {A} (op : V (client * A)) (c : client) (verb path : string)
    (body : option json) (answers : result HttpResponse -> A -> Prop) : Prop :=
  wp op (fun tr o => exists c' res a,
    o = Done (c', a) /\ done_request c verb path body tr c' res /\ answers res a).

Definition exists_answer (res : result HttpResponse) (a : result bool) : Prop :=
  (a = Ok true <-> status_in res [StatusOK]) /\ (a = Ok false <-> status_in res [StatusNotFound]).

Definition unit_answer (res : result HttpResponse) (a : option error) : Prop :=
  a = None <-> status_in res [StatusOK; StatusNoContent].

Definition secret_id_answer (res : result HttpResponse) (a : result string) : Prop :=
  forall sid, a = Ok sid <->
    sid <> "" /\ exists resp, res = Ok resp /\ hr_StatusCode resp = StatusOK /\
      Decode "data" "secret_id" (hr_Body resp) = Some sid.

Ltac operation_spec :=
  eapply wp_bind_mono; [apply do_spec| |by intros ? (? & ? & ? & ?)];
  intros tr p (c' & res & [= ->] & Hreq); net_steps;
  eexists c', _, _; rewrite app_nil_r; (split; [done|]; split; [exact Hreq|]).

Lemma status_in_Ok resp codes : status_in (Ok resp) codes <-> hr_StatusCode resp ∈ codes.
Proof. unfold status_in. naive_solver. Qed.

Lemma status_in_Err e codes : ~ status_in (Err e) codes.
Proof. unfold status_in. naive_solver. Qed.

(** Comparisons of status codes as facts. *)
Ltac status_facts :=
  repeat match goal with
    | H : negb _ = true |- _ => apply negb_true_iff in H
    | H : negb _ = false |- _ => apply negb_false_iff in H
    | H : bool_decide _ = true |- _ => apply bool_decide_eq_true in H
    | H : bool_decide _ = false |- _ => apply bool_decide_eq_false in H
    | H : _ && _ = true |- _ => apply andb_true_iff in H as [? ?]
    | H : _ && _ = false |- _ => apply andb_false_iff in H as [?|?]
    | H : Z.eqb _ _ = true |- _ => apply Z.eqb_eq in H
    | H : Z.eqb _ _ = false |- _ => apply Z.eqb_neq in H
    end; unfold StatusOK, StatusNoContent, StatusNotFound in *.

Lemma SecretExists_spec c path :
  operation (SecretExists c path) c "GET" path None exists_answer.
Proof.
  unfold operation, SecretExists, exists_answer. operation_spec.
  all: rewrite ?status_in_Ok, ?list_elem_of_singleton; status_facts.
  all: try (split; (split; [|]); intros; try done; try congruence; try lia).
  all: by destruct (status_in_Err _ _ H).
Qed.

Lemma unit_operation_Ok (resp : HttpResponse) (a : option error) :
  (a = None <-> hr_StatusCode resp = StatusOK \/ hr_StatusCode resp = StatusNoContent) ->
  unit_answer (Ok resp) a.
Proof. unfold unit_answer. rewrite status_in_Ok. set_solver. Qed.

Lemma unit_operation_Err e err : unit_answer (Err e) (Some err).
Proof. split; [done|]. intros H. by destruct (status_in_Err _ _ H). Qed.

Lemma WriteSecret_spec c path data :
  operation (WriteSecret c path data) c "POST" path (Some (secret_payload data)) unit_answer.
Proof.
  unfold operation, WriteSecret. operation_spec; [apply unit_operation_Ok..|apply unit_operation_Err];
    status_facts; split; intros; try done; try lia; auto.
Qed.

Definition secret_id_path (roleName : string) : string :=
  Sprintf "auth/approle/role/%s/secret-id" [roleName].
Definition destroy_path (roleName : string) : string :=
  Sprintf "auth/approle/role/%s/secret-id/destroy" [roleName].

Lemma RevokeSecretID_spec c role sid :
  operation (RevokeSecretID c role sid) c "POST" (destroy_path role) (Some (revoke_payload sid))
    unit_answer.
Proof.
  unfold operation, RevokeSecretID. operation_spec;
    [apply unit_operation_Ok..|apply unit_operation_Err];
    status_facts; split; intros; try done; try lia; auto.
Qed.

Lemma GenerateSecretID_spec c role :
  operation (GenerateSecretID c role) c "POST" (secret_id_path role) (Some (JObj []))
    secret_id_answer.
Proof.
  unfold operation, GenerateSecretID. operation_spec; status_facts; intros sid.
  all: split; [intros [=]; subst|intros (? & ? & [= <-] & ? & ?)]; status_facts; try congruence.
  all: split; [done|]; by eauto.
Qed.

(** The four operations in one place: the contract of the Client interface. *)
Theorem vault_operations_answer c :
  (forall path, operation (SecretExists c path) c "GET" path None exists_answer) /\
  (forall path data,
     operation (WriteSecret c path data) c "POST" path (Some (secret_payload data)) unit_answer) /\
  (forall role,
     operation (GenerateSecretID c role) c "POST" (secret_id_path role) (Some (JObj []))
       secret_id_answer) /\
  (forall role sid,
     operation (RevokeSecretID c role sid) c "POST" (destroy_path role)
       (Some (revoke_payload sid)) unit_answer).
Proof.
  split_and!; intros;
    [apply SecretExists_spec|apply WriteSecret_spec|apply GenerateSecretID_spec
    |apply RevokeSecretID_spec].
Qed.

(** ** What the requests carry *)

(** The string members of an object. *)
Definition string_members (v : json) : gmap string string :=
  match v with
  | JObj ms => list_to_map (omap (fun '(k, v) => match v with JStr s => Some (k, s) | _ => None end) ms)
  | _ => ∅
  end.

Definition utf8_map (m : gmap string string) : Prop :=
  map_Forall (fun k v => utf8_valid k = true /\ utf8_valid v = true) m.

Lemma json_map_plain m h : utf8_map m -> plain (S h) (json_map m) = true.
Proof.
  intros Hm. simpl. apply forallb_forall. intros [k v] Hin%list_elem_of_In.
  unfold sorted_members in Hin. rewrite merge_sort_Permutation in Hin.
  apply list_elem_of_fmap in Hin as ([k' s] & [= -> ->] & Hin%elem_of_map_to_list).
  destruct (Hm _ _ Hin) as [-> Hs]. simpl. by destruct h.
Qed.

Lemma string_members_json_map m : string_members (json_map m) = m.
Proof.
  unfold string_members, json_map, sorted_members.
  assert (omap (fun '(k, v) => match v with JStr s => Some (k, s) | _ => None end)
    (prod_map id JStr <$> map_to_list m) = map_to_list m) as Hid.
  { induction (map_to_list m) as [|[k s] l IH]; simpl; [done|]. by f_equal. }
  etransitivity; [|apply list_to_map_to_list]. apply list_to_map_proper.
  - rewrite merge_sort_Permutation, Hid. apply NoDup_fst_map_to_list.
  - by rewrite merge_sort_Permutation, Hid.
Qed.

Lemma parse_json_map m :
  utf8_map m -> string_members <$> parse (print (json_map m)) = Some m.
Proof.
  intros Hm. rewrite (parse_print 1); [|by apply json_map_plain|done].
  exact (f_equal Some (string_members_json_map m)).
Qed.

Lemma utf8_map_insert m k v :
  utf8_valid k = true -> utf8_valid v = true -> utf8_map m -> utf8_map (<[k := v]> m).
Proof. intros. by apply map_Forall_insert_2. Qed.

Lemma utf8_map_singleton k v :
  utf8_valid k = true -> utf8_valid v = true -> utf8_map {[k := v]}.
Proof. intros. by apply map_Forall_singleton. Qed.

(** C22. The JSON the client writes parses back, as a JSON object, to the members it was
    made from: the credentials of either login, the secret_id to revoke, the data of
    a secret, for all strings of valid UTF-8; and the token of a login answer
    printed as JSON is the token the client takes from it. *)
Theorem vault_payloads_roundtrip c jwt sid data token :
  utf8_valid (appRoleID c) = true -> utf8_valid (appSecretID c) = true ->
  utf8_valid (k8sRole c) = true -> utf8_valid jwt = true -> utf8_valid sid = true ->
  utf8_map data -> utf8_valid token = true -> token <> "" ->
  string_members <$> parse (approle_credentials c) =
    Some {["role_id" := appRoleID c; "secret_id" := appSecretID c]} /\
  string_members <$> parse (kubernetes_credentials c jwt) =
    Some {["role" := k8sRole c; "jwt" := jwt]} /\
  string_members <$> parse (print (revoke_payload sid)) = Some {["secret_id" := sid]} /\
  (exists v, parse (print (secret_payload data)) = Some (JObj [("data", v)]) /\
             string_members v = data) /\
  extractToken c (print (JObj [("auth", JObj [("client_token", JStr token)])])) =
    (set_vaultToken c token, None).
Proof.
  intros Hr Hs Hk Hj Hsid Hd Ht Hne.
  split_and!.
  - apply parse_json_map. by repeat first [apply utf8_map_singleton|apply utf8_map_insert].
  - apply parse_json_map. by repeat first [apply utf8_map_singleton|apply utf8_map_insert].
  - apply parse_json_map. by apply utf8_map_singleton.
  - exists (json_map data). rewrite (parse_print 2).
    + by rewrite string_members_json_map.
    + change (utf8_valid "data" && plain 1 (json_map data) && true = true).
      by rewrite (json_map_plain data 0).
    + done.
  - unfold extractToken. rewrite Decode_print by done. by rewrite bool_decide_eq_false_2.
Qed.

(** ** Concrete runs *)

(** A Vault that accepts one token, hands out credentials, and knows no secret. *)
Definition token_body (token : string) : string :=
  print (JObj [("auth", JObj [("client_token", JStr token)])]).
Definition secret_id_body (sid : string) : string :=
  print (JObj [("data", JObj [("secret_id", JStr sid)])]).

Definition carries_token (token : string) (header : list (string * string)) : bool :=
  bool_decide (("X-Vault-Token", token) ∈ header).

(** Whether a URL ends in some text. *)
Fixpoint url_ends (suffix url : string) : bool :=
  bool_decide (url = suffix) ||
  match url with String _ rest => url_ends suffix rest | "" => false end.

Definition vault_server (token : string) : environment net unit := fun c w =>
  match c with
  | ReadFile _ => (Ok "jwt", w)
  | HttpDo _ url header _ =>
      (Ok (if url_ends "/login" url then mkHttpResponse 200 (token_body token)
           else if negb (carries_token token header) then mkHttpResponse 403 "permission denied"
           else if url_ends "/secret-id" url then mkHttpResponse 200 (secret_id_body "secret-id")
           else if url_ends "/destroy" url then mkHttpResponse 204 ""
           else mkHttpResponse 404 ""), w)
  end.

Definition approle_client (token : string) : client :=
  mkclient "https://v" token authMethodAppRole "" "" "" "role" "secret".

Lemma request_retried_once_witness :
  let p := do (approle_client "old") "GET" "secret/data/x" None in
  let tr := run_trace (vault_server "new") tt p in
  length tr = 3 /\ length tr <= 4.
Proof.
  intros p tr. split; [reflexivity|].
  exact (proj2 (request_retried_once (approle_client "old") "GET" "secret/data/x" None tr _
    (run_execs (vault_server "new") tt p (fun _ _ => I)))).
Defined.

Lemma vault_payloads_roundtrip_witness :
  string_members <$> parse (approle_credentials (approle_client "t")) =
  Some {["role_id" := "role"; "secret_id" := "secret"]}.
Proof.
  refine (proj1 (vault_payloads_roundtrip (approle_client "t") "jwt" "sid" ∅ "token"
    _ _ _ _ _ _ _ _)); try reflexivity; [|discriminate].
  apply map_Forall_empty.
Defined.
