(* ===== verification/Types.v ===== *)
(** The data of the provider: the custom resources of src/api/v1beta2, and the
    parts the controllers read of the Kubernetes, Cluster API and Waldur client
    types.

    A Go pointer is an [option]; a Go string, and a byte slice whose contents
    are text, is a [string]; an [int] is a [Z] kept in range by the operations
    of [Prelude]. Go strings whose constants belong to the Waldur client
    ([CoreStates], [OrderState], ...) are enumerations of the constants the
    code names, plus every other string: the client's constants are distinct
    and none is the empty string. *)
From S2P Require Import Prelude.
From Stdlib Require Import ZArith.
From stdpp Require Import base gmap strings list.

(** ** Waldur enumerations *)

Inductive CoreStates :=
| CoreStatesOK
| CoreStatesERRED
| CoreStatesCREATING
| CoreStatesOther (s : string).

Inductive OrderState :=
| OrderStateDone
| OrderStateErred
| OrderStateCanceled
| OrderStatePendingProvider
| OrderStateOther (s : string).

Inductive RequestTypes :=
| Create
| Terminate
| RequestTypesOther (s : string).

Inductive ResourceState :=
| ResourceStateOK
| ResourceStateOther (s : string).

#[export] Instance CoreStates_eq_dec : EqDecision CoreStates.
Proof. solve_decision. Defined.
#[export] Instance OrderState_eq_dec : EqDecision OrderState.
Proof. solve_decision. Defined.
#[export] Instance RequestTypes_eq_dec : EqDecision RequestTypes.
Proof. solve_decision. Defined.
#[export] Instance ResourceState_eq_dec : EqDecision ResourceState.
Proof. solve_decision. Defined.

(** ** src/api/v1beta2: shared types *)

Record WaldurOrder := mkWaldurOrder {
  wo_Uuid : string;
  wo_Type : RequestTypes;
  wo_State : OrderState;
  wo_MarketplaceResourceUuid : string;
  wo_ResourceUuid : option string;
}.

Record OpenStackTenant := mkOpenStackTenant {
  t_State : CoreStates;
  t_Uuid : option string;
  t_Name : string;
  t_MarketplaceResourceUuid : string;
  t_MarketplaceResourceState : ResourceState;
  t_ProjectSlug : option string;
  t_Order : option WaldurOrder;
}.

#[export] Instance WaldurOrder_eq_dec : EqDecision WaldurOrder.
Proof. solve_decision. Defined.
#[export] Instance OpenStackTenant_eq_dec : EqDecision OpenStackTenant.
Proof. solve_decision. Defined.

(** [NodeType] is a string type of the provider itself. *)
Definition NodeType := string.
Definition WorkerNode : NodeType := "worker"%string.
Definition StorageNode : NodeType := "storage"%string.
Definition ControlPlaneNode : NodeType := "controlplane"%string.

(** ** Kubernetes metadata *)

Record OwnerReference := mkOwnerReference { or_Kind : string; or_Name : string }.

(** [DeletionTimestamp] counts seconds from Go's zero time. *)
Record ObjectMeta := mkObjectMeta {
  om_Name : string;
  om_Namespace : string;
  om_Labels : gmap string string;
  om_Finalizers : list string;
  om_OwnerReferences : list OwnerReference;
  om_DeletionTimestamp : option Z;
}.

(** [IsZero] of a [metav1.Time] pointer: a nil pointer or the zero time. *)
Definition Time_IsZero (t : option Z) : bool :=
  match t with None => true | Some s => Z.eqb s 0 end.

Record NamespacedName := mkNamespacedName { nn_Namespace : string; nn_Name : string }.

(** Status conditions: what the controllers write of them. The two remaining
    fields, [LastTransitionTime] and [ObservedGeneration], are the library's. *)
Inductive ConditionStatus := ConditionTrue | ConditionFalse | ConditionUnknown.

Record Condition := mkCondition {
  c_Type : string;
  c_Status : ConditionStatus;
  c_Reason : string;
  c_Message : string;
}.

(** Both [WaldurClusterInitialization] and [WaldurMachineInitialization]. *)
Record Initialization := mkInitialization { i_Provisioned : option bool }.

Record APIEndpoint := mkAPIEndpoint { ep_Host : string; ep_Port : Z }.

(** ** WaldurCluster *)

Record OpenstackInfrastructure := mkOpenstackInfrastructure {
  oi_Name : string;
  oi_CustomerName : string;
  oi_Uuid : option string;
}.

Record NodeGroupSpec := mkNodeGroupSpec {
  ng_Type : NodeType;
  ng_Flavor : string;
  ng_Count : Z;
  ng_DataDiskSize : option Z;
  ng_VsanDiskSize : option Z;
}.

Record DatacenterSpec := mkDatacenterSpec {
  dc_OfferingSlug : string;
  dc_Name : string;
  dc_OpenstackInfrastructure : OpenstackInfrastructure;
  dc_NodeGroups : list NodeGroupSpec;
}.

Record SecurityRule := mkSecurityRule {
  sr_Direction : string;
  sr_CIDR : string;
  sr_Port : option string;
  sr_Protocol : option string;
}.

Record WaldurClusterSpec := mkWaldurClusterSpec {
  cs_KubernetesVersion : string;
  cs_Topology : string;
  cs_Datacenters : list DatacenterSpec;
  cs_SecurityRules : list SecurityRule;
  cs_ControlPlaneEndpoint : APIEndpoint;
}.

Record WaldurClusterStatus := mkWaldurClusterStatus {
  cst_Conditions : list Condition;
  cst_Initialization : option Initialization;
  cst_Tenants : gmap string OpenStackTenant;
}.

Record WaldurCluster := mkWaldurCluster {
  wc_ObjectMeta : ObjectMeta;
  wc_Spec : WaldurClusterSpec;
  wc_Status : WaldurClusterStatus;
}.

(** ** WaldurMachine *)

Record WaldurMachineSpec := mkWaldurMachineSpec {
  ms_ProviderID : option string;
  ms_OfferingSlug : string;
  ms_NodeType : NodeType;
  ms_Flavor : string;
  ms_Image : string;
  ms_SystemDiskSize : option Z;
  ms_DataDiskSize : option Z;
  ms_VsanDiskSize : option Z;
}.

Record WaldurMachineStatus := mkWaldurMachineStatus {
  mst_Conditions : list Condition;
  mst_Initialization : option Initialization;
  mst_VmUuid : option string;
  mst_State : CoreStates;
  mst_MarketplaceResourceUuid : string;
  mst_MarketplaceResourceState : ResourceState;
  mst_Order : option WaldurOrder;
}.

Record WaldurMachine := mkWaldurMachine {
  wm_ObjectMeta : ObjectMeta;
  wm_Spec : WaldurMachineSpec;
  wm_Status : WaldurMachineStatus;
}.

(** ** WaldurMachineTemplate: what a MachineDeployment clones; no controller reads it *)

Record WaldurMachineTemplateResource := mkWaldurMachineTemplateResource {
  wtr_ObjectMeta : ObjectMeta;
  wtr_Spec : WaldurMachineSpec;
}.

Record WaldurMachineTemplateSpec := mkWaldurMachineTemplateSpec {
  wts_Template : WaldurMachineTemplateResource;
}.

Record WaldurMachineTemplate := mkWaldurMachineTemplate {
  wt_ObjectMeta : ObjectMeta;
  wt_Spec : WaldurMachineTemplateSpec;
}.

(** ** Objects of Kubernetes and Cluster API the controllers read *)

Record Secret := mkSecret { sec_Data : gmap string string }.

(** [string(secret.Data[key])]: an absent key reads as the empty string. *)
Definition secret_field (s : Secret) (key : string) : string :=
  default ""%string (sec_Data s !! key).

Record Machine := mkMachine {
  m_Namespace : string;
  m_Labels : gmap string string;
  m_ClusterName : string;
  m_DataSecretName : option string;
}.

Record Cluster := mkCluster {
  cl_Namespace : string;
  (** the [Name] behind the [InfrastructureRef] pointer *)
  cl_InfrastructureRef : option string;
}.

(** ** Waldur API models *)

(** The 16 bytes of a UUID, as one number. *)
Definition UUID := N.

(** A response of the generated client: its status code, the body decoded as
    the JSON model of the success code, and the raw body. *)
Record response (A : Type) := mkResponse {
  StatusCode : Z;
  JSON : option A;
  Body : string;
}.
Arguments mkResponse {A} _ _ _.
Arguments StatusCode {A} _.
Arguments JSON {A} _.
Arguments Body {A} _.

Record Customer := mkCustomer {
  cu_Slug : option string; cu_Uuid : option UUID; cu_Url : option string }.

Record Project := mkProject {
  p_Uuid : option UUID; p_Url : option string; p_Name : option string; p_Slug : option string }.

Record Plan := mkPlan { plan_Url : option string }.

Record PublicOfferingDetails := mkPublicOfferingDetails {
  po_Uuid : option UUID;
  po_Url : option string;
  po_Slug : option string;
  po_Plans : option (list Plan);
}.

Record OpenStackFlavor := mkOpenStackFlavor {
  f_Url : option string; f_Cores : option Z; f_Ram : option Z }.

Record OpenStackImage := mkOpenStackImage { img_Url : option string }.
Record OpenStackSecurityGroup := mkOpenStackSecurityGroup {
  sg_Name : option string; sg_Url : option string }.
Record OpenStackSubNet := mkOpenStackSubNet { sn_Url : option string }.
Record OpenStackVolumeType := mkOpenStackVolumeType { vt_Url : option string }.

Record SubresourceOffering := mkSubresourceOffering {
  so_Uuid : option UUID; so_Type : option string }.

Record Resource := mkResource {
  r_State : option ResourceState;
  r_Scope : option string;
  r_ResourceUuid : option UUID;
}.

Record OrderDetails := mkOrderDetails {
  od_Uuid : option UUID;
  od_Type : option RequestTypes;
  od_State : option OrderState;
  od_MarketplaceResourceUuid : option UUID;
  od_ResourceUuid : option UUID;
  od_ResourceName : option string;
}.

Record ApiTenant := mkApiTenant { at_State : option CoreStates; at_Name : option string }.

Record OpenStackInstance := mkOpenStackInstance {
  os_State : option CoreStates;
  os_Uuid : option UUID;
  os_RuntimeState : option string;
  os_InternalIps : option (list string);
}.

Record TerminateResponse := mkTerminateResponse { tr_OrderUuid : option UUID }.

(** ** Order payloads *)

Record OpenStackTenantCreateOrderAttributes := mkTenantAttributes {
  ta_Name : string; ta_SubnetCidr : option string }.

Record OpenStackInstanceCreateOrderAttributes := mkInstanceAttributes {
  ia_Name : string;
  ia_Flavor : option string;
  ia_Image : option string;
  ia_SecurityGroups : list string;
  ia_Ports : list string;
  ia_FloatingIps : list string;
  ia_UserData : option string;
  ia_SystemVolumeSize : option Z;
  ia_DataVolumeSize : option Z;
  ia_SystemVolumeType : option string;
  ia_DataVolumeType : option string;
}.

(** The union type [OrderCreateRequest_Attributes]. *)
Inductive OrderAttributes :=
| TenantAttributes (a : OpenStackTenantCreateOrderAttributes)
| InstanceAttributes (a : OpenStackInstanceCreateOrderAttributes).

Record OrderCreateRequest := mkOrderCreateRequest {
  oc_Type : option RequestTypes;
  oc_Offering : string;
  oc_Project : string;
  oc_Plan : option string;
  oc_Attributes : OrderAttributes;
  oc_Limits : option (gmap string Z);
  oc_AcceptingTermsOfService : option bool;
}.

(** ** Reconcile results *)

(** [ctrl.Result], the delay in nanoseconds as in [time.Duration]. *)
Record ctrl_Result := mkResult { RequeueAfter : Z }.

Definition Second : Z := 1000000000.

(** Requeue after a number of seconds; [ctrl.Result{}] is [requeue 0]. *)
Definition requeue (seconds : Z) : ctrl_Result := mkResult (seconds * Second)%Z.

(** ** Field updates *)

Definition set_om_Finalizers (m : ObjectMeta) (fs : list string) : ObjectMeta :=
  mkObjectMeta (om_Name m) (om_Namespace m) (om_Labels m) fs
    (om_OwnerReferences m) (om_DeletionTimestamp m).

Definition set_wm_Status (m : WaldurMachine) (s : WaldurMachineStatus) : WaldurMachine :=
  mkWaldurMachine (wm_ObjectMeta m) (wm_Spec m) s.

Definition set_wm_Finalizers (m : WaldurMachine) (fs : list string) : WaldurMachine :=
  mkWaldurMachine (set_om_Finalizers (wm_ObjectMeta m) fs) (wm_Spec m) (wm_Status m).

Definition set_wm_ProviderID (m : WaldurMachine) (id : option string) : WaldurMachine :=
  let s := wm_Spec m in
  mkWaldurMachine (wm_ObjectMeta m)
    (mkWaldurMachineSpec id (ms_OfferingSlug s) (ms_NodeType s) (ms_Flavor s) (ms_Image s)
       (ms_SystemDiskSize s) (ms_DataDiskSize s) (ms_VsanDiskSize s))
    (wm_Status m).

Definition set_mst_Conditions (s : WaldurMachineStatus) (cs : list Condition) :=
  mkWaldurMachineStatus cs (mst_Initialization s) (mst_VmUuid s) (mst_State s)
    (mst_MarketplaceResourceUuid s) (mst_MarketplaceResourceState s) (mst_Order s).

Definition set_mst_Initialization (s : WaldurMachineStatus) (i : option Initialization) :=
  mkWaldurMachineStatus (mst_Conditions s) i (mst_VmUuid s) (mst_State s)
    (mst_MarketplaceResourceUuid s) (mst_MarketplaceResourceState s) (mst_Order s).

Definition set_mst_VmUuid (s : WaldurMachineStatus) (u : option string) :=
  mkWaldurMachineStatus (mst_Conditions s) (mst_Initialization s) u (mst_State s)
    (mst_MarketplaceResourceUuid s) (mst_MarketplaceResourceState s) (mst_Order s).

Definition set_mst_State (s : WaldurMachineStatus) (st : CoreStates) :=
  mkWaldurMachineStatus (mst_Conditions s) (mst_Initialization s) (mst_VmUuid s) st
    (mst_MarketplaceResourceUuid s) (mst_MarketplaceResourceState s) (mst_Order s).

Definition set_mst_MarketplaceResourceUuid (s : WaldurMachineStatus) (u : string) :=
  mkWaldurMachineStatus (mst_Conditions s) (mst_Initialization s) (mst_VmUuid s) (mst_State s)
    u (mst_MarketplaceResourceState s) (mst_Order s).

Definition set_mst_MarketplaceResourceState (s : WaldurMachineStatus) (st : ResourceState) :=
  mkWaldurMachineStatus (mst_Conditions s) (mst_Initialization s) (mst_VmUuid s) (mst_State s)
    (mst_MarketplaceResourceUuid s) st (mst_Order s).

Definition set_mst_Order (s : WaldurMachineStatus) (o : option WaldurOrder) :=
  mkWaldurMachineStatus (mst_Conditions s) (mst_Initialization s) (mst_VmUuid s) (mst_State s)
    (mst_MarketplaceResourceUuid s) (mst_MarketplaceResourceState s) o.

Definition set_wc_Status (c : WaldurCluster) (s : WaldurClusterStatus) : WaldurCluster :=
  mkWaldurCluster (wc_ObjectMeta c) (wc_Spec c) s.

Definition set_wc_Finalizers (c : WaldurCluster) (fs : list string) : WaldurCluster :=
  mkWaldurCluster (set_om_Finalizers (wc_ObjectMeta c) fs) (wc_Spec c) (wc_Status c).

Definition set_wc_Tenants (c : WaldurCluster) (ts : gmap string OpenStackTenant) : WaldurCluster :=
  set_wc_Status c
    (mkWaldurClusterStatus (cst_Conditions (wc_Status c)) (cst_Initialization (wc_Status c)) ts).

Definition set_wc_ControlPlaneEndpoint (c : WaldurCluster) (e : APIEndpoint) : WaldurCluster :=
  let s := wc_Spec c in
  mkWaldurCluster (wc_ObjectMeta c)
    (mkWaldurClusterSpec (cs_KubernetesVersion s) (cs_Topology s) (cs_Datacenters s)
       (cs_SecurityRules s) e)
    (wc_Status c).

Definition set_t_State (t : OpenStackTenant) (s : CoreStates) :=
  mkOpenStackTenant s (t_Uuid t) (t_Name t) (t_MarketplaceResourceUuid t)
    (t_MarketplaceResourceState t) (t_ProjectSlug t) (t_Order t).

Definition set_t_Uuid (t : OpenStackTenant) (u : option string) :=
  mkOpenStackTenant (t_State t) u (t_Name t) (t_MarketplaceResourceUuid t)
    (t_MarketplaceResourceState t) (t_ProjectSlug t) (t_Order t).

Definition set_t_Name (t : OpenStackTenant) (n : string) :=
  mkOpenStackTenant (t_State t) (t_Uuid t) n (t_MarketplaceResourceUuid t)
    (t_MarketplaceResourceState t) (t_ProjectSlug t) (t_Order t).

Definition set_t_MarketplaceResourceUuid (t : OpenStackTenant) (u : string) :=
  mkOpenStackTenant (t_State t) (t_Uuid t) (t_Name t) u
    (t_MarketplaceResourceState t) (t_ProjectSlug t) (t_Order t).

Definition set_t_MarketplaceResourceState (t : OpenStackTenant) (s : ResourceState) :=
  mkOpenStackTenant (t_State t) (t_Uuid t) (t_Name t) (t_MarketplaceResourceUuid t)
    s (t_ProjectSlug t) (t_Order t).

Definition set_t_Order (t : OpenStackTenant) (o : option WaldurOrder) :=
  mkOpenStackTenant (t_State t) (t_Uuid t) (t_Name t) (t_MarketplaceResourceUuid t)
    (t_MarketplaceResourceState t) (t_ProjectSlug t) o.
