(* ===== verification/Calls.v ===== *)
(** The interfaces of the controllers: the calls they make, as a signature of
    [Prog], and the pure library functions they use, as type classes with
    their documented laws.

    - [KGet...], [KList...], [KUpdate...], [KPatch...]: the controller-runtime
      client. [Update] and [Patch] write the server's answer into the object
      they are given, so their answer is the object in memory afterwards.
    - [ProjectsList] .. [CustomersList]: the generated Waldur client.
    - [SecretExists] .. [RevokeSecretID]: the [Client] interface of
      src/internal/vault.
    - [EncodeAttributes]: the client's [From...Attributes] methods, which may
      fail to encode.
    - [Range]: the order in which a [range] loop visits the keys of a map; Go
      leaves it open, and it is a permutation of the keys. *)
From S2P Require Import Prelude Prog Types.
From Stdlib Require Import ZArith.
From stdpp Require Import base gmap strings list.

Inductive Call :=
(* controller-runtime client *)
| KGetWaldurMachine (nn : NamespacedName)
| KGetWaldurCluster (nn : NamespacedName)
| KGetMachine (nn : NamespacedName)
| KGetCluster (nn : NamespacedName)
| KGetSecret (nn : NamespacedName)
| KListWaldurMachines (namespace : string) (labels : gmap string string)
| KUpdateWaldurMachine (obj : WaldurMachine)
| KPatchWaldurMachine (obj base : WaldurMachine)
| KPatchWaldurMachineStatus (obj base : WaldurMachine)
| KUpdateWaldurCluster (obj : WaldurCluster)
| KPatchWaldurClusterStatus (obj base : WaldurCluster)
(* Waldur API client *)
| ProjectsList (nameExact : option string) (customer : option (list UUID)) (slug : option string)
| ProjectsCreate (name customer : string)
| ProjectsDestroy (uuid : UUID)
| MarketplaceOrdersCreate (payload : OrderCreateRequest)
| MarketplaceOrdersRetrieve (uuid : UUID)
| MarketplaceResourcesRetrieve (uuid : UUID)
| MarketplaceResourcesTerminate (uuid : UUID)
| MarketplaceResourcesOfferingForSubresourcesList (uuid : UUID)
| MarketplacePublicOfferingsList (slug : string)
| MarketplacePublicOfferingsRetrieve (uuid : UUID)
| OpenstackFlavorsList (offeringUuid : option UUID) (nameExact : string)
| OpenstackImagesList (offeringUuid : option UUID) (nameExact : string)
| OpenstackSecurityGroupsList (tenantUuid : UUID)
| OpenstackSubnetsList (tenantUuid : UUID)
| OpenstackVolumeTypesList (tenantUuid : UUID)
| OpenstackTenantsRetrieve (uuid : UUID)
| OpenstackInstancesRetrieve (uuid : UUID) (fields : list string)
| OpenstackInstancesStop (uuid : UUID)
| CustomersList (nameExact : string) (fields : list string)
| EncodeAttributes (a : OrderAttributes)
(* Vault client *)
| SecretExists (path : string)
| WriteSecret (path : string) (data : gmap string string)
| GenerateSecretID (roleName : string)
| RevokeSecretID (roleName secretID : string)
(* Go runtime *)
| Range (keys : list string).

Definition Call_resp (c : Call) : Type :=
  match c with
  | KGetWaldurMachine _ => result WaldurMachine
  | KGetWaldurCluster _ => result WaldurCluster
  | KGetMachine _ => result Machine
  | KGetCluster _ => result Cluster
  | KGetSecret _ => result Secret
  | KListWaldurMachines _ _ => result (list WaldurMachine)
  | KUpdateWaldurMachine _ => result WaldurMachine
  | KPatchWaldurMachine _ _ => result WaldurMachine
  | KPatchWaldurMachineStatus _ _ => result WaldurMachine
  | KUpdateWaldurCluster _ => result WaldurCluster
  | KPatchWaldurClusterStatus _ _ => result WaldurCluster
  | ProjectsList _ _ _ => result (response (list Project))
  | ProjectsCreate _ _ => result (response Project)
  | ProjectsDestroy _ => result (response unit)
  | MarketplaceOrdersCreate _ => result (response OrderDetails)
  | MarketplaceOrdersRetrieve _ => result (response OrderDetails)
  | MarketplaceResourcesRetrieve _ => result (response Resource)
  | MarketplaceResourcesTerminate _ => result (response TerminateResponse)
  | MarketplaceResourcesOfferingForSubresourcesList _ =>
      result (response (list SubresourceOffering))
  | MarketplacePublicOfferingsList _ => result (response (list PublicOfferingDetails))
  | MarketplacePublicOfferingsRetrieve _ => result (response PublicOfferingDetails)
  | OpenstackFlavorsList _ _ => result (response (list OpenStackFlavor))
  | OpenstackImagesList _ _ => result (response (list OpenStackImage))
  | OpenstackSecurityGroupsList _ => result (response (list OpenStackSecurityGroup))
  | OpenstackSubnetsList _ => result (response (list OpenStackSubNet))
  | OpenstackVolumeTypesList _ => result (response (list OpenStackVolumeType))
  | OpenstackTenantsRetrieve _ => result (response ApiTenant)
  | OpenstackInstancesRetrieve _ _ => result (response OpenStackInstance)
  | OpenstackInstancesStop _ => result (response unit)
  | CustomersList _ _ => result (response (list Customer))
  | EncodeAttributes _ => option error
  | SecretExists _ => result bool
  | WriteSecret _ _ => option error
  | GenerateSecretID _ => result string
  | RevokeSecretID _ _ => option error
  | Range _ => list string
  end.

Definition Call_allowed (c : Call) : Call_resp c -> Prop :=
  match c with
  | Range keys => fun order => order ≡ₚ keys
  | _ => fun _ => True
  end.

Definition ctl : sig := Sig Call Call_resp Call_allowed.

(** The programs of the controllers. *)
Abbreviation M := (prog ctl).

(** A call of [ctl], its answer returned. *)
Definition ask (c : Call) : M (Call_resp c) := perform (S := ctl) c.

#[global] Arguments ask : simpl never.

Lemma only_ask (P : Call -> Prop) c : P c -> only (S := ctl) P (ask c).
Proof. apply (only_perform (S := ctl)). Qed.

(** ** Which calls matter *)

(** Calls that change the state of Waldur. *)
Definition waldur_writes (c : Call) : bool :=
  match c with
  | ProjectsCreate _ _ | ProjectsDestroy _ | MarketplaceOrdersCreate _
  | MarketplaceResourcesTerminate _ | OpenstackInstancesStop _ => true
  | _ => false
  end.

(** Calls that change an object of the Kubernetes API. *)
Definition kube_writes (c : Call) : bool :=
  match c with
  | KUpdateWaldurMachine _ | KPatchWaldurMachine _ _ | KPatchWaldurMachineStatus _ _
  | KUpdateWaldurCluster _ | KPatchWaldurClusterStatus _ _ => true
  | _ => false
  end.

(** Calls that change the state of Vault. *)
Definition vault_writes (c : Call) : bool :=
  match c with
  | WriteSecret _ _ | GenerateSecretID _ | RevokeSecretID _ _ => true
  | _ => false
  end.

Definition is_order_create (c : Call) : bool :=
  match c with MarketplaceOrdersCreate _ => true | _ => false end.
Definition is_terminate (c : Call) : bool :=
  match c with MarketplaceResourcesTerminate _ => true | _ => false end.
Definition is_stop (c : Call) : bool :=
  match c with OpenstackInstancesStop _ => true | _ => false end.
Definition is_machine_update (c : Call) : bool :=
  match c with KUpdateWaldurMachine _ => true | _ => false end.
Definition is_machine_patch (c : Call) : bool :=
  match c with KPatchWaldurMachine _ _ => true | _ => false end.
Definition is_machine_status_patch (c : Call) : bool :=
  match c with KPatchWaldurMachineStatus _ _ => true | _ => false end.
Definition is_cluster_update (c : Call) : bool :=
  match c with KUpdateWaldurCluster _ => true | _ => false end.
Definition is_cluster_status_patch (c : Call) : bool :=
  match c with KPatchWaldurClusterStatus _ _ => true | _ => false end.
Definition is_project_destroy (c : Call) : bool :=
  match c with ProjectsDestroy _ => true | _ => false end.
Definition is_project_create (c : Call) : bool :=
  match c with ProjectsCreate _ _ => true | _ => false end.

Definition is_revoke (c : Call) : bool :=
  match c with RevokeSecretID _ _ => true | _ => false end.
Definition is_generate (c : Call) : bool :=
  match c with GenerateSecretID _ => true | _ => false end.
Definition is_write_secret (c : Call) : bool :=
  match c with WriteSecret _ _ => true | _ => false end.

(** Reads only, anywhere. *)
Definition reads (c : Call) : Prop :=
  waldur_writes c = false /\ kube_writes c = false /\ vault_writes c = false.

(** ** Pure library functions *)

(** github.com/google/uuid. *)
Class UuidLib := {
  uuid_Parse : string -> result UUID;
  uuid_String : UUID -> string;
}.

(** The canonical text of a UUID parses back, and is never empty. *)
Class UuidLaws `(UuidLib) : Prop := {
  uuid_Parse_String : forall u, uuid_Parse (uuid_String u) = Ok u;
  uuid_String_nonempty : forall u, uuid_String u <> ""%string;
}.

(** k8s.io/apimachinery, controllerutil and the label of Cluster API. *)
Class KubeLib := {
  ClusterNameLabel : string;
  ContainsFinalizer : list string -> string -> bool;
  AddFinalizer : list string -> string -> list string;
  RemoveFinalizer : list string -> string -> list string;
  SetStatusCondition : list Condition -> Condition -> list Condition;
}.

(** [meta.FindStatusCondition]: the first condition of a type. *)
Definition FindStatusCondition (cs : list Condition) (ty : string) : option Condition :=
  List.find (fun c => bool_decide (c_Type c = ty)) cs.

Class KubeLaws `(KubeLib) : Prop := {
  ContainsFinalizer_spec : forall fs f, ContainsFinalizer fs f = true <-> f ∈ fs;
  AddFinalizer_spec : forall fs f g, g ∈ AddFinalizer fs f <-> g = f \/ g ∈ fs;
  RemoveFinalizer_spec : forall fs f g, g ∈ RemoveFinalizer fs f <-> g <> f /\ g ∈ fs;
  SetStatusCondition_eq : forall cs c,
    FindStatusCondition (SetStatusCondition cs c) (c_Type c) = Some c;
  SetStatusCondition_ne : forall cs c ty, ty <> c_Type c ->
    FindStatusCondition (SetStatusCondition cs c) ty = FindStatusCondition cs ty;
}.

Lemma RemoveFinalizer_only `{KubeLaws} f : RemoveFinalizer [f] f = [].
Proof.
  destruct (RemoveFinalizer [f] f) as [|g l] eqn:E; [done|].
  assert (g ∈ RemoveFinalizer [f] f) as [Hne Hin]%RemoveFinalizer_spec by (rewrite E; by left).
  by apply list_elem_of_singleton in Hin.
Qed.

(** ** Symbolic execution of [ctl] programs *)

Lemma wp_ask_bind {A} (c : Call) (f : Call_resp c -> M A) Q :
  (forall r, Call_allowed c r -> wp (f r) (fun tr o => Q (@Ev ctl c r :: tr) o)) ->
  wp (bind (ask c) f) Q.
Proof. done. Qed.

Lemma only_ask_bind {A} (P : Call -> Prop) (c : Call) (f : Call_resp c -> M A) :
  P c -> (forall r, only (S := ctl) P (f r)) -> only (S := ctl) P (bind (ask c) f).
Proof. intros ? ?. apply (only_bind (S := ctl)); [by apply only_ask|done]. Qed.

(** A call/answer pair of the controllers. *)
Abbreviation Evt c r := (@Ev ctl c r).

(** A footprint that holds of every reading call. *)
Class ReadsIn (P : Call -> Prop) : Prop := reads_in : forall c, reads c -> P c.

#[export] Instance ReadsIn_reads : ReadsIn reads.
Proof. by intros c. Qed.
#[export] Instance ReadsIn_no_create : ReadsIn (fun c => is_order_create c = false).
Proof. by intros [] (? & ? & ?). Qed.
#[export] Instance ReadsIn_no_terminate : ReadsIn (fun c => is_terminate c = false).
Proof. by intros [] (? & ? & ?). Qed.
#[export] Instance ReadsIn_no_stop : ReadsIn (fun c => is_stop c = false).
Proof. by intros [] (? & ? & ?). Qed.
#[export] Instance ReadsIn_no_machine_update : ReadsIn (fun c => is_machine_update c = false).
Proof. by intros [] (? & ? & ?). Qed.
#[export] Instance ReadsIn_no_machine_patch : ReadsIn (fun c => is_machine_patch c = false).
Proof. by intros [] (? & ? & ?). Qed.
#[export] Instance ReadsIn_no_status_patch : ReadsIn (fun c => is_machine_status_patch c = false).
Proof. by intros [] (? & ? & ?). Qed.
#[export] Instance ReadsIn_no_cluster_update : ReadsIn (fun c => is_cluster_update c = false).
Proof. by intros [] (? & ? & ?). Qed.
#[export] Instance ReadsIn_no_destroy : ReadsIn (fun c => is_project_destroy c = false).
Proof. by intros [] (? & ? & ?). Qed.
#[export] Instance ReadsIn_no_waldur : ReadsIn (fun c => waldur_writes c = false).
Proof. by intros c (? & ? & ?). Qed.
#[export] Instance ReadsIn_no_cluster_status_patch :
  ReadsIn (fun c => is_cluster_status_patch c = false).
Proof. by intros [] (? & ? & ?). Qed.
#[export] Instance ReadsIn_no_revoke : ReadsIn (fun c => is_revoke c = false).
Proof. by intros [] (? & ? & ?). Qed.
#[export] Instance ReadsIn_no_generate : ReadsIn (fun c => is_generate c = false).
Proof. by intros [] (? & ? & ?). Qed.
#[export] Instance ReadsIn_no_kube : ReadsIn (fun c => kube_writes c = false).
Proof. by intros c (? & ? & ?). Qed.

(** A program that only reads is within every such footprint. *)
Lemma reads_only {A} (P : Call -> Prop) `{!ReadsIn P} (p : M A) :
  only (S := ctl) reads p -> only (S := ctl) P p.
Proof. intros Hp. eapply only_mono; [exact Hp|apply reads_in]. Qed.

#[export] Hint Extern 1 (reads _) => (split_and!; reflexivity) : go_footprint.
#[export] Hint Extern 1 (@eq bool _ false) => reflexivity : go_footprint.
#[export] Hint Extern 5 (only _ _) => (apply (reads_only _)) : go_footprint.

(** Decompose a controller program; sub-programs with a footprint in
    [go_footprint] are closed by it. *)
Ltac ctl_only :=
  repeat (go_only; try match goal with |- only _ (ask _) => apply only_ask end);
  auto with go_footprint.

(** One step of symbolic execution of a goal [wp p Q]. *)
Ltac wp_step :=
  cbv beta iota zeta;
  lazymatch goal with
  | |- wp (bind (ask _) _) _ => apply wp_ask_bind; intros ? ?
  | |- wp (ask _) _ => intros ? ?
  | |- _ => wp_pure_step
  end.

Ltac wp_steps := repeat wp_step.

(** The specification of the first half of a [bind]; panics are dealt with by
    [done]. *)
Tactic Notation "wp_call" uconstr(spec) :=
  cbv beta iota zeta; eapply wp_bind_mono; [apply spec| |try done].

(** *** Against an environment *)

Lemma runs_ask {W A} (env : environment ctl W) w (c : Call) (k : Call_resp c -> M A) Q :
  runs env (env c w).2 (k (env c w).1) Q -> runs env w (bind (ask c) k) Q.
Proof. apply (runs_vis (S := ctl)). Qed.

Lemma run_trace_ask {W A} (env : environment ctl W) w (c : Call) (k : Call_resp c -> M A) :
  run_trace env w (bind (ask c) k)
  = Evt c (env c w).1 :: run_trace env (env c w).2 (k (env c w).1).
Proof. apply (run_trace_vis (S := ctl)). Qed.

(** One step of a run; a [bind] of anything else runs its first half. *)
Ltac runs_step :=
  cbv beta iota zeta;
  lazymatch goal with
  | |- runs _ _ (Ret _) _ => apply runs_ret
  | |- runs _ _ (bind (ask _) _) _ => apply runs_ask
  | |- runs ?e ?w (bind (Ret ?a) ?k) ?Q => change (runs e w (k a) Q)
  | |- runs ?e ?w (bind (deref (Some ?a)) ?k) ?Q => change (runs e w (k a) Q)
  | |- runs _ _ (bind _ _) _ => apply runs_bind
  end.

Lemma Evt_inj c1 r1 c2 r2 : Evt c1 r1 = Evt c2 r2 -> c1 = c2.
Proof. intros H. exact (f_equal ev_call H). Qed.

(** Membership in a trace that symbolic execution has spelled out. *)
Ltac trace_case :=
  repeat match goal with
  | H : _ ∈ [] |- _ => by apply not_elem_of_nil in H
  | H : _ ∈ _ :: _ |- _ =>
      apply elem_of_cons in H as [H|H]; [apply Evt_inj in H; try discriminate H|]
  end.

(** Find an event in a trace that is spelled out. *)
Ltac in_trace := repeat first [apply list_elem_of_here|apply list_elem_of_further].

(** The answer of an event, at the answer types the theorems speak of. *)
Definition machine_answer (e : event ctl) : option (result WaldurMachine) :=
  match ev_call e as c return Call_resp c -> option (result WaldurMachine) with
  | KPatchWaldurMachineStatus _ _ | KPatchWaldurMachine _ _ | KUpdateWaldurMachine _ =>
      fun a => Some a
  | _ => fun _ => None
  end (ev_resp e).

Definition order_answer (e : event ctl) : option (result (response OrderDetails)) :=
  match ev_call e as c return Call_resp c -> option (result (response OrderDetails)) with
  | MarketplaceOrdersCreate _ => fun a => Some a
  | _ => fun _ => None
  end (ev_resp e).

Definition terminate_answer (e : event ctl) : option (result (response TerminateResponse)) :=
  match ev_call e as c return Call_resp c -> option (result (response TerminateResponse)) with
  | MarketplaceResourcesTerminate _ => fun a => Some a
  | _ => fun _ => None
  end (ev_resp e).

Definition secret_answer (e : event ctl) : option (result string) :=
  match ev_call e as c return Call_resp c -> option (result string) with
  | GenerateSecretID _ => fun a => Some a
  | _ => fun _ => None
  end (ev_resp e).

Definition cluster_answer (e : event ctl) : option (result WaldurCluster) :=
  match ev_call e as c return Call_resp c -> option (result WaldurCluster) with
  | KPatchWaldurClusterStatus _ _ | KUpdateWaldurCluster _ => fun a => Some a
  | _ => fun _ => None
  end (ev_resp e).

(** [trace_case], keeping the answer of the call that matched through [f]. *)
Ltac trace_case_with f :=
  repeat match goal with
  | H : _ ∈ [] |- _ => by apply not_elem_of_nil in H
  | H : _ ∈ _ :: _ |- _ =>
      apply elem_of_cons in H as [H|H];
      [let H' := fresh "Hanswer" in
       pose proof (f_equal f H) as H'; apply Evt_inj in H; try discriminate H; simpl in H'|]
  end.

(** A trace of calls that all fail a test holds no call that passes it. *)
Lemma trace_without (φ : Call -> bool) (tr : list (event ctl)) (c : Call) (a : Call_resp c) :
  Forall (fun e : event ctl => φ (ev_call e) = false) tr -> Evt c a ∈ tr -> φ c = false.
Proof. rewrite Forall_forall. intros H Hin. exact (H _ Hin). Qed.

(** A program that never makes a call passing [φ]: its traces hold none. *)
Lemma wp_without {A} (φ : Call -> bool) (p : M A) Q :
  only (S := ctl) (fun c : Call => φ c = false) p ->
  (forall tr o, Forall (fun e : event ctl => φ (ev_call e) = false) tr -> Q tr o) ->
  wp p Q.
Proof. intros Hp HQ. eapply wp_mono; [exact (only_wp (S := ctl) _ _ Hp)|exact HQ]. Qed.

(** A trace of reads holds no call of a kind that is not a read. *)
Lemma reads_trace (φ : Call -> bool) `{!ReadsIn (fun c => φ c = false)} (tr : list (event ctl)) :
  Forall (fun e : event ctl => reads (ev_call e)) tr ->
  Forall (fun e : event ctl => φ (ev_call e) = false) tr.
Proof.
  intros H. eapply Forall_impl; [exact H|]. intros e.
  apply (reads_in (P := fun c => φ c = false)).
Qed.

(** No Kubernetes write is, in particular, none of a kind. *)
Lemma no_kube_trace (φ : Call -> bool) (tr : list (event ctl)) :
  (forall c, φ c = true -> kube_writes c = true) ->
  Forall (fun e : event ctl => kube_writes (ev_call e) = false) tr ->
  Forall (fun e : event ctl => φ (ev_call e) = false) tr.
Proof.
  intros Hφ H. eapply Forall_impl; [exact H|]. intros e He.
  destruct (φ (ev_call e)) eqn:E; [|done]. apply Hφ in E. cbv beta in He. congruence.
Qed.

(** A first half that makes no call of a kind [φ], before a postcondition that
    only speaks of such calls. *)
Lemma wp_bind_skip {A B} (φ : Call -> bool) (m : M A) (f : A -> M B)
    (Q : list (event ctl) -> outcome B -> Prop) :
  (forall pre tr o, Forall (fun e : event ctl => φ (ev_call e) = false) pre ->
     Q tr o -> Q (pre ++ tr) o) ->
  only (S := ctl) (fun c : Call => φ c = false) m ->
  (forall a, wp (f a) Q) ->
  (forall tr, Forall (fun e : event ctl => φ (ev_call e) = false) tr -> Q tr Panicked) ->
  wp (bind m f) Q.
Proof.
  intros Hpre Hm Hf Hp. eapply wp_bind_mono; [exact (only_wp (S := ctl) _ _ Hm)| |exact Hp].
  intros tr a Htr. eapply wp_mono; [apply Hf|]. intros tr' o. by apply Hpre.
Qed.

(** A trace that begins with its only order. *)
Lemma order_at_head (payload p : OrderCreateRequest) (a : result (response OrderDetails))
    (rest : list (event ctl)) (resp : response OrderDetails) :
  Forall (fun e : event ctl => is_order_create (ev_call e) = false) rest ->
  Evt (MarketplaceOrdersCreate p) (Ok resp) ∈ Evt (MarketplaceOrdersCreate payload) a :: rest ->
  a = Ok resp.
Proof.
  intros Hrest [Hin|Hin]%elem_of_cons.
  - apply (f_equal order_answer) in Hin. by injection Hin.
  - by pose proof (trace_without _ _ _ _ Hrest Hin).
Qed.
