(* ===== verification/Helpers.v ===== *)
(** The Waldur API helpers of src/internal/controller/waldur_helpers.go. *)
From S2P Require Import Prelude Prog Types Calls.
From Stdlib Require Import ZArith Lia.
From stdpp Require Import base gmap strings list.
Local Open Scope string_scope.
Local Open Scope go_scope.

Section Helpers.
Context `{UuidLib}.

(** getFlavor looks up an OpenStack flavor by name within an offering. *)
Definition getFlavor (offering : PublicOfferingDetails) (flavorName : string)
    : M (result OpenStackFlavor) :=
  let? resp := ask (OpenstackFlavorsList (po_Uuid offering) flavorName)
    else err => Ret (Err err) in
  let* flavors := deref (JSON resp) in
  match flavors with
  | [] =>
      let* slug := deref (po_Slug offering) in
      Ret (Err (Errorf "flavor %q not found in offering %s" [FStr flavorName; FStr slug]))
  | flavor :: _ => Ret (Ok flavor)
  end.

(** getImage looks up an OpenStack image by name within an offering. *)
Definition getImage (offering : PublicOfferingDetails) (imageName : string)
    : M (result OpenStackImage) :=
  let? resp := ask (OpenstackImagesList (po_Uuid offering) imageName)
    else err => Ret (Err err) in
  let* images := deref (JSON resp) in
  match images with
  | [] =>
      let* slug := deref (po_Slug offering) in
      Ret (Err (Errorf "image %q not found in offering %s" [FStr imageName; FStr slug]))
  | image :: _ => Ret (Ok image)
  end.

Definition getTenantSecurityGroups (tenantUuid : UUID)
    : M (result (list OpenStackSecurityGroup)) :=
  let? resp := ask (OpenstackSecurityGroupsList tenantUuid)
    else err => Ret (Err (Wrap err "unable to list security groups")) in
  let* groups := deref (JSON resp) in
  Ret (Ok groups).

Definition getTenantSubnets (tenantUuid : UUID) : M (result (list OpenStackSubNet)) :=
  let? resp := ask (OpenstackSubnetsList tenantUuid)
    else err => Ret (Err (Wrap err "unable to list subnets")) in
  let* subnets := deref (JSON resp) in
  Ret (Ok subnets).

Definition getTenantVolumeTypes (tenantUuid : UUID) : M (result (list OpenStackVolumeType)) :=
  let? resp := ask (OpenstackVolumeTypesList tenantUuid)
    else err => Ret (Err (Wrap err "unable to list volume types")) in
  let* volumeTypes := deref (JSON resp) in
  Ret (Ok volumeTypes).

(** getOffering looks up a Waldur marketplace offering by slug. *)
Definition getOffering (offeringSlug : string) : M (result PublicOfferingDetails) :=
  let? offeringResponse := ask (MarketplacePublicOfferingsList offeringSlug)
    else err => Ret (Err err) in
  let* offerings := deref (JSON offeringResponse) in
  match offerings with
  | [] => Ret (Err (Errorf "unable to find an offering with slug %s" [FStr offeringSlug]))
  | offering :: _ => Ret (Ok offering)
  end.

Definition getOfferingByUUID (offeringUuid : UUID) : M (result PublicOfferingDetails) :=
  let? offeringResponse := ask (MarketplacePublicOfferingsRetrieve offeringUuid)
    else err => Ret (Err err) in
  let* offering := deref (JSON offeringResponse) in
  Ret (Ok offering).

(** getMarketplaceResource returns [resp.JSON200], which may be nil. *)
Definition getMarketplaceResource (marketplaceResourceUuid : string)
    : M (result (option Resource)) :=
  match uuid_Parse marketplaceResourceUuid with
  | Err err => Ret (Err (Wrap err "unable to parse marketplace resource UUID"))
  | Ok resourceUuid =>
      let? resp := ask (MarketplaceResourcesRetrieve resourceUuid)
        else err => Ret (Err (Wrap err "unable to retrieve marketplace resource")) in
      Ret (Ok (JSON resp))
  end.

(** The in-memory record after [refreshOrder] has read [order]. *)
Definition update_order (existingOrder : WaldurOrder) (state : OrderState)
    (resourceUuid : option UUID) : WaldurOrder :=
  mkWaldurOrder (wo_Uuid existingOrder) (wo_Type existingOrder) state
    (wo_MarketplaceResourceUuid existingOrder)
    match resourceUuid with
    | Some u => Some (uuid_String u)
    | None => wo_ResourceUuid existingOrder
    end.

(** refreshOrder updates the order it points to; the answer holds the order
    afterwards and the error. *)
Definition refreshOrder (existingOrder : WaldurOrder) : M (WaldurOrder * option error) :=
  match uuid_Parse (wo_Uuid existingOrder) with
  | Err err => Ret (existingOrder, Some err)
  | Ok orderUuid =>
      let? orderResponse := ask (MarketplaceOrdersRetrieve orderUuid)
        else err => Ret (existingOrder, Some err) in
      let* order := deref (JSON orderResponse) in
      let* state := deref (od_State order) in
      Ret (update_order existingOrder state (od_ResourceUuid order), None)
  end.

(** isOrderTerminal reports whether an order has reached a terminal state. *)
Definition isOrderTerminal (state : OrderState) : bool :=
  bool_decide (state = OrderStateDone) || bool_decide (state = OrderStateErred) ||
  bool_decide (state = OrderStateCanceled).
(** The order half of [refreshVM] and of [refreshTenant]: an order that is not
    terminal is read again, in place. *)
Definition refresh_pending_order (order : option WaldurOrder)
    : M (option WaldurOrder * option error) :=
  match order with
  | Some o =>
      if isOrderTerminal (wo_State o)
      then Ret (order, None)
      else
        let* (o', err) := refreshOrder o in
        match err with
        | Some e => Ret (Some o', Some (Wrap e "unable to refresh order"))
        | None => Ret (Some o', None)
        end
  | None => Ret (None, None)
  end.

Definition submitTerminationOrder (marketplaceResourceUuid : string) : M (result WaldurOrder) :=
  match uuid_Parse marketplaceResourceUuid with
  | Err err => Ret (Err (Wrap err "unable to parse marketplace resource UUID"))
  | Ok resourceUuid =>
      let? resp := ask (MarketplaceResourcesTerminate resourceUuid)
        else err => Ret (Err err) in
      if negb (Z.eqb (StatusCode resp) 200) && negb (Z.eqb (StatusCode resp) 202)
      then Ret (Err (Errorf "unable to submit termination order, status %d: %s"
                       [FInt (StatusCode resp); FStr (Body resp)]))
      else
        match JSON resp ≫= tr_OrderUuid with
        | None => Ret (Err (Errorf "termination order response missing order UUID" []))
        | Some u =>
            Ret (Ok (mkWaldurOrder (uuid_String u) Terminate OrderStatePendingProvider
                       marketplaceResourceUuid None))
        end
  end.

End Helpers.

(** ** The helpers only read, except for the termination order *)

Section HelperFootprints.
Context `{UuidLib}.

Lemma getFlavor_reads offering name : only (S := ctl) reads (getFlavor offering name).
Proof. unfold getFlavor. ctl_only. Qed.
Lemma getImage_reads offering name : only (S := ctl) reads (getImage offering name).
Proof. unfold getImage. ctl_only. Qed.
Lemma getTenantSecurityGroups_reads u : only (S := ctl) reads (getTenantSecurityGroups u).
Proof. unfold getTenantSecurityGroups. ctl_only. Qed.
Lemma getTenantSubnets_reads u : only (S := ctl) reads (getTenantSubnets u).
Proof. unfold getTenantSubnets. ctl_only. Qed.
Lemma getTenantVolumeTypes_reads u : only (S := ctl) reads (getTenantVolumeTypes u).
Proof. unfold getTenantVolumeTypes. ctl_only. Qed.
Lemma getOffering_reads slug : only (S := ctl) reads (getOffering slug).
Proof. unfold getOffering. ctl_only. Qed.
Lemma getOfferingByUUID_reads u : only (S := ctl) reads (getOfferingByUUID u).
Proof. unfold getOfferingByUUID. ctl_only. Qed.
Lemma getMarketplaceResource_reads u : only (S := ctl) reads (getMarketplaceResource u).
Proof. unfold getMarketplaceResource. ctl_only. Qed.
Lemma refreshOrder_reads o : only (S := ctl) reads (refreshOrder o).
Proof. unfold refreshOrder. ctl_only. Qed.
Lemma refresh_pending_order_reads o : only (S := ctl) reads (refresh_pending_order o).
Proof. unfold refresh_pending_order. ctl_only. apply refreshOrder_reads. Qed.
Lemma submitTerminationOrder_only (P : Call -> Prop) u :
  (forall uuid, P (MarketplaceResourcesTerminate uuid)) ->
  only (S := ctl) P (submitTerminationOrder u).
Proof. intros HP. unfold submitTerminationOrder. ctl_only. Qed.
End HelperFootprints.

#[export] Hint Resolve getFlavor_reads getImage_reads getTenantSecurityGroups_reads
  getTenantSubnets_reads getTenantVolumeTypes_reads getOffering_reads getOfferingByUUID_reads
  getMarketplaceResource_reads refreshOrder_reads refresh_pending_order_reads : go_footprint.

(** ** Refreshing an order *)

Section OrderFacts.
Context `{UuidLib}.

Lemma isOrderTerminal_spec s :
  isOrderTerminal s = true <->
  s = OrderStateDone \/ s = OrderStateErred \/ s = OrderStateCanceled.
Proof.
  unfold isOrderTerminal. rewrite !orb_true_iff, !bool_decide_eq_true. tauto.
Qed.

(** What [refresh_pending_order] may change of an order: its state and its
    resource UUID, and nothing once the order is terminal. *)
Definition order_refreshed (o o' : option WaldurOrder) : Prop :=
  match o, o' with
  | None, None => True
  | Some o, Some o' =>
      wo_Uuid o' = wo_Uuid o /\ wo_Type o' = wo_Type o /\
      wo_MarketplaceResourceUuid o' = wo_MarketplaceResourceUuid o /\
      (wo_ResourceUuid o' = None -> wo_ResourceUuid o = None) /\
      (isOrderTerminal (wo_State o) = true -> o' = o)
  | _, _ => False
  end.

Lemma order_refreshed_refl o : order_refreshed o o.
Proof. by destruct o. Qed.

Lemma refresh_pending_order_spec o :
  wp (refresh_pending_order o) (fun _ res =>
    match res with Done (o', _) => order_refreshed o o' | Panicked => True end).
Proof.
  unfold refresh_pending_order, refreshOrder. destruct o as [o|]; [|done].
  destruct (isOrderTerminal _) eqn:Hterm; [simpl; auto|].
  wp_steps.
  all: simpl; unfold order_refreshed, update_order; simpl; rewrite ?Hterm.
  all: try done. all: split_and!; try done.
  by destruct (od_ResourceUuid _).
Qed.
End OrderFacts.

(** ** What a successful lookup returns *)

Section LookupFacts.
Context `{UuidLib}.

(** The call a lookup made, and that its answer is the first hit. *)
Ltac lookup_spec f := unfold f; wp_steps; simpl; try done; eexists; split; [reflexivity|];
  repeat match goal with H : JSON _ = _ |- _ => rewrite H end; done.

Definition answers_ok {A} (o : outcome (result A)) (P : A -> Prop) : Prop :=
  match o with Done (Ok a) => P a | _ => True end.

Lemma getFlavor_spec offering name :
  wp (getFlavor offering name) (fun tr o => answers_ok o (fun flavor => exists resp,
    tr = [Evt (OpenstackFlavorsList (po_Uuid offering) name) (Ok resp)] /\
    JSON resp ≫= head = Some flavor)).
Proof. lookup_spec @getFlavor. Qed.

Lemma getImage_spec offering name :
  wp (getImage offering name) (fun tr o => answers_ok o (fun image => exists resp,
    tr = [Evt (OpenstackImagesList (po_Uuid offering) name) (Ok resp)] /\
    JSON resp ≫= head = Some image)).
Proof. lookup_spec @getImage. Qed.

Lemma getOffering_spec slug :
  wp (getOffering slug) (fun tr o => answers_ok o (fun offering => exists resp,
    tr = [Evt (MarketplacePublicOfferingsList slug) (Ok resp)] /\
    JSON resp ≫= head = Some offering)).
Proof. lookup_spec @getOffering. Qed.

Lemma getOfferingByUUID_spec u :
  wp (getOfferingByUUID u) (fun tr o => answers_ok o (fun offering => exists resp,
    tr = [Evt (MarketplacePublicOfferingsRetrieve u) (Ok resp)] /\ JSON resp = Some offering)).
Proof. lookup_spec @getOfferingByUUID. Qed.

Lemma getTenantSecurityGroups_spec u :
  wp (getTenantSecurityGroups u) (fun tr o => answers_ok o (fun groups => exists resp,
    tr = [Evt (OpenstackSecurityGroupsList u) (Ok resp)] /\ JSON resp = Some groups)).
Proof. lookup_spec @getTenantSecurityGroups. Qed.

Lemma getTenantSubnets_spec u :
  wp (getTenantSubnets u) (fun tr o => answers_ok o (fun subnets => exists resp,
    tr = [Evt (OpenstackSubnetsList u) (Ok resp)] /\ JSON resp = Some subnets)).
Proof. lookup_spec @getTenantSubnets. Qed.

Lemma getTenantVolumeTypes_spec u :
  wp (getTenantVolumeTypes u) (fun tr o => answers_ok o (fun types => exists resp,
    tr = [Evt (OpenstackVolumeTypesList u) (Ok resp)] /\ JSON resp = Some types)).
Proof. lookup_spec @getTenantVolumeTypes. Qed.

Lemma getMarketplaceResource_spec text :
  wp (getMarketplaceResource text) (fun tr o => answers_ok o (fun resource => exists u resp,
    uuid_Parse text = Ok u /\
    tr = [Evt (MarketplaceResourcesRetrieve u) (Ok resp)] /\ JSON resp = resource)).
Proof. unfold getMarketplaceResource. wp_steps; simpl; try done; eauto. Qed.

(** A termination order is one call, unless the UUID does not parse. *)
Lemma submitTerminationOrder_trace text :
  wp (submitTerminationOrder text) (fun tr o =>
    o <> Panicked /\
    match uuid_Parse text with
    | Ok u => exists a, tr = [Evt (MarketplaceResourcesTerminate u) a]
    | Err _ => tr = []
    end).
Proof. unfold submitTerminationOrder. destruct (uuid_Parse text); wp_steps; eauto. Qed.
End LookupFacts.
