(* ===== verification/Cooperation.v ===== *)
(** A Waldur that does what it is asked, and what the helpers of the controllers make
    of it: the common part of the proofs that deletions complete.

    The theorems run the controllers against an environment that keeps Kubernetes
    objects of its own and leaves every other call to a function [f]. *)
From S2P Require Import Prelude Prog Types Calls Helpers.
From Stdlib Require Import ZArith.
From stdpp Require Import base gmap strings list.
Local Open Scope string_scope.
Local Open Scope list_scope.
Local Open Scope go_scope.

(** The calls of the controller-runtime client. *)
Definition kube_call (c : Call) : bool :=
  match c with
  | KGetWaldurMachine _ | KGetWaldurCluster _ | KGetMachine _ | KGetCluster _ | KGetSecret _
  | KListWaldurMachines _ _ | KUpdateWaldurMachine _ | KPatchWaldurMachine _ _
  | KPatchWaldurMachineStatus _ _ | KUpdateWaldurCluster _ | KPatchWaldurClusterStatus _ _ => true
  | _ => false
  end.

(** The environment leaves every other call to [f]. *)
Definition serves {W} (env : environment ctl W) (f : forall c : Call, Call_resp c) : Prop :=
  forall c w, kube_call c = false -> env c w = (f c, w).

(** Waldur accepts terminations, and answers reads of orders, which are done, and of
    resources with bodies the client decodes. *)
Record honours (f : forall c : Call, Call_resp c) : Prop := {
  hn_terminate : forall u, exists resp ou,
    f (MarketplaceResourcesTerminate u) = Ok resp /\
    (StatusCode resp = 200 \/ StatusCode resp = 202)%Z /\ JSON resp ≫= tr_OrderUuid = Some ou;
  hn_order : forall u, exists resp od,
    f (MarketplaceOrdersRetrieve u) = Ok resp /\ JSON resp = Some od /\
    od_State od = Some OrderStateDone;
  hn_resource : forall u, exists resp res,
    f (MarketplaceResourcesRetrieve u) = Ok resp /\ JSON resp = Some res;
}.

(** An answer with a body that the client decodes, which [P] holds of. *)
Definition answered {A} (r : result (response A)) (P : A -> Prop) : Prop :=
  exists resp a, r = Ok resp /\ JSON resp = Some a /\ P a.

(** A list with a first element, which [P] holds of. *)
Definition found {A} (P : A -> Prop) (l : list A) : Prop := exists a l', l = a :: l' /\ P a.

(** A result that is not an error, which [P] holds of. *)
Definition gives {A} (P : A -> Prop) (r : result A) : Prop := exists a, r = Ok a /\ P a.

(** What is known of an answer under a condition. *)
Lemma answered_if {A} (r : result (response A)) (P Q : A -> Prop) (C : Prop) :
  answered r P -> (C -> answered r Q) -> answered r (fun a => P a /\ (C -> Q a)).
Proof.
  intros (resp & a & Hr & Hj & HP) HC. exists resp, a. split_and!; [done..|]. intros HC'.
  destruct (HC HC') as (resp' & a' & Hr' & Hj' & HQ). by simplify_eq.
Qed.

Definition parses `{UuidLib} (s : string) : Prop := exists u, uuid_Parse s = Ok u.

Section Cooperation.
Context `{UuidLib} {W : Type}.
Variables (env : environment ctl W) (f : forall c : Call, Call_resp c).
Hypothesis Hserves : serves env f.

Lemma runs_served {A} w (c : Call) (k : Call_resp c -> M A) Q :
  kube_call c = false -> runs env w (k (f c)) Q -> runs env w (bind (ask c) k) Q.
Proof. intros Hc HQ. apply runs_ask. by rewrite Hserves by done. Qed.

Lemma runs_served_last w (c : Call) (P : Call_resp c -> Prop) :
  kube_call c = false -> P (f c) -> runs env w (ask c) (yields w P).
Proof.
  intros Hc HP. apply (runs_vis (S := ctl)). rewrite Hserves by done. by apply runs_yield.
Qed.

Lemma refreshOrder_runs w o (Q : outcome (WaldurOrder * option error) -> W -> Prop) :
  parses (wo_Uuid o) ->
  (forall u, exists resp od st, f (MarketplaceOrdersRetrieve u) = Ok resp /\ JSON resp = Some od /\
     od_State od = Some st /\ Q (Done (update_order o st (od_ResourceUuid od), None)) w) ->
  runs env w (refreshOrder o) Q.
Proof.
  intros [u Hu] HQ. unfold refreshOrder. rewrite Hu. apply runs_served; [done|].
  destruct (HQ u) as (resp & od & st & -> & Hod & Hst & Hdone). cbv iota. rewrite Hod. runs_step.
  cbv beta. rewrite Hst. exact Hdone.
Qed.

Lemma refresh_pending_runs w o (Q : outcome (option WaldurOrder * option error) -> W -> Prop) :
  parses (wo_Uuid o) -> isOrderTerminal (wo_State o) = false ->
  (forall u, exists resp od st, f (MarketplaceOrdersRetrieve u) = Ok resp /\ JSON resp = Some od /\
     od_State od = Some st /\ Q (Done (Some (update_order o st (od_ResourceUuid od)), None)) w) ->
  runs env w (refresh_pending_order (Some o)) Q.
Proof.
  intros Ho Hterm HQ. unfold refresh_pending_order. rewrite Hterm. runs_step.
  apply refreshOrder_runs; [done|]. intros u.
  destruct (HQ u) as (resp & od & st & ? & ? & ? & ?). by exists resp, od, st.
Qed.

(** With orders that can be read, a status that names its order stays so. *)
Lemma refresh_pending_yields w order :
  (forall u, answered (f (MarketplaceOrdersRetrieve u)) (fun od => is_Some (od_State od))) ->
  (forall o, order = Some o -> parses (wo_Uuid o)) ->
  runs env w (refresh_pending_order order)
    (yields w (fun r => r.2 = None /\ forall o, r.1 = Some o -> parses (wo_Uuid o))).
Proof.
  intros Hread Ho. destruct order as [o|]; [|by apply runs_yield].
  destruct (isOrderTerminal (wo_State o)) eqn:Hterm.
  { unfold refresh_pending_order. rewrite Hterm. by apply runs_yield. }
  pose proof (Ho o eq_refl) as Hu. apply refresh_pending_runs; [done..|]. intros u.
  destruct (Hread u) as (resp & od & Hresp & Hod & st & Hst).
  exists resp, od, st. do 4 (split; [done|]). eexists. split; [done|]. split; [done|].
  by intros o' [= <-].
Qed.

Lemma getMarketplaceResource_runs w text (Q : outcome (result (option Resource)) -> W -> Prop) :
  honours f -> (forall e, Q (Done (Err e)) w) -> (forall res, Q (Done (Ok (Some res))) w) ->
  runs env w (getMarketplaceResource text) Q.
Proof.
  intros Hf He HQ. unfold getMarketplaceResource. destruct (uuid_Parse text) as [u|e]; [|by runs_step].
  apply runs_served; [done|]. destruct (hn_resource _ Hf u) as (resp & res & -> & Hres).
  cbv iota. rewrite Hres. by runs_step.
Qed.

(** Whatever the answer, reading a resource leaves the world alone. *)
Lemma getMarketplaceResource_same w text :
  runs env w (getMarketplaceResource text) (fun _ w' => w' = w).
Proof.
  unfold getMarketplaceResource. destruct (uuid_Parse text); [|by runs_step].
  apply runs_served; [done|]. by destruct (f _).
Qed.

Lemma submitTermination_runs w text (Q : outcome (result WaldurOrder) -> W -> Prop) :
  honours f -> parses text ->
  (forall u, Q (Done (Ok (mkWaldurOrder (uuid_String u) Terminate OrderStatePendingProvider text None)))
               w) ->
  runs env w (submitTerminationOrder text) Q.
Proof.
  intros Hf [u Hu] HQ. unfold submitTerminationOrder. rewrite Hu. apply runs_served; [done|].
  destruct (hn_terminate _ Hf u) as (resp & ou & -> & Hs & Hou). cbv iota.
  replace (negb _ && negb _) with false.
  { rewrite Hou. apply HQ. }
  by destruct Hs as [-> | ->].
Qed.
End Cooperation.

(** The next call of a run is served, [Hs], as [Hc] says. *)
Ltac served_by Hs Hc :=
  apply (runs_served _ _ Hs); [done|];
  let resp := fresh "resp" in let a := fresh "a" in
  let Hr := fresh in let Hj := fresh in let HP := fresh "Ha" in
  destruct Hc as (resp & a & Hr & Hj & HP);
  rewrite Hr; cbv iota; rewrite Hj; try (runs_step; cbv beta).

(** The next pointer of a run is set. *)
Ltac is_set Hc := let v := fresh "v" in destruct Hc as [v ->]; runs_step; cbv beta.
