(* ===== verification/CloudInit.v ===== *)
(** The cloud-init documents of src/internal/controller/cloudinit.go.

    The YAML library is a parameter ([YamlLib]): the code relies on it to parse
    and print the cloud-init subset and the embedded RKE2 configuration. *)
From S2P Require Import Prelude Types.
From Stdlib Require Import ZArith Lia.
From stdpp Require Import base gmap strings list.
Local Open Scope string_scope.
Local Open Scope list_scope.

Definition rke2ConfigPath : string := "/etc/rancher/rke2/config.yaml".

(** Go's [any], as the YAML decoder fills it. *)
#[warnings="-register-all"]
Inductive any :=
| AnyNil
| AnyBool (b : bool)
| AnyInt (z : Z)
| AnyFloat (repr : string)
| AnyString (s : string)
| AnySeq (l : list any)
| AnyMap (l : list (string * any)).

(** CloudInitFile represents a single write_files entry. *)
Record CloudInitFile := mkCloudInitFile {
  ci_Path : string;
  ci_Content : string;
  ci_Permissions : string;
  ci_Owner : string;
  ci_Encoding : string;
}.

(** CloudInit represents the subset of cloud-init directives used. *)
Record CloudInit := mkCloudInit {
  WriteFiles : list CloudInitFile;
  RunCmd : list any;
  BootCmd : list any;
}.

(** The zero value, which an empty document leaves. *)
Definition emptyCloudInit : CloudInit := mkCloudInit [] [] [].

Record VaultParams := mkVaultParams {
  vp_Addr : string;
  vp_SecretPath : string;
  vp_RoleID : string;
  vp_SecretID : string;
}.

Record MergeInput := mkMergeInput {
  mi_BootstrapCloudInit : string;
  mi_StaticCloudInit : string;
  mi_VaultParams : VaultParams;
}.

Record RancherVaultParams := mkRancherVaultParams {
  rp_Addr : string;
  rp_SecretPath : string;
  rp_RoleID : string;
  rp_SecretID : string;
}.

Record RancherAgentInput := mkRancherAgentInput {
  ra_StaticCloudInit : string;
  ra_VaultParams : RancherVaultParams;
  ra_RancherURL : string;
}.

(** go.yaml.in/yaml/v3 at the types it is used at. *)
Class YamlLib := {
  yaml_Unmarshal_CloudInit : string -> result CloudInit;
  yaml_Marshal_CloudInit : CloudInit -> result string;
  yaml_Unmarshal_map : string -> result (gmap string any);
  yaml_Marshal_map : gmap string any -> result string;
}.

(** What is printed parses back to the value it was printed from. *)
Class YamlLaws `(YamlLib) : Prop := {
  yaml_CloudInit_roundtrip : forall ci s,
    yaml_Marshal_CloudInit ci = Ok s -> yaml_Unmarshal_CloudInit s = Ok ci;
  yaml_map_roundtrip : forall m s,
    yaml_Marshal_map m = Ok s -> yaml_Unmarshal_map s = Ok m;
}.

(** "\n" *)
Definition newline : string := String (Ascii.ascii_of_nat 10) "".

(** A write_files entry with the fields the code sets. *)
Definition file (path content permissions : string) : CloudInitFile :=
  mkCloudInitFile path content permissions "" "".

(** The format of the script of [BuildRancherAgentUserData]. *)
Definition rancher_script_format : string := raw "#!/bin/sh
# Fetch Rancher registration token from Vault using AppRole credentials.
# Runs as runcmd[0] — before rancher-system-agent starts.
set -e

VAULT_ADDR=`%s`
VAULT_SECRET_PATH=`%s`
RANCHER_URL=`%s`

ROLE_ID=$(cat /etc/vault/role-id)
SECRET_ID=$(cat /etc/vault/secret-id)

VAULT_TOKEN=$(curl -sf `${VAULT_ADDR}/v1/auth/approle/login` \
  --data `{\`role_id\`:\`${ROLE_ID}\`,\`secret_id\`:\`${SECRET_ID}\`}` \
  | grep -o '`client_token`:`[^`]*`' | sed 's/`client_token`:`//;s/`//')
[ -z `${VAULT_TOKEN}` ] && { echo `[ERROR] Vault login failed`; exit 1; }

RANCHER_TOKEN=$(curl -sf `${VAULT_ADDR}/v1/${VAULT_SECRET_PATH}` \
  -H `X-Vault-Token: ${VAULT_TOKEN}` \
  | grep -o '`clusterToken`:`[^`]*`' | sed 's/`clusterToken`:`//;s/`//')
[ -z `${RANCHER_TOKEN}` ] && { echo `[ERROR] Failed to fetch Rancher token from Vault`; exit 1; }

mkdir -p /etc/rancher-agent
printf 'token: %%s\nurl: %%s\n' `${RANCHER_TOKEN}` `${RANCHER_URL}` > /etc/rancher-agent/config.yaml
echo `[INFO] Rancher registration token written to /etc/rancher-agent/config.yaml`

rm -f /etc/vault/role-id /etc/vault/secret-id
".

(** The format of the script of [mergeCloudInit]. *)
Definition rke2_script_format : string := raw "#!/bin/bash
# Fetch the RKE2 join token from Vault using AppRole credentials.
# Runs as the first runcmd step — before RKE2 starts.
# Appends the token to /etc/rancher/rke2/config.yaml which already
# contains the server URL (written by the bootstrap provider).
set -euo pipefail

VAULT_ADDR=`%s`
VAULT_SECRET_PATH=`%s`
ROLE_ID=$(cat /etc/vault/role-id)
SECRET_ID=$(cat /etc/vault/secret-id)

VAULT_TOKEN=$(curl -sf `${VAULT_ADDR}/v1/auth/approle/login` \
  --data `{\`role_id\`:\`${ROLE_ID}\`,\`secret_id\`:\`${SECRET_ID}\`}` \
  | grep -o '`client_token`:`[^`]*`' | sed 's/`client_token`:`//;s/`//')
[ -z `${VAULT_TOKEN}` ] && { echo `[ERROR] Vault login failed`; exit 1; }

RKE2_TOKEN=$(curl -sf `${VAULT_ADDR}/v1/${VAULT_SECRET_PATH}` \
  -H `X-Vault-Token: ${VAULT_TOKEN}` \
  | grep -o '`token`:`[^`]*`' | head -1 | sed 's/`token`:`//;s/`//')
[ -z `${RKE2_TOKEN}` ] && { echo `[ERROR] Failed to fetch RKE2 token`; exit 1; }

mkdir -p /etc/rancher/rke2
echo `token: ${RKE2_TOKEN}` >> /etc/rancher/rke2/config.yaml
echo `[INFO] RKE2 join token injected into config.`

# Remove credentials from disk — no longer needed after first use
rm -f /etc/vault/role-id /etc/vault/secret-id
".

Section CloudInit.
Context `{YamlLib}.

(** [rke2cfg["token"].(string)], the empty string when it is not one. *)
Definition token_of (cfg : gmap string any) : string :=
  match cfg !! "token" with
  | Some (AnyString t) => t
  | _ => ""
  end.

(** The body of [stripRKE2Token]'s loop on the entry it matches: the entry
    with the token removed from its content, and the token. *)
Definition strip_file (f : CloudInitFile) : result (CloudInitFile * string) :=
  match yaml_Unmarshal_map (ci_Content f) with
  | Err err => Err (Wrap err "failed to parse embedded rke2 config")
  | Ok rke2cfg =>
      let token := token_of rke2cfg in
      if bool_decide (token = "")
      then Err (Errorf "token field not found in embedded rke2 config" [])
      else
        match yaml_Marshal_map (delete "token" rke2cfg) with
        | Err err => Err err
        | Ok updated =>
            Ok (mkCloudInitFile (ci_Path f) updated (ci_Permissions f) (ci_Owner f)
                  (ci_Encoding f), token)
        end
  end.

(** The loop: entries at other paths are skipped, the first entry at the RKE2
    path is rewritten and ends the loop. *)
Fixpoint strip_files (files : list CloudInitFile) : result (list CloudInitFile * string) :=
  match files with
  | [] => Ok ([], "")
  | f :: rest =>
      if bool_decide (ci_Path f <> rke2ConfigPath)
      then
        match strip_files rest with
        | Err err => Err err
        | Ok (rest', token) => Ok (f :: rest', token)
        end
      else
        match strip_file f with
        | Err err => Err err
        | Ok (f', token) => Ok (f' :: rest, token)
        end
  end.

(** stripRKE2Token: the sanitised document and the token. *)
Definition stripRKE2Token (rawCloudInit : string) : result (string * string) :=
  match yaml_Unmarshal_CloudInit rawCloudInit with
  | Err err => Err (Wrap err "failed to parse bootstrap cloud-init")
  | Ok ci =>
      match strip_files (WriteFiles ci) with
      | Err err => Err err
      | Ok (files, token) =>
          match yaml_Marshal_CloudInit (mkCloudInit files (RunCmd ci) (BootCmd ci)) with
          | Err err => Err err
          | Ok out => Ok (out, token)
          end
      end
  end.

(** The optional static template: parsed only when it is not empty. *)
Definition parse_static (staticCloudInit : string) : result CloudInit :=
  if Nat.ltb 0 (String.length staticCloudInit)
  then
    match yaml_Unmarshal_CloudInit staticCloudInit with
    | Err err => Err (Wrap err "failed to parse static cloud-init")
    | Ok static => Ok static
    end
  else Ok emptyCloudInit.

Definition credential_files (roleID secretID : string) : list CloudInitFile :=
  [file "/etc/vault/role-id" (roleID +:+ newline) "0600";
   file "/etc/vault/secret-id" (secretID +:+ newline) "0600"].

Definition fetch_rancher_path : string := "/var/opt/scripts/vault-fetch-rancher-registration.sh".
Definition fetch_rke2_path : string := "/var/opt/scripts/vault-fetch-rke2-token.sh".

(** The document [BuildRancherAgentUserData] prints. *)
Definition rancher_document (input : RancherAgentInput) (static : CloudInit) : CloudInit :=
  let v := ra_VaultParams input in
  let fetchScript :=
    Sprintf rancher_script_format [rp_Addr v; rp_SecretPath v; ra_RancherURL input] in
  let rancherFiles :=
    credential_files (rp_RoleID v) (rp_SecretID v) ++
    [file fetch_rancher_path fetchScript "0755"] in
  mkCloudInit
    (rancherFiles ++ WriteFiles static)
    ([AnyString fetch_rancher_path;
      AnyString "systemctl enable --now rancher-system-agent"] ++ RunCmd static)
    (BootCmd static).

Definition BuildRancherAgentUserData (input : RancherAgentInput) : result string :=
  match parse_static (ra_StaticCloudInit input) with
  | Err err => Err err
  | Ok static =>
      match yaml_Marshal_CloudInit (rancher_document input static) with
      | Err err => Err err
      | Ok out => Ok ("#cloud-config" +:+ newline +:+ out)
      end
  end.

(** The document [mergeCloudInit] prints: static sections, then bootstrap
    sections, with the Vault files and the fetch command prepended. *)
Definition merged_document (input : MergeInput) (static bootstrap : CloudInit) : CloudInit :=
  let v := mi_VaultParams input in
  let vaultFiles :=
    credential_files (vp_RoleID v) (vp_SecretID v) ++
    [file fetch_rke2_path (Sprintf rke2_script_format [vp_Addr v; vp_SecretPath v]) "0755"] in
  mkCloudInit
    (vaultFiles ++ (WriteFiles static ++ WriteFiles bootstrap))
    ([AnyString fetch_rke2_path] ++ (RunCmd static ++ RunCmd bootstrap))
    (BootCmd static ++ BootCmd bootstrap).

Definition mergeCloudInit (input : MergeInput) : result string :=
  match parse_static (mi_StaticCloudInit input) with
  | Err err => Err err
  | Ok static =>
      match yaml_Unmarshal_CloudInit (mi_BootstrapCloudInit input) with
      | Err err => Err (Wrap err "failed to parse bootstrap cloud-init")
      | Ok bootstrap =>
          match yaml_Marshal_CloudInit (merged_document input static bootstrap) with
          | Err err => Err err
          | Ok out => Ok ("#cloud-config" +:+ newline +:+ out)
          end
      end
  end.
End CloudInit.
