(* ===== verification/MachineController.v ===== *)
(** The WaldurMachine controller: src/internal/controller/waldurmachine_controller.go.

    A function that mutates the [*WaldurMachine] it is given returns the machine
    afterwards beside its error. *)
From S2P Require Import Prelude Prog Types Calls Helpers CloudInit.
From Stdlib Require Import ZArith Lia.
From stdpp Require Import base gmap strings list.
Local Open Scope string_scope.
Local Open Scope list_scope.
Local Open Scope go_scope.

Definition machineFinalizer : string :=
  "waldurmachine.infrastructure.cluster.waldur.com/finalizer".

(** The reconciler's configuration; its clients are the calls of [ctl]. *)
Record WaldurMachineReconciler := mkWaldurMachineReconciler {
  mr_VaultClient : bool;  (** whether [VaultClient] is non-nil *)
  mr_BaseTemplate : string;
  mr_OperatorNamespace : string;
}.

(** ptrStr safely dereferences a string pointer for logging. *)
Definition ptrStr (s : option string) : string :=
  match s with None => "<nil>" | Some s => s end.

(** The name in the first owner reference of a kind, or "". *)
Definition owner_name (kind : string) (refs : list OwnerReference) : string :=
  match List.find (fun ref => bool_decide (or_Kind ref = kind)) refs with
  | Some ref => or_Name ref
  | None => ""
  end.

Definition defaultSecGroupName : string := "default".

(** The loop over the tenant's security groups. *)
Definition default_groups (groups : list OpenStackSecurityGroup) : M (list string) :=
  for_each (fun sgRequests sg =>
    match sg_Url sg with
    | None => Ret sgRequests
    | Some url =>
        let* name := deref (sg_Name sg) in
        Ret (if bool_decide (name = defaultSecGroupName) then sgRequests ++ [url] else sgRequests)
    end) [] groups.

(** The loop over the tenant's subnets: a port per subnet that has a URL. *)
Definition subnet_ports (subnets : list OpenStackSubNet) : list string :=
  omap sn_Url subnets.

(** The first volume type's URL, when there is one. *)
Definition default_volume_type (volumeTypes : list OpenStackVolumeType) : option string :=
  match volumeTypes with
  | [] => None
  | vt :: _ => vt_Url vt
  end.

(** Disk sizes are given in GB and ordered in MiB. *)
Definition size_mib (gb : option Z) : option Z :=
  (fun n => int_mul n 1024) <$> gb.

(** The [(userData, secretID, roleName)] of the two Vault paths. *)
Record UserData := mkUserData {
  ud_userData : string;
  ud_secretID : string;
  ud_roleName : string;
}.

Section MachineController.
Context `{UuidLib} `{KubeLib} `{YamlLib}.
Variable r : WaldurMachineReconciler.

Definition readVaultConfigSecret (clusterName : string) : M (result Secret) :=
  let secretName := Sprintf "vault-config-%s" [clusterName] in
  let? secret := ask (KGetSecret (mkNamespacedName (mr_OperatorNamespace r) secretName))
    else err => Ret (Err (Wrapf err "failed to fetch vault config secret %q" [FStr secretName])) in
  Ret (Ok secret).

Definition hasRancherFields (secret : Secret) : bool :=
  bool_decide (is_Some (sec_Data secret !! "rancher_url")).

Definition rancher_secret_path (machine : Machine) (vaultConfigSecret : Secret) : string :=
  let secretPath := secret_field vaultConfigSecret "rancher_vault_secret_path" in
  if bool_decide (secretPath = "")
  then Sprintf "secret/data/haldus.k8s.riigipilv.ee/rancher/%s" [m_ClusterName machine]
  else secretPath.

Definition buildUserDataWithRancherAgent (machine : Machine) (waldurMachine : WaldurMachine)
    (vaultConfigSecret : Secret) : M (result UserData) :=
  let vaultAddr := secret_field vaultConfigSecret "vault_addr" in
  let roleName := secret_field vaultConfigSecret "role_name" in
  let roleID := secret_field vaultConfigSecret "role_id" in
  let rancherURL := secret_field vaultConfigSecret "rancher_url" in
  let secretPath := rancher_secret_path machine vaultConfigSecret in
  let? secretID := ask (GenerateSecretID roleName)
    else err => Ret (Err (Wrap err "failed to generate Vault secret_id")) in
  match BuildRancherAgentUserData
          (mkRancherAgentInput (mr_BaseTemplate r)
             (mkRancherVaultParams vaultAddr secretPath roleID secretID) rancherURL) with
  | Err err =>
      let* _ := ask (RevokeSecretID roleName secretID) in
      Ret (Err (Wrap err "failed to build rancher-agent cloud-init"))
  | Ok userData => Ret (Ok (mkUserData userData secretID roleName))
  end.

Definition buildUserDataWithVault (rawCloudInit : string) (vaultConfigSecret : Secret)
    : M (result UserData) :=
  match stripRKE2Token rawCloudInit with
  | Err err => Ret (Err (Wrap err "failed to strip RKE2 token from bootstrap cloud-init"))
  | Ok (sanitisedCI, rke2Token) =>
      let vaultAddr := secret_field vaultConfigSecret "vault_addr" in
      let secretPath := secret_field vaultConfigSecret "vault_secret_path" in
      let roleName := secret_field vaultConfigSecret "role_name" in
      let roleID := secret_field vaultConfigSecret "role_id" in
      let? exists_ := ask (SecretExists secretPath)
        else err => Ret (Err (Wrap err "failed to check if RKE2 token exists in Vault")) in
      let* werr :=
        (if exists_ : bool then Ret None
         else ask (WriteSecret secretPath {["token" := rke2Token]})) in
      match werr with
      | Some err => Ret (Err (Wrap err "failed to write RKE2 token to Vault"))
      | None =>
          let? secretID := ask (GenerateSecretID roleName)
            else err => Ret (Err (Wrap err "failed to generate Vault secret_id")) in
          match mergeCloudInit
                  (mkMergeInput sanitisedCI (mr_BaseTemplate r)
                     (mkVaultParams vaultAddr secretPath roleID secretID)) with
          | Err err =>
              let* _ := ask (RevokeSecretID roleName secretID) in
              Ret (Err (Wrap err "failed to merge cloud-init"))
          | Ok userData => Ret (Ok (mkUserData userData secretID roleName))
          end
      end
  end.

(** The loop of [getVMOffering]; a subresource offering without a type panics. *)
Fixpoint find_vm_offering (offerings : list SubresourceOffering)
    : M (option SubresourceOffering) :=
  match offerings with
  | [] => Ret None
  | offering :: rest =>
      let* type := deref (so_Type offering) in
      if bool_decide (type = "OpenStack.Instance")
      then Ret (Some offering)
      else find_vm_offering rest
  end.

Definition getVMOffering (tenantMarketplaceUuid : string) : M (result SubresourceOffering) :=
  match uuid_Parse tenantMarketplaceUuid with
  | Err err => Ret (Err err)
  | Ok tenantMPUuid =>
      let? offeringsResponse := ask (MarketplaceResourcesOfferingForSubresourcesList tenantMPUuid)
        else err => Ret (Err err) in
      if negb (Z.eqb (StatusCode offeringsResponse) 200)
      then Ret (Err (Errorf "Unable to list subresource offerings for the marketplace resource %s, code %d, reason %s"
                       [FStr (uuid_String tenantMPUuid); FInt (StatusCode offeringsResponse);
                        FStr (Body offeringsResponse)]))
      else
        let* offerings := deref (JSON offeringsResponse) in
        let* found := find_vm_offering offerings in
        match found with
        | Some offering => Ret (Ok offering)
        | None =>
            Ret (Err (Errorf "Unable to find a VM offering for the marketplace resource offering %s, list is empty"
                        [FStr (uuid_String tenantMPUuid)]))
        end
  end.

(** The checks at the top of [buildOrderPayload]: the tenant's project slug
    and UUID, once the tenant is ready. *)
Definition ready_tenant (waldurCluster : WaldurCluster) (offeringSlug : string)
    : result (OpenStackTenant * string * string) :=
  match cst_Tenants (wc_Status waldurCluster) !! offeringSlug with
  | None => Err (Errorf "tenant for offering %q not found in WaldurCluster status"
                   [FStr offeringSlug])
  | Some tenant =>
      match t_MarketplaceResourceState tenant with
      | ResourceStateOther state =>
          Err (Errorf "tenant for offering %q is not ready (state: %s)"
                 [FStr offeringSlug; FStr state])
      | ResourceStateOK =>
        match t_ProjectSlug tenant, t_Uuid tenant with
        | None, _ => Err (Errorf "tenant for offering %q has no project slug" [FStr offeringSlug])
        | _, None => Err (Errorf "tenant for offering %q has no UUID yet" [FStr offeringSlug])
        | Some slug, Some uuid => Ok (tenant, slug, uuid)
        end
      end
  end.

(** The order attributes assembled from what the lookups returned. *)
Definition instance_attributes (waldurMachine : WaldurMachine) (flavor : OpenStackFlavor)
    (image : OpenStackImage) (sgRequests portRequests : list string) (userData : option string)
    (volumeType : option string) : OpenStackInstanceCreateOrderAttributes :=
  let spec := wm_Spec waldurMachine in
  mkInstanceAttributes (om_Name (wm_ObjectMeta waldurMachine)) (f_Url flavor) (img_Url image)
    sgRequests portRequests [] userData (size_mib (ms_SystemDiskSize spec))
    (size_mib (ms_DataDiskSize spec)) volumeType volumeType.

Definition buildOrderPayload (waldurMachine : WaldurMachine) (waldurCluster : WaldurCluster)
    (userData : option string) : M (result OrderCreateRequest) :=
  let spec := wm_Spec waldurMachine in
  match ready_tenant waldurCluster (ms_OfferingSlug spec) with
  | Err err => Ret (Err err)
  | Ok (tenant, projectSlug, tenantUuidStr) =>
      let? projectResp := ask (ProjectsList None None (Some projectSlug))
        else err => Ret (Err (Wrap err "unable to list projects")) in
      let* projects := deref (JSON projectResp) in
      match projects with
      | [] => Ret (Err (Errorf "project with slug %q not found" [FStr projectSlug]))
      | project :: _ =>
          let? parentOffering := getOffering (ms_OfferingSlug spec)
            else err => Ret (Err (Wrap err "unable to get parent offering")) in
          let? subresourceOffering := getVMOffering (t_MarketplaceResourceUuid tenant)
            else err => Ret (Err (Wrap err "unable to get VM subresource offering")) in
          let* subresourceUuid := deref (so_Uuid subresourceOffering) in
          let? offering := getOfferingByUUID subresourceUuid
            else err => Ret (Err (Wrap err "unable to get VM offering")) in
          match uuid_Parse tenantUuidStr with
          | Err err => Ret (Err (Wrap err "unable to parse tenant UUID"))
          | Ok tenantUuid =>
              let? flavor := getFlavor parentOffering (ms_Flavor spec)
                else err => Ret (Err (Wrapf err "unable to get flavor %q" [FStr (ms_Flavor spec)])) in
              let? image := getImage parentOffering (ms_Image spec)
                else err => Ret (Err (Wrapf err "unable to get image %q" [FStr (ms_Image spec)])) in
              let? securityGroups := getTenantSecurityGroups tenantUuid
                else err => Ret (Err (Wrap err "unable to get security groups")) in
              let* sgRequests := default_groups securityGroups in
              let? subnets := getTenantSubnets tenantUuid
                else err => Ret (Err (Wrap err "unable to get subnets")) in
              let? volumeTypes := getTenantVolumeTypes tenantUuid
                else err => Ret (Err (Wrap err "unable to get volume types")) in
              let attrs := InstanceAttributes
                (instance_attributes waldurMachine flavor image sgRequests
                   (subnet_ports subnets) userData (default_volume_type volumeTypes)) in
              let* encErr := ask (EncodeAttributes attrs) in
              match encErr with
              | Some err => Ret (Err (Wrap err "unable to build order attributes"))
              | None =>
                  let* offeringUrl := deref (po_Url offering) in
                  let* projectUrl := deref (p_Url project) in
                  Ret (Ok (mkOrderCreateRequest (Some Create) offeringUrl projectUrl None
                             attrs None (Some true)))
              end
          end
      end
  end.

(** The first half of [createVM]: the user data, and the Vault credential to
    revoke if the order fails (empty without Vault). *)
Definition prepareUserData (machine : Machine) (waldurMachine : WaldurMachine)
    : M (result UserData) :=
  if mr_VaultClient r
  then
    let? vaultConfigSecret := readVaultConfigSecret (m_ClusterName machine)
      else err => Ret (Err err) in
    if hasRancherFields vaultConfigSecret
    then buildUserDataWithRancherAgent machine waldurMachine vaultConfigSecret
    else
      match m_DataSecretName machine with
      | None => Ret (Err errBootstrapNotReady)
      | Some dataSecretName =>
          let? bootstrapSecret := ask (KGetSecret (mkNamespacedName (m_Namespace machine) dataSecretName))
            else err => Ret (Err (Wrap err "failed to fetch bootstrap secret")) in
          buildUserDataWithVault (secret_field bootstrapSecret "value") vaultConfigSecret
      end
  else
    match m_DataSecretName machine with
    | None => Ret (Err errBootstrapNotReady)
    | Some dataSecretName =>
        let? bootstrapSecret := ask (KGetSecret (mkNamespacedName (m_Namespace machine) dataSecretName))
          else err => Ret (Err (Wrap err "failed to fetch bootstrap secret")) in
        Ret (Ok (mkUserData (secret_field bootstrapSecret "value") "" ""))
    end.

(** The status [createVM] leaves once the order has been accepted. *)
Definition order_submitted (status : WaldurMachineStatus) (uuid marketplaceResourceUuid : UUID)
    (type : RequestTypes) (state : OrderState) : WaldurMachineStatus :=
  let order := mkWaldurOrder (uuid_String uuid) type state
                 (uuid_String marketplaceResourceUuid) None in
  set_mst_State
    (set_mst_MarketplaceResourceUuid (set_mst_Order status (Some order))
       (uuid_String marketplaceResourceUuid))
    CoreStatesCREATING.

(** The second half of [createVM]: submit the order and record it. *)
Definition submitVMOrder (waldurMachine : WaldurMachine) (ud : UserData)
    (orderPayload : OrderCreateRequest) : M (WaldurMachine * option error) :=
  let? orderResp := ask (MarketplaceOrdersCreate orderPayload)
    else err => Ret (waldurMachine, Some (Wrap err "unable to submit order")) in
  if negb (Z.eqb (StatusCode orderResp) 201)
  then
    let* _ :=
      (if mr_VaultClient r && negb (bool_decide (ud_secretID ud = ""))
       then ask (RevokeSecretID (ud_roleName ud) (ud_secretID ud))
       else Ret None) in
    Ret (waldurMachine,
         Some (Errorf "unable to submit VM creation order, status %d: %s"
                 [FInt (StatusCode orderResp); FStr (Body orderResp)]))
  else
    let* order := deref (JSON orderResp) in
    let* uuid := deref (od_Uuid order) in
    let* type := deref (od_Type order) in
    let* state := deref (od_State order) in
    let* marketplaceResourceUuid := deref (od_MarketplaceResourceUuid order) in
    Ret (set_wm_Status waldurMachine
           (order_submitted (wm_Status waldurMachine) uuid marketplaceResourceUuid type state),
         None).

Definition createVM (machine : Machine) (waldurMachine : WaldurMachine)
    (waldurCluster : WaldurCluster) : M (WaldurMachine * option error) :=
  let? ud := prepareUserData machine waldurMachine
    else err => Ret (waldurMachine, Some err) in
  let? orderPayload := buildOrderPayload waldurMachine waldurCluster (Some (ud_userData ud))
    else err => Ret (waldurMachine, Some err) in
  submitVMOrder waldurMachine ud orderPayload.

(** The status after the backend instance has been read. *)
Definition apply_instance (status : WaldurMachineStatus) (instance : OpenStackInstance)
    : WaldurMachineStatus :=
  let s1 := match os_State instance with
            | Some st => set_mst_State status st
            | None => status
            end in
  let s2 := match os_Uuid instance with
            | Some u => set_mst_VmUuid s1 (Some (uuid_String u))
            | None => s1
            end in
  if bool_decide (mst_State s2 = CoreStatesOK)
  then set_mst_Initialization s2 (Some (mkInitialization (Some true)))
  else s2.

Definition refreshVM (waldurMachine : WaldurMachine) : M (WaldurMachine * option error) :=
  let status0 := wm_Status waldurMachine in
  let* (order, err) := refresh_pending_order (mst_Order status0) in
  let status1 := set_mst_Order status0 order in
  match err with
  | Some e => Ret (set_wm_Status waldurMachine status1, Some e)
  | None =>
      let? resourcePtr := getMarketplaceResource (mst_MarketplaceResourceUuid status1)
        else e => Ret (set_wm_Status waldurMachine status1, Some e) in
      let* resource := deref resourcePtr in
      let status2 := match r_State resource with
                     | Some st => set_mst_MarketplaceResourceState status1 st
                     | None => status1
                     end in
      match r_Scope resource, r_ResourceUuid resource with
      | Some _, Some resourceUuid =>
          let? instanceResp := ask (OpenstackInstancesRetrieve resourceUuid ["State"; "Uuid"])
            else e => Ret (set_wm_Status waldurMachine status2,
                           Some (Wrap e "unable to retrieve OpenStack instance")) in
          match JSON instanceResp with
          | None =>
              Ret (set_wm_Status waldurMachine status2,
                   Some (Errorf "unexpected nil instance in response (status %d)"
                           [FInt (StatusCode instanceResp)]))
          | Some instance =>
              Ret (set_wm_Status waldurMachine (apply_instance status2 instance), None)
          end
      | _, _ => Ret (set_wm_Status waldurMachine status2, None)
      end
  end.

Definition has_order (status : WaldurMachineStatus) (p : WaldurOrder -> bool) : bool :=
  match mst_Order status with Some o => p o | None => false end.

Definition is_termination (o : WaldurOrder) : bool := bool_decide (wo_Type o = Terminate).

Definition removeFinalizer (waldurMachine : WaldurMachine) : M (result ctrl_Result) :=
  let fs := RemoveFinalizer (om_Finalizers (wm_ObjectMeta waldurMachine)) machineFinalizer in
  let? _ := ask (KUpdateWaldurMachine (set_wm_Finalizers waldurMachine fs))
    else err => Ret (Err (Wrap err "unable to remove finalizer")) in
  Ret (Ok (requeue 0)).

(** Stop the VM if it is still running: the answer is the result to return
    when termination has to wait. *)
Definition stopVM (waldurMachine : WaldurMachine) : M (option (result ctrl_Result)) :=
  match mst_VmUuid (wm_Status waldurMachine) with
  | None => Ret None
  | Some vmUuidStr =>
      match uuid_Parse vmUuidStr with
      | Err err => Ret (Some (Err (Wrap err "invalid VM UUID")))
      | Ok vmUUID =>
          let? instanceResp := ask (OpenstackInstancesRetrieve vmUUID ["RuntimeState"])
            else err => Ret (Some (Err (Wrap err "unable to retrieve VM runtime state"))) in
          match JSON instanceResp ≫= os_RuntimeState with
          | None => Ret None
          | Some runtimeState =>
              if negb (bool_decide (runtimeState = "SHUTOFF")) &&
                 negb (bool_decide (runtimeState = "ERROR"))
              then
                let? _ := ask (OpenstackInstancesStop vmUUID)
                  else err => Ret (Some (Err (Wrap err "unable to stop VM"))) in
                Ret (Some (Ok (requeue 15)))
              else Ret None
          end
      end
  end.

Definition patchStatus (waldurMachine base : WaldurMachine) : M (result ctrl_Result) :=
  let? _ := ask (KPatchWaldurMachineStatus waldurMachine base)
    else err => Ret (Err (Wrap err "unable to patch status")) in
  Ret (Ok (requeue 15)).

Definition reconcileDelete (waldurMachine : WaldurMachine) : M (result ctrl_Result) :=
  let status := wm_Status waldurMachine in
  if bool_decide (mst_MarketplaceResourceUuid status = "")
  then removeFinalizer waldurMachine
  else
    let base := waldurMachine in
    if has_order status (fun o => is_termination o && negb (isOrderTerminal (wo_State o)))
    then
      let* (waldurMachine, _) := refreshVM waldurMachine in
      patchStatus waldurMachine base
    else if has_order status (fun o => is_termination o && bool_decide (wo_State o = OrderStateDone))
    then removeFinalizer waldurMachine
    else
      let* stopped := stopVM waldurMachine in
      match stopped with
      | Some res => Ret res
      | None =>
          let? order := submitTerminationOrder (mst_MarketplaceResourceUuid status)
            else err => Ret (Ok (requeue 15)) in
          patchStatus (set_wm_Status waldurMachine (set_mst_Order status (Some order))) base
      end.

(** The condition [setMachineReadyCondition] sets for a state. *)
Definition machine_ready_condition (state : CoreStates) : Condition :=
  match state with
  | CoreStatesOK => mkCondition "Ready" ConditionTrue "Provisioned" "VM is running"
  | CoreStatesERRED =>
      mkCondition "Ready" ConditionFalse "ProvisioningFailed" "VM provisioning failed"
  | _ => mkCondition "Ready" ConditionFalse "Provisioning" "VM is being provisioned"
  end.

Definition setMachineReadyCondition (waldurMachine : WaldurMachine) : WaldurMachine :=
  let status := wm_Status waldurMachine in
  set_wm_Status waldurMachine
    (set_mst_Conditions status
       (SetStatusCondition (mst_Conditions status) (machine_ready_condition (mst_State status)))).

(** The middle of [Reconcile]: create the VM or refresh it. Its errors are
    logged, except for a bootstrap secret that is not there yet ([None]). *)
Definition provision (machine : Machine) (waldurMachine : WaldurMachine)
    (waldurCluster : WaldurCluster) : M (option WaldurMachine) :=
  if bool_decide (mst_MarketplaceResourceUuid (wm_Status waldurMachine) = "")
  then
    let* (waldurMachine, err) := createVM machine waldurMachine waldurCluster in
    match err with
    | Some e => Ret (if Is_errBootstrapNotReady e then None else Some waldurMachine)
    | None => Ret (Some waldurMachine)
    end
  else
    let* (waldurMachine, _) := refreshVM waldurMachine in
    Ret (Some waldurMachine).

(** Set [ProviderID] once the VM is running; the answer is the machine and the
    base of the status patch. *)
Definition setProviderID (waldurMachine base : WaldurMachine)
    : M (result (WaldurMachine * WaldurMachine)) :=
  match mst_State (wm_Status waldurMachine), ms_ProviderID (wm_Spec waldurMachine),
        mst_VmUuid (wm_Status waldurMachine) with
  | CoreStatesOK, None, Some vmUuid =>
      let providerID := Sprintf "waldur://%s" [vmUuid] in
      let? patched := ask (KPatchWaldurMachine (set_wm_ProviderID waldurMachine (Some providerID)) base)
        else err => Ret (Err (Wrap err "unable to patch providerID")) in
      Ret (Ok (patched, patched))
  | _, _, _ => Ret (Ok (waldurMachine, base))
  end.

(** The end of [Reconcile], from the provider ID to the result. *)
Definition publish (waldurMachine base : WaldurMachine) : M (result ctrl_Result) :=
  let? (waldurMachine, base) := setProviderID waldurMachine base
    else err => Ret (Err err) in
  let waldurMachine := setMachineReadyCondition waldurMachine in
  let? patched := ask (KPatchWaldurMachineStatus waldurMachine base)
    else err => Ret (Err (Wrapf err "couldn't patch status for machine %q"
                            [FStr (om_Name (wm_ObjectMeta waldurMachine))])) in
  if bool_decide (mst_State (wm_Status patched) = CoreStatesOK)
  then Ret (Ok (requeue 300))
  else Ret (Ok (requeue 15)).

(** [Reconcile] of a machine that is not being deleted and has the finalizer. *)
Definition reconcileNormal (waldurMachine : WaldurMachine) : M (result ctrl_Result) :=
  let meta := wm_ObjectMeta waldurMachine in
  let machineName := owner_name "Machine" (om_OwnerReferences meta) in
  if bool_decide (machineName = "") then Ret (Ok (requeue 0))
  else
    let? machine := ask (KGetMachine (mkNamespacedName (om_Namespace meta) machineName))
      else err => Ret (Err (Wrap err "unable to get owner Machine")) in
    let clusterName := default "" (m_Labels machine !! ClusterNameLabel) in
    if bool_decide (clusterName = "") then Ret (Ok (requeue 0))
    else
      let? cluster := ask (KGetCluster (mkNamespacedName (m_Namespace machine) clusterName))
        else err => Ret (Err (Wrap err "unable to get Cluster")) in
      let* infraName := deref (cl_InfrastructureRef cluster) in
      let? waldurCluster := ask (KGetWaldurCluster (mkNamespacedName (cl_Namespace cluster) infraName))
        else err => Ret (Err (Wrap err "unable to get WaldurCluster")) in
      let base := waldurMachine in
      let* provisioned := provision machine waldurMachine waldurCluster in
      match provisioned with
      | None => Ret (Ok (requeue 10))
      | Some waldurMachine => publish waldurMachine base
      end.

Definition Reconcile (req : NamespacedName) : M (result ctrl_Result) :=
  let? waldurMachine := ask (KGetWaldurMachine req)
    else err => Ret (if IsNotFound err then Ok (requeue 0) else Err err) in
  let meta := wm_ObjectMeta waldurMachine in
  if negb (Time_IsZero (om_DeletionTimestamp meta))
  then reconcileDelete waldurMachine
  else if negb (ContainsFinalizer (om_Finalizers meta) machineFinalizer)
  then
    let fs := AddFinalizer (om_Finalizers meta) machineFinalizer in
    let? _ := ask (KUpdateWaldurMachine (set_wm_Finalizers waldurMachine fs))
      else err => Ret (Err (Wrap err "unable to add finalizer")) in
    Ret (Ok (requeue 0))
  else reconcileNormal waldurMachine.
End MachineController.
