(* ===== verification/ClusterController.v ===== *)
(** The WaldurCluster controller: src/internal/controller/waldurcluster_controller.go.

    - tenants: [getOrCreateProject], [calculateLimits], [submitTenantCreationOrder],
      [refreshTenant], [createTenant];
    - deletion: [deleteProject], [reconcileDelete];
    - status and endpoint: [setReadyCondition], [reconcileControlPlaneEndpoint],
      [waldurMachineToCluster];
    - the loop: [Reconcile]. *)
From S2P Require Import Prelude Prog Types Calls Helpers.
From Stdlib Require Import ZArith Lia.
From stdpp Require Import base gmap strings list.
Local Open Scope string_scope.
Local Open Scope list_scope.
Local Open Scope go_scope.

Definition finalizer : string :=
  "waldurcluster.infrastructure.cluster.waldur.com/finalizer".

Definition controllerNodeCores : Z := 4.
Definition controllerNodeRamMB : Z := 8 * 1024.
Definition lbNodeCores : Z := 2.
Definition lbNodeRamMB : Z := 4 * 1024.
Definition systemDiskMB : Z := 20 * 1024.

(** The three running sums of [calculateLimits]. *)
Record Limits := mkLimits { l_cores : Z; l_ram : Z; l_storage : Z }.

#[export] Instance Limits_eq_dec : EqDecision Limits.
Proof. solve_decision. Defined.

Definition base_limits : Limits :=
  mkLimits (3 * controllerNodeCores + lbNodeCores)
           (3 * controllerNodeRamMB + lbNodeRamMB)
           ((3 + 1) * systemDiskMB).

(** [count * *size * 1024], when the group has such a disk. *)
Definition add_disk (storage count : Z) (size : option Z) : Z :=
  match size with
  | Some gb => int_add storage (int_mul (int_mul count gb) 1024)
  | None => storage
  end.

(** One iteration of the loop of [calculateLimits], the flavor known. *)
Definition add_group (l : Limits) (ng : NodeGroupSpec) (flavorCores flavorRam : Z) : Limits :=
  let storage := int_add (l_storage l) (int_mul (ng_Count ng) systemDiskMB) in
  mkLimits
    (int_add (l_cores l) (int_mul (ng_Count ng) flavorCores))
    (int_add (l_ram l) (int_mul (ng_Count ng) flavorRam))
    (add_disk (add_disk storage (ng_Count ng) (ng_DataDiskSize ng))
       (ng_Count ng) (ng_VsanDiskSize ng)).

Definition limits_map (l : Limits) : gmap string Z :=
  <["cores" := l_cores l]> (<["ram" := l_ram l]> {["storage" := l_storage l]}).

(** [range] over a map and a test on its values: the order does not matter. *)
Definition anyTenantErred (tenants : gmap string OpenStackTenant) : bool :=
  existsb (fun '(_, t) => bool_decide (t_State t = CoreStatesERRED)) (map_to_list tenants).

Definition anyTenantPending (tenants : gmap string OpenStackTenant) : bool :=
  existsb (fun '(_, t) => negb (bool_decide (t_State t = CoreStatesOK)) &&
                          negb (bool_decide (t_State t = CoreStatesERRED)))
    (map_to_list tenants).

Definition subnetCidr : string := "192.168.42.0/24".

Section ClusterController.
Context `{UuidLib} `{KubeLib}.

Definition getOrCreateProject (org : Customer) (dcName : string) : M (result Project) :=
  let* slug := deref (cu_Slug org) in
  let projectName := Sprintf "%s_%s" [slug; dcName] in
  let* orgUuid := deref (cu_Uuid org) in
  let? projectResponse := ask (ProjectsList (Some projectName) (Some [orgUuid]) None)
    else err => Ret (Err err) in
  let* projects := deref (JSON projectResponse) in
  match projects with
  | [] =>
      let* orgUrl := deref (cu_Url org) in
      let? projectCreateResponse := ask (ProjectsCreate projectName orgUrl)
        else err => Ret (Err err) in
      let* project := deref (JSON projectCreateResponse) in
      Ret (Ok project)
  | project :: _ => Ret (Ok project)
  end.

Definition calculateLimits (offering : PublicOfferingDetails) (dc : DatacenterSpec)
    : M (result (gmap string Z)) :=
  let? limits :=
    for_each_err (fun l ng =>
      let? flavor := getFlavor offering (ng_Flavor ng)
        else err => Ret (Err (Wrapf err "unable to get flavor %q" [FStr (ng_Flavor ng)])) in
      let* flavorCores := deref (f_Cores flavor) in
      let* flavorRam := deref (f_Ram flavor) in
      Ret (Ok (add_group l ng flavorCores flavorRam)))
    base_limits (dc_NodeGroups dc)
    else err => Ret (Err err) in
  Ret (Ok (limits_map limits)).

(** The answer is [orderResponse.JSON201], which may be nil. *)
Definition submitTenantCreationOrder (offering : PublicOfferingDetails) (project : Project)
    (dc : DatacenterSpec) : M (result (option OrderDetails)) :=
  let* slug := deref (po_Slug offering) in
  let* projectName := deref (p_Name project) in
  let attrs := TenantAttributes
    (mkTenantAttributes (Sprintf "%s-%s" [slug; projectName]) (Some subnetCidr)) in
  let* encErr := ask (EncodeAttributes attrs) in
  match encErr with
  | Some err => Ret (Err err)
  | None =>
      let? limits := calculateLimits offering dc
        else err => Ret (Err (Wrap err "unable to calculate tenant resource limits")) in
      let* plans := deref (po_Plans offering) in
      let* plan := deref (head plans) in
      let* offeringUrl := deref (po_Url offering) in
      let* projectUrl := deref (p_Url project) in
      let? orderResponse :=
        ask (MarketplaceOrdersCreate
               (mkOrderCreateRequest (Some Create) offeringUrl projectUrl (plan_Url plan)
                  attrs (Some limits) (Some true)))
        else err => Ret (Err err) in
      if negb (Z.eqb (StatusCode orderResponse) 201)
      then Ret (Err (Errorf "unable to submit an order, details: %s" [FStr (Body orderResponse)]))
      else Ret (Ok (JSON orderResponse))
  end.

(** [tenantResponse.JSON200], which may be nil. *)
Definition getOpenStackTenant (tenantUuid : UUID) : M (result (option ApiTenant)) :=
  let? tenantResponse := ask (OpenstackTenantsRetrieve tenantUuid)
    else err => Ret (Err err) in
  Ret (Ok (JSON tenantResponse)).

Definition getCustomer (orgName : string) : M (result Customer) :=
  let? orgResponse := ask (CustomersList orgName ["Url"; "Slug"; "Uuid"])
    else err => Ret (Err err) in
  if negb (Z.eqb (StatusCode orgResponse) 200)
  then Ret (Err (Errorf "unable to get customer %q, reason: %s"
                   [FStr orgName; FStr (Body orgResponse)]))
  else
    let* orgs := deref (JSON orgResponse) in
    match orgs with
    | [] => Ret (Err (Errorf "unable to find a customer with name %q" [FStr orgName]))
    | org :: _ => Ret (Ok org)
    end.

(** The marketplace resource UUID comes from the order if it is not set. *)
Definition adopt_resource_uuid (existing : OpenStackTenant) : OpenStackTenant :=
  match t_Order existing with
  | Some o =>
      if bool_decide (t_MarketplaceResourceUuid existing = "")
      then set_t_MarketplaceResourceUuid existing (wo_MarketplaceResourceUuid o)
      else existing
  | None => existing
  end.

(** The tenant after the backend tenant has been read. *)
Definition apply_tenant (existing : OpenStackTenant) (tenantUuid : UUID) (refreshed : ApiTenant)
    : OpenStackTenant :=
  let t1 := match at_State refreshed with
            | Some st => set_t_State existing st
            | None => existing
            end in
  let t2 := match at_Name refreshed with
            | Some n => set_t_Name t1 n
            | None => t1
            end in
  set_t_Uuid t2 (Some (uuid_String tenantUuid)).

(** refreshTenant mutates the tenant it points to; the answer holds the tenant
    afterwards and the error. *)
Definition refreshTenant (existing : OpenStackTenant) : M (OpenStackTenant * option error) :=
  let* (order, err) := refresh_pending_order (t_Order existing) in
  let existing := set_t_Order existing order in
  match err with
  | Some e => Ret (existing, Some e)
  | None =>
      let existing := adopt_resource_uuid existing in
      if bool_decide (t_MarketplaceResourceUuid existing = "")
      then Ret (existing, None)
      else
        let? resourcePtr := getMarketplaceResource (t_MarketplaceResourceUuid existing)
          else e => Ret (existing, Some e) in
        let* resource := deref resourcePtr in
        let existing := match r_State resource with
                        | Some st => set_t_MarketplaceResourceState existing st
                        | None => existing
                        end in
        match r_Scope resource, r_ResourceUuid resource with
        | Some _, Some tenantUuid =>
            let? refreshedPtr := getOpenStackTenant tenantUuid
              else e => Ret (existing, Some e) in
            let* refreshed := deref refreshedPtr in
            Ret (apply_tenant existing tenantUuid refreshed, None)
        | _, _ => Ret (existing, None)
        end
  end.

(** createTenant: a nil tenant with a nil error is possible ([Ok None]). *)
Definition createTenant (dc : DatacenterSpec) : M (result (option OpenStackTenant)) :=
  let? org := getCustomer (oi_CustomerName (dc_OpenstackInfrastructure dc))
    else err => Ret (Err (Wrap err "unable to get customer")) in
  let? project := getOrCreateProject org (dc_Name dc)
    else err => Ret (Err (Wrap err "unable to get or create project")) in
  let? offering := getOffering (dc_OfferingSlug dc)
    else err => Ret (Err (Wrap err "unable to get offering details")) in
  let? orderPtr := submitTenantCreationOrder offering project dc
    else err => Ret (Err (Wrap err "unable to submit order")) in
  match orderPtr with
  | None => Ret (Ok None) (* [errors.Wrap] of a nil error is nil *)
  | Some order =>
      let* uuid := deref (od_Uuid order) in
      let* type := deref (od_Type order) in
      let* state := deref (od_State order) in
      let* marketplaceResourceUuid := deref (od_MarketplaceResourceUuid order) in
      let* resourceName := deref (od_ResourceName order) in
      let waldurOrder := fun resourceUuid =>
        mkWaldurOrder (uuid_String uuid) type state (uuid_String marketplaceResourceUuid)
          resourceUuid in
      let openStackTenant := fun coreState tenantUuid =>
        mkOpenStackTenant coreState tenantUuid resourceName
          (uuid_String marketplaceResourceUuid) (ResourceStateOther "") (p_Slug project)
          (Some (waldurOrder tenantUuid)) in
      match od_ResourceUuid order with
      | None => Ret (Ok (Some (openStackTenant CoreStatesCREATING None)))
      | Some tenantUuid =>
          let? tenantPtr := getOpenStackTenant tenantUuid
            else err => Ret (Err (Wrap err "unable to get tenant")) in
          let* tenant := deref tenantPtr in
          let* coreState := deref (at_State tenant) in
          Ret (Ok (Some (openStackTenant coreState (Some (uuid_String tenantUuid)))))
      end
  end.

Definition deleteProject (projectSlug : string) : M (option error) :=
  let? projectResponse := ask (ProjectsList None None (Some projectSlug))
    else err => Ret (Some err) in
  let* projects := deref (JSON projectResponse) in
  match projects with
  | [] => Ret None
  | project :: _ =>
      match p_Uuid project with
      | None => Ret (Some (Errorf "project %q has no UUID" [FStr projectSlug]))
      | Some projectUuid =>
          let? resp := ask (ProjectsDestroy projectUuid)
            else err => Ret (Some err) in
          if negb (Z.eqb (StatusCode resp) 200) && negb (Z.eqb (StatusCode resp) 204)
          then Ret (Some (Errorf "unable to delete project %q, status %d: %s"
                            [FStr projectSlug; FInt (StatusCode resp); FStr (Body resp)]))
          else Ret None
      end
  end.

(** What [reconcileDelete] does about a tenant. *)
Inductive delete_action := NothingToDo | WaitForTermination | SubmitTermination.

Definition termination_order (tenant : OpenStackTenant) : option OrderState :=
  match t_Order tenant with
  | Some o => if bool_decide (wo_Type o = Terminate) then Some (wo_State o) else None
  | None => None
  end.

Definition delete_action_of (tenant : OpenStackTenant) : delete_action :=
  if bool_decide (t_MarketplaceResourceUuid tenant = "") then NothingToDo
  else
    match termination_order tenant with
    | Some state =>
        if negb (isOrderTerminal state) then WaitForTermination
        else if bool_decide (state = OrderStateDone) then NothingToDo
        else SubmitTermination
    | None => SubmitTermination
    end.

(** The body of the first loop of [reconcileDelete], on one key of the map;
    the state is the map and [allDone]. *)
Definition delete_tenant (st : gmap string OpenStackTenant * bool) (offeringSlug : string)
    : M (gmap string OpenStackTenant * bool) :=
  let (tenants, allDone) := st in
  match tenants !! offeringSlug with
  | None => Ret st
  | Some tenant =>
      match delete_action_of tenant with
      | NothingToDo => Ret st
      | WaitForTermination =>
          let* (tenant, _) := refreshTenant tenant in
          Ret (<[offeringSlug := tenant]> tenants, false)
      | SubmitTermination =>
          let* res := submitTerminationOrder (t_MarketplaceResourceUuid tenant) in
          match res with
          | Err _ => Ret (<[offeringSlug := tenant]> tenants, false)
          | Ok order => Ret (<[offeringSlug := set_t_Order tenant (Some order)]> tenants, false)
          end
      end
  end.

Definition keys (tenants : gmap string OpenStackTenant) : list string :=
  (map_to_list tenants).*1.

(** The body of the second loop: the project of one tenant. *)
Definition delete_project_of (tenants : gmap string OpenStackTenant) (u : unit)
    (offeringSlug : string) : M (result unit) :=
  match tenants !! offeringSlug ≫= t_ProjectSlug with
  | None => Ret (Ok tt)
  | Some projectSlug =>
      let* err := deleteProject projectSlug in
      match err with
      | Some e => Ret (Err (Wrapf e "unable to delete project %q" [FStr projectSlug]))
      | None => Ret (Ok tt)
      end
  end.

(** The end of [reconcileDelete], once every tenant is terminated. *)
Definition finishDelete (waldurCluster : WaldurCluster) : M (result ctrl_Result) :=
  let tenants := cst_Tenants (wc_Status waldurCluster) in
  let* order := ask (Range (keys tenants)) in
  let? _ := for_each_err (delete_project_of tenants) tt order
    else err => Ret (Err err) in
  let fs := RemoveFinalizer (om_Finalizers (wc_ObjectMeta waldurCluster)) finalizer in
  let? _ := ask (KUpdateWaldurCluster (set_wc_Finalizers waldurCluster fs))
    else err => Ret (Err (Wrap err "unable to remove finalizer")) in
  Ret (Ok (requeue 0)).

(** After [Patch], the local map [tenants] of the code is the map inside the
    patched object: both name one Go map, and [Patch] decodes the server's
    answer into it. *)
Definition reconcileDelete (waldurCluster : WaldurCluster) : M (result ctrl_Result) :=
  let base := waldurCluster in
  let tenants := cst_Tenants (wc_Status waldurCluster) in
  let* order := ask (Range (keys tenants)) in
  let* (tenants, allDone) := for_each delete_tenant (tenants, true) order in
  let waldurCluster := set_wc_Tenants waldurCluster tenants in
  let? waldurCluster := ask (KPatchWaldurClusterStatus waldurCluster base)
    else err => Ret (Err (Wrapf err "couldn't patch status for cluster %q"
                            [FStr (om_Name (wc_ObjectMeta waldurCluster))])) in
  if negb allDone then Ret (Ok (requeue 15))
  else finishDelete waldurCluster.

(** The condition [setReadyCondition] sets, and whether it says provisioned. *)
Definition cluster_ready (tenants : gmap string OpenStackTenant) (datacenters : nat)
    : Condition * bool :=
  if Nat.ltb (size tenants) datacenters then
    (mkCondition "Ready" ConditionFalse "Provisioning" "Waiting for tenants to be created", false)
  else if anyTenantPending tenants then
    (mkCondition "Ready" ConditionFalse "Provisioning" "Waiting for tenants to be provisioned", false)
  else if anyTenantErred tenants then
    (mkCondition "Ready" ConditionFalse "ProvisioningFailed"
       "One or more tenants failed to provision", false)
  else
    (mkCondition "Ready" ConditionTrue "Provisioned" "All tenants are ready", true).

Definition setReadyCondition (waldurCluster : WaldurCluster) : WaldurCluster :=
  let status := wc_Status waldurCluster in
  let (condition, provisioned) :=
    cluster_ready (cst_Tenants status) (length (cs_Datacenters (wc_Spec waldurCluster))) in
  set_wc_Status waldurCluster
    (mkWaldurClusterStatus (SetStatusCondition (cst_Conditions status) condition)
       (Some (mkInitialization (Some provisioned))) (cst_Tenants status)).

(** An event's object, as far as the type assertion tells. *)
Inductive client_Object :=
| ObjWaldurMachine (wm : WaldurMachine)
| ObjOther.

Definition waldurMachineToCluster (obj : client_Object) : list NamespacedName :=
  match obj with
  | ObjOther => []
  | ObjWaldurMachine wm =>
      let clusterName := default "" (om_Labels (wm_ObjectMeta wm) !! ClusterNameLabel) in
      if bool_decide (clusterName = "") then []
      else [mkNamespacedName (om_Namespace (wm_ObjectMeta wm)) clusterName]
  end.

Definition is_running_control_plane (m : WaldurMachine) : bool :=
  bool_decide (ms_NodeType (wm_Spec m) = ControlPlaneNode) &&
  bool_decide (mst_State (wm_Status m) = CoreStatesOK) &&
  negb (bool_decide (mst_MarketplaceResourceUuid (wm_Status m) = "")).

(** The cluster is returned as the calls leave it in memory, beside the error. *)
Definition reconcileControlPlaneEndpoint (waldurCluster : WaldurCluster) : M (WaldurCluster * option error) :=
  let meta := wc_ObjectMeta waldurCluster in
  if negb (bool_decide (ep_Host (cs_ControlPlaneEndpoint (wc_Spec waldurCluster)) = ""))
  then Ret (waldurCluster, None)
  else
    let? machines := ask (KListWaldurMachines (om_Namespace meta)
                            {[ClusterNameLabel := om_Name meta]})
      else err => Ret (waldurCluster, Some (Wrap err "unable to list WaldurMachines")) in
    match List.find is_running_control_plane machines with
    | None => Ret (waldurCluster, None)
    | Some firstCP =>
        let? resourcePtr := getMarketplaceResource (mst_MarketplaceResourceUuid (wm_Status firstCP))
          else err => Ret (waldurCluster, Some (Wrap err "unable to get marketplace resource for control plane VM")) in
        let* resource := deref resourcePtr in
        match r_ResourceUuid resource with
        | None => Ret (waldurCluster, None)
        | Some resourceUuid =>
            let? instanceResp := ask (OpenstackInstancesRetrieve resourceUuid ["InternalIps"])
              else err => Ret (waldurCluster, Some (Wrap err "unable to retrieve control plane VM")) in
            match JSON instanceResp with
            | None =>
                Ret (waldurCluster,
                     Some (Errorf "unexpected nil instance response (status %d)"
                             [FInt (StatusCode instanceResp)]))
            | Some instance =>
                match os_InternalIps instance with
                | None | Some [] => Ret (waldurCluster, None)
                | Some (ip :: _) =>
                    let waldurCluster :=
                      set_wc_ControlPlaneEndpoint waldurCluster (mkAPIEndpoint ip 6443) in
                    let? waldurCluster := ask (KUpdateWaldurCluster waldurCluster)
                      else err => Ret (waldurCluster, Some (Wrap err "unable to patch controlPlaneEndpoint")) in
                    Ret (waldurCluster, None)
                end
            end
        end
    end.

(** The body of [Reconcile]'s loop over the datacenters. *)
Definition reconcile_datacenter (tenants : gmap string OpenStackTenant) (dc : DatacenterSpec)
    : M (gmap string OpenStackTenant) :=
  match tenants !! dc_OfferingSlug dc with
  | Some existing =>
      let* (existing, _) := refreshTenant existing in
      Ret (<[dc_OfferingSlug dc := existing]> tenants)
  | None =>
      let? tenantPtr := createTenant dc
        else err => Ret tenants in
      let* tenant := deref tenantPtr in
      Ret (<[dc_OfferingSlug dc := tenant]> tenants)
  end.

Definition has_owner (kind : string) (refs : list OwnerReference) : bool :=
  existsb (fun ref => bool_decide (or_Kind ref = kind)) refs.

(** The end of [Reconcile], from the Ready condition to the result. As in
    [reconcileDelete], [tenants] after [Patch] is the map of the patched
    object. *)
Definition publish (waldurCluster base : WaldurCluster) : M (result ctrl_Result) :=
  let waldurCluster := setReadyCondition waldurCluster in
  let? waldurCluster := ask (KPatchWaldurClusterStatus waldurCluster base)
    else err => Ret (Err (Wrapf err "couldn't patch status for cluster %q"
                            [FStr (om_Name (wc_ObjectMeta waldurCluster))])) in
  let* (waldurCluster, _) := reconcileControlPlaneEndpoint waldurCluster in
  if anyTenantPending (cst_Tenants (wc_Status waldurCluster))
  then Ret (Ok (requeue 15))
  else Ret (Ok (requeue 300)).

(** [Reconcile] of a cluster that is not being deleted and has the finalizer
    and its owner. *)
Definition reconcileNormal (waldurCluster : WaldurCluster) : M (result ctrl_Result) :=
  let base := waldurCluster in
  let* tenants := for_each reconcile_datacenter (cst_Tenants (wc_Status waldurCluster))
                    (cs_Datacenters (wc_Spec waldurCluster)) in
  publish (set_wc_Tenants waldurCluster tenants) base.

Definition Reconcile (req : NamespacedName) : M (result ctrl_Result) :=
  let? waldurCluster := ask (KGetWaldurCluster req)
    else err => Ret (if IsNotFound err then Ok (requeue 0) else Err err) in
  let meta := wc_ObjectMeta waldurCluster in
  if negb (Time_IsZero (om_DeletionTimestamp meta))
  then reconcileDelete waldurCluster
  else if negb (ContainsFinalizer (om_Finalizers meta) finalizer)
  then
    let fs := AddFinalizer (om_Finalizers meta) finalizer in
    let? _ := ask (KUpdateWaldurCluster (set_wc_Finalizers waldurCluster fs))
      else err => Ret (Err (Wrap err "unable to add finalizer")) in
    Ret (Ok (requeue 0))
  else if negb (has_owner "Cluster" (om_OwnerReferences meta))
  then Ret (Ok (requeue 0))
  else reconcileNormal waldurCluster.
End ClusterController.
