(* ===== verification/Concrete.v ===== *)
(** Concrete libraries and environments, to run the controllers on.

    The library interfaces of [Calls] and [CloudInit] are instantiated by
    functions that satisfy their laws, and [answering] builds an environment
    out of one answer per call. The witnesses of the theorems use them. *)
From S2P Require Import Prelude Prog Types Calls CloudInit.
From Stdlib Require Import ZArith Lia Ascii.
From stdpp Require Import base gmap strings list.
Local Open Scope string_scope.
Local Open Scope list_scope.

(** ** UUIDs: binary digits, least significant first *)

Module ConcreteUuid.
Fixpoint bits (p : positive) : string :=
  match p with
  | xH => ""
  | xO p => String "0"%char (bits p)
  | xI p => String "1"%char (bits p)
  end.

Definition to_string (u : UUID) : string :=
  match u with
  | N0 => "0"
  | Npos p => String "u"%char (bits p)
  end.

Fixpoint parse_bits (s : string) : option positive :=
  match s with
  | "" => Some xH
  | String "0"%char s => xO <$> parse_bits s
  | String "1"%char s => xI <$> parse_bits s
  | _ => None
  end.

Definition parse (s : string) : result UUID :=
  match s with
  | String "u"%char s =>
      match parse_bits s with
      | Some p => Ok (Npos p)
      | None => Err (ErrLib false "invalid UUID")
      end
  | String "0"%char "" => Ok N0
  | _ => Err (ErrLib false "invalid UUID length")
  end.

Lemma parse_bits_bits p : parse_bits (bits p) = Some p.
Proof. induction p as [p IH|p IH|]; simpl; rewrite ?IH; done. Qed.

#[export] Instance lib : UuidLib := {| uuid_Parse := parse; uuid_String := to_string |}.

#[export] Instance laws : UuidLaws lib.
Proof.
  split; intros [|p]; simpl; try done. by rewrite parse_bits_bits.
Qed.
End ConcreteUuid.

(** ** Finalizers and conditions *)

Module ConcreteKube.
Definition contains (fs : list string) (f : string) : bool := bool_decide (f ∈ fs).
Definition add (fs : list string) (f : string) : list string :=
  if contains fs f then fs else fs ++ [f].
Definition remove (fs : list string) (f : string) : list string :=
  filter (fun g => g <> f) fs.

Fixpoint set_condition (cs : list Condition) (c : Condition) : list Condition :=
  match cs with
  | [] => [c]
  | c' :: cs =>
      if bool_decide (c_Type c' = c_Type c) then c :: cs else c' :: set_condition cs c
  end.

#[export] Instance lib : KubeLib := {|
  ClusterNameLabel := "cluster.x-k8s.io/cluster-name";
  ContainsFinalizer := contains;
  AddFinalizer := add;
  RemoveFinalizer := remove;
  SetStatusCondition := set_condition;
|}.

#[export] Instance laws : KubeLaws lib.
Proof.
  split; simpl.
  - intros fs f. apply bool_decide_eq_true.
  - intros fs f g. unfold add, contains. case_bool_decide; set_solver.
  - intros fs f g. unfold remove. rewrite list_elem_of_filter. done.
  - intros cs c. unfold FindStatusCondition.
    induction cs as [|c' cs IH]; simpl; [by rewrite bool_decide_eq_true_2|].
    case_bool_decide as E; simpl; [by rewrite bool_decide_eq_true_2|].
    by rewrite bool_decide_eq_false_2.
  - intros cs c ty Hty. unfold FindStatusCondition.
    induction cs as [|c' cs IH]; simpl; [by rewrite bool_decide_eq_false_2|].
    case_bool_decide as E; simpl; [|by rewrite IH].
    by rewrite E, !bool_decide_eq_false_2.
Qed.
End ConcreteKube.

(** ** A YAML stand-in: any injective encoding parses back *)

Module ConcreteYaml.
Fixpoint any_tree (a : any) : gen_tree (bool + Z + string) :=
  match a with
  | AnyNil => GenNode 0 []
  | AnyBool b => GenLeaf (inl (inl b))
  | AnyInt z => GenLeaf (inl (inr z))
  | AnyFloat s => GenNode 1 [GenLeaf (inr s)]
  | AnyString s => GenLeaf (inr s)
  | AnySeq l => GenNode 2 (map any_tree l)
  | AnyMap l => GenNode 3 (map (fun kv => GenNode 4 [GenLeaf (inr kv.1); any_tree kv.2]) l)
  end.

Fixpoint tree_any (t : gen_tree (bool + Z + string)) : option any :=
  match t with
  | GenNode 0 [] => Some AnyNil
  | GenLeaf (inl (inl b)) => Some (AnyBool b)
  | GenLeaf (inl (inr z)) => Some (AnyInt z)
  | GenNode 1 [GenLeaf (inr s)] => Some (AnyFloat s)
  | GenLeaf (inr s) => Some (AnyString s)
  | GenNode 2 l =>
      AnySeq <$> (fix go l := match l with
                  | [] => Some []
                  | t :: l => a ← tree_any t; l' ← go l; Some (a :: l')
                  end) l
  | GenNode 3 l =>
      AnyMap <$> (fix go l := match l with
                  | [] => Some []
                  | GenNode 4 [GenLeaf (inr k); t] :: l =>
                      a ← tree_any t; l' ← go l; Some ((k, a) :: l')
                  | _ => None
                  end) l
  | _ => None
  end.

Lemma tree_any_any_tree : forall a, tree_any (any_tree a) = Some a.
Proof.
  fix IH 1. intros [| | | | |l|l]; simpl; try done.
  - enough (forall l : list any, (fix go l := match l with
                  | [] => Some []
                  | t :: l => a ← tree_any t; l' ← go l; Some (a :: l')
                  end) (map any_tree l) = Some l) as -> by done.
    clear l. fix IHl 1. intros [|a l]; simpl; [done|]. rewrite IH. simpl.
    by rewrite IHl.
  - enough (forall l : list (string * any), (fix go l := match l with
                  | [] => Some []
                  | GenNode 4 [GenLeaf (inr k); t] :: l =>
                      a ← tree_any t; l' ← go l; Some ((k, a) :: l')
                  | _ => None
                  end) (map (fun kv => GenNode 4 [GenLeaf (inr kv.1); any_tree kv.2]) l) = Some l)
      as -> by done.
    clear l. fix IHl 1. intros [|[k a] l]; simpl; [done|]. rewrite IH. simpl.
    by rewrite IHl.
Qed.

#[export] Instance any_eq_dec : EqDecision any.
Proof.
  refine (fun a b => cast_if (decide (any_tree a = any_tree b))).
  - assert (Some a = Some b) as [=]; [|done]. by rewrite <- !tree_any_any_tree; f_equal.
  - congruence.
Defined.

#[export] Instance any_countable : Countable any.
Proof. exact (inj_countable any_tree tree_any tree_any_any_tree). Defined.

Definition file_tuple (f : CloudInitFile) :=
  (ci_Path f, ci_Content f, ci_Permissions f, ci_Owner f, ci_Encoding f).
Definition tuple_file t : CloudInitFile :=
  let '(p, c, m, o, e) := t in mkCloudInitFile p c m o e.

#[export] Instance CloudInitFile_eq_dec : EqDecision CloudInitFile.
Proof. solve_decision. Defined.
#[export] Instance CloudInitFile_countable : Countable CloudInitFile.
Proof. refine (inj_countable' file_tuple tuple_file _). by intros []. Defined.

#[export] Instance CloudInit_eq_dec : EqDecision CloudInit.
Proof. solve_decision. Defined.
#[export] Instance CloudInit_countable : Countable CloudInit.
Proof.
  refine (inj_countable' (fun c => (WriteFiles c, RunCmd c, BootCmd c))
            (fun '(w, r, b) => mkCloudInit w r b) _). by intros [].
Defined.

Definition print `{Countable A} (a : A) : string := ConcreteUuid.bits (encode a).
Definition read `{Countable A} (s : string) : result A :=
  match ConcreteUuid.parse_bits s ≫= decode with
  | Some a => Ok a
  | None => Err (ErrLib false "yaml: cannot unmarshal")
  end.

Lemma read_print `{Countable A} (a : A) : read (print a) = Ok a.
Proof.
  unfold read, print. rewrite ConcreteUuid.parse_bits_bits. simpl. by rewrite decode_encode.
Qed.

#[export] Instance lib : YamlLib := {|
  yaml_Unmarshal_CloudInit := read;
  yaml_Marshal_CloudInit ci := Ok (print ci);
  yaml_Unmarshal_map := read;
  yaml_Marshal_map m := Ok (print m);
|}.

#[export] Instance laws : YamlLaws lib.
Proof. split; simpl; intros ?? [= <-]; apply read_print. Qed.
Definition print_map (m : gmap string any) : string := print m.
Definition print_doc (ci : CloudInit) : string := print ci.

Lemma read_doc ci : yaml_Unmarshal_CloudInit (print_doc ci) = Ok ci.
Proof. apply read_print. Qed.
Lemma write_doc ci : yaml_Marshal_CloudInit ci = Ok (print_doc ci).
Proof. done. Qed.
Lemma read_map m : yaml_Unmarshal_map (print_map m) = Ok m.
Proof. apply read_print. Qed.
Lemma write_map m : yaml_Marshal_map m = Ok (print_map m).
Proof. done. Qed.
End ConcreteYaml.

(** ** Environments *)

(** An environment whose answer to a call does not depend on the past. *)
Definition answering (f : forall c : Call, Call_resp c) : environment ctl unit :=
  fun c w => (f c, w).

Lemma answering_allowed (f : forall c : Call, Call_resp c) :
  (forall keys, f (Range keys) ≡ₚ keys) -> env_allowed (answering f).
Proof. intros Hf [] []; simpl; done. Qed.

(** The answers of an environment where everything is down. *)
Definition down (c : Call) : Call_resp c :=
  match c with
  | KGetWaldurMachine _ | KGetWaldurCluster _ | KGetMachine _ | KGetCluster _
  | KGetSecret _ | KListWaldurMachines _ _ | KUpdateWaldurMachine _ | KPatchWaldurMachine _ _
  | KPatchWaldurMachineStatus _ _ | KUpdateWaldurCluster _ | KPatchWaldurClusterStatus _ _
  | ProjectsList _ _ _ | ProjectsCreate _ _ | ProjectsDestroy _ | MarketplaceOrdersCreate _
  | MarketplaceOrdersRetrieve _ | MarketplaceResourcesRetrieve _
  | MarketplaceResourcesTerminate _ | MarketplaceResourcesOfferingForSubresourcesList _
  | MarketplacePublicOfferingsList _ | MarketplacePublicOfferingsRetrieve _
  | OpenstackFlavorsList _ _ | OpenstackImagesList _ _ | OpenstackSecurityGroupsList _
  | OpenstackSubnetsList _ | OpenstackVolumeTypesList _ | OpenstackTenantsRetrieve _
  | OpenstackInstancesRetrieve _ _ | OpenstackInstancesStop _ | CustomersList _ _
  | SecretExists _ | GenerateSecretID _ => Err (ErrLib false "connection refused")
  | EncodeAttributes _ => None
  | WriteSecret _ _ | RevokeSecretID _ _ => Some (ErrLib false "connection refused")
  | Range keys => keys
  end.

(** A response with a status and a decoded body. *)
Definition http {A} (status : Z) (a : A) : result (response A) :=
  Ok (mkResponse status (Some a) "").
Definition http_error {A} (status : Z) (body : string) : result (response A) :=
  Ok (mkResponse status None body).
