(* ===== verification/Scenario.v ===== *)
(** A concrete cluster to run the controllers on: one datacenter with one ready
    tenant, one machine, a Waldur backend that accepts every request.

    [healthy] answers every call; [but] overrides some of the answers. The
    witnesses of the theorems are runs of the controllers against these. *)
From S2P Require Import Prelude Prog Types Calls CloudInit MachineController Concrete.
From Stdlib Require Import ZArith Lia.
From stdpp Require Import base gmap strings list.
Local Open Scope string_scope.
Local Open Scope list_scope.

Definition project_uuid : UUID := 2%N.
Definition order_uuid : UUID := 3%N.
Definition resource_uuid : UUID := 4%N.
Definition instance_uuid : UUID := 5%N.
Definition tenant_uuid : UUID := 6%N.
Definition tenant_resource_uuid : UUID := 7%N.
Definition offering_uuid : UUID := 8%N.

Definition text (u : UUID) : string := ConcreteUuid.to_string u.

Definition req : NamespacedName := mkNamespacedName "default" "m0".

(** ** Kubernetes objects *)

Definition new_machine_status : WaldurMachineStatus :=
  mkWaldurMachineStatus [] None None (CoreStatesOther "") "" (ResourceStateOther "") None.

Definition machine_spec : WaldurMachineSpec :=
  mkWaldurMachineSpec None "dc-one" ControlPlaneNode "m1.large" "ubuntu" (Some 20%Z) (Some 50%Z) None.

Definition machine_meta (deletion : option Z) : ObjectMeta :=
  mkObjectMeta "m0" "default" {["cluster.x-k8s.io/cluster-name" := "c0"]} [machineFinalizer]
    [mkOwnerReference "Machine" "m0"] deletion.

Definition new_machine : WaldurMachine :=
  mkWaldurMachine (machine_meta None) machine_spec new_machine_status.

Definition order_of (type : RequestTypes) (state : OrderState) : WaldurOrder :=
  mkWaldurOrder (text order_uuid) type state (text resource_uuid) None.

(** A machine whose VM was ordered. *)
Definition ordered_status (type : RequestTypes) (state : OrderState) (core : CoreStates)
    (vm : option string) : WaldurMachineStatus :=
  mkWaldurMachineStatus [] None vm core (text resource_uuid) (ResourceStateOther "")
    (Some (order_of type state)).

Definition ordered_machine : WaldurMachine :=
  mkWaldurMachine (machine_meta None) machine_spec
    (ordered_status Create OrderStatePendingProvider CoreStatesCREATING None).

Definition deleted_machine (type : RequestTypes) (state : OrderState) : WaldurMachine :=
  mkWaldurMachine (machine_meta (Some 100%Z)) machine_spec
    (ordered_status type state CoreStatesOK (Some (text instance_uuid))).

Definition machine : Machine :=
  mkMachine "default" {["cluster.x-k8s.io/cluster-name" := "c0"]} "c0" (Some "bootstrap").

Definition cluster : Cluster := mkCluster "default" (Some "c0").

Definition ready_tenant_status : OpenStackTenant :=
  mkOpenStackTenant CoreStatesOK (Some (text tenant_uuid)) "dc-one-org_one"
    (text tenant_resource_uuid) ResourceStateOK (Some "org-one") None.

Definition worker_group : NodeGroupSpec :=
  mkNodeGroupSpec WorkerNode "m1.large" 2 (Some 50%Z) None.

Definition datacenter (slug : string) : DatacenterSpec :=
  mkDatacenterSpec slug "one" (mkOpenstackInfrastructure "infra" "Org" None) [worker_group].

Definition cluster_meta (deletion : option Z) : ObjectMeta :=
  mkObjectMeta "c0" "default" ∅ ["waldurcluster.infrastructure.cluster.waldur.com/finalizer"]
    [mkOwnerReference "Cluster" "c0"] deletion.

Definition waldur_cluster (dcs : list DatacenterSpec) (tenants : gmap string OpenStackTenant)
    (deletion : option Z) : WaldurCluster :=
  mkWaldurCluster (cluster_meta deletion)
    (mkWaldurClusterSpec "v1.30" "single" dcs [] (mkAPIEndpoint "" 0))
    (mkWaldurClusterStatus [] None tenants).

Definition ready_cluster : WaldurCluster :=
  waldur_cluster [datacenter "dc-one"] {["dc-one" := ready_tenant_status]} None.

(** ** Waldur objects *)

Definition org : Customer := mkCustomer (Some "org") (Some 1%N) (Some "https://w/customers/1/").
Definition project : Project :=
  mkProject (Some project_uuid) (Some "https://w/projects/2/") (Some "org_one") (Some "org-one").
Definition offering : PublicOfferingDetails :=
  mkPublicOfferingDetails (Some offering_uuid) (Some "https://w/offerings/8/") (Some "dc-one")
    (Some [mkPlan (Some "https://w/plans/1/")]).
Definition flavor : OpenStackFlavor :=
  mkOpenStackFlavor (Some "https://w/flavors/1/") (Some 4%Z) (Some 8192%Z).
Definition image : OpenStackImage := mkOpenStackImage (Some "https://w/images/1/").
Definition default_group : OpenStackSecurityGroup :=
  mkOpenStackSecurityGroup (Some "default") (Some "https://w/groups/1/").
Definition ssh_group : OpenStackSecurityGroup :=
  mkOpenStackSecurityGroup (Some "ssh") (Some "https://w/groups/2/").
Definition created_order : OrderDetails :=
  mkOrderDetails (Some order_uuid) (Some Create) (Some OrderStatePendingProvider)
    (Some resource_uuid) None (Some "dc-one-org_one").
Definition running_instance : OpenStackInstance :=
  mkOpenStackInstance (Some CoreStatesOK) (Some instance_uuid) (Some "ACTIVE")
    (Some ["10.0.0.7"]).
Definition ready_resource : Resource :=
  mkResource (Some ResourceStateOK) (Some "https://w/instances/5/") (Some instance_uuid).

Definition vault_config (fields : gmap string string) : Secret :=
  mkSecret (<["value" := "bootstrap data"]>
    (<["vault_addr" := "https://v"]> (<["role_name" := "node"]> (<["role_id" := "id"]> fields)))).

(** ** Answers *)

Definition healthy (wm : WaldurMachine) (wc : WaldurCluster) (c : Call) : Call_resp c :=
  match c with
  | KGetWaldurMachine _ => Ok wm
  | KGetWaldurCluster _ => Ok wc
  | KGetMachine _ => Ok machine
  | KGetCluster _ => Ok cluster
  | KGetSecret _ => Ok (vault_config {["rancher_url" := "https://r"]})
  | KListWaldurMachines _ _ => Ok [wm]
  | KUpdateWaldurMachine obj => Ok obj
  | KPatchWaldurMachine obj _ => Ok obj
  | KPatchWaldurMachineStatus obj _ => Ok obj
  | KUpdateWaldurCluster obj => Ok obj
  | KPatchWaldurClusterStatus obj _ => Ok obj
  | ProjectsList _ _ _ => http 200 [project]
  | ProjectsCreate _ _ => http 201 project
  | ProjectsDestroy _ => http 204 tt
  | MarketplaceOrdersCreate _ => http 201 created_order
  | MarketplaceOrdersRetrieve _ => http 200 created_order
  | MarketplaceResourcesRetrieve _ => http 200 ready_resource
  | MarketplaceResourcesTerminate _ => http 200 (mkTerminateResponse (Some order_uuid))
  | MarketplaceResourcesOfferingForSubresourcesList _ =>
      http 200 [mkSubresourceOffering (Some 9%N) (Some "OpenStack.Volume");
                mkSubresourceOffering (Some offering_uuid) (Some "OpenStack.Instance")]
  | MarketplacePublicOfferingsList _ => http 200 [offering]
  | MarketplacePublicOfferingsRetrieve _ => http 200 offering
  | OpenstackFlavorsList _ _ => http 200 [flavor]
  | OpenstackImagesList _ _ => http 200 [image]
  | OpenstackSecurityGroupsList _ => http 200 [ssh_group; default_group]
  | OpenstackSubnetsList _ =>
      http 200 [mkOpenStackSubNet (Some "https://w/subnets/1/"); mkOpenStackSubNet None]
  | OpenstackVolumeTypesList _ => http 200 [mkOpenStackVolumeType (Some "https://w/types/1/")]
  | OpenstackTenantsRetrieve _ => http 200 (mkApiTenant (Some CoreStatesOK) (Some "dc-one-org_one"))
  | OpenstackInstancesRetrieve _ _ => http 200 running_instance
  | OpenstackInstancesStop _ => http 202 tt
  | CustomersList _ _ => http 200 [org]
  | EncodeAttributes _ => None
  | SecretExists _ => Ok false
  | WriteSecret _ _ => None
  | GenerateSecretID _ => Ok "secret-id"
  | RevokeSecretID _ _ => None
  | Range keys => keys
  end.

(** Answers that differ from [f] where [override] says so. *)
Definition but (f : forall c : Call, Call_resp c) (override : forall c : Call, option (Call_resp c))
    (c : Call) : Call_resp c :=
  match override c with Some a => a | None => f c end.

(** The run of a program against fixed answers is one of its executions. *)
Lemma answering_execs {A} (f : forall c : Call, Call_resp c) (p : M A) :
  (forall keys, f (Range keys) ≡ₚ keys) ->
  execs p (run_trace (answering f) tt p) (run_outcome (answering f) tt p).
Proof. intros Hf. by apply run_execs, answering_allowed. Qed.

(** Two configurations of the machine controller. *)
Definition plain : WaldurMachineReconciler := mkWaldurMachineReconciler false "" "operator".
Definition vaulted : WaldurMachineReconciler := mkWaldurMachineReconciler true "" "operator".

#[export] Existing Instances ConcreteUuid.lib ConcreteUuid.laws ConcreteKube.lib ConcreteKube.laws
  ConcreteYaml.lib ConcreteYaml.laws.

(** The [n]-th call of a run. *)
Ltac nth_call n := repeat eexists; apply (list_elem_of_lookup_2 _ n); vm_compute; reflexivity.

(** The facts a witness needs of [answering]. *)
Ltac any_order := intros; reflexivity.

(** An API server that keeps one machine. A status patch is stored, unless the
    server has a conflict to report; every other call is [healthy]. *)
Definition api_server : environment ctl (WaldurMachine * nat) := fun c w =>
  match c with
  | KGetWaldurMachine _ => (Ok w.1, w)
  | KPatchWaldurMachineStatus obj _ =>
      match w.2 with
      | O => (Ok obj, (obj, O))
      | S n => (Err (ErrLib false "the object has been modified"), (w.1, n))
      end
  | c => (healthy w.1 ready_cluster c, w)
  end.

Lemma api_server_allowed : env_allowed api_server.
Proof. intros [] [? []]; simpl; done. Qed.

(** An order of a run, found by a test on its answer. *)
Lemma order_in_trace (tr : list (event ctl)) (f : response OrderDetails -> bool) :
  existsb (fun e => match order_answer e with Some (Ok resp) => f resp | _ => false end) tr = true ->
  exists p resp, Evt (MarketplaceOrdersCreate p) (Ok resp) ∈ tr /\ f resp = true.
Proof.
  intros ([c a] & Hin & Hf)%existsb_true. destruct c; try done. destruct a as [resp|]; [|done].
  exists payload, resp. done.
Qed.

(** A run that returns. *)
Lemma answering_done {A} (f : forall c : Call, Call_resp c) (p : M A) a :
  (forall keys, f (Range keys) ≡ₚ keys) -> run_outcome (answering f) tt p = Done a ->
  execs p (run_trace (answering f) tt p) (Done a).
Proof. intros Hf <-. by apply answering_execs. Qed.

Definition is_ok {A} (o : outcome (result A)) : bool :=
  match o with Done (Ok _) => true | _ => false end.

Lemma answering_ok {A} (f : forall c : Call, Call_resp c) (p : M (result A)) :
  (forall keys, f (Range keys) ≡ₚ keys) -> is_ok (run_outcome (answering f) tt p) = true ->
  exists a, execs p (run_trace (answering f) tt p) (Done (Ok a)).
Proof.
  intros Hf Hok. pose proof (answering_execs f p Hf) as He.
  destruct (run_outcome _ _ _) as [[a|]|]; [|done..]. by exists a.
Qed.

(** An API server that keeps one cluster, beside a Waldur that gives the answers
    [f] to everything else. *)
Definition cluster_server (f : forall c : Call, Call_resp c) : environment ctl WaldurCluster :=
  fun c w =>
  match c with
  | KGetWaldurCluster _ => (Ok w, w)
  | KPatchWaldurClusterStatus obj _ => (Ok obj, obj)
  | KUpdateWaldurCluster obj => (Ok obj, obj)
  | c => (f c, w)
  end.

Lemma cluster_server_allowed (f : forall c : Call, Call_resp c) :
  (forall keys, f (Range keys) ≡ₚ keys) -> env_allowed (cluster_server f).
Proof. intros Hf [] w; simpl; done. Qed.
