(* ===== verification/MachineFacts.v ===== *)
(** Which calls the machine controller can make, and when. *)
From S2P Require Import Prelude Prog Types Calls Helpers CloudInit MachineController.
From Stdlib Require Import ZArith Lia.
From stdpp Require Import base gmap strings list.
Local Open Scope string_scope.
Local Open Scope list_scope.
Local Open Scope go_scope.

Section MachineFacts.
Context `{UuidLib} `{KubeLib} `{YamlLib}.
Variable r : WaldurMachineReconciler.

Lemma refreshVM_reads wm : only (S := ctl) reads (refreshVM wm).
Proof. unfold refreshVM. ctl_only. Qed.

Lemma default_groups_reads gs : only (S := ctl) reads (default_groups gs).
Proof. unfold default_groups. ctl_only. Qed.

Lemma find_vm_offering_reads l : only (S := ctl) reads (find_vm_offering l).
Proof. induction l; simpl; ctl_only. Qed.

Lemma getVMOffering_reads u : only (S := ctl) reads (getVMOffering u).
Proof. unfold getVMOffering. ctl_only. apply find_vm_offering_reads. Qed.

#[local] Hint Resolve refreshVM_reads default_groups_reads getVMOffering_reads : go_footprint.

Lemma buildOrderPayload_reads wm wc ud : only (S := ctl) reads (buildOrderPayload wm wc ud).
Proof. unfold buildOrderPayload. ctl_only. Qed.

(** Preparing the user data touches Vault, never Waldur or Kubernetes. *)
Lemma prepareUserData_only (P : Call -> Prop) `{!ReadsIn P} machine wm :
  (forall c, vault_writes c = true -> P c) ->
  only (S := ctl) P (prepareUserData r machine wm).
Proof.
  intros HP. unfold prepareUserData, readVaultConfigSecret, buildUserDataWithRancherAgent,
    buildUserDataWithVault.
  ctl_only; first [by apply HP|apply reads_in; split_and!; reflexivity].
Qed.

Lemma provision_no_kube machine wm wc :
  wp (provision r machine wm wc)
    (fun tr _ => Forall (fun e : event ctl => kube_writes (ev_call e) = false) tr).
Proof.
  apply (only_wp (S := ctl) (fun c => kube_writes c = false)).
  unfold provision, createVM, submitVMOrder. ctl_only.
  - apply prepareUserData_only; [apply _|by intros []].
  - apply (reads_only _), buildOrderPayload_reads.
Qed.

Lemma setProviderID_only (P : Call -> Prop) wm base :
  (forall m b, P (KPatchWaldurMachine m b)) -> only (S := ctl) P (setProviderID wm base).
Proof. intros HP. unfold setProviderID. ctl_only. Qed.

Lemma publish_only (P : Call -> Prop) wm base :
  (forall c, kube_writes c = true -> P c) -> only (S := ctl) P (publish wm base).
Proof. intros HP. unfold publish, setProviderID. ctl_only; by apply HP. Qed.

Lemma stopVM_only (P : Call -> Prop) `{!ReadsIn P} wm :
  (forall u, P (OpenstackInstancesStop u)) -> only (S := ctl) P (stopVM wm).
Proof.
  intros HP. unfold stopVM. ctl_only. all: by apply reads_in.
Qed.

(** ** The Ready condition *)

Lemma setMachineReadyCondition_ready `{!KubeLaws _} wm :
  FindStatusCondition (mst_Conditions (wm_Status (setMachineReadyCondition wm))) "Ready"
  = Some (machine_ready_condition (mst_State (wm_Status wm))).
Proof.
  unfold setMachineReadyCondition; simpl.
  replace "Ready" with (c_Type (machine_ready_condition (mst_State (wm_Status wm))))
    by by destruct (mst_State _).
  apply SetStatusCondition_eq.
Qed.

Lemma setMachineReadyCondition_other `{!KubeLaws _} wm ty :
  ty <> "Ready" ->
  FindStatusCondition (mst_Conditions (wm_Status (setMachineReadyCondition wm))) ty
  = FindStatusCondition (mst_Conditions (wm_Status wm)) ty.
Proof.
  intros Hty. apply SetStatusCondition_ne. by destruct (mst_State _).
Qed.

(** ** What a refresh may change *)

Record status_refreshed (s s' : WaldurMachineStatus) : Prop := {
  sr_conditions : mst_Conditions s' = mst_Conditions s;
  sr_resource : mst_MarketplaceResourceUuid s' = mst_MarketplaceResourceUuid s;
  sr_order : order_refreshed (mst_Order s) (mst_Order s');
  sr_vm : mst_VmUuid s' = None -> mst_VmUuid s = None;
  sr_init : mst_Initialization s' = mst_Initialization s \/
            (mst_State s' = CoreStatesOK /\
             mst_Initialization s' = Some (mkInitialization (Some true)));
}.

Lemma status_refreshed_order s o :
  order_refreshed (mst_Order s) o -> status_refreshed s (set_mst_Order s o).
Proof. split; simpl; auto. Qed.

Lemma status_refreshed_resource_state s s' (st : option ResourceState) :
  status_refreshed s s' ->
  status_refreshed s
    match st with Some st => set_mst_MarketplaceResourceState s' st | None => s' end.
Proof. intros []. destruct st; split; simpl; auto. Qed.

Lemma status_refreshed_instance s s' instance :
  mst_Initialization s' = mst_Initialization s ->
  status_refreshed s s' -> status_refreshed s (apply_instance s' instance).
Proof.
  intros Hinit []. unfold apply_instance.
  destruct (os_State instance), (os_Uuid instance); simpl; case_bool_decide;
    split; simpl; auto; done.
Qed.

Lemma refreshVM_spec wm :
  wp (refreshVM wm) (fun _ res =>
    match res with
    | Done (wm', _) => exists s, wm' = set_wm_Status wm s /\ status_refreshed (wm_Status wm) s
    | Panicked => True
    end).
Proof.
  unfold refreshVM. wp_call refresh_pending_order_spec.
  intros _ [order err] Ho%status_refreshed_order. destruct err as [e|]; [wp_steps; eauto|].
  wp_call wp_true.
  intros _ [resourcePtr|e] _; wp_steps; try done; (eexists; split; [done|]).
  all: try apply status_refreshed_instance; try apply status_refreshed_resource_state; auto.
  by destruct (r_State _).
Qed.

Lemma createVM_frame machine wm wc :
  wp (createVM r machine wm wc) (fun _ res =>
    match res with
    | Done (wm', _) => exists s, wm' = set_wm_Status wm s /\
        mst_Conditions s = mst_Conditions (wm_Status wm)
    | Panicked => True
    end).
Proof.
  assert (wm = set_wm_Status wm (wm_Status wm)) as Hwm by by destruct wm.
  unfold createVM, submitVMOrder. wp_call wp_true.
  intros _ [ud|e] _; [|simpl; eauto].
  wp_call wp_true.
  intros _ [payload|e] _; [|simpl; eauto].
  wp_steps; simpl; eauto.
Qed.

Lemma provision_frame machine wm wc :
  wp (provision r machine wm wc) (fun _ res =>
    match res with
    | Done (Some wm') => exists s, wm' = set_wm_Status wm s /\
        mst_Conditions s = mst_Conditions (wm_Status wm)
    | _ => True
    end).
Proof.
  unfold provision. destruct (bool_decide _).
  - wp_call createVM_frame.
    intros _ [wm' [e|]] Hwm; simpl; [|done]. by destruct (Is_errBootstrapNotReady e).
  - wp_call refreshVM_spec.
    intros _ [wm' e] (s & -> & Hs). simpl. exists s. split; [done|]. apply Hs.
Qed.

(** ** Creation orders *)

Lemma createVM_at_most_one machine wm wc :
  at_most (S := ctl) is_order_create 1 (createVM r machine wm wc).
Proof.
  unfold createVM, submitVMOrder. apply at_most_bind_only.
  { apply prepareUserData_only; [apply _|by intros []]. }
  intros [ud|e]; [|done]. apply at_most_bind_only.
  { apply (reads_only _), buildOrderPayload_reads. }
  intros [payload|e]; [|done].
  apply (at_most_bind (S := ctl) _ 1 0); [done|].
  intros resp. apply only_at_most. ctl_only.
Qed.

Lemma reconcileDelete_no_create wm :
  only (S := ctl) (fun c => is_order_create c = false) (reconcileDelete wm).
Proof.
  unfold reconcileDelete, removeFinalizer, patchStatus. ctl_only.
  - apply stopVM_only; [apply _|done].
  - by apply submitTerminationOrder_only.
Qed.

Lemma provision_at_most machine wm wc :
  at_most (S := ctl) is_order_create
    (if decide (mst_MarketplaceResourceUuid (wm_Status wm) = "") then 1 else 0)
    (provision r machine wm wc).
Proof.
  unfold provision. destruct (decide _) as [Hu|Hu]; [rewrite bool_decide_eq_true_2 by done|
    rewrite bool_decide_eq_false_2 by done].
  - apply (at_most_bind (S := ctl) _ 1 0); [apply createVM_at_most_one|].
    intros [wm' [e|]]; done.
  - apply only_at_most. ctl_only.
Qed.

Lemma reconcileNormal_at_most wm :
  at_most (S := ctl) is_order_create
    (if decide (mst_MarketplaceResourceUuid (wm_Status wm) = "") then 1 else 0)
    (reconcileNormal r wm).
Proof.
  unfold reconcileNormal. destruct (bool_decide _); [done|].
  apply at_most_bind_only; [by ctl_only|]. intros [machine|e]; [|done].
  destruct (bool_decide _); [done|].
  apply at_most_bind_only; [by ctl_only|]. intros [cluster|e]; [|done].
  apply at_most_bind_only; [by ctl_only|]. intros infraName.
  apply at_most_bind_only; [by ctl_only|]. intros [wc|e]; [|done].
  rewrite <- (Nat.add_0_r (if decide _ then 1 else 0)).
  apply at_most_bind; [apply provision_at_most|].
  intros [wm'|]; [|done]. apply only_at_most, publish_only. by intros [].
Qed.

(** [reconcileNormal] as three phases: reads that find the owners, [provision],
    and [publish] on what [provision] left in memory. *)
Lemma reconcileNormal_phases wm Q :
  (forall tr o, Forall (fun e : event ctl => reads (ev_call e)) tr -> Q tr o) ->
  (forall tr machine wc,
     Forall (fun e : event ctl => reads (ev_call e)) tr ->
     wp (provision r machine wm wc) (fun tr' o =>
       match o with
       | Done None => Q (tr ++ tr') (Done (Ok (requeue 10)))
       | Done (Some wm') => wp (publish wm' wm) (fun tr'' o' => Q (tr ++ tr' ++ tr'') o')
       | Panicked => Q (tr ++ tr') Panicked
       end)) ->
  wp (reconcileNormal r wm) Q.
Proof.
  intros Hearly Hmain. unfold reconcileNormal.
  wp_steps; try (apply Hearly; repeat constructor; done).
  match goal with H : Call_allowed (KGetMachine ?nn) (Ok ?m),
                  H1 : Call_allowed (KGetCluster ?nn1) (Ok ?c),
                  H2 : Call_allowed (KGetWaldurCluster ?nn2) (Ok ?w) |- _ =>
    specialize (Hmain [Evt (KGetMachine nn) (Ok m); Evt (KGetCluster nn1) (Ok c);
                       Evt (KGetWaldurCluster nn2) (Ok w)] m w)
  end.
  eapply wp_bind_mono; [apply Hmain; repeat constructor; done| |auto].
  intros tr [wm'|] Hq; [exact Hq|]. wp_steps. rewrite app_nil_r. exact Hq.
Qed.

(** For a property of one kind [φ] of Kubernetes write: only [publish] makes
    such calls, on the machine as [provision] left it. *)
Lemma reconcileNormal_publish (φ : Call -> bool) `{!ReadsIn (fun c => φ c = false)} wm
    (Q : list (event ctl) -> outcome (result ctrl_Result) -> Prop) :
  (forall c, φ c = true -> kube_writes c = true) ->
  (forall tr o, Forall (fun e : event ctl => φ (ev_call e) = false) tr -> Q tr o) ->
  (forall s pre, mst_Conditions s = mst_Conditions (wm_Status wm) ->
     Forall (fun e : event ctl => φ (ev_call e) = false) pre ->
     wp (publish (set_wm_Status wm s) wm) (fun tr o => Q (pre ++ tr) o)) ->
  wp (reconcileNormal r wm) Q.
Proof.
  intros Hφ Hnone Hpub. apply reconcileNormal_phases.
  { intros tr o Htr%(reads_trace φ). by apply Hnone. }
  intros tr machine wc Htr%(reads_trace φ).
  eapply wp_mono; [apply wp_and; [apply provision_frame|apply provision_no_kube]|].
  intros tr' o [Hframe Hno]; apply (no_kube_trace φ) in Hno; [|done].
  destruct o as [[wm'|]|]; [|by apply Hnone, Forall_app..].
  destruct Hframe as (s & -> & Hconds).
  eapply wp_mono; [apply (Hpub s (tr ++ tr')); [done|by apply Forall_app]|].
  intros tr'' o'. by rewrite app_assoc.
Qed.

(** The machine a [Reconcile] works on is the one its first call returned. *)
Lemma Reconcile_after_get (Q : list (event ctl) -> outcome (result ctrl_Result) -> Prop) req :
  (forall e, Q [Evt (KGetWaldurMachine req) (Err e)]
               (Done (if IsNotFound e then Ok (requeue 0) else Err e))) ->
  (forall wm, Time_IsZero (om_DeletionTimestamp (wm_ObjectMeta wm)) = false ->
     wp (reconcileDelete wm) (fun tr o => Q (Evt (KGetWaldurMachine req) (Ok wm) :: tr) o)) ->
  (forall wm, Time_IsZero (om_DeletionTimestamp (wm_ObjectMeta wm)) = true ->
     ContainsFinalizer (om_Finalizers (wm_ObjectMeta wm)) machineFinalizer = false ->
     forall a, Q [Evt (KGetWaldurMachine req) (Ok wm);
                  Evt (KUpdateWaldurMachine (set_wm_Finalizers wm
                         (AddFinalizer (om_Finalizers (wm_ObjectMeta wm)) machineFinalizer))) a]
                 (Done match a with
                       | Ok _ => Ok (requeue 0)
                       | Err e => Err (Wrap e "unable to add finalizer")
                       end)) ->
  (forall wm, Time_IsZero (om_DeletionTimestamp (wm_ObjectMeta wm)) = true ->
     ContainsFinalizer (om_Finalizers (wm_ObjectMeta wm)) machineFinalizer = true ->
     wp (reconcileNormal r wm) (fun tr o => Q (Evt (KGetWaldurMachine req) (Ok wm) :: tr) o)) ->
  wp (Reconcile r req) Q.
Proof.
  intros Hget Hdel Hfin Hnorm. unfold Reconcile. apply wp_ask_bind.
  intros [wm|e] _; [|apply Hget].
  destruct (Time_IsZero _) eqn:Hts; simpl; [|by apply Hdel].
  destruct (ContainsFinalizer _ _) eqn:Hc; simpl; [by apply Hnorm|].
  intros [wm'|e] _; simpl; [apply (Hfin wm Hts Hc (Ok wm'))|apply (Hfin wm Hts Hc (Err e))].
Qed.

Definition machine_read (e : event ctl) : option (result WaldurMachine) :=
  match ev_call e as c return Call_resp c -> option (result WaldurMachine) with
  | KGetWaldurMachine _ => fun a => Some a
  | _ => fun _ => None
  end (ev_resp e).

Lemma machine_read_inj req a a' (tr tr' : list (event ctl)) :
  Evt (KGetWaldurMachine req) a :: tr = Evt (KGetWaldurMachine req) a' :: tr' -> a = a' /\ tr = tr'.
Proof.
  intros Htr. split; [|exact (f_equal (@tail _) Htr)].
  apply (f_equal (fun l => head l ≫= machine_read)) in Htr. cbn in Htr. by injection Htr.
Qed.

(** A reconcile of a machine that is not being deleted. *)
Lemma Reconcile_not_deleting req wm tr o :
  execs (Reconcile r req) (Evt (KGetWaldurMachine req) (Ok wm) :: tr) o ->
  Time_IsZero (om_DeletionTimestamp (wm_ObjectMeta wm)) = true ->
  execs (reconcileNormal r wm) tr o \/
  Forall (fun e : event ctl => is_machine_status_patch (ev_call e) = false) tr.
Proof.
  enough (wp (Reconcile r req) (fun tr o => forall wm rest,
    tr = Evt (KGetWaldurMachine req) (Ok wm) :: rest ->
    Time_IsZero (om_DeletionTimestamp (wm_ObjectMeta wm)) = true ->
    execs (reconcileNormal r wm) rest o \/
    Forall (fun e : event ctl => is_machine_status_patch (ev_call e) = false) rest)) as Hwp
    by (intros He; by apply (wp_sound _ _ _ _ Hwp He)).
  apply Reconcile_after_get.
  - by intros e wm' rest [? _]%machine_read_inj.
  - intros wm' Hts. apply wp_complete. intros tr' o' _ wm0 rest [[= <-] _]%machine_read_inj. congruence.
  - intros wm' _ _ a wm0 rest [_ <-]%machine_read_inj _. right. by repeat constructor.
  - intros wm' _ _. apply wp_complete.
    intros tr' o' He wm0 rest [[= <-] <-]%machine_read_inj _. by left.
Qed.
End MachineFacts.
