(* ===== verification/MachineSafety.v ===== *)
(** Safety of the machine controller: when it orders a VM, terminates one,
    removes its finalizer, publishes a provider ID or a Ready condition. *)
From S2P Require Import Prelude Prog Types Calls Helpers CloudInit MachineController.
From S2P Require Import MachineFacts Concrete Scenario.
From Stdlib Require Import ZArith Lia.
From stdpp Require Import base gmap strings list.
Local Open Scope string_scope.
Local Open Scope list_scope.
Local Open Scope go_scope.

Section MachineSafety.
Context `{UuidLib} `{KubeLib} `{YamlLib}.
Variable r : WaldurMachineReconciler.

(** C7. One reconcile of a WaldurMachine submits at most one marketplace order for
    creation, and submits one only if the object it read is not being deleted,
    carries the finalizer and has no marketplace resource recorded. *)
Theorem machine_Reconcile_orders_once req tr o :
  execs (Reconcile r req) tr o ->
  count (S := ctl) is_order_create tr <= 1 /\
  (0 < count (S := ctl) is_order_create tr ->
   exists wm rest,
     tr = Evt (KGetWaldurMachine req) (Ok wm) :: rest /\
     Time_IsZero (om_DeletionTimestamp (wm_ObjectMeta wm)) = true /\
     ContainsFinalizer (om_Finalizers (wm_ObjectMeta wm)) machineFinalizer = true /\
     mst_MarketplaceResourceUuid (wm_Status wm) = "").
Proof.
  revert tr o. by_wp. apply Reconcile_after_get.
  - intros e. split; [|intros Hc]; unfold count in *; simpl in *; lia.
  - intros wm _. eapply wp_mono; [apply only_wp, reconcileDelete_no_create|].
    intros tr o Htr%count_0; simpl. rewrite count_cons, Htr; simpl. lia.
  - intros wm Hts Hf a. split; [|intros Hc]; unfold count in *; simpl in *; lia.
  - intros wm Hts Hf. eapply wp_mono; [apply at_most_wp, reconcileNormal_at_most|].
    intros tr o Htr; simpl. rewrite count_cons; simpl.
    destruct (decide _) as [Hu|Hu]; [|lia]. split; [lia|eauto 10].
Qed.

(** C10. The finalizer of a machine under deletion is removed only if no marketplace
    resource was ever recorded or its termination order is done; that update is then
    the only call of the reconcile, and changes nothing but the finalizer. *)
Theorem machine_finalizer_removed_when_clean wm tr o m a :
  execs (reconcileDelete wm) tr o ->
  Evt (KUpdateWaldurMachine m) a ∈ tr ->
  (mst_MarketplaceResourceUuid (wm_Status wm) = "" \/
   exists order, mst_Order (wm_Status wm) = Some order /\
     wo_Type order = Terminate /\ wo_State order = OrderStateDone) /\
  m = set_wm_Finalizers wm
        (RemoveFinalizer (om_Finalizers (wm_ObjectMeta wm)) machineFinalizer) /\
  length tr = 1.
Proof.
  intros He Hin. revert m a Hin. revert tr o He. by_wp.
  unfold reconcileDelete, removeFinalizer, patchStatus.
  destruct (bool_decide _) eqn:Hu.
  { apply bool_decide_eq_true in Hu. wp_steps; intros ?? Hin; trace_case; simplify_eq; auto. }
  destruct (has_order _ _).
  { apply (wp_without is_machine_update).
    { ctl_only. apply (reads_only _), refreshVM_reads. }
    intros tr o Htr m a Hin. by pose proof (trace_without _ _ _ _ Htr Hin). }
  destruct (has_order _ _) eqn:Hdone.
  { unfold has_order in Hdone. destruct (mst_Order _) as [order|] eqn:Ho; [|done].
    apply andb_true_iff in Hdone as [Hty Hst].
    apply bool_decide_eq_true in Hty. apply bool_decide_eq_true in Hst.
    wp_steps; intros ?? Hin; trace_case; simplify_eq; eauto 10. }
  apply (wp_without is_machine_update).
  { ctl_only; [by apply stopVM_only; [apply _|]|by apply submitTerminationOrder_only]. }
  intros tr o Htr m a Hin. by pose proof (trace_without _ _ _ _ Htr Hin).
Qed.

(** C9. A deletion submits the termination order of the recorded marketplace resource
    and no other, once, and never in the reconcile that asks the VM to stop; and if
    the VM's UUID is known, the reconcile began by reading its runtime state, which
    was SHUTOFF, ERROR or not reported. *)
Theorem machine_terminated_only_when_stopped wm tr o u a :
  execs (reconcileDelete wm) tr o ->
  Evt (MarketplaceResourcesTerminate u) a ∈ tr ->
  uuid_Parse (mst_MarketplaceResourceUuid (wm_Status wm)) = Ok u /\
  count (S := ctl) is_stop tr = 0 /\
  count (S := ctl) is_terminate tr = 1 /\
  match mst_VmUuid (wm_Status wm) with
  | None => True
  | Some v =>
      exists vu resp, uuid_Parse v = Ok vu /\
        head tr = Some (Evt (OpenstackInstancesRetrieve vu ["RuntimeState"]) (Ok resp)) /\
        (JSON resp ≫= os_RuntimeState) ∈ [None; Some "SHUTOFF"; Some "ERROR"]
  end.
Proof.
  intros He Hin. revert u a Hin. revert tr o He. by_wp.
  unfold reconcileDelete, removeFinalizer, patchStatus.
  destruct (bool_decide _); [by wp_steps; intros ?? Hin; trace_case|].
  destruct (has_order _ _).
  { apply (wp_without is_terminate).
    { ctl_only. apply (reads_only _), refreshVM_reads. }
    intros tr o Htr u a Hin. by pose proof (trace_without _ _ _ _ Htr Hin). }
  destruct (has_order _ _); [by wp_steps; intros ?? Hin; trace_case|].
  unfold stopVM, submitTerminationOrder.
  wp_steps; intros ?? Hin; trace_case; simplify_eq; split_and!; try done;
    eexists _, _; split_and!; try done.
  all: repeat match goal with H : _ && _ = false |- _ => apply andb_false_iff in H as [H|H] end.
  all: try (apply negb_false_iff, bool_decide_eq_true in Heqb; subst).
  all: match goal with H : _ ≫= _ = _ |- _ => rewrite H end; set_solver.
Qed.

(** C28. A reconcile patches the spec of a machine only to set the provider ID, only if
    it was not set, the state is OK and the VM's UUID is known, and sets it to
    waldur:// followed by that UUID. *)
Theorem machine_provider_id_write_once wm tr o m b a :
  execs (reconcileNormal r wm) tr o ->
  Evt (KPatchWaldurMachine m b) a ∈ tr ->
  ms_ProviderID (wm_Spec wm) = None /\ b = wm /\
  mst_State (wm_Status m) = CoreStatesOK /\
  exists v, mst_VmUuid (wm_Status m) = Some v /\
    m = set_wm_ProviderID (set_wm_Status wm (wm_Status m)) (Some ("waldur://" +:+ v)).
Proof.
  intros He Hin. revert m b a Hin. revert tr o He. by_wp.
  apply (reconcileNormal_publish r is_machine_patch); [by intros []|..].
  { intros tr o Htr m b a Hin. by pose proof (trace_without _ _ _ _ Htr Hin). }
  intros s pre _ Hpre. unfold publish, setProviderID.
  wp_steps; intros ??? [Hin|Hin]%elem_of_app;
    try (by pose proof (trace_without _ _ _ _ Hpre Hin)); trace_case; simplify_eq; simpl.
  all: split_and!; try done; eexists; split; [done|]; by rewrite string_app_nil_r.
Qed.

(** C24. The status that a reconcile patches, of a machine read as not being deleted,
    has the Ready condition of the state it holds and leaves every other condition
    as the base has it; the result is a requeue after five minutes if the patched
    machine is OK and after fifteen seconds otherwise, or the patch's error. *)
Theorem machine_ready_condition_published `{!KubeLaws _} req wm tr o m b a :
  execs (Reconcile r req) (Evt (KGetWaldurMachine req) (Ok wm) :: tr) o ->
  Time_IsZero (om_DeletionTimestamp (wm_ObjectMeta wm)) = true ->
  Evt (KPatchWaldurMachineStatus m b) a ∈ tr ->
  FindStatusCondition (mst_Conditions (wm_Status m)) "Ready"
    = Some (machine_ready_condition (mst_State (wm_Status m))) /\
  (forall ty, ty <> "Ready" ->
     FindStatusCondition (mst_Conditions (wm_Status m)) ty
     = FindStatusCondition (mst_Conditions (wm_Status b)) ty) /\
  o = Done match a with
           | Ok patched =>
               Ok (requeue (if bool_decide (mst_State (wm_Status patched) = CoreStatesOK)
                            then 300 else 15))
           | Err err =>
               Err (Wrapf err "couldn't patch status for machine %q"
                      [FStr (om_Name (wm_ObjectMeta m))])
           end.
Proof.
  intros He Hts Hin.
  destruct (Reconcile_not_deleting _ _ _ _ _ He Hts) as [Hn|Hno];
    [clear He|by pose proof (trace_without _ _ _ _ Hno Hin)].
  revert m b a Hin. revert tr o Hn. by_wp.
  apply (reconcileNormal_publish r is_machine_status_patch); [by intros []|..].
  { intros tr o Htr m b a Hin. by pose proof (trace_without _ _ _ _ Htr Hin). }
  intros s pre Hconds Hpre. unfold publish, setProviderID.
  wp_steps; intros ??? [Hin|Hin]%elem_of_app;
    try (by pose proof (trace_without _ _ _ _ Hpre Hin));
    trace_case_with machine_answer; simplify_eq.
  all: (split_and!; [by rewrite setMachineReadyCondition_ready| |]).
  all: try (intros ty Hty; rewrite setMachineReadyCondition_other by done; simpl; by rewrite ?Hconds).
  all: try match goal with H : bool_decide _ = _ |- _ => rewrite H end; done.
Qed.

(** A reconcile of a machine that returns without error asks to be run again later,
    except where it waits for Kubernetes: the machine has no owner yet, or its owner
    has no cluster label. *)
Theorem machine_reconcile_requeues wm tr res :
  execs (reconcileNormal r wm) tr (Done (Ok res)) ->
  RequeueAfter res = 0%Z ->
  (owner_name "Machine" (om_OwnerReferences (wm_ObjectMeta wm)) = "" /\ tr = []) \/
  (exists nn machine, tr = [Evt (KGetMachine nn) (Ok machine)] /\
     default "" (m_Labels machine !! ClusterNameLabel) = "").
Proof.
  intros He. revert res He.
  enough (forall tr a, execs (reconcileNormal r wm) tr (Done a) -> forall res, a = Ok res ->
    RequeueAfter res = 0%Z ->
    (owner_name "Machine" (om_OwnerReferences (wm_ObjectMeta wm)) = "" /\ tr = []) \/
    (exists nn machine, tr = [Evt (KGetMachine nn) (Ok machine)] /\
       default "" (m_Labels machine !! ClusterNameLabel) = "")) as Hq by eauto.
  clear tr. by_wp_done. unfold reconcileNormal. wp_steps; try done.
  - intros res _ _. left. by case_bool_decide.
  - intros res _ _. right. by case_bool_decide; eauto.
  - wp_call wp_true. intros tr [wm'|] _; wp_steps; [|by intros res [= <-]].
    unfold publish, setProviderID. wp_steps; by intros res [= <-].
Qed.

(** C36. If the answer to a termination order has no decoded body, which is so for the
    accepted status 202 when the client decodes 200 only, the deletion comes back
    after fifteen seconds and patches no status, so that the accepted order is
    recorded nowhere. *)
Theorem machine_termination_lost wm tr o u resp :
  execs (reconcileDelete wm) tr o ->
  Evt (MarketplaceResourcesTerminate u) (Ok resp) ∈ tr ->
  JSON resp = None ->
  o = Done (Ok (requeue 15)) /\ count (S := ctl) is_machine_status_patch tr = 0.
Proof.
  intros He Hin Hj. revert u resp Hin Hj. revert tr o He. by_wp.
  unfold reconcileDelete, removeFinalizer, patchStatus.
  destruct (bool_decide _); [by wp_steps; intros ?? Hin; trace_case|].
  destruct (has_order _ _).
  { apply (wp_without is_terminate).
    { ctl_only. apply (reads_only _), refreshVM_reads. }
    intros tr o Htr u a Hin. by pose proof (trace_without _ _ _ _ Htr Hin). }
  destruct (has_order _ _); [by wp_steps; intros ?? Hin; trace_case|].
  unfold stopVM, submitTerminationOrder.
  wp_steps; intros ?? Hin Hj; trace_case_with terminate_answer; simplify_eq; try done.
  all: match goal with H : JSON _ ≫= _ = _ |- _ => rewrite Hj in H; discriminate H end.
Qed.
End MachineSafety.

(** ** Runs *)

Lemma machine_Reconcile_orders_once_witness :
  let tr := run_trace (answering (healthy new_machine ready_cluster)) tt
              (Reconcile plain req) in
  0 < count (S := ctl) is_order_create tr /\
  exists wm rest,
    tr = Evt (KGetWaldurMachine req) (Ok wm) :: rest /\
    Time_IsZero (om_DeletionTimestamp (wm_ObjectMeta wm)) = true /\
    ContainsFinalizer (om_Finalizers (wm_ObjectMeta wm)) machineFinalizer = true /\
    mst_MarketplaceResourceUuid (wm_Status wm) = "".
Proof.
  intros tr. assert (0 < count (S := ctl) is_order_create tr) as Hc by (vm_compute; lia).
  split; [exact Hc|].
  by eapply machine_Reconcile_orders_once; [by apply answering_execs|].
Defined.

Lemma machine_finalizer_removed_when_clean_witness :
  let wm := deleted_machine Terminate OrderStateDone in
  let tr := run_trace (answering (healthy wm ready_cluster)) tt (reconcileDelete wm) in
  exists m a, Evt (KUpdateWaldurMachine m) a ∈ tr /\
    m = set_wm_Finalizers wm
          (RemoveFinalizer (om_Finalizers (wm_ObjectMeta wm)) machineFinalizer).
Proof.
  intros wm tr.
  assert (exists m a, Evt (KUpdateWaldurMachine m) a ∈ tr) as (m & a & Hin) by nth_call 0.
  exists m, a. split; [exact Hin|].
  by destruct (machine_finalizer_removed_when_clean wm tr _ m a
                 (answering_execs _ _ (fun _ => reflexivity _)) Hin) as (_ & ? & _).
Defined.

(** A failed creation order, and a VM that is already off. *)
Lemma machine_terminated_only_when_stopped_witness :
  let wm := deleted_machine Create OrderStateErred in
  let env := but (healthy wm ready_cluster) (fun c =>
    match c with
    | OpenstackInstancesRetrieve _ _ =>
        Some (http 200 (mkOpenStackInstance None None (Some "SHUTOFF") None))
    | _ => None
    end) in
  let tr := run_trace (answering env) tt (reconcileDelete wm) in
  exists u a, Evt (MarketplaceResourcesTerminate u) a ∈ tr /\
    u = resource_uuid /\ count (S := ctl) is_terminate tr = 1.
Proof.
  intros wm env tr.
  assert (exists u a, Evt (MarketplaceResourcesTerminate u) a ∈ tr) as (u & a & Hin)
    by nth_call 1.
  exists u, a. split; [exact Hin|].
  destruct (machine_terminated_only_when_stopped wm tr _ u a
              (answering_execs env _ (fun _ => reflexivity _)) Hin) as (Hu & _ & Hc & _).
  split; [|exact Hc]. vm_compute in Hu. by injection Hu.
Defined.

Lemma machine_provider_id_write_once_witness :
  let wm := ordered_machine in
  let tr := run_trace (answering (healthy wm ready_cluster)) tt (reconcileNormal plain wm) in
  exists m b a, Evt (KPatchWaldurMachine m b) a ∈ tr /\
    ms_ProviderID (wm_Spec wm) = None /\ mst_State (wm_Status m) = CoreStatesOK.
Proof.
  intros wm tr.
  assert (exists m b a, Evt (KPatchWaldurMachine m b) a ∈ tr) as (m & b & a & Hin) by nth_call 6.
  exists m, b, a. split; [exact Hin|].
  destruct (machine_provider_id_write_once plain wm tr _ m b a
              (answering_execs _ _ (fun _ => reflexivity _)) Hin) as (? & _ & ? & _). done.
Defined.

Lemma machine_ready_condition_published_witness :
  let wm := ordered_machine in
  let tr := run_trace (answering (healthy wm ready_cluster)) tt (Reconcile plain req) in
  exists m b a, Evt (KPatchWaldurMachineStatus m b) a ∈ tail tr /\
    FindStatusCondition (mst_Conditions (wm_Status m)) "Ready"
    = Some (machine_ready_condition (mst_State (wm_Status m))).
Proof.
  intros wm tr.
  assert (exists m b a, Evt (KPatchWaldurMachineStatus m b) a ∈ tail tr) as (m & b & a & Hin)
    by nth_call 7.
  assert (tr = Evt (KGetWaldurMachine req) (Ok wm) :: tail tr) as Htr by (vm_compute; reflexivity).
  exists m, b, a. split; [exact Hin|].
  pose proof (answering_execs (healthy wm ready_cluster) (Reconcile plain req)
                (fun _ => reflexivity _)) as He. fold tr in He. rewrite Htr in He.
  exact (proj1 (machine_ready_condition_published plain req wm _ _ m b a He eq_refl Hin)).
Defined.

(** A machine whose owner has no cluster label yet. *)
Lemma machine_reconcile_requeues_witness :
  let wm := ordered_machine in
  let env := but (healthy wm ready_cluster) (fun c =>
    match c with KGetMachine _ => Some (Ok (mkMachine "default" ∅ "c0" None)) | _ => None end) in
  let tr := run_trace (answering env) tt (reconcileNormal plain wm) in
  exists nn machine, tr = [Evt (KGetMachine nn) (Ok machine)].
Proof.
  intros wm env tr.
  destruct (machine_reconcile_requeues plain wm tr (requeue 0)
              (answering_execs env (reconcileNormal plain wm) (fun _ => reflexivity _)) eq_refl)
    as [[Hname _]|(nn & m & Htr & _)]; [by vm_compute in Hname|eauto].
Defined.

(** Waldur answers 202 Accepted, which the client does not decode. *)
Lemma machine_termination_lost_witness :
  let wm := deleted_machine Create OrderStateErred in
  let env := but (healthy wm ready_cluster) (fun c =>
    match c with
    | OpenstackInstancesRetrieve _ _ =>
        Some (http 200 (mkOpenStackInstance None None (Some "SHUTOFF") None))
    | MarketplaceResourcesTerminate _ => Some (http_error 202 "accepted")
    | _ => None
    end) in
  let tr := run_trace (answering env) tt (reconcileDelete wm) in
  count (S := ctl) is_terminate tr = 1 /\ count (S := ctl) is_machine_status_patch tr = 0.
Proof.
  intros wm env tr. split; [vm_compute; reflexivity|].
  assert (exists u, Evt (MarketplaceResourcesTerminate u) (http_error 202 "accepted") ∈ tr)
    as (u & Hin) by nth_call 1.
  exact (proj2 (machine_termination_lost wm tr _ u _
                  (answering_execs env _ (fun _ => reflexivity _)) Hin eq_refl)).
Defined.
