(* ===== verification/MachineOrder.v ===== *)
(** What the machine controller orders: the contents of the payload, the status
    after the order, and the Vault credential made for it. *)
From S2P Require Import Prelude Prog Types Calls Helpers CloudInit MachineController.
From S2P Require Import MachineFacts Concrete Scenario.
From Stdlib Require Import ZArith Lia.
From stdpp Require Import base gmap strings list.
Local Open Scope string_scope.
Local Open Scope list_scope.
Local Open Scope go_scope.

(** ** What a payload is made of *)

(** The objects the payload of a VM order refers to. *)
Record VmLookups := mkVmLookups {
  vl_tenant : OpenStackTenant;
  vl_slug : string;
  vl_tenantUuid : UUID;
  vl_project : Project;
  vl_parent : PublicOfferingDetails;
  vl_subresource : SubresourceOffering;
  vl_offering : PublicOfferingDetails;
  vl_flavor : OpenStackFlavor;
  vl_image : OpenStackImage;
  vl_groups : list OpenStackSecurityGroup;
  vl_subnets : list OpenStackSubNet;
  vl_volumeTypes : list OpenStackVolumeType;
}.

(** The URL of a security group that is called "default". *)
Definition default_url (sg : OpenStackSecurityGroup) : option string :=
  match sg_Name sg with
  | Some name => if bool_decide (name = "default") then sg_Url sg else None
  | None => None
  end.

Definition is_vm_offering (o : SubresourceOffering) : bool :=
  bool_decide (so_Type o = Some "OpenStack.Instance").

(** The payload as a function of the lookups. *)
Definition vm_payload (wm : WaldurMachine) (userData : option string) (l : VmLookups)
    (offeringUrl projectUrl : string) : OrderCreateRequest :=
  let spec := wm_Spec wm in
  mkOrderCreateRequest (Some Create) offeringUrl projectUrl None
    (InstanceAttributes
       (mkInstanceAttributes (om_Name (wm_ObjectMeta wm))
          (f_Url (vl_flavor l)) (img_Url (vl_image l))
          (omap default_url (vl_groups l)) (omap sn_Url (vl_subnets l)) [] userData
          ((fun gb => int_wrap (gb * 1024)) <$> ms_SystemDiskSize spec)
          ((fun gb => int_wrap (gb * 1024)) <$> ms_DataDiskSize spec)
          (head (vl_volumeTypes l) ≫= vt_Url) (head (vl_volumeTypes l) ≫= vt_Url)))
    None (Some true).

Section MachineOrder.
Context `{UuidLib} `{KubeLib} `{YamlLib}.
Variable r : WaldurMachineReconciler.

(** Every lookup is the first hit of its query, answered in the trace. *)
Record looked_up (wm : WaldurMachine) (wc : WaldurCluster) (tr : list (event ctl))
    (l : VmLookups) : Prop := {
  lu_tenant : cst_Tenants (wc_Status wc) !! ms_OfferingSlug (wm_Spec wm) = Some (vl_tenant l);
  lu_ready : t_MarketplaceResourceState (vl_tenant l) = ResourceStateOK;
  lu_slug : t_ProjectSlug (vl_tenant l) = Some (vl_slug l);
  lu_uuid : exists u, t_Uuid (vl_tenant l) = Some u /\ uuid_Parse u = Ok (vl_tenantUuid l);
  lu_project : exists resp, Evt (ProjectsList None None (Some (vl_slug l))) (Ok resp) ∈ tr /\
    JSON resp ≫= head = Some (vl_project l);
  lu_parent : exists resp,
    Evt (MarketplacePublicOfferingsList (ms_OfferingSlug (wm_Spec wm))) (Ok resp) ∈ tr /\
    JSON resp ≫= head = Some (vl_parent l);
  lu_subresource : exists u resp offerings,
    uuid_Parse (t_MarketplaceResourceUuid (vl_tenant l)) = Ok u /\
    Evt (MarketplaceResourcesOfferingForSubresourcesList u) (Ok resp) ∈ tr /\
    JSON resp = Some offerings /\
    List.find is_vm_offering offerings = Some (vl_subresource l);
  lu_offering : exists u resp, so_Uuid (vl_subresource l) = Some u /\
    Evt (MarketplacePublicOfferingsRetrieve u) (Ok resp) ∈ tr /\
    JSON resp = Some (vl_offering l);
  lu_flavor : exists resp,
    Evt (OpenstackFlavorsList (po_Uuid (vl_parent l)) (ms_Flavor (wm_Spec wm))) (Ok resp) ∈ tr /\
    JSON resp ≫= head = Some (vl_flavor l);
  lu_image : exists resp,
    Evt (OpenstackImagesList (po_Uuid (vl_parent l)) (ms_Image (wm_Spec wm))) (Ok resp) ∈ tr /\
    JSON resp ≫= head = Some (vl_image l);
  lu_groups : exists resp,
    Evt (OpenstackSecurityGroupsList (vl_tenantUuid l)) (Ok resp) ∈ tr /\
    JSON resp = Some (vl_groups l);
  lu_subnets : exists resp,
    Evt (OpenstackSubnetsList (vl_tenantUuid l)) (Ok resp) ∈ tr /\
    JSON resp = Some (vl_subnets l);
  lu_volumeTypes : exists resp,
    Evt (OpenstackVolumeTypesList (vl_tenantUuid l)) (Ok resp) ∈ tr /\
    JSON resp = Some (vl_volumeTypes l);
}.

(** The loops of the lookups make no calls. *)
Lemma default_groups_spec groups :
  wp (default_groups groups) (fun tr o =>
    tr = [] /\ match o with Done urls => urls = omap default_url groups | Panicked => True end).
Proof.
  unfold default_groups.
  enough (forall acc, wp (for_each (S := ctl) (fun sgRequests sg =>
      match sg_Url sg with
      | None => Ret sgRequests
      | Some url =>
          let* name := deref (sg_Name sg) in
          Ret (if bool_decide (name = defaultSecGroupName) then sgRequests ++ [url] else sgRequests)
      end) acc groups) (fun tr o =>
    tr = [] /\ match o with Done urls => urls = acc ++ omap default_url groups | Panicked => True end))
    as Hacc by exact (Hacc []).
  induction groups as [|sg groups IH]; intros acc; simpl.
  - split; [done|]. by rewrite app_nil_r.
  - unfold default_url at 1. destruct (sg_Url sg) as [url|], (sg_Name sg) as [name|]; simpl.
    all: try apply IH; try done.
    all: unfold defaultSecGroupName; case_bool_decide; try apply IH.
    eapply wp_mono; [apply IH|]. simpl. intros tr [urls|] [-> Hu]; [|done].
    split; [done|]. by rewrite Hu, <- app_assoc.
Qed.

Lemma find_vm_offering_spec offerings :
  wp (find_vm_offering offerings) (fun tr o =>
    tr = [] /\ match o with
               | Done found => found = List.find is_vm_offering offerings
               | Panicked => True
               end).
Proof.
  induction offerings as [|o offerings IH]; simpl; [done|].
  unfold is_vm_offering at 1. destruct (so_Type o) as [ty|]; simpl; [|done].
  case_bool_decide as E; case_bool_decide as E'; simplify_eq; done.
Qed.

Lemma getVMOffering_spec text :
  wp (getVMOffering text) (fun tr o => answers_ok o (fun offering => exists u resp offerings,
    uuid_Parse text = Ok u /\
    tr = [Evt (MarketplaceResourcesOfferingForSubresourcesList u) (Ok resp)] /\
    JSON resp = Some offerings /\ List.find is_vm_offering offerings = Some offering)).
Proof.
  unfold getVMOffering. wp_steps; try done.
  wp_call find_vm_offering_spec. intros _ [offering|] [-> Hfind]; simpl; [|done]. eauto 10.
Qed.

Lemma ready_tenant_spec wc slug tenant projectSlug uuid :
  ready_tenant wc slug = Ok (tenant, projectSlug, uuid) ->
  cst_Tenants (wc_Status wc) !! slug = Some tenant /\
  t_MarketplaceResourceState tenant = ResourceStateOK /\
  t_ProjectSlug tenant = Some projectSlug /\ t_Uuid tenant = Some uuid.
Proof.
  unfold ready_tenant. destruct (cst_Tenants _ !! slug) as [t|]; [|done].
  destruct (t_MarketplaceResourceState t) eqn:?; [|done].
  destruct (t_ProjectSlug t) eqn:?; [|done]. destruct (t_Uuid t) eqn:?; [|done].
  by intros [= <- <- <-].
Qed.

Lemma buildOrderPayload_spec wm wc ud :
  wp (buildOrderPayload wm wc ud) (fun tr o => answers_ok o (fun p =>
    exists l offeringUrl projectUrl, looked_up wm wc tr l /\
      po_Url (vl_offering l) = Some offeringUrl /\ p_Url (vl_project l) = Some projectUrl /\
      p = vm_payload wm ud l offeringUrl projectUrl)).
Proof.
  unfold buildOrderPayload.
  destruct (ready_tenant _ _) as [[[tenant slug] uuid]|] eqn:Hready; [|done].
  apply ready_tenant_spec in Hready as (Ht & Hst & Hslug & Huuid).
  wp_steps; try done.
  wp_call getOffering_spec. intros trp [parent|e] Hparent; [|done].
  wp_call getVMOffering_spec. intros trs [sub|e] Hsub; [|done].
  wp_step; [|done].
  wp_call getOfferingByUUID_spec. intros tro [off|e] Hoff; [|done].
  wp_step; [|done].
  wp_call getFlavor_spec. intros trf [flavor|e] Hf; [|done].
  wp_call getImage_spec. intros tri [image|e] Hi; [|done].
  wp_call getTenantSecurityGroups_spec. intros trg [groups|e] Hg; [|done].
  wp_call default_groups_spec. intros ? sgs [-> ->].
  wp_call getTenantSubnets_spec. intros trn [subnets|e] Hn; [|done].
  wp_call getTenantVolumeTypes_spec. intros trv [types|e] Hv; [|done].
  wp_steps; try done. simpl. intros.
  destruct Hparent as (r1 & -> & ?), Hsub as (u & r2 & offs & ? & -> & ? & ?),
    Hoff as (r3 & -> & ?), Hf as (r4 & -> & ?), Hi as (r5 & -> & ?), Hg as (r6 & -> & ?),
    Hn as (r7 & -> & ?), Hv as (r8 & -> & ?).
  simpl.
  eexists (mkVmLookups tenant slug _ p parent sub off flavor image groups subnets types), _, _.
  split_and!; [|eassumption|eassumption|].
  - split; simpl; repeat eexists; try eassumption; try in_trace.
    by match goal with H : JSON a = _ |- _ => rewrite H end.
  - unfold vm_payload, instance_attributes, size_mib, subnet_ports, default_volume_type,
      int_mul. simpl. by destruct types.
Qed.

Ltac destr_ex := repeat match goal with
  | H : exists _, _ |- _ => destruct H
  | H : _ /\ _ |- _ => destruct H
  end.

Lemma looked_up_mono wm wc tr tr' l :
  (forall e, e ∈ tr -> e ∈ tr') -> looked_up wm wc tr l -> looked_up wm wc tr' l.
Proof.
  intros Hsub []. split; try done; destr_ex; eauto 12.
Qed.

Lemma prepareUserData_no_order machine wm :
  wp (prepareUserData r machine wm)
    (fun tr _ => Forall (fun e : event ctl => is_order_create (ev_call e) = false) tr).
Proof.
  apply (only_wp (S := ctl) (fun c => is_order_create c = false)), prepareUserData_only;
    [apply _|by intros []].
Qed.

(** Without Vault the bootstrap data goes into the order as it is. *)
Lemma prepareUserData_plain machine wm :
  mr_VaultClient r = false ->
  wp (prepareUserData r machine wm) (fun tr o => answers_ok o (fun ud =>
    exists name secret, m_DataSecretName machine = Some name /\
      tr = [Evt (KGetSecret (mkNamespacedName (m_Namespace machine) name)) (Ok secret)] /\
      ud = mkUserData (secret_field secret "value") "" "")).
Proof.
  unfold prepareUserData. intros ->.
  destruct (m_DataSecretName machine) as [name|]; [|done]. wp_steps; simpl; eauto 10.
Qed.

(** [createVM] in two phases: everything before the order, and the order. *)
Lemma createVM_phases machine wm wc Q :
  (forall tr o, Forall (fun e : event ctl => is_order_create (ev_call e) = false) tr ->
     o = Panicked \/ (exists e, o = Done (wm, Some e)) -> Q tr o) ->
  (forall tr1 tr2 ud p,
     execs (prepareUserData r machine wm) tr1 (Done (Ok ud)) ->
     execs (buildOrderPayload wm wc (Some (ud_userData ud))) tr2 (Done (Ok p)) ->
     Forall (fun e : event ctl => is_order_create (ev_call e) = false) (tr1 ++ tr2) ->
     wp (submitVMOrder r wm ud p) (fun tr o => Q ((tr1 ++ tr2) ++ tr) o)) ->
  wp (createVM r machine wm wc) Q.
Proof.
  intros Hearly Hsubmit. unfold createVM.
  apply wp_bind_execs; [|intros tr He; apply Hearly; [|by left];
                         exact (wp_sound _ _ _ _ (prepareUserData_no_order _ _) He)].
  intros tr1 [ud|e] He1; pose proof (wp_sound _ _ _ _ (prepareUserData_no_order _ _) He1) as Hn1;
    [|apply Hearly; rewrite ?app_nil_r; eauto].
  apply wp_bind_execs; [intros tr2 [p|e] He2|intros tr2 He2];
    pose proof (only_execs (S := ctl) _ _ _ _ (buildOrderPayload_reads _ _ _) He2)
      as Hn2%(reads_trace is_order_create).
  - eapply wp_mono; [apply (Hsubmit tr1 tr2); try done; by apply Forall_app|].
    intros tr o. by rewrite app_assoc.
  - apply Hearly; rewrite ?app_nil_r; eauto using Forall_app_2.
  - apply Hearly; eauto using Forall_app_2.
Qed.

(** C14. Every VM order is the payload made of the lookups answered before it: the
    tenant of the machine's offering is ready and has a project and a UUID; the
    project, the offering, the flavor and the image are the first hits of their
    queries, the subresource offering the first of type OpenStack.Instance; security
    groups are the tenant's groups called default, ports its subnets, volume types
    the first one listed, and disk sizes are converted from GB to MiB modulo 2^64.
    Without Vault the user data is the bootstrap secret's value. *)
Theorem vm_order_payload machine wm wc tr o p a :
  execs (createVM r machine wm wc) tr o ->
  Evt (MarketplaceOrdersCreate p) a ∈ tr ->
  exists ud l offeringUrl projectUrl,
    looked_up wm wc tr l /\
    po_Url (vl_offering l) = Some offeringUrl /\ p_Url (vl_project l) = Some projectUrl /\
    p = vm_payload wm (Some ud) l offeringUrl projectUrl /\
    (mr_VaultClient r = false ->
     exists name secret, m_DataSecretName machine = Some name /\
       Evt (KGetSecret (mkNamespacedName (m_Namespace machine) name)) (Ok secret) ∈ tr /\
       ud = secret_field secret "value").
Proof.
  intros He Hin. revert p a Hin. revert tr o He. by_wp. apply createVM_phases.
  { intros tr o Htr _ p a Hin. by pose proof (trace_without _ _ _ _ Htr Hin). }
  intros tr1 tr2 ud p He1 He2 Hn.
  apply wp_complete. intros tr o He p' a [Hin|Hin]%elem_of_app.
  { by pose proof (trace_without _ _ _ _ Hn Hin). }
  assert (p' = p) as ->.
  { revert Hin. revert tr o He. by_wp. unfold submitVMOrder.
    wp_steps; intros Hin; trace_case; by simplify_eq. }
  pose proof (wp_sound _ _ _ _ (buildOrderPayload_spec _ _ _) He2)
    as (l & offeringUrl & projectUrl & Hl & ? & ? & ->).
  exists (ud_userData ud), l, offeringUrl, projectUrl. split_and!; try done.
  - eapply looked_up_mono; [|exact Hl]. set_solver.
  - intros Hvault. pose proof (wp_sound _ _ _ _ (prepareUserData_plain _ _ Hvault) He1)
      as (name & secret & ? & -> & ->). exists name, secret. set_solver.
Qed.

(** ** What the order leaves in the status *)

(** The machine after Waldur accepted the order: the order is recorded with
    its marketplace resource, nothing else of the object changes. *)
Definition order_recorded (wm : WaldurMachine) (resp : response OrderDetails)
    (wm' : WaldurMachine) : Prop :=
  exists od u mp ty st,
    JSON resp = Some od /\ od_Uuid od = Some u /\ od_Type od = Some ty /\
    od_State od = Some st /\ od_MarketplaceResourceUuid od = Some mp /\
    wm' = mkWaldurMachine (wm_ObjectMeta wm) (wm_Spec wm)
            (mkWaldurMachineStatus (mst_Conditions (wm_Status wm))
               (mst_Initialization (wm_Status wm)) (mst_VmUuid (wm_Status wm))
               CoreStatesCREATING (uuid_String mp)
               (mst_MarketplaceResourceState (wm_Status wm))
               (Some (mkWaldurOrder (uuid_String u) ty st (uuid_String mp) None))).

Lemma submitVMOrder_spec wm ud p :
  wp (submitVMOrder r wm ud p) (fun tr o => exists a rest,
    tr = Evt (MarketplaceOrdersCreate p) a :: rest /\
    Forall (fun e : event ctl => is_order_create (ev_call e) = false) rest /\
    Forall (fun e : event ctl => is_generate (ev_call e) = false) rest /\
    match a with
    | Err e => rest = [] /\ o = Done (wm, Some (Wrap e "unable to submit order"))
    | Ok resp =>
        if Z.eqb (StatusCode resp) 201
        then rest = [] /\
             (o = Panicked \/ exists wm', o = Done (wm', None) /\ order_recorded wm resp wm')
        else (exists e, o = Done (wm, Some e)) /\
             if mr_VaultClient r && negb (bool_decide (ud_secretID ud = ""))
             then exists b, rest = [Evt (RevokeSecretID (ud_roleName ud) (ud_secretID ud)) b]
             else rest = []
    end).
Proof.
  unfold submitVMOrder. wp_step. wp_step; [|wp_steps; eexists (Err _), []; eauto 10].
  destruct (Z.eqb _ _) eqn:Hs; cbn [negb].
  - wp_steps; simpl; eexists (Ok a), []; rewrite Hs; split_and!; try done; [|by left..].
    right. unfold order_recorded. eauto 20.
  - destruct (_ && _) eqn:Hv; wp_steps; simpl; rewrite ?Hs.
    + eexists (Ok a), _. rewrite Hs. eauto 10 using Forall_cons_2.
    + eexists (Ok a), _. rewrite Hs. eauto 10.
Qed.

Lemma createVM_outcome machine wm wc :
  wp (createVM r machine wm wc) (fun tr o => forall wm' err, o = Done (wm', err) ->
    (err = None /\ exists p resp, Evt (MarketplaceOrdersCreate p) (Ok resp) ∈ tr /\
       StatusCode resp = 201%Z /\ order_recorded wm resp wm' /\
       forall p' resp', Evt (MarketplaceOrdersCreate p') (Ok resp') ∈ tr -> resp' = resp) \/
    (is_Some err /\ wm' = wm /\
     forall p resp, Evt (MarketplaceOrdersCreate p) (Ok resp) ∈ tr -> StatusCode resp <> 201%Z)).
Proof.
  apply createVM_phases.
  { intros tr o Htr Ho wm1 err1 ->. destruct Ho as [?|[e [= -> ->]]]; [done|].
    right. split_and!; [done..|]. intros p resp Hin. by pose proof (trace_without _ _ _ _ Htr Hin). }
  intros tr1 tr2 ud p _ _ Hn. eapply wp_mono; [apply submitVMOrder_spec|].
  intros tr o (a & rest & -> & Hno & _ & Hcase) wm1 err1 ->.
  assert (forall p' resp, Evt (MarketplaceOrdersCreate p') (Ok resp)
      ∈ (tr1 ++ tr2) ++ Evt (MarketplaceOrdersCreate p) a :: rest -> a = Ok resp) as Hans.
  { intros p' resp [Hin|Hin]%elem_of_app; [by pose proof (trace_without _ _ _ _ Hn Hin)|].
    by eapply order_at_head. }
  destruct a as [resp|e].
  - destruct (Z.eqb _ _) eqn:Hs; [apply Z.eqb_eq in Hs|apply Z.eqb_neq in Hs].
    + destruct Hcase as [-> [?|(wm2 & [= -> ->] & Hrec)]]; [done|]. left. split; [done|].
      exists p, resp. split_and!; [|done|done|by intros ?? [= ->]%Hans].
      apply elem_of_app. right. left.
    + destruct Hcase as [[e [= -> ->]] Hrest]. right. split_and!; [done..|].
      by intros p' resp' [= <-]%Hans.
  - destruct Hcase as [-> [= -> ->]]. right. split_and!; [done..|].
    by intros p' resp' [= ]%Hans.
Qed.

Lemma provision_records machine wm wc :
  wp (provision r machine wm wc) (fun tr o =>
    forall p resp, Evt (MarketplaceOrdersCreate p) (Ok resp) ∈ tr -> StatusCode resp = 201%Z ->
    match o with
    | Done (Some wm') => order_recorded wm resp wm'
    | Done None => False
    | Panicked => True
    end).
Proof.
  unfold provision. case_bool_decide.
  - apply wp_bind. eapply wp_mono; [apply createVM_outcome|].
    intros tr [[wm' err]|] Hout; simpl; [|done].
    destruct (Hout wm' err eq_refl) as [(-> & p1 & resp1 & _ & Hs & Hrec & Huniq)|([e ->] & -> & Hno)];
      intros p resp; rewrite app_nil_r.
    + by intros ->%Huniq.
    + by intros ?%Hno.
  - eapply (wp_without is_order_create).
    + ctl_only. apply (reads_only _), refreshVM_reads.
    + intros tr o Htr p resp Hin. by pose proof (trace_without _ _ _ _ Htr Hin).
Qed.

(** A machine that is not running is published by one status patch. *)
Lemma publish_not_running m b :
  mst_State (wm_Status m) <> CoreStatesOK ->
  wp (publish m b) (fun tr o => exists a,
    tr = [Evt (KPatchWaldurMachineStatus (setMachineReadyCondition m) b) a]).
Proof.
  intros Hst. unfold publish, setProviderID.
  destruct (mst_State (wm_Status m)); [done|..]; wp_steps; eauto.
Qed.

(** A machine with an order is never ordered for again. *)
Lemma reconcileNormal_no_order r' m tr o :
  mst_MarketplaceResourceUuid (wm_Status m) <> "" ->
  execs (reconcileNormal r' m) tr o -> count (S := ctl) is_order_create tr = 0.
Proof.
  intros Hu He. pose proof (at_most_execs (S := ctl) _ _ _ _ _ (reconcileNormal_at_most r' m) He) as Hc.
  rewrite decide_False in Hc by done. lia.
Qed.

(** C8. When Waldur accepts the order of a VM (status 201) and the reconcile does not
    panic, the status it then patches records the order, the marketplace resource
    and the state CREATING, with the Ready condition of that state and nothing else
    of the object changed; and no later reconcile of the machine so recorded submits
    a creation order. *)
Theorem machine_order_recorded `{!UuidLaws _} wm tr o p resp :
  execs (reconcileNormal r wm) tr o -> o <> Panicked ->
  Evt (MarketplaceOrdersCreate p) (Ok resp) ∈ tr -> StatusCode resp = 201%Z ->
  exists wm' a, order_recorded wm resp wm' /\
    Evt (KPatchWaldurMachineStatus (setMachineReadyCondition wm') wm) a ∈ tr /\
    forall r' tr' o', execs (reconcileNormal r' (setMachineReadyCondition wm')) tr' o' ->
      count (S := ctl) is_order_create tr' = 0.
Proof.
  intros He Hp Hin Hs. revert Hp p resp Hin Hs. revert tr o He. by_wp.
  apply reconcileNormal_phases.
  { intros tr o Htr _ p resp Hin.
    by pose proof (trace_without is_order_create _ _ _ (reads_trace _ _ Htr) Hin). }
  intros tr machine wc Htr%(reads_trace is_order_create).
  eapply wp_mono; [apply provision_records|]. intros tr' o Hrec.
  assert (forall p resp tr'', Forall (fun e : event ctl => is_order_create (ev_call e) = false) tr'' ->
    Evt (MarketplaceOrdersCreate p) (Ok resp) ∈ tr ++ tr' ++ tr'' ->
    Evt (MarketplaceOrdersCreate p) (Ok resp) ∈ tr') as Hmid.
  { intros p resp tr'' Htr'' Hin. rewrite !elem_of_app in Hin. destruct Hin as [Hin|[?|Hin]]; [|done|].
    - by pose proof (trace_without _ _ _ _ Htr Hin).
    - by pose proof (trace_without _ _ _ _ Htr'' Hin). }
  destruct o as [[wm'|]|]; [| |done].
  - apply wp_complete. intros tr'' o' He _ p resp Hin Hs.
    pose proof (only_execs (S := ctl) _ _ _ _ (publish_only (fun c => is_order_create c = false)
      wm' wm ltac:(by intros [])) He) as Hpub.
    pose proof (Hrec p resp (Hmid _ _ _ Hpub Hin) Hs) as (od & u & mp & ty & st & ? & ? & ? & ? & ? & Hwm').
    assert (mst_State (wm_Status wm') <> CoreStatesOK) as Hst by by rewrite Hwm'.
    pose proof (wp_sound _ _ _ _ (publish_not_running _ wm Hst) He) as [a ->].
    exists wm', a. split_and!; [by exists od, u, mp, ty, st|set_solver|].
    intros r' tr2 o2. apply reconcileNormal_no_order. rewrite Hwm'. apply uuid_String_nonempty.
  - intros _ p resp Hin Hs. exfalso. apply (Hrec p resp); [|done].
    apply (Hmid p resp []); [done|by rewrite app_nil_r].
Qed.

(** ** The Vault credential of an order *)

(** User data prepared through Vault carries the one credential generated for
    it, and nothing was revoked on the way. *)
Lemma prepareUserData_vault machine wm :
  mr_VaultClient r = true ->
  wp (prepareUserData r machine wm) (fun tr o => answers_ok o (fun ud =>
    count (S := ctl) is_revoke tr = 0 /\
    exists pre, count (S := ctl) is_generate pre = 0 /\
      tr = pre ++ [Evt (GenerateSecretID (ud_roleName ud)) (Ok (ud_secretID ud))])).
Proof.
  unfold prepareUserData, readVaultConfigSecret, buildUserDataWithRancherAgent,
    buildUserDataWithVault. intros ->.
  wp_steps; simpl; try done.
  all: split; [reflexivity|].
  all: first [eexists [_]; split; cycle 1; [reflexivity|done]
             |eexists [_; _; _]; split; cycle 1; [reflexivity|done]
             |eexists [_; _; _; _]; split; cycle 1; [reflexivity|done]].
Qed.

(** A rejected order is followed by the revocation of the credential. *)
Lemma createVM_rejected machine wm wc tr o p resp role sid :
  mr_VaultClient r = true ->
  execs (createVM r machine wm wc) tr o ->
  Evt (MarketplaceOrdersCreate p) (Ok resp) ∈ tr -> StatusCode resp <> 201%Z ->
  Evt (GenerateSecretID role) (Ok sid) ∈ tr -> sid <> "" ->
  exists b, last tr = Some (Evt (RevokeSecretID role sid) b).
Proof.
  intros Hv He Hp Hs Hsid Hne. revert p resp Hp Hs role sid Hsid Hne. revert tr o He. by_wp.
  apply createVM_phases.
  { intros tr o Htr _ p resp Hin. by pose proof (trace_without _ _ _ _ Htr Hin). }
  intros tr1 tr2 ud p He1 He2 Hn. eapply wp_mono; [apply submitVMOrder_spec|].
  intros tr o (a & rest & -> & Hno & Hng & Hcase) p' resp' [Hin|Hin]%elem_of_app Hs role sid Hg Hne.
  { by pose proof (trace_without _ _ _ _ Hn Hin). }
  eapply order_at_head in Hin; [|done]. subst a. rewrite Hv in Hcase.
  pose proof (wp_sound _ _ _ _ (prepareUserData_vault _ _ Hv) He1) as (_ & pre & Hpre%count_0 & ->).
  pose proof (only_execs (S := ctl) _ _ _ _ (buildOrderPayload_reads _ _ _) He2)
      as Hn2%(reads_trace is_generate).
  assert (Evt (GenerateSecretID role) (Ok sid)
          = Evt (GenerateSecretID (ud_roleName ud)) (Ok (ud_secretID ud))) as Heq.
  { rewrite !elem_of_app, elem_of_cons in Hg. destruct Hg as [[[Hg|[Hg|Hg]]|Hg]|Hg];
      [..|apply elem_of_cons in Hg as [Hg|Hg]].
    - by pose proof (trace_without _ _ _ _ Hpre Hg).
    - done.
    - by apply not_elem_of_nil in Hg.
    - by pose proof (trace_without _ _ _ _ Hn2 Hg).
    - by apply Evt_inj in Hg.
    - by pose proof (trace_without _ _ _ _ Hng Hg). }
  pose proof (f_equal secret_answer Heq) as [= ->]. apply Evt_inj in Heq as [= ->].
  apply Z.eqb_neq in Hs. rewrite Hs, bool_decide_eq_false_2 in Hcase by done.
  destruct Hcase as [_ [b ->]]. exists b. rewrite last_app. done.
Qed.

(** With Vault, no order goes out before a credential was generated. *)
Lemma createVM_generated machine wm wc tr o p a :
  mr_VaultClient r = true ->
  execs (createVM r machine wm wc) tr o -> Evt (MarketplaceOrdersCreate p) a ∈ tr ->
  exists role sid, Evt (GenerateSecretID role) (Ok sid) ∈ tr.
Proof.
  intros Hv He Hin. revert p a Hin. revert tr o He. by_wp. apply createVM_phases.
  { intros tr o Htr _ p a Hin. by pose proof (trace_without _ _ _ _ Htr Hin). }
  intros tr1 tr2 ud p He1 _ _. eapply wp_mono; [apply wp_true|]. intros tr o _ _ _ _.
  pose proof (wp_sound _ _ _ _ (prepareUserData_vault _ _ Hv) He1) as (_ & pre & _ & ->).
  exists (ud_roleName ud), (ud_secretID ud). set_solver.
Qed.

(** If Waldur answers the VM order with a status other than 201, the Vault
    credential that was generated for the machine is revoked, under the role it was
    generated for, by the last call of createVM. *)
Theorem createVM_revokes_on_rejection machine wm wc tr o p resp role sid :
  mr_VaultClient r = true ->
  execs (createVM r machine wm wc) tr o ->
  Evt (MarketplaceOrdersCreate p) (Ok resp) ∈ tr -> StatusCode resp <> 201%Z ->
  Evt (GenerateSecretID role) (Ok sid) ∈ tr -> sid <> "" ->
  exists b, last tr = Some (Evt (RevokeSecretID role sid) b).
Proof. apply createVM_rejected. Qed.

(** C37. With Vault, if the tenant of the machine's offering is not ready, createVM
    fails after it has generated a Vault credential and never revokes it: every
    successful preparation of the user data is such a run. *)
Theorem createVM_leaks_secret_id machine wm wc e tr ud :
  mr_VaultClient r = true ->
  ready_tenant wc (ms_OfferingSlug (wm_Spec wm)) = Err e ->
  execs (prepareUserData r machine wm) tr (Done (Ok ud)) ->
  execs (createVM r machine wm wc) tr (Done (wm, Some e)) /\
  Evt (GenerateSecretID (ud_roleName ud)) (Ok (ud_secretID ud)) ∈ tr /\
  count (S := ctl) is_revoke tr = 0.
Proof.
  intros Hv Ht He.
  pose proof (wp_sound _ _ _ _ (prepareUserData_vault _ _ Hv) He) as (Hr & pre & _ & Htr).
  split_and!; [|rewrite Htr; set_solver|done].
  rewrite <- (app_nil_r tr). unfold createVM. eapply execs_bind_intro; [exact He|].
  cbv beta iota. unfold buildOrderPayload. rewrite Ht. constructor.
Qed.

(** ** Refreshing a machine *)

(** What [refreshVM] may do to a status: the VM's fields change only as the
    instance that was read last says, the order only as the order says. *)
Record vm_refreshed (s s' : WaldurMachineStatus) (tr : list (event ctl)) (err : option error)
    : Prop := {
  vr_conditions : mst_Conditions s' = mst_Conditions s;
  vr_resource : mst_MarketplaceResourceUuid s' = mst_MarketplaceResourceUuid s;
  vr_order : order_refreshed (mst_Order s) (mst_Order s');
  vr_instance :
    (exists u resp i,
       last tr = Some (Evt (OpenstackInstancesRetrieve u ["State"; "Uuid"]) (Ok resp)) /\
       JSON resp = Some i /\ err = None /\
       mst_State s' = default (mst_State s) (os_State i) /\
       mst_VmUuid s' = match os_Uuid i with
                       | Some v => Some (uuid_String v)
                       | None => mst_VmUuid s
                       end /\
       mst_Initialization s' = (if bool_decide (mst_State s' = CoreStatesOK)
                                then Some (mkInitialization (Some true))
                                else mst_Initialization s)) \/
    (mst_State s' = mst_State s /\ mst_VmUuid s' = mst_VmUuid s /\
     mst_Initialization s' = mst_Initialization s /\
     (err = None -> exists u resp res,
        last tr = Some (Evt (MarketplaceResourcesRetrieve u) (Ok resp)) /\
        JSON resp = Some res /\ (r_Scope res = None \/ r_ResourceUuid res = None)));
}.

Lemma apply_instance_spec s i :
  let s' := apply_instance s i in
  mst_Conditions s' = mst_Conditions s /\
  mst_MarketplaceResourceUuid s' = mst_MarketplaceResourceUuid s /\
  mst_Order s' = mst_Order s /\
  mst_State s' = default (mst_State s) (os_State i) /\
  mst_VmUuid s' = match os_Uuid i with
                  | Some v => Some (uuid_String v)
                  | None => mst_VmUuid s
                  end /\
  mst_Initialization s' = (if bool_decide (mst_State s' = CoreStatesOK)
                           then Some (mkInitialization (Some true))
                           else mst_Initialization s).
Proof.
  unfold apply_instance.
  destruct (os_State i), (os_Uuid i); simpl; destruct (bool_decide _) eqn:E; simpl;
    rewrite ?E; done.
Qed.

(** C25. Refreshing a machine keeps its conditions and its resource, changes a pending
    order only in state and resource UUID and a finished order not at all, and
    changes state, VM UUID and initialization only as the instance read last
    reports: provisioned is set when the state becomes OK and never cleared. *)
Theorem refreshVM_reports wm tr wm' err :
  execs (refreshVM wm) tr (Done (wm', err)) ->
  wm' = set_wm_Status wm (wm_Status wm') /\
  vm_refreshed (wm_Status wm) (wm_Status wm') tr err.
Proof.
  enough (forall tr res, execs (refreshVM wm) tr (Done res) ->
    res.1 = set_wm_Status wm (wm_Status res.1) /\
    vm_refreshed (wm_Status wm) (wm_Status res.1) tr res.2) as Hr by exact (Hr tr (wm', err)).
  clear. by_wp_done.
  unfold refreshVM. wp_call refresh_pending_order_spec.
  intros tro [order oerr] Ho. wp_step.
  { wp_steps. split; [done|]. split; try done. by right. }
  wp_call getMarketplaceResource_spec.
  intros trr [resource|e] Hres; [|wp_steps; split; [done|]; split; try done; by right].
  destruct Hres as (u & resp & _ & -> & Hjson).
  wp_steps; try done; split; try done.
  - pose proof (apply_instance_spec
      (match r_State a with
       | Some st => set_mst_MarketplaceResourceState (set_mst_Order (wm_Status wm) order) st
       | None => set_mst_Order (wm_Status wm) order
       end) o) as (Hc & Hm & Hor & Hst & Hvm & Hin).
    split; simpl; rewrite ?Hc, ?Hm, ?Hor; try by destruct (r_State a).
    left. eexists _, a0, o. split; [by rewrite last_app|].
    split_and!; [done|done|..].
    + rewrite Hst. by destruct (r_State a).
    + rewrite Hvm. by destruct (r_State a).
    + rewrite Hin. by destruct (r_State a).
  - split; simpl; try by destruct (r_State a). right. by destruct (r_State a).
  - split; simpl; try by destruct (r_State a). right. by destruct (r_State a).
  - split; simpl; try by destruct (r_State a). right.
    split_and!; [by destruct (r_State a)..|]. intros _. eexists u, resp, a.
    split_and!; [by rewrite last_app|congruence|auto].
  - split; simpl; try by destruct (r_State a). right.
    split_and!; [by destruct (r_State a)..|]. intros _. eexists u, resp, a.
    split_and!; [by rewrite last_app|congruence|auto].
Qed.
End MachineOrder.

(** ** Runs *)

Lemma vm_order_payload_witness :
  let tr := run_trace (answering (healthy new_machine ready_cluster)) tt
              (createVM plain machine new_machine ready_cluster) in
  exists p a ud l offeringUrl projectUrl, Evt (MarketplaceOrdersCreate p) a ∈ tr /\
    p = vm_payload new_machine (Some ud) l offeringUrl projectUrl.
Proof.
  intros tr.
  assert (exists p a, Evt (MarketplaceOrdersCreate p) a ∈ tr) as (p & a & Hin) by nth_call 11.
  destruct (vm_order_payload plain machine new_machine ready_cluster tr _ p a
              (answering_execs _ _ (fun _ => reflexivity _)) Hin)
    as (ud & l & offeringUrl & projectUrl & _ & _ & _ & Hp & _).
  by exists p, a, ud, l, offeringUrl, projectUrl.
Defined.

Lemma machine_order_recorded_witness :
  let tr := run_trace (answering (healthy new_machine ready_cluster)) tt
              (reconcileNormal plain new_machine) in
  exists wm' a,
    Evt (KPatchWaldurMachineStatus (setMachineReadyCondition wm') new_machine) a ∈ tr /\
    forall r' tr' o', execs (reconcileNormal r' (setMachineReadyCondition wm')) tr' o' ->
      count (S := ctl) is_order_create tr' = 0.
Proof.
  intros tr.
  assert (exists p, Evt (MarketplaceOrdersCreate p) (http 201 created_order) ∈ tr)
    as (p & Hin) by nth_call 14.
  destruct (machine_order_recorded plain new_machine tr _ p _
              (answering_execs _ _ (fun _ => reflexivity _)) ltac:(vm_compute; discriminate)
              Hin eq_refl) as (wm' & a & _ & ? & ?).
  by exists wm', a.
Defined.

(** Vault is configured for the Rancher agent, and Waldur rejects the order. *)
Lemma createVM_revokes_on_rejection_witness :
  let env := but (healthy new_machine ready_cluster) (fun c =>
    match c with MarketplaceOrdersCreate _ => Some (http_error 400 "quota") | _ => None end) in
  let tr := run_trace (answering env) tt (createVM vaulted machine new_machine ready_cluster) in
  exists b, last tr = Some (Evt (RevokeSecretID "node" "secret-id") b).
Proof.
  intros env tr.
  destruct (order_in_trace tr (fun resp => negb (Z.eqb (StatusCode resp) 201)) eq_refl)
    as (p & resp & Hin & Hs%negb_true_iff%Z.eqb_neq).
  assert (Evt (GenerateSecretID "node") (Ok "secret-id") ∈ tr) as Hg by nth_call 1.
  exact (createVM_revokes_on_rejection vaulted machine new_machine ready_cluster tr _ p resp
           "node" "secret-id" eq_refl (answering_execs env _ (fun _ => reflexivity _)) Hin Hs Hg
           ltac:(discriminate)).
Defined.

(** The tenant's order is still being processed. *)
Lemma createVM_leaks_secret_id_witness :
  let wc := waldur_cluster [datacenter "dc-one"] ∅ None in
  let prepare := prepareUserData vaulted machine new_machine in
  let tr := run_trace (answering (healthy new_machine wc)) tt prepare in
  exists ud, Evt (GenerateSecretID (ud_roleName ud)) (Ok (ud_secretID ud)) ∈ tr /\
    count (S := ctl) is_revoke tr = 0.
Proof.
  intros wc prepare tr.
  destruct (answering_ok (healthy new_machine wc) prepare (fun _ => reflexivity _) eq_refl)
    as [ud He].
  exists ud.
  exact (proj2 (createVM_leaks_secret_id vaulted machine new_machine wc _ tr ud eq_refl eq_refl He)).
Defined.

Lemma refreshVM_reports_witness :
  let wm := ordered_machine in
  let tr := run_trace (answering (healthy wm ready_cluster)) tt (refreshVM wm) in
  exists wm' err, vm_refreshed (wm_Status wm) (wm_Status wm') tr err /\
    mst_State (wm_Status wm') = CoreStatesOK.
Proof.
  intros wm tr.
  assert (exists wm' err, execs (refreshVM wm) tr (Done (wm', err)) /\
            mst_State (wm_Status wm') = CoreStatesOK) as (wm' & err & He & Hst).
  { eexists _, _. split; [apply answering_done; [any_order|vm_compute; reflexivity]|].
    reflexivity. }
  exists wm', err. split; [|exact Hst].
  exact (proj2 (refreshVM_reports wm tr wm' err He)).
Defined.

(** Against an API server that rejects one status patch with a conflict, two
    consecutive reconciles of a new machine each submit a creation order; only the
    reconcile after the successful patch submits none. *)
Theorem machine_order_lost_on_conflict :
  let '(tr1, _, w1) := run api_server (new_machine, 1) (Reconcile plain req) in
  let '(tr2, _, w2) := run api_server w1 (Reconcile plain req) in
  let '(tr3, _, _) := run api_server w2 (Reconcile plain req) in
  count (S := ctl) is_order_create tr1 = 1 /\
  count (S := ctl) is_order_create tr2 = 1 /\
  count (S := ctl) is_order_create tr3 = 0.
Proof. vm_compute. auto. Qed.
