(* ===== verification/Linked.v ===== *)
(** The controllers linked with the Vault client of src/internal/vault: every
    Vault call of a controller is replaced by the client's program for it, and the
    client is threaded from call to call. [linked_refines] shows that the linked
    program has only behaviours of the controller over the abstract interface, so
    the theorems about the controllers hold of it; the rest of the file adds what
    the client's own theorems give. *)
From S2P Require Import Prelude Json Prog Vault VaultFacts Types Calls Helpers CloudInit.
From S2P Require Import MachineController Concrete Scenario MachineFacts MachineOrder.
From Stdlib Require Import ZArith Lia.
From stdpp Require Import base gmap strings list.
Local Open Scope string_scope.
Local Open Scope list_scope.
Local Open Scope go_scope.

(** The calls of the linked program: the controllers' and the network's. *)
Definition linked_sig : sig :=
  Sig (Call + NetCall)
    (fun c => match c with inl c => Call_resp c | inr c => NetCall_resp c end)
    (fun c => match c with inl c => Call_allowed c | inr _ => fun _ => True end).

(** The client's program for a call of its interface. *)
Definition vault_impl (c : client) (call : Call) : option (V (client * Call_resp call)) :=
  match call with
  | Calls.SecretExists path => Some (Vault.SecretExists c path)
  | Calls.WriteSecret path data => Some (Vault.WriteSecret c path data)
  | Calls.GenerateSecretID role => Some (Vault.GenerateSecretID c role)
  | Calls.RevokeSecretID role sid => Some (Vault.RevokeSecretID c role sid)
  | _ => None
  end.

(** A client program among the calls of the linked one. *)
Fixpoint over_net {A} (p : V A) : prog linked_sig A :=
  match p with
  | Ret a => Ret a
  | Panic => Panic
  | Vis c k => Vis (S := linked_sig) (inr c) (fun r => over_net (k r))
  end.

Fixpoint link {A} (c : client) (p : M A) : prog linked_sig (client * A) :=
  match p with
  | Ret a => Ret (c, a)
  | Panic => Panic
  | Vis call k =>
      match vault_impl c call with
      | Some op => bind (over_net op) (fun '(c', r) => link c' (k r))
      | None => Vis (S := linked_sig) (inl call) (fun r => link c (k r))
      end
  end.

(** ** Refinement *)

Definition net_event (e : event net) : event linked_sig :=
  @Ev linked_sig (inr (ev_call e)) (ev_resp e).

Definition ctl_event (e : event ctl) : event linked_sig :=
  @Ev linked_sig (inl (ev_call e)) (ev_resp e).

(** *** The contract of the interface *)

(** One request to Vault in the trace [t], and an answer made of its response. *)
Definition answered {A} (c : client) (verb path : string) (body : option json)
    (answers : result HttpResponse -> A -> Prop) (t : list (event net)) (c' : client) (a : A) : Prop :=
  exists res, done_request c verb path body t c' res /\ answers res a.

(** What the client owes for a call of the interface: the requests [t] it may make,
    the client [c'] it may leave and the answer it may give. *)
Definition promised (c : client) (call : Call) (t : list (event net)) (c' : client)
    : Call_resp call -> Prop :=
  match call return Call_resp call -> Prop with
  | Calls.SecretExists path => answered c "GET" path None exists_answer t c'
  | Calls.WriteSecret path data =>
      answered c "POST" path (Some (secret_payload data)) unit_answer t c'
  | Calls.GenerateSecretID role =>
      answered c "POST" (secret_id_path role) (Some (JObj [])) secret_id_answer t c'
  | Calls.RevokeSecretID role sid =>
      answered c "POST" (destroy_path role) (Some (revoke_payload sid)) unit_answer t c'
  | _ => fun _ => False
  end.

Definition is_vault_call (call : Call) : bool :=
  match call with
  | Calls.SecretExists _ | Calls.WriteSecret _ _ | Calls.GenerateSecretID _
  | Calls.RevokeSecretID _ _ => true
  | _ => false
  end.

(** [implements c tr ltr c']: the trace [ltr] of the linked program is the trace
    [tr] of the controller with every Vault call replaced by requests that keep the
    contract for its answer; the client starts as [c] and ends as [c']. *)
Inductive implements : client -> list (event ctl) -> list (event linked_sig) -> client -> Prop :=
| implements_nil c : implements c [] [] c
| implements_call c (e : event ctl) tr ltr c' :
    is_vault_call (ev_call e) = false ->
    implements c tr ltr c' ->
    implements c (e :: tr) (ctl_event e :: ltr) c'
| implements_vault c (e : event ctl) t c1 tr ltr c' :
    promised c (ev_call e) t c1 (ev_resp e) ->
    implements c1 tr ltr c' ->
    implements c (e :: tr) (map net_event t ++ ltr) c'.

Lemma over_net_wp {A} (p : V A) :
  wp (over_net p) (fun ltr o => exists t, execs p t o /\ ltr = map net_event t).
Proof.
  induction p as [a| |c k IH]; simpl; [by exists []..|].
  intros r _. eapply wp_mono; [apply IH|]. intros ltr o (t & Ht & ->).
  exists (NEvt c r :: t). by split; [constructor|].
Qed.

(** The client's methods keep the contract. *)
Lemma vault_impl_promised c call op :
  vault_impl c call = Some op ->
  wp op (fun t o => exists c' a, o = Done (c', a) /\ promised c call t c' a).
Proof.
  assert (forall A (p : V (client * A)) verb path body answers,
    operation p c verb path body answers ->
    wp p (fun t o => exists c' a, o = Done (c', a) /\ answered c verb path body answers t c' a)) as Hop.
  { intros A p verb path body answers Hp. eapply wp_mono; [exact Hp|].
    intros t o (c' & res & a & -> & ? & ?). exists c', a. split; [done|]. by exists res. }
  destruct call; intros [= <-]; apply Hop.
  - apply SecretExists_spec.
  - apply WriteSecret_spec.
  - apply GenerateSecretID_spec.
  - apply RevokeSecretID_spec.
Qed.

Lemma vault_impl_none c call : vault_impl c call = None -> is_vault_call call = false.
Proof. by destruct call. Qed.

(** The client's answers are allowed by the interface, which allows any. *)
Lemma vault_impl_allowed c call op r : vault_impl c call = Some op -> Call_allowed call r.
Proof. by destruct call. Qed.

Lemma link_wp {A} (p : M A) : forall c,
  wp (link c p) (fun ltr o => exists tr c', implements c tr ltr c' /\
    match o with
    | Done (c1, a) => c1 = c' /\ execs p tr (Done a)
    | Panicked => execs p tr Panicked
    end).
Proof.
  induction p as [a| |call k IH]; intros c; simpl.
  - exists [], c. split; [constructor|]. by split; [|constructor].
  - exists [], c. split; [constructor|constructor].
  - destruct (vault_impl c call) as [op|] eqn:Himpl.
    + pose proof (vault_impl_promised _ _ _ Himpl) as Hop.
      eapply wp_bind_mono; [apply over_net_wp| |].
      * intros ltr1 [c1 r] (t & Ht & ->).
        apply (wp_sound _ _ _ _ Hop) in Ht as (c1' & r' & [= <- <-] & Hprom).
        eapply wp_mono; [apply (IH r c1)|].
        intros ltr2 o (tr & c' & Himp & Ho). exists (Evt call r :: tr), c'.
        split; [by apply (implements_vault _ (Evt call r) _ c1)|].
        assert (Call_allowed call r) by (by eapply vault_impl_allowed).
        destruct o as [[c2 a]|]; [destruct Ho as [-> Ho]; split; [done|]|];
          by apply (execs_vis (S := ctl)).
      * intros ltr (t & Ht & ->). by destruct (wp_sound _ _ _ _ Hop Ht) as (? & ? & ? & _).
    + intros r Hr. eapply wp_mono; [apply (IH r c)|].
      intros ltr2 o (tr & c' & Himp & Ho). exists (Evt call r :: tr), c'.
      split; [by apply (implements_call c (Evt call r)); [eapply vault_impl_none|]|].
      destruct o as [[c2 a]|]; [destruct Ho as [-> Ho]; split; [done|]|];
        by apply (execs_vis (S := ctl)).
Qed.

(** C13. A controller linked with the Vault client, so that it makes HTTP requests
    instead of Vault calls, refines the controller over the Client interface: every
    linked run is a run of the controller in which each Vault call is one
    authenticated request, with the path and the payload of the call, whose answer
    decides the call's: a secret exists on 200 and does not on 404, a write or a
    revocation succeeds on 200 and 204, a generated credential is the non-empty
    secret_id of a 200 body that decodes, everything else is an error. The calls
    keep their order and the client its state from one to the next. So the
    controllers' theorems hold of the linked program. *)
Theorem linked_refines {A} (p : M A) c ltr o :
  execs (link c p) ltr o ->
  exists tr c', implements c tr ltr c' /\
    match o with
    | Done (c1, a) => c1 = c' /\ execs p tr (Done a)
    | Panicked => execs p tr Panicked
    end.
Proof. apply (wp_sound _ _ _ _ (link_wp p c)). Qed.

(** ** Traces of a linked run *)

(** The controller's event, if it is one. *)
Definition ctl_part (e : event linked_sig) : option (event ctl) :=
  match ev_call e as c return resp (s := linked_sig) c -> option (event ctl) with
  | inl call => fun a => Some (Evt call a)
  | inr _ => fun _ => None
  end (ev_resp e).

Lemma ctl_part_ctl e : ctl_part (ctl_event e) = Some e.
Proof. by destruct e. Qed.

Lemma ctl_part_net e : ctl_part (net_event e) = None.
Proof. by destruct e. Qed.

(** Every event of the controller in the linked trace is one of its own run. *)
Lemma implements_ctl c tr ltr c' e :
  implements c tr ltr c' -> ctl_event e ∈ ltr -> e ∈ tr.
Proof.
  intros Himp. revert e. induction Himp as [c|c e tr ltr c' _ _ IH|c e t c1 tr ltr c' _ _ IH];
    intros x Hin.
  - by apply not_elem_of_nil in Hin.
  - apply elem_of_cons in Hin as [Hin|Hin]; [|apply elem_of_cons; auto].
    apply (f_equal ctl_part) in Hin. rewrite !ctl_part_ctl in Hin. injection Hin as ->.
    apply elem_of_cons; auto.
  - apply elem_of_app in Hin as [Hin|Hin]; [|apply elem_of_cons; auto].
    apply list_elem_of_In, in_map_iff in Hin as (y & Hin & _).
    apply (f_equal ctl_part) in Hin. by rewrite ctl_part_ctl, ctl_part_net in Hin.
Qed.

(** Every Vault call of the run is requests of the client somewhere in the trace. *)
Lemma implements_vault_call c tr1 e tr2 ltr c' :
  implements c (tr1 ++ e :: tr2) ltr c' -> is_vault_call (ev_call e) = true ->
  exists l1 l2 c1 c2 t,
    ltr = l1 ++ map net_event t ++ l2 /\ promised c1 (ev_call e) t c2 (ev_resp e) /\
    implements c2 tr2 l2 c'.
Proof.
  remember (tr1 ++ e :: tr2) as tr eqn:Htr. intros Himp. revert tr1 Htr.
  induction Himp as [c|c x tr ltr c' Hnone Himp IH|c x t c1 tr ltr c' Hprom Himp IH];
    intros tr1 Htr Hv.
  - by destruct tr1.
  - destruct tr1 as [|y tr1]; simplify_eq/=; [congruence|].
    destruct (IH tr1 eq_refl Hv) as (l1 & l2 & c2 & c3 & t & -> & ? & ?).
    by exists (ctl_event y :: l1), l2, c2, c3, t.
  - destruct tr1 as [|y tr1]; simplify_eq/=.
    + by exists [], ltr, c, c1, t.
    + destruct (IH tr1 eq_refl Hv) as (l1 & l2 & c2 & c3 & t' & -> & ? & ?).
      exists (map net_event t ++ l1), l2, c2, c3, t'. by rewrite <- app_assoc.
Qed.

(** The contract keeps the client. *)
Lemma promised_keeps c call t c' a :
  promised c call t c' a -> vaultToken c <> "" -> same_config c c' /\ vaultToken c' <> "".
Proof.
  destruct call; simpl; try done; intros (res & Hreq & _); by apply (done_request_keeps _ _ _ _ _ _ _ Hreq).
Qed.

(** ** The client between calls *)

(** C23. Every Vault client there is holds a token: a constructor returns a client only
    with a non-empty token and with the method's fields filled in, and every run of
    a controller linked with the client keeps the configuration and leaves the token
    non-empty. *)
Theorem vault_client_authenticated :
  (forall cfg tr c, execs (NewClient cfg) tr (Done (Ok c)) ->
     vaultToken c <> "" /\ method c = authMethodKubernetes /\ k8sAuthPath c <> "" /\
     k8sTokenPath c <> "") /\
  (forall address roleID secretID tr c,
     execs (NewClientWithAppRole address roleID secretID) tr (Done (Ok c)) ->
     c = mkclient address (vaultToken c) authMethodAppRole "" "" "" roleID secretID /\
     vaultToken c <> "") /\
  (forall A (p : M A) c ltr c' a, vaultToken c <> "" ->
     execs (link c p) ltr (Done (c', a)) -> same_config c c' /\ vaultToken c' <> "").
Proof.
  split_and!.
  - intros cfg tr c [Hne ->]%(wp_sound _ _ _ _ (NewClient_spec cfg)). split_and!; try done;
      simpl; unfold or_default; by case_bool_decide.
  - by intros address roleID secretID tr c [Hne Heq]%(wp_sound _ _ _ _ (NewClientWithAppRole_spec _ _ _)).
  - intros A p c ltr c' a Hne He.
    apply (wp_sound _ _ _ _ (link_wp p c)) in He as (tr & c1 & Himp & -> & _).
    clear a p. induction Himp as [c|c e tr ltr c' _ _ IH|c e t c2 tr ltr c' Hprom _ IH].
    + auto using same_config_refl.
    + auto.
    + destruct (promised_keeps _ _ _ _ _ Hprom Hne) as [Hsame Hne'].
      destruct (IH Hne') as [Hsame' Hne'']. eauto using same_config_trans.
Qed.

(** ** Rejected orders *)

Section RejectedOrder.
Context `{UuidLib} `{YamlLib}.
Variable r : WaldurMachineReconciler.

(** The client sent a request that was done in the trace [tr]. *)
Definition requested (verb path : string) (body : option json) (ltr : list (event linked_sig))
    (res : result HttpResponse) : Prop :=
  exists c t c', ltr = map net_event t /\ done_request c verb path body t c' res.

(** C17. At the level of HTTP: if Waldur answers a machine's order with a status other
    than 201, the requests of the run begin, up to others, with a POST to the role's
    secret-id path whose answer held a non-empty secret_id, and end with a POST of
    that secret_id to the destroy path of the same role, each made by the
    authenticated retrying request of the client. *)
Theorem linked_rejected_order_revoked c machine wm wc ltr o p resp :
  mr_VaultClient r = true ->
  execs (link c (createVM r machine wm wc)) ltr o ->
  ctl_event (Evt (MarketplaceOrdersCreate p) (Ok resp)) ∈ ltr -> StatusCode resp <> 201%Z ->
  exists role sid l1 l2 generated revoked gres rres,
    ltr = l1 ++ generated ++ l2 ++ revoked /\ sid <> "" /\
    requested "POST" (secret_id_path role) (Some (JObj [])) generated gres /\
    secret_id_answer gres (Ok sid) /\
    requested "POST" (destroy_path role) (Some (revoke_payload sid)) revoked rres.
Proof.
  intros Hv He Hin Hs.
  apply (wp_sound _ _ _ _ (link_wp _ c)) in He as (tr & c' & Himp & Ho).
  pose proof (implements_ctl _ _ _ _ _ Himp Hin) as Hin'.
  assert (exists o', execs (createVM r machine wm wc) tr o') as [o' He'].
  { destruct o as [[c1 a]|]; [destruct Ho|]; eauto. }
  destruct (createVM_generated r _ _ _ _ _ _ _ Hv He' Hin') as (role & sid & Hg).
  pose proof Hg as Hg'. apply list_elem_of_split in Hg as (tr1 & tr2 & ->).
  destruct (implements_vault_call _ _ _ _ _ _ Himp ltac:(done))
    as (l1 & l2 & c1 & c2 & t & -> & (gres & Hgen & Hans) & Himp2).
  assert (sid <> "") as Hne by (by apply (Hans sid)).
  destruct (createVM_rejected r _ _ _ _ _ _ _ _ _ Hv He' Hin' Hs Hg' Hne) as [b Hlast].
  destruct tr2 as [|e tr2 _] using rev_ind; [by rewrite last_snoc in Hlast|].
  rewrite app_comm_cons, app_assoc, last_snoc in Hlast. injection Hlast as ->.
  destruct (implements_vault_call _ _ _ _ _ _ Himp2 ltac:(done))
    as (l3 & l4 & c3 & c4 & t' & -> & (rres & Hrev & _) & Himp3).
  inversion Himp3; subst.
  exists role, sid, l1, l3, (map net_event t), (map net_event t'), gres, rres.
  split_and!; [by rewrite app_nil_r|done| |done|]; by eexists _, _, _.
Qed.
End RejectedOrder.

(** ** Concrete runs *)

(** The controllers against fixed answers, with a Vault that accepts one token. *)
Definition linked_server (f : forall c : Call, Call_resp c) (token : string)
    : environment linked_sig unit := fun c w =>
  match c with
  | inl call => (f call, w)
  | inr call => vault_server token call w
  end.

Lemma linked_server_allowed (f : forall c : Call, Call_resp c) token :
  (forall keys, f (Range keys) ≡ₚ keys) -> env_allowed (linked_server f token).
Proof. intros Hf [[]|[]] w; simpl; done. Qed.

(** An order of a linked run, found by a test on its answer. *)
Lemma linked_order_in_trace (ltr : list (event linked_sig)) (f : response OrderDetails -> bool) :
  existsb (fun e => match ctl_part e ≫= order_answer with
                    | Some (Ok resp) => f resp | _ => false end) ltr = true ->
  exists p resp, ctl_event (Evt (MarketplaceOrdersCreate p) (Ok resp)) ∈ ltr /\ f resp = true.
Proof.
  intros ([[c|c] a] & Hin & Hf)%existsb_true; [|done]. destruct c; try done.
  destruct a as [resp|]; [|done]. by exists payload, resp.
Qed.

Definition quota_exceeded : forall c : Call, Call_resp c :=
  but (healthy new_machine ready_cluster) (fun c =>
    match c with MarketplaceOrdersCreate _ => Some (http_error 400 "quota") | _ => None end).

(** The client's token has expired; the order is rejected. *)
Definition rejected_run : prog linked_sig (client * (WaldurMachine * option error)) :=
  link (approle_client "old") (createVM vaulted machine new_machine ready_cluster).

Definition rejected_trace : list (event linked_sig) :=
  run_trace (linked_server quota_exceeded "new") tt rejected_run.

Lemma rejected_execs :
  execs rejected_run rejected_trace
    (run_outcome (linked_server quota_exceeded "new") tt rejected_run).
Proof. apply run_execs, linked_server_allowed. any_order. Qed.

Lemma linked_refines_witness :
  exists tr c', implements (approle_client "old") tr rejected_trace c'.
Proof.
  destruct (linked_refines _ _ _ _ rejected_execs) as (tr & c' & Himp & _). by exists tr, c'.
Defined.

Lemma linked_rejected_order_revoked_witness :
  exists role sid l revoked rres, rejected_trace = l ++ revoked /\
    requested "POST" (destroy_path role) (Some (revoke_payload sid)) revoked rres.
Proof.
  destruct (linked_order_in_trace rejected_trace
    (fun resp => negb (Z.eqb (StatusCode resp) 201)) eq_refl)
    as (p & resp & Hin & Hs%negb_true_iff%Z.eqb_neq).
  destruct (linked_rejected_order_revoked vaulted _ _ _ _ _ _ _ _ eq_refl rejected_execs Hin Hs)
    as (role & sid & l1 & l2 & g & rv & ? & rres & Heq & _ & _ & _ & Hrev).
  exists role, sid, (l1 ++ g ++ l2), rv, rres. split; [|exact Hrev]. by rewrite <- !app_assoc.
Defined.
