(* ===== verification/MachineLifecycle.v ===== *)
(** The life of a machine: many reconciles of one WaldurMachine, with users, the
    other controllers and the API server acting between and during them.

    A state of the [world] is the object the API server keeps, or the last version
    of it once it is gone. [served] says how the server answers the machine
    controller's calls about the object; [lifetime] is the step relation. Its steps
    are actions of others, reconciles, and reconciles that a restart cuts off after
    any of their calls. It keeps the marketplace resources of the creation orders that
    Waldur accepted, in two lists: of the reconciles that ended with their status
    patched, and of those that panicked, were cut off, or whose status patch was
    answered by an error. The theorems are invariants of every reachable state.

    What is assumed: nobody but the controller writes the status, takes its finalizer
    off, or takes a deletion back; one reconcile of the object runs at a time; and a
    read answers the stored object. The controller reads through an informer cache, so
    the last says that the cache has caught up with the controller's own last write. *)
From S2P Require Import Prelude Prog Types Calls Helpers CloudInit MachineController.
From S2P Require Import MachineFacts MachineOrder Concrete Scenario.
From Stdlib Require Import ZArith Lia.
From stdpp Require Import base gmap strings list.
Local Open Scope string_scope.
Local Open Scope list_scope.
Local Open Scope go_scope.

(** ** Accepted orders *)

(** The marketplace resource of a creation order that Waldur accepted. *)
Definition order_accepted (e : event ctl) : option (option UUID) :=
  match order_answer e with
  | Some (Ok resp) =>
      if Z.eqb (StatusCode resp) 201 then Some (JSON resp ≫= od_MarketplaceResourceUuid) else None
  | _ => None
  end.

Definition accepted (tr : list (event ctl)) : list (option UUID) := omap order_accepted tr.

Lemma accepted_app tr1 tr2 : accepted (tr1 ++ tr2) = accepted tr1 ++ accepted tr2.
Proof. apply omap_app. Qed.

Lemma accepted_cons e tr :
  accepted (e :: tr) = match order_accepted e with Some x => x :: accepted tr | None => accepted tr end.
Proof. done. Qed.

Lemma order_accepted_create e x : order_accepted e = Some x -> is_order_create (ev_call e) = true.
Proof. destruct e as [[] a]; by compute. Qed.

Lemma accepted_le tr : length (accepted tr) <= count (S := ctl) is_order_create tr.
Proof.
  induction tr as [|[c a] tr IH]; [done|]. rewrite (count_cons (S := ctl)).
  rewrite accepted_cons. destruct (order_accepted _) eqn:E; simpl; [|lia].
  apply order_accepted_create in E. simpl in E. rewrite E. lia.
Qed.

Lemma accepted_none tr :
  Forall (fun e : event ctl => is_order_create (ev_call e) = false) tr -> accepted tr = [].
Proof.
  intros H%(count_0 (S := ctl)). pose proof (accepted_le tr) as Hle.
  rewrite H in Hle. apply nil_length_inv. lia.
Qed.

Lemma accepted_in tr x :
  x ∈ accepted tr ->
  exists p resp, Evt (MarketplaceOrdersCreate p) (Ok resp) ∈ tr /\ StatusCode resp = 201%Z /\
    x = JSON resp ≫= od_MarketplaceResourceUuid.
Proof.
  intros (e & Hin & He)%list_elem_of_omap. destruct e as [c a].
  destruct c; try discriminate He. destruct a as [resp|err]; [|discriminate He].
  exists payload, resp. split; [exact Hin|].
  unfold order_accepted, order_answer in He. simpl in He.
  destruct (Z.eqb_spec (StatusCode resp) 201); [|done]. by injection He.
Qed.

(** ** The API server *)

Inductive world := Alive (m : WaldurMachine) | Gone (m : WaldurMachine).

Definition object (w : world) : WaldurMachine := match w with Alive m | Gone m => m end.

Definition finalizers (m : WaldurMachine) : list string := om_Finalizers (wm_ObjectMeta m).
Definition resource (m : WaldurMachine) : string := mst_MarketplaceResourceUuid (wm_Status m).
Definition deleting (m : WaldurMachine) : bool :=
  negb (Time_IsZero (om_DeletionTimestamp (wm_ObjectMeta m))).

(** An object under deletion goes away with its last finalizer. *)
Definition settle (m : WaldurMachine) : world :=
  if deleting m && bool_decide (finalizers m = []) then Gone m else Alive m.

(** What others do to the object. *)
Definition others_act (m m' : WaldurMachine) : Prop :=
  wm_Status m' = wm_Status m /\
  (machineFinalizer ∈ finalizers m -> machineFinalizer ∈ finalizers m') /\
  (deleting m = true -> deleting m' = true).

(** The object after a write. [Update] and [Patch] of the main resource leave the
    status alone. A status patch carries the differences from its base: it makes
    the status that of the patched object if the base had the stored one. *)
Definition written (m : WaldurMachine) (c : Call) (m' : WaldurMachine) : Prop :=
  deleting m' = deleting m /\
  match c with
  | KUpdateWaldurMachine obj => wm_Status m' = wm_Status m /\ finalizers m' = finalizers obj
  | KPatchWaldurMachine _ _ => wm_Status m' = wm_Status m /\ finalizers m' = finalizers m
  | KPatchWaldurMachineStatus obj base =>
      finalizers m' = finalizers m /\
      (wm_Status base = wm_Status m -> wm_Status m' = wm_Status obj)
  | _ => False
  end.

(** Calls about the machine's object. *)
Definition about_machine (c : Call) : bool :=
  match c with
  | KGetWaldurMachine _ | KUpdateWaldurMachine _ | KPatchWaldurMachine _ _
  | KPatchWaldurMachineStatus _ _ => true
  | _ => false
  end.

(** The answers of the server. A write that is answered by an error may have been
    applied all the same. *)
Inductive served : world -> event ctl -> world -> Prop :=
| served_other w (e : event ctl) : about_machine (ev_call e) = false -> served w e w
| served_get m nn : served (Alive m) (Evt (KGetWaldurMachine nn) (Ok m)) (Alive m)
| served_get_error w nn e : served w (Evt (KGetWaldurMachine nn) (Err e)) w
| served_write m (e : event ctl) m' :
    machine_answer e = Some (Ok m') -> written m (ev_call e) m' -> served (Alive m) e (settle m')
| served_error w (e : event ctl) err : machine_answer e = Some (Err err) -> served w e w
| served_error_applied m (e : event ctl) err m' :
    machine_answer e = Some (Err err) -> written m (ev_call e) m' ->
    served (Alive m) e (settle m').

(** A whole trace, others acting in between. *)
Inductive served_all : world -> list (event ctl) -> world -> Prop :=
| served_nil w : served_all w [] w
| served_cons w e w1 tr w2 : served w e w1 -> served_all w1 tr w2 -> served_all w (e :: tr) w2
| served_others m m' tr w : others_act m m' -> served_all (settle m') tr w -> served_all (Alive m) tr w.

(** *** Drift: what the others do *)

#[export] Instance others_act_preorder : PreOrder others_act.
Proof.
  split; unfold others_act; [done|]. intros m1 m2 m3 (Hs & Hf & Hd) (Hs' & Hf' & Hd').
  split_and!; [by rewrite Hs'|auto..].
Qed.

Lemma object_settle m : object (settle m) = m.
Proof. unfold settle. by destruct (_ && _). Qed.

(** Calls that write the machine. *)
Definition machine_write (c : Call) : bool :=
  match c with
  | KUpdateWaldurMachine _ | KPatchWaldurMachine _ _ | KPatchWaldurMachineStatus _ _ => true
  | _ => false
  end.

#[export] Instance ReadsIn_no_machine_write : ReadsIn (fun c => machine_write c = false).
Proof. by intros [] (? & ? & ?). Qed.

Lemma machine_write_kube c : machine_write c = true -> kube_writes c = true.
Proof. by destruct c. Qed.

Definition writes (tr : list (event ctl)) : list (event ctl) :=
  List.filter (fun e : event ctl => machine_write (ev_call e)) tr.

Lemma writes_app tr1 tr2 : writes (tr1 ++ tr2) = writes tr1 ++ writes tr2.
Proof. apply List.filter_app. Qed.

Lemma writes_none tr :
  Forall (fun e : event ctl => machine_write (ev_call e) = false) tr -> writes tr = [].
Proof. induction 1 as [|e tr He _ IH]; [done|]. unfold writes in *. simpl. by rewrite He. Qed.

(** The rest of a trace leaves the object to the others. *)
Lemma served_writes w tr w' : served_all w tr w' -> served_all w (writes tr) w'.
Proof.
  induction 1 as [|w e w1 tr w2 He _ IH|m m' tr w Ho _ IH]; [constructor| |by econstructor].
  unfold writes in *. simpl. destruct (machine_write (ev_call e)) eqn:Hw; [by econstructor|].
  destruct He as [w' e' Ha|m nn|w' nn err|m e' m' Ha Hwr|w' e' err Ha|m e' err m' Ha Hwr]; try exact IH;
    destruct e' as [[] ?]; try discriminate Ha; discriminate Hw.
Qed.

Lemma served_all_nil w w' : served_all w [] w' -> others_act (object w) (object w').
Proof.
  remember [] as tr eqn:Htr. induction 1 as [| |m m' tr w Ho _ IH]; [done|done|].
  transitivity m'; [exact Ho|]. rewrite <- (object_settle m') at 1. by apply IH.
Qed.

(** A write: either it fails and leaves the object alone, or it is applied, whatever
    the answer; an answer that is not an error is the object. *)
Definition write_effect (m : WaldurMachine) (e : event ctl) (m' : WaldurMachine) : Prop :=
  (m' = m /\ exists err, machine_answer e = Some (Err err)) \/
  (written m (ev_call e) m' /\ forall obj, machine_answer e = Some (Ok obj) -> obj = m').

Lemma served_write_effect w (e : event ctl) w' :
  machine_write (ev_call e) = true -> served w e w' -> write_effect (object w) e (object w').
Proof.
  intros Hw Hs. revert Hw.
  destruct Hs as [w1 e1 Ha|m nn|w1 nn err|m e1 m' Ha Hwr|w1 e1 err Ha|m e1 err m' Ha Hwr]; intros Hw.
  - by destruct e1 as [[] ?].
  - done.
  - done.
  - right. rewrite object_settle. split; [done|]. intros obj. by rewrite Ha; intros [= ->].
  - left. eauto.
  - right. rewrite object_settle. split; [done|]. intros obj. by rewrite Ha.
Qed.

Lemma served_all_cons w (e : event ctl) tr w' :
  machine_write (ev_call e) = true -> served_all w (e :: tr) w' ->
  exists m1 w2, others_act (object w) m1 /\ write_effect m1 e (object w2) /\
    served_all w2 tr w'.
Proof.
  intros Hw. remember (e :: tr) as tr0 eqn:Htr.
  induction 1 as [|w e1 w1 tr1 w2 He Hrest _|m m' tr1 w Ho _ IH]; [done| |].
  - simplify_eq. exists (object w), w1. split_and!; [done|by apply served_write_effect|done].
  - destruct (IH Htr) as (m1 & w2 & Hm1 & ? & ?). rewrite object_settle in Hm1.
    exists m1, w2. split; [by etransitivity|done].
Qed.

(** ** What one reconcile writes *)

(** The termination order of a machine is done. *)
Definition termination_done (m : WaldurMachine) : bool :=
  has_order (wm_Status m) (fun o => is_termination o && bool_decide (wo_State o = OrderStateDone)).

(** Nothing is left at Waldur that the status speaks of. *)
Definition clean (m : WaldurMachine) : Prop := resource m = "" \/ termination_done m = true.

Section Tail.
Context `{UuidLib} `{KubeLib} `{YamlLib}.
Variable r : WaldurMachineReconciler.

Lemma publish_writes m b :
  wp (publish m b) (fun tr o => o <> Panicked /\
    ((exists a, tr = [Evt (KPatchWaldurMachineStatus (setMachineReadyCondition m) b) a]) \/
     mst_State (wm_Status m) = CoreStatesOK /\
     ((exists obj e, tr = [Evt (KPatchWaldurMachine obj b) (Err e)]) \/
      exists obj m' a, tr = [Evt (KPatchWaldurMachine obj b) (Ok m');
                             Evt (KPatchWaldurMachineStatus (setMachineReadyCondition m') m') a]))).
Proof.
  unfold publish, setProviderID. wp_steps; (split; [done|]).
  all: first [by left; eauto|by right; split; [|left]; eauto|by right; split; [|right]; eauto].
Qed.

Lemma accepted_pos p resp tr :
  Evt (MarketplaceOrdersCreate p) (Ok resp) ∈ tr -> StatusCode resp = 201%Z -> accepted tr <> [].
Proof.
  intros Hin Hs Hnil.
  assert ((JSON resp ≫= od_MarketplaceResourceUuid) ∈ accepted tr) as Hacc.
  { apply list_elem_of_omap. eexists. split; [exact Hin|].
    unfold order_accepted, order_answer. simpl. by rewrite Hs. }
  rewrite Hnil in Hacc. by apply not_elem_of_nil in Hacc.
Qed.

(** Without an accepted order the resource stays what it was. *)
Lemma provision_resource machine wm wc :
  wp (provision r machine wm wc) (fun tr o => forall wm', o = Done (Some wm') ->
    accepted tr = [] -> resource wm' = resource wm).
Proof.
  unfold provision. destruct (bool_decide _).
  - apply wp_bind. eapply wp_mono; [apply createVM_outcome|].
    intros tr [[wm' err]|] Hout; simpl; [|done]. specialize (Hout wm' err eq_refl).
    destruct err as [e|]; simpl.
    + intros wm2. destruct (Is_errBootstrapNotReady e); intros [= <-] _.
      by destruct Hout as [[? _]|(_ & -> & _)].
    + intros wm2 [= <-]. rewrite app_nil_r. intros Hacc.
      destruct Hout as [(_ & p & resp & Hin & Hs & _)|[[] _]]; [|done].
      by destruct (accepted_pos _ _ _ Hin Hs).
  - wp_call refreshVM_spec. intros tr [wm' e] (s & -> & Hs). simpl. intros wm2 [= <-] _. apply Hs.
Qed.

Lemma provision_accepts machine wm wc :
  wp (provision r machine wm wc) (fun tr o =>
    match o with
    | Done (Some wm') =>
        accepted tr = [] /\ resource wm' = resource wm \/
        exists u, accepted tr = [Some u] /\ resource wm = "" /\ resource wm' = uuid_String u /\
          mst_State (wm_Status wm') = CoreStatesCREATING
    | Done None => accepted tr = []
    | Panicked => True
    end).
Proof.
  eapply wp_mono; [apply wp_and; [apply (at_most_wp (S := ctl)), provision_at_most|
                   apply wp_and; [apply provision_records|apply provision_resource]]|].
  intros tr o (Hmost & Hrec & Hres). pose proof (accepted_le tr) as Hle.
  destruct o as [[wm'|]|]; [| |done].
  - destruct (accepted tr) as [|x [|y l]] eqn:Hacc; [by left; auto| |].
    2: { destruct (decide _); simpl in *; lia. }
    right. destruct (accepted_in tr x) as (p & resp & Hin & Hs & Hx); [rewrite Hacc; by left|].
    destruct (Hrec p resp Hin Hs) as (od & u & mp & ty & st & Hod & _ & _ & _ & Hmp & ->).
    exists mp. destruct (decide _) as [Hr|]; simpl in *; [|lia].
    split_and!; [by rewrite Hx, Hod; simpl; rewrite Hmp|done..].
  - destruct (accepted tr) as [|x l] eqn:Hacc; [done|].
    destruct (accepted_in tr x) as (p & resp & Hin & Hs & _); [rewrite Hacc; by left|].
    by destruct (Hrec p resp Hin Hs).
Qed.

(** The writes of a reconcile of [wm] and the orders it had accepted. *)
Inductive tail (wm : WaldurMachine) :
    list (event ctl) -> list (option UUID) -> outcome (result ctrl_Result) -> Prop :=
| tail_none o : tail wm [] [] o
| tail_panicked ks : tail wm [] ks Panicked
| tail_add a o :
    tail wm [Evt (KUpdateWaldurMachine (set_wm_Finalizers wm
               (AddFinalizer (finalizers wm) machineFinalizer))) a] [] o
| tail_remove a o : clean wm ->
    tail wm [Evt (KUpdateWaldurMachine (set_wm_Finalizers wm
               (RemoveFinalizer (finalizers wm) machineFinalizer))) a] [] o
| tail_refreshed obj a o :
    machineFinalizer ∈ finalizers wm \/ ~ clean wm -> resource obj = resource wm ->
    tail wm [Evt (KPatchWaldurMachineStatus obj wm) a] [] o
| tail_ordered obj u a o :
    machineFinalizer ∈ finalizers wm -> resource wm = "" -> resource obj = uuid_String u ->
    tail wm [Evt (KPatchWaldurMachineStatus obj wm) a] [Some u] o
| tail_unpatched obj a o : tail wm [Evt (KPatchWaldurMachine obj wm) a] [] o
| tail_patched obj m a o : machineFinalizer ∈ finalizers wm ->
    tail wm [Evt (KPatchWaldurMachine obj wm) (Ok m);
             Evt (KPatchWaldurMachineStatus (setMachineReadyCondition m) m) a] [] o.

Definition has_tail (wm : WaldurMachine) (tr : list (event ctl))
    (o : outcome (result ctrl_Result)) : Prop :=
  tail wm (writes tr) (accepted tr) o.

(** Calls that neither write the machine nor order. *)
Definition quiet (c : Call) : Prop := machine_write c = false /\ is_order_create c = false.

#[local] Instance ReadsIn_quiet : ReadsIn quiet.
Proof. by intros [] (? & ? & ?). Qed.

Lemma has_tail_quiet wm tr tr' o :
  Forall (fun e : event ctl => quiet (ev_call e)) tr -> has_tail wm tr' o -> has_tail wm (tr ++ tr') o.
Proof.
  intros Htr. unfold has_tail. rewrite writes_app, accepted_app.
  rewrite (writes_none tr), (accepted_none tr); [done| |]; (eapply Forall_impl; [exact Htr|by intros e [? ?]]).
Qed.

Lemma has_tail_none wm tr o :
  Forall (fun e : event ctl => quiet (ev_call e)) tr -> has_tail wm tr o.
Proof. intros Htr. rewrite <- (app_nil_r tr). by apply has_tail_quiet; [|constructor]. Qed.

Lemma wp_quiet_bind {A} wm (p : M A) (f : A -> M (result ctrl_Result)) P :
  only (S := ctl) quiet p ->
  wp p (fun _ o => match o with Done a => P a | Panicked => True end) ->
  (forall a, P a -> wp (f a) (has_tail wm)) -> wp (bind p f) (has_tail wm).
Proof.
  intros Hq Hp Hf. eapply wp_bind_mono; [apply wp_and; [apply (only_wp (S := ctl)), Hq|apply Hp]|..].
  - intros tr a [Htr Ha]. eapply wp_mono; [by apply Hf|]. intros tr' o. by apply has_tail_quiet.
  - intros tr [Htr _]. by apply has_tail_none.
Qed.

Lemma patchStatus_tail wm obj :
  machineFinalizer ∈ finalizers wm \/ ~ clean wm -> resource obj = resource wm ->
  wp (patchStatus obj wm) (has_tail wm).
Proof. intros. unfold patchStatus. wp_steps; by constructor. Qed.

Lemma removeFinalizer_tail wm : clean wm -> wp (removeFinalizer wm) (has_tail wm).
Proof. intros. unfold removeFinalizer. wp_steps; by constructor. Qed.

Lemma reconcileDelete_tail wm : wp (reconcileDelete wm) (has_tail wm).
Proof.
  unfold reconcileDelete. case_bool_decide as Hres; [by apply removeFinalizer_tail; left|].
  assert (termination_done wm = false -> machineFinalizer ∈ finalizers wm \/ ~ clean wm) as Hdirty.
  { intros Ht. right. intros [?|?]; [done|congruence]. }
  destruct (has_order _ _) eqn:Hpending.
  - assert (termination_done wm = false) as Ht%Hdirty.
    { revert Hpending. unfold termination_done, has_order. destruct (mst_Order _) as [o|]; [|done].
      destruct (is_termination o); [|done]. simpl. by destruct (wo_State o). }
    apply (wp_quiet_bind _ _ _ (fun x => resource x.1 = resource wm)).
    + apply (reads_only _), refreshVM_reads.
    + eapply wp_mono; [apply refreshVM_spec|].
      intros _ [[wm' e]|]; [|done]. intros (s & -> & Hs). apply Hs.
    + intros [wm' e] Hr. by apply patchStatus_tail.
  - destruct (has_order (wm_Status wm) (fun o => _ && bool_decide _)) eqn:Hdone.
    { by apply removeFinalizer_tail; right. }
    apply (wp_quiet_bind _ _ _ (fun _ => True)).
    { by apply stopVM_only; [apply _|]. }
    { eapply wp_mono; [apply wp_true|]. by intros _ []. }
    intros [res|] _; [constructor|].
    apply (wp_quiet_bind _ _ _ (fun _ => True)).
    { by apply submitTerminationOrder_only. }
    { eapply wp_mono; [apply wp_true|]. by intros _ []. }
    intros [order|e] _; [|constructor]. by apply patchStatus_tail; [apply Hdirty|].
Qed.

Lemma reconcileNormal_tail wm :
  machineFinalizer ∈ finalizers wm -> wp (reconcileNormal r wm) (has_tail wm).
Proof.
  intros Hfin. apply reconcileNormal_phases.
  { intros tr o Htr. apply has_tail_none. eapply Forall_impl; [exact Htr|]. intros e. apply reads_in. }
  intros tr machine wc Htr.
  assert (Forall (fun e : event ctl => quiet (ev_call e)) tr) as Hq.
  { eapply Forall_impl; [exact Htr|]. intros e. apply reads_in. }
  eapply wp_mono; [apply wp_and; [apply provision_no_kube|apply provision_accepts]|].
  intros tr' o (Hno%(no_kube_trace machine_write _ machine_write_kube)%writes_none & Ho).
  destruct o as [[wm'|]|].
  - eapply wp_mono; [apply publish_writes|]. intros tr'' o' [_ Hpub]. apply has_tail_quiet; [done|].
    unfold has_tail. rewrite writes_app, accepted_app, Hno. simpl.
    destruct Ho as [[-> Hres]|(u & -> & Hr & Hr' & Hst)].
    + destruct Hpub as [[a ->]|[_ [(obj & e & ->)|(obj & m' & a & ->)]]]; constructor; auto.
    + destruct Hpub as [[a ->]|[? _]]; [|congruence]. by apply tail_ordered.
  - apply has_tail_quiet; [done|]. unfold has_tail. rewrite Hno, Ho. constructor.
  - apply has_tail_quiet; [done|]. unfold has_tail. rewrite Hno. constructor.
Qed.

(** A reconcile that is cut off leaves a tail too. *)
Lemma tail_cut wm ws1 ws2 ks o : tail wm (ws1 ++ ws2) ks o -> exists ks', tail wm ws1 ks' Panicked.
Proof.
  destruct ws1 as [|w1 ws1]; [exists []; constructor|]. simpl. intros Ht. inversion Ht; subst.
  all: try (match goal with H : [] = _ ++ _ |- _ => symmetry in H; apply app_eq_nil in H as [-> ->] end;
            eexists; by econstructor).
  destruct ws1 as [|w2 ws1]; [eexists; by econstructor|].
  match goal with H : [_] = _ ++ _ |- _ => injection H as <- H; symmetry in H;
    apply app_eq_nil in H as [-> ->] end.
  eexists. by apply tail_patched.
Qed.
End Tail.

(** ** Lives *)

Definition status_patch_failed (e : event ctl) : bool :=
  is_machine_status_patch (ev_call e) &&
  match machine_answer e with Some (Err _) => true | _ => false end.

(** A reconcile that panicked, or whose status patch was answered by an error. *)
Definition failed (tr : list (event ctl)) (o : outcome (result ctrl_Result)) : bool :=
  existsb status_patch_failed tr || match o with Panicked => true | Done _ => false end.

Lemma failed_writes tr o : failed (writes tr) o = failed tr o.
Proof.
  unfold failed, writes. f_equal. induction tr as [|[[] a] tr IH]; simpl; rewrite ?IH; done.
Qed.

Section Lifetime.
Context `{UuidLib} `{KubeLib} `{YamlLib}.
Variable r : WaldurMachineReconciler.
Variable req : NamespacedName.

(** The object, and the orders accepted so far: by the reconciles that ended with their
    status patched, and by the others. *)
Inductive lifetime : world -> list (option UUID) -> list (option UUID) -> Prop :=
| life_created m : resource m = "" -> machineFinalizer ∉ finalizers m -> deleting m = false ->
    lifetime (Alive m) [] []
| life_others m m' kept lost :
    lifetime (Alive m) kept lost -> others_act m m' -> lifetime (settle m') kept lost
| life_reconcile w kept lost tr o w' :
    lifetime w kept lost -> execs (Reconcile r req) tr o -> served_all w tr w' ->
    lifetime w' (kept ++ if failed tr o then [] else accepted tr)
                (lost ++ if failed tr o then accepted tr else [])
| life_cut w kept lost tr tr' o w' :
    lifetime w kept lost -> execs (Reconcile r req) (tr ++ tr') o -> served_all w tr w' ->
    lifetime w' kept (lost ++ accepted tr).

(** *** The invariant *)

Record consistent (m : WaldurMachine) (kept : list (option UUID)) : Prop := {
  orders_recorded : kept = [] \/ exists u, kept = [Some u] /\ resource m = uuid_String u;
  unprotected_clean : machineFinalizer ∉ finalizers m -> clean m;
}.

Lemma clean_others m m' : wm_Status m' = wm_Status m -> clean m -> clean m'.
Proof. unfold clean, resource, termination_done. by intros ->. Qed.

(** A change that keeps the resource, and the finalizer on an object with something
    left at Waldur, keeps the invariant. *)
Lemma consistent_change m m' kept :
  resource m' = resource m -> (machineFinalizer ∉ finalizers m' -> clean m') ->
  consistent m kept -> consistent m' kept.
Proof. intros Hr Hc [Ho _]. split; [by rewrite Hr|done]. Qed.

Lemma consistent_keep m m' kept :
  wm_Status m' = wm_Status m ->
  (machineFinalizer ∈ finalizers m -> machineFinalizer ∈ finalizers m') ->
  consistent m kept -> consistent m' kept.
Proof.
  intros Hs Hf Hm. eapply consistent_change; [|intros Hfin|exact Hm].
  - unfold resource. by rewrite Hs.
  - apply (clean_others m); [done|]. apply Hm. tauto.
Qed.

Lemma consistent_others m m' kept : others_act m m' -> consistent m kept -> consistent m' kept.
Proof. intros (Hs & Hf & _). by apply consistent_keep. Qed.

Lemma Reconcile_tail `{!UuidLaws _} `{!KubeLaws _} :
  wp (Reconcile r req) (fun tr o =>
    (exists e, tr = [Evt (KGetWaldurMachine req) (Err e)]) \/
    (exists wm tr', tr = Evt (KGetWaldurMachine req) (Ok wm) :: tr' /\ has_tail wm tr' o)).
Proof.
  apply Reconcile_after_get.
  - eauto.
  - intros wm _. eapply wp_mono; [apply reconcileDelete_tail|]. intros tr o Ht. right. eauto.
  - intros wm _ _ a. right. eexists wm, _. split; [done|]. constructor.
  - intros wm _ Hfin%ContainsFinalizer_spec.
    eapply wp_mono; [exact (reconcileNormal_tail r wm Hfin)|]. intros tr o Ht. right. eauto.
Qed.

Definition get_answer (e : event ctl) : option (result WaldurMachine) :=
  match ev_call e as c return Call_resp c -> option (result WaldurMachine) with
  | KGetWaldurMachine _ => fun a => Some a
  | _ => fun _ => None
  end (ev_resp e).

Lemma served_get_world nn w wm w' :
  served w (Evt (KGetWaldurMachine nn) (Ok wm)) w' -> w = Alive wm /\ w' = Alive wm.
Proof.
  remember (Evt (KGetWaldurMachine nn) (Ok wm)) as e eqn:He.
  destruct 1 as [w e Ha|m nn'|w nn' err|m e m' Ha Hw|w e err Ha|m e err m' Ha Hw].
  all: try (subst e; discriminate Ha).
  - apply (f_equal get_answer) in He. by injection He as ->.
  - by apply (f_equal get_answer) in He.
Qed.

Lemma served_get_inv nn w wm tr w' :
  served_all w (Evt (KGetWaldurMachine nn) (Ok wm) :: tr) w' ->
  others_act (object w) wm /\ served_all (Alive wm) tr w'.
Proof.
  remember (Evt (KGetWaldurMachine nn) (Ok wm) :: tr) as tr0 eqn:Htr.
  induction 1 as [|w e w1 tr1 w2 He Hrest _|m m' tr1 w Ho _ IH]; [done| |].
  - injection Htr as -> ->. apply served_get_world in He as [-> ->]. done.
  - destruct (IH Htr) as [Hm ?]. rewrite object_settle in Hm. split; [by etransitivity|done].
Qed.

(** A trace of one write. *)
Lemma one_write wm (e : event ctl) w' :
  served_all (Alive wm) [e] w' -> machine_write (ev_call e) = true ->
  exists m1 m2, others_act wm m1 /\ write_effect m1 e m2 /\ others_act m2 (object w').
Proof.
  intros Hs Hw. apply served_all_cons in Hs as (m1 & w2 & Hm1 & He & Hs%served_all_nil); [|done]. eauto.
Qed.

(** A status write of an object with the stored status. *)
Lemma status_write m obj base wr m' :
  wm_Status base = wm_Status m -> write_effect m (Evt (KPatchWaldurMachineStatus obj base) wr) m' ->
  m' = m /\ (exists err, wr = Err err) \/
  wm_Status m' = wm_Status obj /\ finalizers m' = finalizers m.
Proof.
  intros Hb [[-> [err He]]|[[_ [Hf Hs]] _]]; [left|right; auto].
  split; [done|]. exists err. by injection He.
Qed.

Lemma status_write_consistent m obj base wr m' kept :
  wm_Status base = wm_Status m -> resource obj = resource m -> machineFinalizer ∈ finalizers m ->
  write_effect m (Evt (KPatchWaldurMachineStatus obj base) wr) m' ->
  consistent m kept -> consistent m' kept.
Proof.
  intros Hb Hr Hfin He Hm.
  destruct (status_write _ _ _ _ _ Hb He) as [[-> _]|[Hst Hf]]; [done|].
  eapply consistent_change; [|intros []; by rewrite Hf|exact Hm].
  unfold resource. by rewrite Hst.
Qed.

(** Other writes: the status stays, and either the finalizer or cleanness. *)
Lemma other_write_consistent m (e : event ctl) m' kept :
  write_effect m e m' -> is_machine_status_patch (ev_call e) = false ->
  match ev_call e with
  | KUpdateWaldurMachine obj => machineFinalizer ∈ finalizers obj \/ clean m
  | _ => True
  end -> consistent m kept -> consistent m' kept.
Proof.
  intros [[-> _]|[[_ Hw] _]] Hk Hc Hm; [done|].
  destruct (ev_call e); try done; destruct Hw as [Hst Hfin].
  - destruct Hc as [Hc|Hc].
    + apply (consistent_keep m); [done| |done]. by rewrite Hfin.
    + eapply consistent_change; [|intros _; by apply (clean_others m)|exact Hm].
      unfold resource. by rewrite Hst.
  - apply (consistent_keep m); [done| |done]. by rewrite Hfin.
Qed.

(** The status writes of the tail: [clean] is decided by the status. *)
Lemma tail_protected wm kept :
  machineFinalizer ∈ finalizers wm \/ ~ clean wm -> consistent wm kept ->
  machineFinalizer ∈ finalizers wm.
Proof.
  intros Hd Hm. destruct (decide (machineFinalizer ∈ finalizers wm)); [done|].
  destruct Hd as [?|[]]; [done|]. by apply Hm.
Qed.

Lemma patched_consistent wm obj m wr w' kept :
  machineFinalizer ∈ finalizers wm ->
  served_all (Alive wm) [Evt (KPatchWaldurMachine obj wm) (Ok m);
                         Evt (KPatchWaldurMachineStatus (setMachineReadyCondition m) m) wr] w' ->
  consistent wm kept -> consistent (object w') kept.
Proof.
  intros Hfin Hs Hm. apply served_all_cons in Hs as (m1 & w2 & Hm1 & He1 & Hs); [|done].
  apply served_all_cons in Hs as (m2 & w3 & Hm2 & He2 & Hs%served_all_nil); [|done].
  eapply consistent_others; [exact Hs|].
  eapply consistent_others in Hm; [|exact Hm1].
  eapply other_write_consistent in Hm; [|exact He1|done..].
  destruct He1 as [[_ [err ?]]|[[_ [_ Hfins]] Hobj]]; [done|].
  specialize (Hobj m eq_refl). subst m.
  eapply consistent_others in Hm; [|exact Hm2].
  destruct Hm1 as (_ & Hf1 & _), Hm2 as (Hst2 & Hf2 & _).
  eapply status_write_consistent; [by symmetry| |apply Hf2; rewrite Hfins; auto|exact He2|exact Hm].
  unfold resource in *. by rewrite Hst2.
Qed.

(** What a tail leaves in an object that was consistent. *)
Lemma tail_consistent `{!UuidLaws _} `{!KubeLaws _} wm ws ks o w' kept :
  consistent wm kept -> tail wm ws ks o -> served_all (Alive wm) ws w' ->
  consistent (object w') (kept ++ if failed ws o then [] else ks) /\
  (o = Panicked -> consistent (object w') kept).
Proof.
  intros Hm Ht Hs.
  assert (ks = [] \/ failed ws o = true -> consistent (object w') kept ->
    consistent (object w') (kept ++ if failed ws o then [] else ks) /\
    (o = Panicked -> consistent (object w') kept)) as Hzero.
  { intros Hks ?. split; [|done]. destruct Hks as [-> | ->]; [destruct (failed ws o)|]; by rewrite app_nil_r. }
  destruct Ht as [o|ks|wr o|wr o Hc|obj wr o Hd Hr|obj u wr o Hf Hr Hr'|obj wr o|obj m wr o Hf].
  1,2: apply Hzero; [by auto|]; by apply (consistent_others wm); [apply served_all_nil in Hs|].
  6: { apply Hzero; [by left|]. by eapply patched_consistent. }
  all: destruct (one_write _ _ _ Hs eq_refl) as (m1 & m2 & Hm1 & Heff & Hm2).
  all: pose proof (consistent_others _ _ _ Hm1 Hm) as Hm'; destruct Hm1 as (Hst1 & Hf1 & _).
  - apply Hzero; [by left|]. eapply consistent_others; [exact Hm2|].
    eapply other_write_consistent; [exact Heff|done| |done].
    left. apply AddFinalizer_spec. by left.
  - apply Hzero; [by left|]. eapply consistent_others; [exact Hm2|].
    eapply other_write_consistent; [exact Heff|done| |done].
    right. by apply (clean_others wm).
  - apply Hzero; [by left|]. eapply consistent_others; [exact Hm2|].
    eapply status_write_consistent; [by symmetry| | |exact Heff|exact Hm'].
    + unfold resource in *. by rewrite Hr, Hst1.
    + by eapply Hf1, tail_protected.
  - assert (kept = []) as ->.
    { destruct Hm as [[?|(u' & _ & Hu')] _]; [done|]. rewrite Hr in Hu'. by destruct (uuid_String_nonempty u'). }
    assert (forall ks, ks = [] \/ resource m2 = uuid_String u /\ ks = [Some u] ->
      machineFinalizer ∈ finalizers m2 -> consistent (object w') ks) as Hks.
    { intros ks Hks Hfin. eapply consistent_others; [exact Hm2|]. split; [|intros []; exact Hfin].
      destruct Hks as [->|[? ->]]; eauto. }
    destruct (status_write _ _ _ _ _ (eq_sym Hst1) Heff) as [[-> [err ->]]|[Hst Hfin]].
    + split; intros; apply Hks; auto.
    + assert (machineFinalizer ∈ finalizers m2) as Hin by (rewrite Hfin; auto).
      assert (resource m2 = uuid_String u) by (unfold resource in *; by rewrite Hst).
      split; [destruct (failed _ _); apply Hks; auto|intros; apply Hks; auto].
  - apply Hzero; [by left|]. eapply consistent_others; [exact Hm2|].
    by eapply other_write_consistent.
Qed.

Lemma lifetime_consistent `{!UuidLaws _} `{!KubeLaws _} w kept lost :
  lifetime w kept lost -> consistent (object w) kept.
Proof.
  induction 1 as [m Hr _ _|m m' kept lost _ IH Ho|w kept lost tr o w' _ IH He Hs
                 |w kept lost tr tr' o w' _ IH He Hs].
  - split; by left.
  - rewrite object_settle. by eapply consistent_others.
  - destruct (wp_sound _ _ _ _ Reconcile_tail He) as [[e ->]|(wm & tr1 & -> & Ht)].
    + apply served_writes, served_all_nil in Hs.
      rewrite accepted_none by by repeat constructor.
      destruct (failed _ _); rewrite app_nil_r; by eapply consistent_others.
    + apply served_get_inv in Hs as [Ho Hs%served_writes].
      destruct (tail_consistent wm _ _ o w' kept (consistent_others _ _ _ Ho IH) Ht Hs) as [Hc _].
      by rewrite failed_writes in Hc.
  - destruct tr as [|e tr]; [by apply served_all_nil in Hs; eapply consistent_others|].
    destruct (wp_sound _ _ _ _ Reconcile_tail He) as [[e' [= -> [-> _]%app_eq_nil]]|(wm & tr1 & [= -> <-] & Ht)].
    + apply served_writes, served_all_nil in Hs. by eapply consistent_others.
    + apply served_get_inv in Hs as [Ho Hs%served_writes]. unfold has_tail in Ht.
      rewrite writes_app in Ht. destruct (tail_cut _ _ _ _ _ Ht) as [ks Hcut].
      by apply (tail_consistent wm _ _ Panicked w' kept (consistent_others _ _ _ Ho IH) Hcut Hs).
Qed.

(** An object that is gone has no finalizers left. *)
Definition settled (w : world) : Prop :=
  match w with Gone m => finalizers m = [] | Alive _ => True end.

Lemma settled_settle m : settled (settle m).
Proof.
  unfold settle. destruct (_ && _) eqn:E; [|done].
  by apply andb_prop in E as [_ ?%bool_decide_eq_true].
Qed.

Lemma served_settled w e w' : served w e w' -> settled w -> settled w'.
Proof. destruct 1; try done; intros _; apply settled_settle. Qed.

Lemma served_all_settled w tr w' : served_all w tr w' -> settled w -> settled w'.
Proof.
  induction 1 as [|w e w1 tr w2 He _ IH|m m' tr w _ _ IH]; [done| |].
  - intros Hw. by apply IH, (served_settled w e).
  - intros _. apply IH, settled_settle.
Qed.

Lemma lifetime_settled w kept lost : lifetime w kept lost -> settled w.
Proof.
  induction 1 as [| |w kept lost tr o w' _ IH _ Hs|w kept lost tr tr' o w' _ IH _ Hs];
    [done|apply settled_settle|by eapply served_all_settled..].
Qed.


End Lifetime.

(** ** A concrete API server *)

(** The object after a write, on a server that accepts it. *)
Definition stored (m : WaldurMachine) (c : Call) : option WaldurMachine :=
  match c with
  | KUpdateWaldurMachine obj => Some (set_wm_Finalizers m (finalizers obj))
  | KPatchWaldurMachine obj _ =>
      Some (mkWaldurMachine (wm_ObjectMeta m) (wm_Spec obj) (wm_Status m))
  | KPatchWaldurMachineStatus obj _ => Some (set_wm_Status m (wm_Status obj))
  | _ => None
  end.

(** An API server that keeps one machine, beside a Waldur that gives the answers [f]. *)
Definition machine_server (f : forall c : Call, Call_resp c) : environment ctl world := fun c w =>
  match w with
  | Alive m =>
      match stored m c with
      | Some m' =>
          (match c return Call_resp c with
           | KUpdateWaldurMachine _ | KPatchWaldurMachine _ _ | KPatchWaldurMachineStatus _ _ => Ok m'
           | c => f c
           end, settle m')
      | None => (match c return Call_resp c with KGetWaldurMachine _ => Ok m | c => f c end, w)
      end
  | Gone _ =>
      (match c return Call_resp c with
       | KGetWaldurMachine _ | KUpdateWaldurMachine _ | KPatchWaldurMachine _ _
       | KPatchWaldurMachineStatus _ _ => Err (ErrLib true "not found")
       | c => f c
       end, w)
  end.

Lemma machine_server_allowed (f : forall c : Call, Call_resp c) :
  (forall keys, f (Range keys) ≡ₚ keys) -> env_allowed (machine_server f).
Proof. intros Hf [] []; done || apply Hf. Qed.

Lemma stored_written m c m' : stored m c = Some m' -> written m c m'.
Proof. destruct c; intros [= <-]; done. Qed.

Lemma machine_server_served f c w :
  served w (Evt c (machine_server f c w).1) (machine_server f c w).2.
Proof.
  destruct w as [m|m]; simpl.
  - destruct (stored m c) as [m'|] eqn:Hc; simpl.
    + apply served_write; [by destruct c|by apply stored_written].
    + destruct c; try discriminate Hc; (apply served_get || by apply served_other).
  - destruct c; simpl; (eapply served_get_error || (eapply served_error; done) || by apply served_other).
Qed.

Lemma machine_server_run {A} f (p : M A) w :
  served_all w (run_trace (machine_server f) w p) (run (machine_server f) w p).2.
Proof.
  unfold run_trace. revert w. induction p as [a| |c k IH]; intros w; simpl; [constructor..|].
  pose proof (machine_server_served f c w) as Hs.
  destruct (machine_server f c w) as [a w1]. specialize (IH a w1).
  destruct (run (machine_server f) w1 (k a)) as [[tr o] w2]. by econstructor.
Qed.

(** A reconcile against it is a step of a life. *)
Lemma life_run `{UuidLib} `{KubeLib} `{YamlLib} r req (f : forall c : Call, Call_resp c) w kept lost :
  (forall keys, f (Range keys) ≡ₚ keys) -> lifetime r req w kept lost ->
  let '(tr, o, w') := run (machine_server f) w (Reconcile r req) in
  lifetime r req w' (kept ++ if failed tr o then [] else accepted tr)
                    (lost ++ if failed tr o then accepted tr else []).
Proof.
  intros Hf Hl.
  pose proof (run_execs _ w (Reconcile r req) (machine_server_allowed f Hf)) as He.
  pose proof (machine_server_run f (Reconcile r req) w) as Hs.
  unfold run_trace, run_outcome in *. destruct (run _ _ _) as [[tr o] w']. simpl in *.
  by apply (life_reconcile _ _ w _ _ tr o).
Qed.

(** ** A concrete life *)

(** The machine is created without finalizer, gets one, is ordered, deleted,
    terminated and released. *)
Definition fresh_machine : WaldurMachine := set_wm_Finalizers new_machine [].

(** A Waldur whose orders are done when they are read again. *)
Definition done_order : OrderDetails :=
  mkOrderDetails (Some order_uuid) (Some Terminate) (Some OrderStateDone) (Some resource_uuid) None None.

Definition obliging : forall c : Call, Call_resp c :=
  but (healthy new_machine ready_cluster) (fun c =>
    match c return option (Call_resp c) with
    | MarketplaceOrdersRetrieve _ => Some (http 200 done_order)
    | _ => None
    end).

Definition deleted (m : WaldurMachine) : WaldurMachine :=
  mkWaldurMachine
    (mkObjectMeta (om_Name (wm_ObjectMeta m)) (om_Namespace (wm_ObjectMeta m)) (om_Labels (wm_ObjectMeta m))
       (finalizers m) (om_OwnerReferences (wm_ObjectMeta m)) (Some 100%Z))
    (wm_Spec m) (wm_Status m).

Definition after (w : world) : world := (run (machine_server obliging) w (Reconcile plain req)).2.

Lemma life_after w kept lost kept' lost' :
  lifetime plain req w kept lost ->
  (let '(tr, o, _) := run (machine_server obliging) w (Reconcile plain req) in
   (kept ++ (if failed tr o then [] else accepted tr), lost ++ (if failed tr o then accepted tr else [])))
  = (kept', lost') ->
  lifetime plain req (after w) kept' lost'.
Proof.
  intros Hl. apply (life_run _ _ obliging) in Hl; [|done]. unfold after.
  destruct (run _ _ _) as [[tr o] w']. by intros [= <- <-].
Qed.

Lemma fresh_alive : lifetime plain req (Alive fresh_machine) [] [].
Proof. by apply life_created; [|apply not_elem_of_nil|]. Qed.

(** After two reconciles the VM is ordered. *)
Definition ordered : WaldurMachine := object (after (after (Alive fresh_machine))).

Lemma life_ordered : lifetime plain req (Alive ordered) [Some resource_uuid] [].
Proof.
  assert (lifetime plain req (after (after (Alive fresh_machine))) [Some resource_uuid] []) as Hl.
  { apply (life_after _ [] []); [apply (life_after _ [] []); [apply fresh_alive|]|]; vm_compute; reflexivity. }
  replace (Alive ordered) with (after (after (Alive fresh_machine))); [exact Hl|].
  vm_compute. reflexivity.
Qed.

(** Three reconciles of the deleted machine terminate the VM and let the object go. *)
Lemma life_gone : exists m, lifetime plain req (Gone m) [Some resource_uuid] [].
Proof.
  assert (lifetime plain req (settle (deleted ordered)) [Some resource_uuid] []) as Hl.
  { apply (life_others _ _ ordered); [apply life_ordered|]. unfold others_act. done. }
  exists (object (after (after (after (settle (deleted ordered)))))).
  assert (lifetime plain req (after (after (after (settle (deleted ordered))))) [Some resource_uuid] []) as Hg.
  { do 3 (apply (life_after _ [Some resource_uuid] []); [|vm_compute; reflexivity]). exact Hl. }
  replace (Gone _) with (after (after (after (settle (deleted ordered))))); [exact Hg|].
  vm_compute. reflexivity.
Qed.


