(* ===== verification/MachineTeardown.v ===== *)
(** Deletion terminates: against an API server that takes every write and a Waldur
    that does what it is asked, a deleted machine is terminated and released after
    a bounded number of reconciles, from any well-formed status.

    The reconciles are run, one after the other, against [machine_server]; the
    answers of Waldur may differ from one to the next. *)
From S2P Require Import Prelude Prog Types Calls Helpers Cooperation CloudInit MachineController.
From S2P Require Import MachineFacts MachineOrder Concrete Scenario MachineLifecycle.
From Stdlib Require Import ZArith Lia.
From stdpp Require Import base gmap strings list.
Local Open Scope string_scope.
Local Open Scope list_scope.
Local Open Scope go_scope.

(** ** A Waldur that cooperates *)

Record cooperative (f : forall c : Call, Call_resp c) : Prop := {
  co_orders : honours f;
  co_instance : forall u fields, exists resp, f (OpenstackInstancesRetrieve u fields) = Ok resp;
  co_stop : forall u, exists resp, f (OpenstackInstancesStop u) = Ok resp;
}.

(** The VM has stopped, or failed, or is not there. *)
Definition stopped (f : forall c : Call, Call_resp c) : Prop :=
  forall u fields resp state, f (OpenstackInstancesRetrieve u fields) = Ok resp ->
    JSON resp ≫= os_RuntimeState = Some state -> state = "SHUTOFF" \/ state = "ERROR".

(** One step of a run against the server. *)
Ltac server_step := runs_step; cbn [machine_server stored fst snd].

Section Teardown.
Context `{UuidLib} `{!UuidLaws _} `{KubeLib} `{!KubeLaws _} `{YamlLib}.
Variable r : WaldurMachineReconciler.
Variable req : NamespacedName.
Implicit Types f : forall c : Call, Call_resp c.

(** The UUIDs of a status are UUIDs. *)
Definition well_formed (s : WaldurMachineStatus) : Prop :=
  (mst_MarketplaceResourceUuid s = "" \/ parses (mst_MarketplaceResourceUuid s)) /\
  (forall v, mst_VmUuid s = Some v -> parses v) /\
  (forall o, mst_Order s = Some o -> parses (wo_Uuid o)).

(** A machine whose deletion waits for the controller alone. *)
Record waiting (m : WaldurMachine) : Prop := {
  wt_deleting : deleting m = true;
  wt_finalizers : finalizers m = [machineFinalizer];
}.

Definition termination_pending (m : WaldurMachine) : bool :=
  has_order (wm_Status m) (fun o => is_termination o && negb (isOrderTerminal (wo_State o))).

(** How many reconciles are left once the VM has stopped. *)
Definition phase (m : WaldurMachine) : nat :=
  if bool_decide (resource m = "") || termination_done m then 1
  else if termination_pending m then 2 else 3.

Definition reconciled f (w : world) : world := (run (machine_server f) w (Reconcile r req)).2.

Lemma machine_server_serves f : serves (machine_server f) f.
Proof. intros c [m|m] Hc; by destruct c. Qed.

(** A reconcile of a machine under deletion. *)
Lemma Reconcile_delete_runs f m Q :
  deleting m = true ->
  runs (machine_server f) (Alive m) (reconcileDelete m) Q ->
  runs (machine_server f) (Alive m) (Reconcile r req) Q.
Proof. intros Hd Hr. unfold Reconcile. apply runs_ask. simpl. unfold deleting in Hd. by rewrite Hd. Qed.

Lemma reconciled_delete f m (Q : world -> Prop) :
  deleting m = true ->
  runs (machine_server f) (Alive m) (reconcileDelete m) (fun _ => Q) ->
  Q (reconciled f (Alive m)).
Proof. exact (Reconcile_delete_runs f m (fun _ => Q)). Qed.

Lemma reconciled_gone f m : reconciled f (Gone m) = Gone m.
Proof. done. Qed.

Lemma settle_waiting m s : waiting m -> settle (set_wm_Status m s) = Alive (set_wm_Status m s).
Proof.
  intros [_ Hf]. unfold settle.
  replace (finalizers (set_wm_Status m s)) with [machineFinalizer] by done.
  by rewrite andb_false_r.
Qed.

(** *** The phases *)

Lemma release f m Q :
  waiting m -> (forall m', Q (Gone m')) ->
  runs (machine_server f) (Alive m) (removeFinalizer m) (fun _ => Q).
Proof.
  intros [Hd Hf] HQ. unfold removeFinalizer. apply runs_ask.
  cbn [machine_server stored fst snd].
  fold (finalizers m). rewrite Hf, RemoveFinalizer_only.
  unfold settle. replace (deleting _) with true by (by rewrite <- Hd). apply HQ.
Qed.

(** The answers of a cooperating Waldur, on a machine that is alive. *)
Lemma patch_status f m m' Q :
  waiting m -> Q (Alive (set_wm_Status m (wm_Status m'))) ->
  runs (machine_server f) (Alive m) (patchStatus m' m) (fun _ => Q).
Proof.
  intros Hm HQ. unfold patchStatus. server_step.
  by rewrite settle_waiting.
Qed.

(** A refreshed instance leaves the order alone. *)
Lemma apply_instance_order s instance : mst_Order (apply_instance s instance) = mst_Order s.
Proof.
  unfold apply_instance. by destruct (os_State instance), (os_Uuid instance), (bool_decide _).
Qed.

(** A pending order is read again and is done. *)
Lemma refreshVM_runs f m o (Q : outcome (WaldurMachine * option error) -> world -> Prop) :
  cooperative f -> parses (wo_Uuid o) ->
  mst_Order (wm_Status m) = Some o -> isOrderTerminal (wo_State o) = false ->
  (forall s e o', mst_Order s = Some o' -> wo_State o' = OrderStateDone -> wo_Type o' = wo_Type o ->
     Q (Done (set_wm_Status m s, e)) (Alive m)) ->
  runs (machine_server f) (Alive m) (refreshVM m) Q.
Proof.
  intros Hf Hu Ho Hterm HQ. pose proof (machine_server_serves f) as Hs.
  unfold refreshVM. server_step. rewrite Ho.
  apply (refresh_pending_runs _ _ Hs); [done..|]. intros u.
  destruct (hn_order _ (co_orders _ Hf) u) as (resp & od & Hresp & Hod & Hst).
  exists resp, od, OrderStateDone. split_and!; [done..|]. server_step.
  apply (getMarketplaceResource_runs _ _ Hs); [apply Hf|intros e; server_step; by eapply HQ|].
  intros res. server_step. cbv beta.
  destruct (r_Scope res), (r_ResourceUuid res) as [iu|];
    try (destruct (r_State res); server_step; by eapply HQ).
  server_step. destruct (co_instance _ Hf iu ["State"; "Uuid"]) as [iresp ->]. cbv iota.
  destruct (JSON iresp); server_step; eapply HQ; rewrite ?apply_instance_order;
    by destruct (r_State res).
Qed.

(** Either the VM is told to stop, and nothing else happens, or there is nothing to
    stop. *)
Lemma stopVM_runs f m (Q : outcome (option (result ctrl_Result)) -> world -> Prop) :
  cooperative f -> (forall v, mst_VmUuid (wm_Status m) = Some v -> parses v) ->
  (stopped f \/ Q (Done (Some (Ok (requeue 15)))) (Alive m)) -> Q (Done None) (Alive m) ->
  runs (machine_server f) (Alive m) (stopVM m) Q.
Proof.
  intros Hf Hvm Hrun HQ. unfold stopVM. destruct (mst_VmUuid _) as [v|]; [|done].
  destruct (Hvm v eq_refl) as [u Hu]. rewrite Hu. server_step.
  destruct (co_instance _ Hf u ["RuntimeState"]) as [resp Hresp]. rewrite Hresp. cbv iota.
  destruct (JSON resp ≫= os_RuntimeState) as [state|] eqn:Hstate; [|done].
  destruct (_ && _) eqn:Hrunning; [|done].
  destruct Hrun as [Hst|Hrun].
  - by destruct (Hst _ _ _ _ Hresp Hstate) as [-> | ->].
  - server_step. destruct (co_stop _ Hf u) as [sresp ->]. exact Hrun.
Qed.
(** *** Progress *)

Lemma waiting_status m s : waiting m -> waiting (set_wm_Status m s).
Proof. intros [Hd Hf]. by split. Qed.

(** A machine [n] reconciles away from its end. *)
Definition remaining (n : nat) (w : world) : Prop :=
  match n with
  | 0 => exists m, w = Gone m
  | Datatypes.S n => exists m, w = Alive m /\ waiting m /\ phase m <= Datatypes.S n /\
                     (n = 0 \/ well_formed (wm_Status m))
  end.

Lemma phase_1 m : phase m <= 1 -> resource m = "" \/ resource m <> "" /\ termination_done m = true.
Proof.
  unfold phase. destruct (decide (resource m = "")) as [E|E]; [by left|].
  rewrite bool_decide_eq_false_2 by done. simpl.
  destruct (termination_done m); [by right|]. destruct (termination_pending m); lia.
Qed.

Lemma pending_not_done m : termination_pending m = true -> termination_done m = false.
Proof.
  unfold termination_pending, termination_done, has_order. destruct (mst_Order _) as [o|]; [|done].
  destruct (is_termination o); [|done]. simpl. by destruct (wo_State o).
Qed.

(** A clean machine goes. *)
Lemma release_runs f m :
  waiting m -> phase m <= 1 -> exists m', reconciled f (Alive m) = Gone m'.
Proof.
  intros Hm Hp. apply reconciled_delete; [apply Hm|]. unfold reconcileDelete.
  destruct (phase_1 m Hp) as [Hr|[Hr Hd]]; unfold resource in Hr.
  - rewrite bool_decide_eq_true_2 by done. apply release; eauto.
  - rewrite bool_decide_eq_false_2 by done. cbv zeta.
    destruct (has_order (wm_Status m) (fun o => is_termination o && negb _)) eqn:Hpend.
    + apply pending_not_done in Hpend. congruence.
    + unfold termination_done in Hd. rewrite Hd. apply release; eauto.
Qed.

(** A pending termination order is done after the next reconcile. *)
Lemma refresh_runs f m :
  cooperative f -> waiting m -> well_formed (wm_Status m) -> resource m <> "" ->
  termination_pending m = true -> remaining 1 (reconciled f (Alive m)).
Proof.
  intros Hf Hm (_ & _ & Hwf) Hr Hp. apply reconciled_delete; [apply Hm|]. unfold reconcileDelete.
  unfold resource in Hr. rewrite bool_decide_eq_false_2 by done. cbv zeta.
  pose proof Hp as Hp'. unfold termination_pending in Hp'. rewrite Hp'.
  unfold has_order in Hp'. destruct (mst_Order _) as [o|] eqn:Ho; [|done].
  apply andb_prop in Hp' as [Htype Hst%negb_true_iff].
  apply runs_bind, (refreshVM_runs f m o); auto.
  intros s e o' Ho' Hdone Hty. apply patch_status; [done|].
  eexists. split; [done|]. split; [by apply waiting_status|]. split; [|by left].
  unfold phase, termination_done, has_order. simpl. rewrite Ho'.
  unfold is_termination in *. by rewrite Hty, Htype, Hdone, orb_true_r.
Qed.

(** Otherwise a termination order is submitted, unless the VM has to stop first. *)
Lemma terminate_runs f m (Q : world -> Prop) :
  cooperative f -> waiting m -> well_formed (wm_Status m) -> phase m = 3 ->
  stopped f \/ Q (Alive m) -> (forall w, remaining 2 w -> Q w) -> Q (reconciled f (Alive m)).
Proof.
  intros Hf Hm Hwf Hph Hrun HQ. revert Hph. unfold phase, resource.
  destruct (decide (mst_MarketplaceResourceUuid (wm_Status m) = "")) as [E|Hr];
    [by rewrite bool_decide_eq_true_2 by done|].
  rewrite bool_decide_eq_false_2 by done. simpl.
  destruct (termination_done m) eqn:Hd; [done|]. destruct (termination_pending m) eqn:Hp; [done|]. intros _.
  apply reconciled_delete; [apply Hm|]. unfold reconcileDelete. rewrite bool_decide_eq_false_2 by done.
  unfold termination_pending in Hp. unfold termination_done in Hd. rewrite Hp, Hd. cbv zeta.
  destruct Hwf as (Hres & Hvm & Hord). destruct Hres as [?|Hres]; [done|].
  apply runs_bind, stopVM_runs; [done..| |].
  { by destruct Hrun as [?|?]; [left|right]. }
  apply runs_bind, (submitTermination_runs _ _ (machine_server_serves f)); [apply Hf|done|]. intros u.
  apply patch_status; [done|]. apply HQ. eexists. split; [done|]. split; [by apply waiting_status|].
  split; [|right].
  - unfold phase, resource, termination_pending, has_order. simpl. destruct (_ || _); lia.
  - split_and!; [by right|done|]. intros o [= <-]. exists u. apply uuid_Parse_String.
Qed.

Lemma phase_cases m : phase m = 1 \/ resource m <> "" /\ phase m = 2 /\ termination_pending m = true
  \/ phase m = 3.
Proof.
  unfold phase. case_bool_decide; simpl; [by left|].
  destruct (termination_done m); [by left|]. destruct (termination_pending m); auto.
Qed.

Lemma reconciled_progress f n w :
  cooperative f -> stopped f -> remaining n w ->
  exists k, k <= Nat.pred n /\ remaining k (reconciled f w).
Proof.
  intros Hf Hstop. destruct n as [|n].
  { intros [m ->]. exists 0. split; [lia|]. by exists m. }
  intros (m & -> & Hm & Hp & Hwf).
  destruct (phase_cases m) as [Hph|[(Hr & Hph & Hpend)|Hph]].
  - exists 0. split; [lia|]. apply release_runs; [done|lia].
  - exists 1. split; [simpl; lia|]. destruct Hwf as [->|Hwf]; [lia|]. by apply refresh_runs.
  - exists 2. split; [simpl; lia|]. destruct Hwf as [->|Hwf]; [lia|].
    by apply terminate_runs; [..|left|].
Qed.

(** Reconciles in a row, each with its own answers. *)
Definition reconciles (fs : list (forall c : Call, Call_resp c)) (w : world) : world :=
  fold_left (fun w f => reconciled f w) fs w.

Lemma deletion_progress fs n w :
  Forall cooperative fs -> Forall stopped fs -> remaining n w -> n <= length fs ->
  exists m, reconciles fs w = Gone m.
Proof.
  revert n w. induction fs as [|f fs IH]; intros n w Hf Hst Hn Hle; simpl in *.
  - destruct n; [done|lia].
  - apply Forall_cons in Hf as [Hf Hfs], Hst as [Hst Hsts].
    destruct (reconciled_progress f n w Hf Hst Hn) as (k & Hk & Hrem).
    apply (IH k); [done..|lia].
Qed.

(** C5. Deletion completes. A deleted machine that no other finalizer holds, whose
    status has well-formed UUIDs, is gone after four reconciles in a row, whatever
    its status says of its VM and its orders, if the API server takes the writes,
    Waldur answers reads, accepts stop and termination requests and reports the
    orders it is asked for as done, and the VM has stopped by the second reconcile. *)
Theorem machine_deletion_completes f fs m :
  waiting m -> well_formed (wm_Status m) ->
  cooperative f -> Forall cooperative fs -> Forall stopped fs -> 3 <= length fs ->
  exists m', reconciles (f :: fs) (Alive m) = Gone m'.
Proof.
  intros Hm Hwf Hf Hfs Hst Hlen. simpl.
  assert (exists n, n <= 3 /\ remaining n (reconciled f (Alive m))) as (n & Hn & Hrem).
  { destruct (phase_cases m) as [Hph|[(Hr & Hph & Hpend)|Hph]].
    - exists 0. split; [lia|]. apply release_runs; [done|lia].
    - exists 1. split; [lia|]. by apply refresh_runs.
    - apply terminate_runs; [done..| |].
      + right. exists 3. split; [lia|]. exists m. split_and!; [done..|lia|by right].
      + intros w Hw. exists 2. split; [lia|done]. }
  apply (deletion_progress _ n); [done..|lia].
Qed.
(** *** A resource that cannot be read *)

(** Waldur answers for a marketplace resource without a body the client decodes, for
    instance with 404. *)
Definition resource_unreadable (f : forall c : Call, Call_resp c) : Prop :=
  forall u, exists resp, f (MarketplaceResourcesRetrieve u) = Ok resp /\ JSON resp = None.

(** The pending order is read, then the resource is dereferenced. *)
Lemma refreshVM_panics f m o (Q : outcome (WaldurMachine * option error) -> world -> Prop) :
  resource_unreadable f -> parses (wo_Uuid o) -> parses (resource m) ->
  (forall u, exists resp od st, f (MarketplaceOrdersRetrieve u) = Ok resp /\ JSON resp = Some od /\
     od_State od = Some st) ->
  mst_Order (wm_Status m) = Some o -> isOrderTerminal (wo_State o) = false ->
  Q Panicked (Alive m) -> runs (machine_server f) (Alive m) (refreshVM m) Q.
Proof.
  intros Hf Hu [ru Hru] Hord Ho Hterm HQ. pose proof (machine_server_serves f) as Hs.
  unfold refreshVM. server_step. rewrite Ho.
  apply (refresh_pending_runs _ _ Hs); [done..|]. intros u.
  destruct (Hord u) as (resp & od & st & Hresp & Hod & Hst).
  exists resp, od, st. split_and!; [done..|]. server_step.
  unfold getMarketplaceResource. cbn [mst_MarketplaceResourceUuid set_mst_Order].
  unfold resource in Hru. rewrite Hru. server_step.
  destruct (Hf ru) as (rresp & -> & Hres). cbv iota. rewrite Hres. server_step. exact HQ.
Qed.

(** C35. Take a deleted machine with a recorded resource whose termination order is
    pending, the UUIDs of both well-formed. If Waldur reports that order as done,
    but answers reads of the resource without a body the client decodes, for
    instance with 404 because the terminated VM is gone, then every reconcile of the
    machine panics, and after any number of them the machine is as it was, its
    finalizer included. *)
Theorem machine_deletion_stuck fs m o :
  deleting m = true -> parses (resource m) -> resource m <> "" ->
  mst_Order (wm_Status m) = Some o -> termination_pending m = true -> parses (wo_Uuid o) ->
  Forall (fun f => resource_unreadable f /\
    forall u, exists resp od, f (MarketplaceOrdersRetrieve u) = Ok resp /\ JSON resp = Some od /\
      od_State od = Some OrderStateDone) fs ->
  reconciles fs (Alive m) = Alive m /\
  Forall (fun f => run_outcome (machine_server f) (Alive m) (Reconcile r req) = Panicked) fs.
Proof.
  intros Hd Hparse Hr Ho Hp Hu Hfs.
  assert (Forall (fun f => run_outcome (machine_server f) (Alive m) (Reconcile r req) = Panicked /\
    reconciled f (Alive m) = Alive m) fs) as Hall.
  { eapply Forall_impl; [exact Hfs|]. intros f [Hf Hord].
    apply (Reconcile_delete_runs f m (fun o w => o = Panicked /\ w = Alive m)); [done|].
    unfold reconcileDelete. unfold resource in Hr. rewrite bool_decide_eq_false_2 by done. cbv zeta.
    unfold termination_pending in Hp. rewrite Hp. unfold has_order in Hp. rewrite Ho in Hp.
    apply andb_prop in Hp as [_ Hst%negb_true_iff].
    apply runs_bind, (refreshVM_panics f m o); try done.
    intros u. destruct (Hord u) as (resp & od & ? & ? & ?). by exists resp, od, OrderStateDone. }
  split; [|eapply Forall_impl; [exact Hall|]; by intros f []].
  unfold reconciles. clear Hfs. induction Hall as [|f fs [_ Hf] _ IH]; [done|]. simpl. by rewrite Hf.
Qed.
End Teardown.

Lemma obliging_honours : honours obliging.
Proof.
  split; intros; repeat eexists; try (vm_compute; reflexivity).
  all: try (left; vm_compute; reflexivity).
Qed.

Lemma obliging_cooperative : cooperative obliging.
Proof. split; [apply obliging_honours|..]; intros; by eexists. Qed.

(** The same Waldur once the VM has been stopped. *)
Definition obliging_stopped : forall c : Call, Call_resp c :=
  but obliging (fun c =>
    match c return option (Call_resp c) with
    | OpenstackInstancesRetrieve _ _ =>
        Some (http 200 (mkOpenStackInstance (Some CoreStatesOK) (Some instance_uuid)
                          (Some "SHUTOFF") None))
    | _ => None
    end).

Lemma obliging_stopped_cooperative : cooperative obliging_stopped.
Proof. split; [|intros; by eexists..]. split; intros; apply obliging_honours. Qed.

Lemma obliging_stopped_stopped : stopped obliging_stopped.
Proof. intros u fields resp state [= <-] [= <-]. by left. Qed.

(** A machine whose VM runs when it is deleted: it is stopped, terminated and
    released. *)
Lemma machine_deletion_completes_witness :
  exists m', reconciles plain req (obliging :: repeat obliging_stopped 3)
               (Alive (deleted_machine Create OrderStateDone)) = Gone m'.
Proof.
  apply (machine_deletion_completes plain req).
  - by split.
  - split_and!; [right; eexists; vm_compute; reflexivity|intros v [= <-]|intros o [= <-]];
      eexists; vm_compute; reflexivity.
  - apply obliging_cooperative.
  - simpl. auto using Forall_cons_2, obliging_stopped_cooperative.
  - simpl. auto using Forall_cons_2, obliging_stopped_stopped.
  - simpl. lia.
Defined.

(** Waldur no longer knows the resource once it is terminated. *)
Definition forgetful : forall c : Call, Call_resp c :=
  but obliging (fun c =>
    match c return option (Call_resp c) with
    | MarketplaceResourcesRetrieve _ => Some (http_error 404 "not found")
    | _ => None
    end).

Lemma machine_deletion_stuck_witness :
  let m := deleted_machine Terminate OrderStatePendingProvider in
  reconciles plain req (repeat forgetful 100) (Alive m) = Alive m /\
  Forall (fun f => run_outcome (machine_server f) (Alive m) (Reconcile plain req) = Panicked)
    (repeat forgetful 100).
Proof.
  intros m. apply (machine_deletion_stuck plain req _ m (order_of Terminate OrderStatePendingProvider)).
  - done.
  - eexists. vm_compute. reflexivity.
  - vm_compute. discriminate.
  - done.
  - done.
  - eexists. vm_compute. reflexivity.
  - apply Forall_forall. intros f Hf. apply list_elem_of_In, repeat_spec in Hf as ->.
    split; intros u; repeat eexists.
Defined.
