(* ===== verification/CloudInitFacts.v ===== *)
(** What the user data of a node contains: the sanitised bootstrap document, the
    order of its commands, and where the RKE2 join token goes. *)
From S2P Require Import Prelude Prog Types Calls CloudInit MachineController Concrete Scenario.
From Stdlib Require Import ZArith Lia.
From stdpp Require Import base gmap strings list.
Local Open Scope string_scope.
Local Open Scope list_scope.
Local Open Scope go_scope.

Section CloudInitFacts.
Context `{YamlLib}.

(** [files'] is [files] with the token taken out of the first RKE2 config. *)
Inductive sanitised : list CloudInitFile -> list CloudInitFile -> string -> Prop :=
| sanitised_none files :
    Forall (fun f => ci_Path f <> rke2ConfigPath) files ->
    sanitised files files ""
| sanitised_first pre f f' post cfg token :
    Forall (fun f => ci_Path f <> rke2ConfigPath) pre ->
    ci_Path f = rke2ConfigPath ->
    yaml_Unmarshal_map (ci_Content f) = Ok cfg ->
    cfg !! "token" = Some (AnyString token) -> token <> "" ->
    yaml_Unmarshal_map (ci_Content f') = Ok (delete "token" cfg) ->
    f' = mkCloudInitFile (ci_Path f) (ci_Content f') (ci_Permissions f) (ci_Owner f)
           (ci_Encoding f) ->
    sanitised (pre ++ f :: post) (pre ++ f' :: post) token.

Lemma strip_file_spec `{!YamlLaws _} f f' token :
  strip_file f = Ok (f', token) ->
  exists cfg, yaml_Unmarshal_map (ci_Content f) = Ok cfg /\
    cfg !! "token" = Some (AnyString token) /\ token <> "" /\
    yaml_Unmarshal_map (ci_Content f') = Ok (delete "token" cfg) /\
    f' = mkCloudInitFile (ci_Path f) (ci_Content f') (ci_Permissions f) (ci_Owner f)
           (ci_Encoding f).
Proof.
  unfold strip_file. destruct (yaml_Unmarshal_map _) as [cfg|] eqn:Hcfg; [|done].
  case_bool_decide as Htok; [done|].
  destruct (yaml_Marshal_map _) as [updated|] eqn:Hup; [|done].
  intros [= <- <-]. exists cfg. simpl.
  assert (cfg !! "token" = Some (AnyString (token_of cfg))) as Hl.
  { unfold token_of in *. destruct (cfg !! "token") as [[]|]; done. }
  split_and!; try done. by apply yaml_map_roundtrip.
Qed.

Lemma strip_files_spec `{!YamlLaws _} files files' token :
  strip_files files = Ok (files', token) -> sanitised files files' token.
Proof.
  revert files' token. induction files as [|f files IH]; simpl; intros files' token.
  { intros [= <- <-]. by constructor. }
  case_bool_decide as Hpath.
  - destruct (strip_files files) as [[rest tok]|]; [|done]. intros [= <- <-].
    destruct (IH _ _ eq_refl) as [files0 Hall|pre g g' post cfg tok Hpre].
    + constructor. by constructor.
    + apply (sanitised_first (f :: pre) g g' post cfg); try done. by constructor.
  - destruct (strip_file f) as [[f' tok]|] eqn:Hf; [|done]. intros [= <- <-].
    apply strip_file_spec in Hf as (cfg & ? & ? & ? & ? & ?).
    by apply (sanitised_first [] f f' files cfg).
Qed.

Lemma stripRKE2Token_spec `{!YamlLaws _} raw out token :
  stripRKE2Token raw = Ok (out, token) ->
  exists ci files', yaml_Unmarshal_CloudInit raw = Ok ci /\
    yaml_Unmarshal_CloudInit out = Ok (mkCloudInit files' (RunCmd ci) (BootCmd ci)) /\
    sanitised (WriteFiles ci) files' token.
Proof.
  unfold stripRKE2Token. destruct (yaml_Unmarshal_CloudInit raw) as [ci|]; [|done].
  destruct (strip_files _) as [[files' tok]|] eqn:Hs; [|done].
  destruct (yaml_Marshal_CloudInit _) as [o|] eqn:Ho; [|done].
  intros [= <- <-]. exists ci, files'. split_and!; [done| |by apply strip_files_spec].
  by apply yaml_CloudInit_roundtrip.
Qed.

Definition is_rke2_config (f : CloudInitFile) : bool := bool_decide (ci_Path f = rke2ConfigPath).

(** C18. If the bootstrap document has at most one RKE2 config file and the sanitised
    one still has such a file, then its configuration has no token, the token
    returned is not empty, and putting it back into that configuration gives the one
    of an RKE2 config file of the bootstrap document, so nothing else of it was
    lost. *)
Theorem stripRKE2Token_removes_token `{!YamlLaws _} raw out token ci f cfg :
  stripRKE2Token raw = Ok (out, token) ->
  yaml_Unmarshal_CloudInit raw = Ok ci ->
  length (List.filter is_rke2_config (WriteFiles ci)) <= 1 ->
  (exists ci', yaml_Unmarshal_CloudInit out = Ok ci' /\ f ∈ WriteFiles ci') ->
  ci_Path f = rke2ConfigPath -> yaml_Unmarshal_map (ci_Content f) = Ok cfg ->
  cfg !! "token" = None /\ token <> "" /\
  exists f0 cfg0, f0 ∈ WriteFiles ci /\ ci_Path f0 = rke2ConfigPath /\
    yaml_Unmarshal_map (ci_Content f0) = Ok cfg0 /\ cfg0 = <["token" := AnyString token]> cfg.
Proof.
  intros Hstrip Hraw Hone (ci' & Hout & Hf) Hpath Hcfg.
  apply stripRKE2Token_spec in Hstrip as (ci0 & files' & Hraw' & Hout' & Hs).
  rewrite Hraw in Hraw'. injection Hraw' as <-. rewrite Hout in Hout'. injection Hout' as ->.
  simpl in Hf. destruct Hs as [files Hall|pre g g' post cfg0 tok Hpre Hg Hcfg0 Htok Hne Hg' Heq].
  { rewrite Forall_forall in Hall. by apply Hall in Hf. }
  assert (forall h, h ∈ post -> ci_Path h <> rke2ConfigPath) as Hpost.
  { intros h Hin Hh. rewrite List.filter_app, length_app in Hone. simpl in Hone.
    unfold is_rke2_config at 2 in Hone. rewrite bool_decide_eq_true_2 in Hone by done.
    simpl in Hone. assert (h ∈ List.filter is_rke2_config post) as Hin'.
    { apply list_elem_of_In, List.filter_In. split; [by apply list_elem_of_In|].
      by apply bool_decide_eq_true_2. }
    destruct (List.filter is_rke2_config post); [by apply not_elem_of_nil in Hin'|simpl in Hone; lia]. }
  rewrite Forall_forall in Hpre.
  apply elem_of_app in Hf as [Hf|[->|Hf]%elem_of_cons]; [by apply Hpre in Hf| |by apply Hpost in Hf].
  rewrite Hcfg in Hg'. injection Hg' as ->. split_and!; [apply lookup_delete_eq|done|].
  exists g, cfg0. split_and!; [set_solver|done|done|]. by rewrite insert_delete_eq, insert_id.
Qed.

(** C38. A bootstrap document without an RKE2 config file is not rejected: it is printed
    back, with the empty string as its join token. *)
Theorem stripRKE2Token_without_config raw ci out :
  yaml_Unmarshal_CloudInit raw = Ok ci ->
  Forall (fun f => ci_Path f <> rke2ConfigPath) (WriteFiles ci) ->
  yaml_Marshal_CloudInit ci = Ok out ->
  stripRKE2Token raw = Ok (out, "").
Proof.
  intros Hraw Hall Hout. unfold stripRKE2Token. rewrite Hraw.
  assert (forall files, Forall (fun f => ci_Path f <> rke2ConfigPath) files ->
    strip_files files = Ok (files, "")) as Hskip.
  { induction 1 as [|f files Hf _ IH]; simpl; [done|].
    by rewrite bool_decide_eq_true_2, IH by done. }
  rewrite Hskip by done. by destruct ci; simpl; rewrite Hout.
Qed.

(** What both printers produce: a header line and a document that parses back. *)
Definition prints (s : string) (doc : CloudInit) : Prop :=
  exists out, s = "#cloud-config" +:+ newline +:+ out /\ yaml_Unmarshal_CloudInit out = Ok doc.

Lemma mergeCloudInit_spec `{!YamlLaws _} input s :
  mergeCloudInit input = Ok s ->
  exists static bootstrap, parse_static (mi_StaticCloudInit input) = Ok static /\
    yaml_Unmarshal_CloudInit (mi_BootstrapCloudInit input) = Ok bootstrap /\
    prints s (merged_document input static bootstrap).
Proof.
  unfold mergeCloudInit. destruct (parse_static _) as [static|]; [|done].
  destruct (yaml_Unmarshal_CloudInit _) as [bootstrap|]; [|done].
  destruct (yaml_Marshal_CloudInit _) as [out|] eqn:Ho; [|done]. intros [= <-].
  exists static, bootstrap. split_and!; [done..|]. exists out.
  split; [done|]. by apply yaml_CloudInit_roundtrip.
Qed.

Lemma BuildRancherAgentUserData_spec `{!YamlLaws _} input s :
  BuildRancherAgentUserData input = Ok s ->
  exists static, parse_static (ra_StaticCloudInit input) = Ok static /\
    prints s (rancher_document input static).
Proof.
  unfold BuildRancherAgentUserData. destruct (parse_static _) as [static|]; [|done].
  destruct (yaml_Marshal_CloudInit _) as [out|] eqn:Ho; [|done]. intros [= <-].
  exists static. split; [done|]. exists out. split; [done|]. by apply yaml_CloudInit_roundtrip.
Qed.

(** C15. User data built for the RKE2 path parses back to this document: the two
    credential files and the fetch script, then the static files, then the bootstrap
    files with the token of the first RKE2 config taken out of it (if there is no
    such file they stay as they are, and the token is empty); the fetch script is
    the first command, then the static, then the bootstrap commands. The calls ask
    Vault whether the secret exists, write that token under the path of the
    cluster's secret only if it does not, and generate the node's credential last. *)
Theorem vault_user_data `{!YamlLaws _} r raw secret tr ud :
  execs (buildUserDataWithVault r raw secret) tr (Done (Ok ud)) ->
  let path := secret_field secret "vault_secret_path" in
  let generated := Evt (GenerateSecretID (secret_field secret "role_name")) (Ok (ud_secretID ud)) in
  exists ci static files' token,
    yaml_Unmarshal_CloudInit raw = Ok ci /\ parse_static (mr_BaseTemplate r) = Ok static /\
    sanitised (WriteFiles ci) files' token /\
    (tr = [Evt (SecretExists path) (Ok true); generated] \/
     tr = [Evt (SecretExists path) (Ok false);
           Evt (WriteSecret path {["token" := token]}) None; generated]) /\
    prints (ud_userData ud) (mkCloudInit
      ([file "/etc/vault/role-id" (secret_field secret "role_id" +:+ newline) "0600";
        file "/etc/vault/secret-id" (ud_secretID ud +:+ newline) "0600";
        file "/var/opt/scripts/vault-fetch-rke2-token.sh"
          (Sprintf rke2_script_format [secret_field secret "vault_addr"; path]) "0755"]
       ++ WriteFiles static ++ files')
      (AnyString "/var/opt/scripts/vault-fetch-rke2-token.sh" :: RunCmd static ++ RunCmd ci)
      (BootCmd static ++ BootCmd ci)).
Proof.
  cbv zeta. revert tr ud.
  enough (forall tr a, execs (buildUserDataWithVault r raw secret) tr (Done a) ->
    forall ud, a = Ok ud -> _) as Hall by (intros tr ud He; exact (Hall tr (Ok ud) He ud eq_refl)).
  by_wp_done. unfold buildUserDataWithVault.
  destruct (stripRKE2Token raw) as [[sanitisedCI token]|] eqn:Hstrip; [|done].
  apply stripRKE2Token_spec in Hstrip as (ci & files' & Hraw & Hout & Hs).
  wp_steps; try done; intros ud [= <-]; simpl.
  all: match goal with H : mergeCloudInit _ = Ok _ |- _ =>
         apply mergeCloudInit_spec in H as (static & bootstrap & Hst & Hb & Hp) end.
  all: simpl in Hst, Hb; rewrite Hout in Hb; injection Hb as <-.
  all: exists ci, static, files', token; split_and!; try done; auto.
Qed.

(** C32. User data built for the Rancher agent parses back to this document: the
    credential files and the registration script made for the secret path (the
    cluster's default one if none is configured), then the static files; the script
    is the first command, starting the agent the second, then the static commands.
    The only call is the generation of the credential. *)
Theorem rancher_user_data `{!YamlLaws _} r machine wm secret tr ud :
  execs (buildUserDataWithRancherAgent r machine wm secret) tr (Done (Ok ud)) ->
  exists static path,
    parse_static (mr_BaseTemplate r) = Ok static /\
    path = (if bool_decide (secret_field secret "rancher_vault_secret_path" = "")
            then "secret/data/haldus.k8s.riigipilv.ee/rancher/" +:+ m_ClusterName machine
            else secret_field secret "rancher_vault_secret_path") /\
    tr = [Evt (GenerateSecretID (secret_field secret "role_name")) (Ok (ud_secretID ud))] /\
    prints (ud_userData ud) (mkCloudInit
      ([file "/etc/vault/role-id" (secret_field secret "role_id" +:+ newline) "0600";
        file "/etc/vault/secret-id" (ud_secretID ud +:+ newline) "0600";
        file "/var/opt/scripts/vault-fetch-rancher-registration.sh"
          (Sprintf rancher_script_format
             [secret_field secret "vault_addr"; path; secret_field secret "rancher_url"]) "0755"]
       ++ WriteFiles static)
      (AnyString "/var/opt/scripts/vault-fetch-rancher-registration.sh"
       :: AnyString "systemctl enable --now rancher-system-agent" :: RunCmd static)
      (BootCmd static)).
Proof.
  revert tr ud.
  enough (forall tr a, execs (buildUserDataWithRancherAgent r machine wm secret) tr (Done a) ->
    forall ud, a = Ok ud -> _) as Hall by (intros tr ud He; exact (Hall tr (Ok ud) He ud eq_refl)).
  by_wp_done. unfold buildUserDataWithRancherAgent.
  wp_steps; try done; intros ud [= <-].
  match goal with H : BuildRancherAgentUserData _ = Ok _ |- _ =>
    apply BuildRancherAgentUserData_spec in H as (static & Hst & Hp) end.
  exists static, (rancher_secret_path machine secret). split_and!; try done.
  unfold rancher_secret_path. case_bool_decide; [|done]. simpl. by rewrite string_app_nil_r.
Qed.
End CloudInitFacts.

(** ** Runs *)

Module DemoDocument.
Definition cfg : gmap string any :=
  {["token" := AnyString "t"; "server" := AnyString "https://s"]}.
Definition config_file (m : gmap string any) : CloudInitFile :=
  file rke2ConfigPath (ConcreteYaml.print_map m) "0600".
Definition doc (m : gmap string any) : CloudInit :=
  mkCloudInit [config_file m] [AnyString "install"] [].
Definition raw : string := ConcreteYaml.print_doc (doc cfg).
Definition out : string := ConcreteYaml.print_doc (doc (delete "token" cfg)).

Lemma strip_raw : stripRKE2Token raw = Ok (out, "t").
Proof.
  unfold stripRKE2Token, raw. rewrite ConcreteYaml.read_doc. simpl WriteFiles.
  unfold strip_files, config_file, file, strip_file. cbn [ci_Path ci_Content].
  rewrite bool_decide_eq_false_2 by auto. rewrite ConcreteYaml.read_map. done.
Qed.
End DemoDocument.

Lemma stripRKE2Token_removes_token_witness :
  delete "token" DemoDocument.cfg !! "token" = None /\ "t" <> "".
Proof.
  destruct (stripRKE2Token_removes_token DemoDocument.raw DemoDocument.out "t"
              (DemoDocument.doc DemoDocument.cfg)
              (DemoDocument.config_file (delete "token" DemoDocument.cfg))
              (delete "token" DemoDocument.cfg)
              DemoDocument.strip_raw (ConcreteYaml.read_doc _) (le_n 1)
              (ex_intro _ _ (conj (ConcreteYaml.read_doc _) (list_elem_of_here _ _)))
              eq_refl (ConcreteYaml.read_map _)) as (? & ? & _). done.
Defined.

Lemma stripRKE2Token_without_config_witness :
  let ci := mkCloudInit [file "/etc/motd" "hi" "0644"] [] [] in
  stripRKE2Token (ConcreteYaml.print_doc ci) = Ok (ConcreteYaml.print_doc ci, "").
Proof.
  intros ci. apply (stripRKE2Token_without_config _ ci _ (ConcreteYaml.read_doc ci)).
  - by repeat constructor.
  - apply ConcreteYaml.write_doc.
Defined.

Lemma vault_user_data_witness :
  let p := buildUserDataWithVault vaulted DemoDocument.raw (vault_config ∅) in
  let env := healthy new_machine ready_cluster in
  exists ud ci static files' token, execs p (run_trace (answering env) tt p) (Done (Ok ud)) /\
    parse_static (mr_BaseTemplate vaulted) = Ok static /\
    sanitised (WriteFiles ci) files' token.
Proof.
  intros p env.
  destruct (answering_ok env p (fun _ => reflexivity _)) as [ud He]; [vm_compute; reflexivity|].
  destruct (vault_user_data vaulted _ _ _ ud He) as (ci & static & files' & token & _ & Hs & Hf & _).
  by exists ud, ci, static, files', token.
Defined.

Lemma rancher_user_data_witness :
  exists tr ud static,
    execs (buildUserDataWithRancherAgent vaulted machine new_machine (vault_config ∅)) tr
      (Done (Ok ud)) /\
    parse_static (mr_BaseTemplate vaulted) = Ok static.
Proof.
  destruct (answering_ok (healthy new_machine ready_cluster)
              (buildUserDataWithRancherAgent vaulted machine new_machine (vault_config ∅))
              (fun _ => reflexivity _)) as [ud He]; [vm_compute; reflexivity|].
  destruct (rancher_user_data _ _ _ _ _ ud He) as (static & path & Hs & _).
  by exists (run_trace (answering (healthy new_machine ready_cluster)) tt
    (buildUserDataWithRancherAgent vaulted machine new_machine (vault_config ∅))), ud, static.
Defined.
