(* ===== verification/ClusterTenants.v ===== *)
(** Tenants: the resource limits of a tenant order, and which orders a
    reconcile of the cluster submits. *)
From S2P Require Import Prelude Prog Types Calls Helpers ClusterController Concrete Scenario.
From Stdlib Require Import ZArith Lia.
From stdpp Require Import base gmap strings list.
Local Open Scope string_scope.
Local Open Scope list_scope.
Local Open Scope go_scope.

(** ** Resource limits *)

Section Limits.
Local Open Scope Z_scope.

(** What a group of [n] nodes needs, in exact integers: [n] times the flavor,
    and the disks, of which the system disk is 20 GB. *)
Record Need := mkNeed { n_cores : Z; n_ram : Z; n_storage : Z }.

Definition group_need (ng : NodeGroupSpec) (cores ram : Z) : Need :=
  mkNeed (ng_Count ng * cores) (ng_Count ng * ram)
    (ng_Count ng * (20 + default 0 (ng_DataDiskSize ng) + default 0 (ng_VsanDiskSize ng)) * 1024).

Definition add_need (a b : Need) : Need :=
  mkNeed (n_cores a + n_cores b) (n_ram a + n_ram b) (n_storage a + n_storage b).

(** Three control-plane nodes of 4 cores and 8 GB, a load balancer of 2 cores
    and 4 GB, and their four system disks. *)
Definition control_plane_need : Need := mkNeed 14 28672 81920.

Definition total_need (groups : list (NodeGroupSpec * (Z * Z))) : Need :=
  foldl (fun acc '(ng, (cores, ram)) => add_need acc (group_need ng cores ram))
    control_plane_need groups.

Definition wrap_need (n : Need) : Limits :=
  mkLimits (int_wrap (n_cores n)) (int_wrap (n_ram n)) (int_wrap (n_storage n)).

Lemma base_limits_need : base_limits = wrap_need control_plane_need.
Proof. reflexivity. Qed.

Lemma add_disk_wrap s n size :
  add_disk (int_wrap s) n size = int_wrap (s + n * default 0 size * 1024).
Proof.
  unfold add_disk, int_add, int_mul. destruct size as [gb|]; simpl.
  - autorewrite with go_simpl. done.
  - f_equal. lia.
Qed.

Lemma add_group_wrap acc ng cores ram :
  add_group (wrap_need acc) ng cores ram = wrap_need (add_need acc (group_need ng cores ram)).
Proof.
  unfold add_group, wrap_need, add_need, group_need, int_add at 1 2 3, int_mul at 1 2 3. simpl.
  autorewrite with go_simpl. rewrite !add_disk_wrap. f_equal.
  unfold systemDiskMB. f_equal. lia.
Qed.

(** Sizes below which the sums cannot overflow. *)
Record moderate (g : NodeGroupSpec * (Z * Z)) : Prop := {
  mod_count : 0 <= ng_Count g.1 <= 2 ^ 20;
  mod_cores : 0 <= g.2.1 <= 2 ^ 20;
  mod_ram : 0 <= g.2.2 <= 2 ^ 30;
  mod_data : 0 <= default 0 (ng_DataDiskSize g.1) <= 2 ^ 20;
  mod_vsan : 0 <= default 0 (ng_VsanDiskSize g.1) <= 2 ^ 20;
}.

Definition need_within (lo hi : Need) (n : Need) : Prop :=
  n_cores lo <= n_cores n <= n_cores hi /\ n_ram lo <= n_ram n <= n_ram hi /\
  n_storage lo <= n_storage n <= n_storage hi.

Lemma group_need_bound ng cores ram :
  moderate (ng, (cores, ram)) ->
  need_within (mkNeed 0 0 0) (mkNeed (2 ^ 40) (2 ^ 50) (2 ^ 52)) (group_need ng cores ram).
Proof.
  intros [Hc Hco Hra Hd Hv]. unfold need_within, group_need. simpl in *.
  set (d := default 0 (ng_DataDiskSize ng)) in *. set (v := default 0 (ng_VsanDiskSize ng)) in *.
  split_and!; try nia.
Qed.

Lemma total_need_bound groups :
  Forall moderate groups ->
  let n := Z.of_nat (length groups) in
  need_within control_plane_need
    (mkNeed (14 + n * 2 ^ 40) (28672 + n * 2 ^ 50) (81920 + n * 2 ^ 52)) (total_need groups).
Proof.
  unfold total_need. induction groups as [|[ng [cores ram]] groups IH] using rev_ind; intros Hall.
  { unfold need_within. simpl. lia. }
  rewrite foldl_app, length_app. simpl. apply Forall_app in Hall as [Hall [Hg _]%Forall_cons].
  specialize (IH Hall). apply group_need_bound in Hg.
  unfold need_within, add_need in *. simpl in *. lia.
Qed.

Lemma wrap_need_exact n :
  fits_int (n_cores n) -> fits_int (n_ram n) -> fits_int (n_storage n) ->
  wrap_need n = mkLimits (n_cores n) (n_ram n) (n_storage n).
Proof. intros. unfold wrap_need. by rewrite !int_wrap_id. Qed.
End Limits.

Section TenantOrders.
Context `{UuidLib} `{KubeLib}.

(** The flavor of a group: the first hit of a lookup in the trace. *)
Definition priced (offering : PublicOfferingDetails) (tr : list (event ctl))
    (ng : NodeGroupSpec) (price : Z * Z) : Prop :=
  exists resp flavor,
    Evt (OpenstackFlavorsList (po_Uuid offering) (ng_Flavor ng)) (Ok resp) ∈ tr /\
    JSON resp ≫= head = Some flavor /\
    f_Cores flavor = Some price.1 /\ f_Ram flavor = Some price.2.

Lemma priced_mono offering tr tr' ng price :
  (forall e, e ∈ tr -> e ∈ tr') -> priced offering tr ng price -> priced offering tr' ng price.
Proof. intros Hsub (resp & flavor & ? & ?). exists resp, flavor. auto. Qed.

Lemma limits_loop offering groups :
  wp (for_each_err (fun l ng =>
      let? flavor := getFlavor offering (ng_Flavor ng)
        else err => Ret (Err (Wrapf err "unable to get flavor %q" [FStr (ng_Flavor ng)])) in
      let* flavorCores := deref (f_Cores flavor) in
      let* flavorRam := deref (f_Ram flavor) in
      Ret (Ok (add_group l ng flavorCores flavorRam))) base_limits groups)
    (fun tr o => answers_ok o (fun l =>
       exists prices, Forall2 (priced offering tr) groups prices /\
         l = wrap_need (total_need (zip groups prices)))).
Proof.
  rewrite base_limits_need. unfold total_need. generalize control_plane_need.
  induction groups as [|ng groups IH]; intros acc; cbn [for_each_err].
  { by exists []. }
  rewrite bind_assoc. wp_call getFlavor_spec. intros trf [flavor|e] Hf; [|done].
  destruct Hf as (resp & -> & Hflavor). wp_steps; try done.
  cbv beta iota. rewrite add_group_wrap. eapply wp_mono; [apply IH|].
  intros tr [[l|e]|] Hl; try done. destruct Hl as (prices & Hp & ->).
  exists ((a, a0) :: prices). split; [|done]. constructor.
  - exists resp, flavor. split; [in_trace|done].
  - eapply Forall2_impl; [exact Hp|]. intros ng' price. apply priced_mono. set_solver.
Qed.

Lemma calculateLimits_spec offering dc :
  wp (calculateLimits offering dc) (fun tr o => answers_ok o (fun limits =>
    exists prices, Forall2 (priced offering tr) (dc_NodeGroups dc) prices /\
      limits = limits_map (wrap_need (total_need (zip (dc_NodeGroups dc) prices))))).
Proof.
  unfold calculateLimits. wp_call limits_loop.
  intros tr [l|e] Hl; [|done]. destruct Hl as (prices & Hp & ->).
  simpl. rewrite app_nil_r. eauto.
Qed.
(** C27. The limits of a tenant order are, modulo 2^64, the control plane's need plus,
    for each node group, its count times the first flavor listed under its name and
    its disks; for at most 1024 groups of moderate sizes nothing wraps, the limits
    are the exact sums, and no smaller than the control plane's need. *)
Theorem calculateLimits_total offering dc tr limits :
  execs (calculateLimits offering dc) tr (Done (Ok limits)) ->
  exists prices, Forall2 (priced offering tr) (dc_NodeGroups dc) prices /\
    let need := total_need (zip (dc_NodeGroups dc) prices) in
    limits !! "cores" = Some (int_wrap (n_cores need)) /\
    limits !! "ram" = Some (int_wrap (n_ram need)) /\
    limits !! "storage" = Some (int_wrap (n_storage need)) /\
    (length (dc_NodeGroups dc) <= 1024 ->
     Forall moderate (zip (dc_NodeGroups dc) prices) ->
     limits !! "cores" = Some (n_cores need) /\
     limits !! "ram" = Some (n_ram need) /\
     limits !! "storage" = Some (n_storage need) /\
     (14 <= n_cores need /\ 28672 <= n_ram need /\ 81920 <= n_storage need)%Z).
Proof.
  intros He. pose proof (wp_sound _ _ _ _ (calculateLimits_spec offering dc) He)
    as (prices & Hp & ->).
  exists prices. split; [done|]. cbv zeta. split_and!; [done..|].
  intros Hlen Hmod. pose proof (total_need_bound _ Hmod) as Hb.
  rewrite length_zip_with, <- (Forall2_length _ _ _ Hp) in Hb. cbv zeta in Hb.
  unfold need_within in Hb. simpl in Hb.
  assert (Z.of_nat (length (dc_NodeGroups dc) `min` length (dc_NodeGroups dc)) <= 1024)%Z by lia.
  set (need := total_need _) in *.
  rewrite wrap_need_exact by (unfold fits_int, int_min, int_max; lia).
  split_and!; try done; lia.
Qed.

(** ** Footprints *)

Lemma calculateLimits_reads offering dc : only (S := ctl) reads (calculateLimits offering dc).
Proof. unfold calculateLimits. ctl_only. Qed.
Lemma getCustomer_reads name : only (S := ctl) reads (getCustomer name).
Proof. unfold getCustomer. ctl_only. Qed.
Lemma getOpenStackTenant_reads u : only (S := ctl) reads (getOpenStackTenant u).
Proof. unfold getOpenStackTenant. ctl_only. Qed.
Lemma refreshTenant_reads t : only (S := ctl) reads (refreshTenant t).
Proof. unfold refreshTenant. ctl_only. apply getOpenStackTenant_reads. Qed.

#[local] Hint Resolve calculateLimits_reads getCustomer_reads getOpenStackTenant_reads
  refreshTenant_reads : go_footprint.

Lemma getOrCreateProject_only (P : Call -> Prop) `{!ReadsIn P} org name :
  (forall n c, P (ProjectsCreate n c)) -> only (S := ctl) P (getOrCreateProject org name).
Proof. intros HP. unfold getOrCreateProject. by ctl_only. Qed.

Lemma submitTenantCreationOrder_at_most offering project dc :
  at_most (S := ctl) is_order_create 1 (submitTenantCreationOrder offering project dc).
Proof.
  unfold submitTenantCreationOrder. repeat (apply at_most_bind_only; [by ctl_only|intros ?]).
  destruct a1; [done|]. apply at_most_bind_only; [by ctl_only|]. intros [limits|e]; [|done].
  repeat (apply at_most_bind_only; [by ctl_only|intros ?]).
  apply (at_most_bind (S := ctl) _ 1 0); [done|]. intros [resp|e]; [|done].
  by destruct (negb _).
Qed.

Lemma createTenant_at_most dc : at_most (S := ctl) is_order_create 1 (createTenant dc).
Proof.
  unfold createTenant. apply at_most_bind_only; [by ctl_only|]. intros [org|e]; [|done].
  apply at_most_bind_only; [apply getOrCreateProject_only; [apply _|done]|].
  intros [project|e]; [|done].
  apply at_most_bind_only; [by ctl_only|]. intros [offering|e]; [|done].
  apply (at_most_bind (S := ctl) _ 1 0); [apply submitTenantCreationOrder_at_most|].
  intros [[order|]|e]; [|done..]. apply only_at_most. ctl_only.
Qed.

(** ** Refreshing a tenant *)

(** What [refreshTenant] keeps of a tenant. *)
Record tenant_refreshed (t t' : OpenStackTenant) : Prop := {
  tf_project : t_ProjectSlug t' = t_ProjectSlug t;
  tf_order : order_refreshed (t_Order t) (t_Order t');
  tf_resource : t_MarketplaceResourceUuid t <> "" ->
                t_MarketplaceResourceUuid t' = t_MarketplaceResourceUuid t;
  tf_uuid : t_Uuid t' = None -> t_Uuid t = None;
}.

Lemma refreshTenant_spec t :
  wp (refreshTenant t) (fun _ o =>
    match o with Done (t', _) => tenant_refreshed t t' | Panicked => True end).
Proof.
  unfold refreshTenant. wp_call refresh_pending_order_spec.
  intros _ [order err] Ho. wp_step; [by wp_steps; split|].
  set (t1 := adopt_resource_uuid (set_t_Order t order)).
  assert (tenant_refreshed t t1) as Ht1.
  { subst t1. unfold adopt_resource_uuid. destruct order as [o|]; simpl; [|by split].
    case_bool_decide; by split. }
  wp_step; [by wp_steps|]. wp_call wp_true. intros _ [resource|e] _; [|by wp_steps].
  unfold getOpenStackTenant.
  clearbody t1. wp_steps; try done.
  all: destruct Ht1, (r_State _); try (split; simpl; by auto).
  all: unfold apply_tenant; destruct (at_State _), (at_Name _); split; simpl; by auto.
Qed.

(** ** The loop over the datacenters *)

Definition unordered (tenants : gmap string OpenStackTenant) (dc : DatacenterSpec) : bool :=
  bool_decide (tenants !! dc_OfferingSlug dc = None).

(** The tenants after the loop has handled [done], of those before it. *)
Record tenants_kept (before : gmap string OpenStackTenant) (done : list DatacenterSpec)
    (after : gmap string OpenStackTenant) : Prop := {
  tk_kept : forall slug t, before !! slug = Some t ->
    exists t', after !! slug = Some t' /\ tenant_refreshed t t';
  tk_new : forall slug t', after !! slug = Some t' -> before !! slug = None ->
    exists dc, dc ∈ done /\ dc_OfferingSlug dc = slug;
}.

Lemma tenant_refreshed_refl t : tenant_refreshed t t.
Proof. split; auto. apply order_refreshed_refl. Qed.

Lemma order_refreshed_trans o1 o2 o3 :
  order_refreshed o1 o2 -> order_refreshed o2 o3 -> order_refreshed o1 o3.
Proof.
  destruct o1 as [o1|], o2 as [o2|], o3 as [o3|]; simpl; try done.
  intros (? & ? & ? & Hr1 & Ht1) (? & ? & ? & Hr2 & Ht2).
  split_and!; try congruence; [by auto|].
  intros Hterm. pose proof (Ht1 Hterm) as ->. auto.
Qed.

Lemma tenant_refreshed_trans t1 t2 t3 :
  tenant_refreshed t1 t2 -> tenant_refreshed t2 t3 -> tenant_refreshed t1 t3.
Proof.
  intros [] []. split; try congruence; [by eapply order_refreshed_trans| |by auto].
  intros Hne. rewrite tf_resource1, tf_resource0 by (rewrite ?tf_resource0; done). done.
Qed.

Lemma tenants_kept_refl ts : tenants_kept ts [] ts.
Proof. split; [eauto using tenant_refreshed_refl|congruence]. Qed.

Lemma tenants_kept_insert before done_ tenants dc t' :
  (forall t, before !! dc_OfferingSlug dc = Some t -> tenant_refreshed t t') ->
  tenants_kept before done_ tenants ->
  tenants_kept before (done_ ++ [dc]) (<[dc_OfferingSlug dc := t']> tenants).
Proof.
  intros Hdc [Hkept Hnew]. split; intros slug t Hl.
  - destruct (decide (slug = dc_OfferingSlug dc)) as [->|Hne].
    + exists t'. rewrite lookup_insert_eq. auto.
    + rewrite lookup_insert_ne by done. auto.
  - intros Hb. destruct (decide (slug = dc_OfferingSlug dc)) as [->|Hne]; [exists dc; set_solver|].
    rewrite lookup_insert_ne in Hl by done. destruct (Hnew _ _ Hl Hb) as (dc0 & ? & ?).
    exists dc0. set_solver.
Qed.

Lemma tenants_kept_skip before done_ tenants dc :
  tenants_kept before done_ tenants -> tenants_kept before (done_ ++ [dc]) tenants.
Proof.
  intros [Hkept Hnew]. split; [done|]. intros slug t Hl Hb.
  destruct (Hnew _ _ Hl Hb) as (dc0 & ? & ?). exists dc0. set_solver.
Qed.

(** A first half that submits no order, before a postcondition on orders. *)
Ltac skip_calls φ Hpre Hnone :=
  rewrite ?bind_assoc; apply (wp_bind_skip φ _ _ _ Hpre);
  [by try unfold getCustomer; try unfold getOrCreateProject; try unfold getOffering;
      try unfold calculateLimits, getFlavor; ctl_only| |by intros ?; apply Hnone].
Ltac skip Hpre Hnone := skip_calls constr:(is_order_create) Hpre Hnone.

(** Every order is for the offering. *)
Definition orders_at (offering : PublicOfferingDetails) (tr : list (event ctl)) : Prop :=
  forall p a, Evt (MarketplaceOrdersCreate p) a ∈ tr -> po_Url offering = Some (oc_Offering p).

Lemma orders_at_none offering tr :
  Forall (fun e : event ctl => is_order_create (ev_call e) = false) tr -> orders_at offering tr.
Proof. intros Htr p a Hin. by pose proof (trace_without _ _ _ _ Htr Hin). Qed.

Lemma submitTenantCreationOrder_offering offering project dc :
  wp (submitTenantCreationOrder offering project dc) (fun tr _ => orders_at offering tr).
Proof.
  unfold submitTenantCreationOrder.
  set (Q := fun (tr : list (event ctl)) (o : outcome (result (option OrderDetails))) => orders_at offering tr).
  assert (forall tr o, Forall (fun e : event ctl => is_order_create (ev_call e) = false) tr -> Q tr o)
    as Hnone by (intros tr o; apply orders_at_none).
  assert (forall pre tr o, Forall (fun e : event ctl => is_order_create (ev_call e) = false) pre ->
    Q tr o -> Q (pre ++ tr) o) as Hpre.
  { intros pre tr o Htr HQ p a [Hin|Hin]%elem_of_app; [|by apply (HQ p a)].
    by pose proof (trace_without _ _ _ _ Htr Hin). }
  skip Hpre Hnone. intros slug. skip Hpre Hnone. intros name. skip Hpre Hnone.
  intros [encErr|]; [by apply orders_at_none|].
  skip Hpre Hnone. intros [limits|e]; [|by apply orders_at_none].
  skip Hpre Hnone. intros plans. skip Hpre Hnone. intros plan.
  wp_step; [|by apply orders_at_none]. skip Hpre Hnone. intros projectUrl.
  wp_steps; intros p r Hin; trace_case; by injection Hin as ->.
Qed.

(** The orders of a trace are for the first offering listed under the slug. *)
Definition orders_for (slug : string) (tr : list (event ctl)) : Prop :=
  forall p a, Evt (MarketplaceOrdersCreate p) a ∈ tr ->
    exists resp offering, Evt (MarketplacePublicOfferingsList slug) (Ok resp) ∈ tr /\
      JSON resp ≫= head = Some offering /\ po_Url offering = Some (oc_Offering p).

Lemma orders_for_none slug tr :
  Forall (fun e : event ctl => is_order_create (ev_call e) = false) tr -> orders_for slug tr.
Proof. intros Htr p a Hin. by pose proof (trace_without _ _ _ _ Htr Hin). Qed.

Lemma createTenant_offering dc : wp (createTenant dc) (fun tr _ => orders_for (dc_OfferingSlug dc) tr).
Proof.
  unfold createTenant. set (Q := fun (tr : list (event ctl)) (o : outcome (result (option OpenStackTenant))) => _).
  assert (forall tr o, Forall (fun e : event ctl => is_order_create (ev_call e) = false) tr -> Q tr o) as Hnone.
  { intros tr o. apply orders_for_none. }
  assert (forall pre tr o, Forall (fun e : event ctl => is_order_create (ev_call e) = false) pre ->
    Q tr o -> Q (pre ++ tr) o) as Hpre.
  { intros pre tr o Htr HQ p a [Hin|Hin]%elem_of_app; [by pose proof (trace_without _ _ _ _ Htr Hin)|].
    destruct (HQ p a Hin) as (resp & off & ? & ?). exists resp, off. split; [by apply elem_of_app; right|done]. }
  skip Hpre Hnone. intros [org|e]; [|by apply orders_for_none].
  apply (wp_bind_skip is_order_create _ _ _ Hpre);
    [by apply getOrCreateProject_only; [apply _|]| |by intros ?; apply Hnone].
  intros [project|e]; [|by apply orders_for_none].
  eapply wp_bind_mono; [apply (wp_and _ _ _ (only_wp (S := ctl) _ _ (getOffering_reads (dc_OfferingSlug dc)))
    (getOffering_spec (dc_OfferingSlug dc)))|..].
  2: { intros tr [Hr _]. apply orders_for_none. exact (reads_trace is_order_create _ Hr). }
  intros tr1 [offering|e] [Hr Hoff].
  2: { apply orders_for_none. rewrite app_nil_r. exact (reads_trace is_order_create _ Hr). }
  destruct Hoff as (resp & -> & Hhead).
  eapply wp_bind_mono; [apply submitTenantCreationOrder_offering|..].
  - intros tr2 res Ho. eapply wp_without with (φ := is_order_create); [ctl_only|].
    intros tr3 o Htr3 p a Hin. exists resp, offering. split; [by left|]. split; [done|].
    apply elem_of_app in Hin as [Hin|Hin]; [by trace_case|].
    apply elem_of_app in Hin as [Hin|Hin]; [by apply (Ho p a)|]. by pose proof (trace_without _ _ _ _ Htr3 Hin).
  - intros tr2 Ho p a Hin. exists resp, offering. split; [by left|]. split; [done|].
    apply elem_of_app in Hin as [Hin|Hin]; [by trace_case|]. by apply (Ho p a).
Qed.

(** The calls about one datacenter. *)
Definition datacenter_calls (before : gmap string OpenStackTenant) (dc : DatacenterSpec)
    (tr : list (event ctl)) : Prop :=
  count (S := ctl) is_order_create tr <= (if unordered before dc then 1 else 0) /\
  orders_for (dc_OfferingSlug dc) tr.

Lemma datacenter_calls_none before dc tr :
  Forall (fun e : event ctl => is_order_create (ev_call e) = false) tr -> datacenter_calls before dc tr.
Proof. intros Htr. split; [|by apply orders_for_none]. apply count_0 in Htr. rewrite Htr. lia. Qed.

(** One datacenter: an existing tenant is refreshed, a missing one costs at
    most one order, for its offering. *)
Lemma reconcile_datacenter_spec before done_ tenants dc :
  tenants_kept before done_ tenants ->
  wp (reconcile_datacenter tenants dc) (fun tr o =>
    datacenter_calls before dc tr /\
    match o with Done after => tenants_kept before (done_ ++ [dc]) after | Panicked => True end).
Proof.
  intros Hall. pose proof Hall as [Hkept Hnew]. unfold reconcile_datacenter.
  destruct (tenants !! dc_OfferingSlug dc) as [t|] eqn:Hslug.
  - wp_call (wp_and _ _ _ (only_wp (S := ctl) _ _ (refreshTenant_reads t)) (refreshTenant_spec t)).
    2: { intros tr [Hreads _]. split; [|done]. by apply datacenter_calls_none, (reads_trace is_order_create). }
    intros tr [t' err] [Hreads Ht]; wp_steps; rewrite app_nil_r.
    split; [by apply datacenter_calls_none, (reads_trace is_order_create)|].
    apply tenants_kept_insert; [|done]. intros t0 (t1 & H1 & Hr1)%Hkept.
    rewrite Hslug in H1. injection H1 as <-. eauto using tenant_refreshed_trans.
  - assert (before !! dc_OfferingSlug dc = None) as Hb.
    { destruct (before !! _) as [t|] eqn:E; [|done]. destruct (Hkept _ _ E) as (? & ? & _). congruence. }
    assert (unordered before dc = true) as Hun by (unfold unordered; by rewrite bool_decide_eq_true_2).
    wp_call (wp_and _ _ _ (at_most_wp (S := ctl) _ _ _ (createTenant_at_most dc)) (createTenant_offering dc)).
    2: { intros tr Hc. split; [|done]. unfold datacenter_calls. by rewrite Hun. }
    intros tr [[t|]|e] Hc; wp_steps; rewrite app_nil_r;
      (split; [unfold datacenter_calls; by rewrite Hun|]); try done.
    + apply tenants_kept_insert; [congruence|done].
    + by apply tenants_kept_skip.
Qed.

Lemma reconcile_datacenter_no_kube tenants dc :
  only (S := ctl) (fun c => kube_writes c = false) (reconcile_datacenter tenants dc).
Proof.
  unfold reconcile_datacenter, createTenant, submitTenantCreationOrder. ctl_only.
  by apply getOrCreateProject_only; [apply _|].
Qed.

(** The whole loop. *)
Lemma reconcile_datacenters_spec tenants dcs :
  wp (for_each reconcile_datacenter tenants dcs) (fun tr o =>
    per_element (datacenter_calls tenants) dcs tr /\
    match o with Done after => tenants_kept tenants dcs after | Panicked => True end).
Proof.
  apply (wp_for_each_per _ dcs _ (tenants_kept tenants)).
  - intros dc. by apply datacenter_calls_none.
  - intros done_ dc rest ts _. apply reconcile_datacenter_spec.
  - apply tenants_kept_refl.
Qed.

Lemma datacenter_orders tenants dcs tr :
  per_element (datacenter_calls tenants) dcs tr ->
  count (S := ctl) is_order_create tr <= length (List.filter (unordered tenants) dcs).
Proof. apply (per_element_count (S := ctl)). by intros dc tr' []. Qed.

Lemma reconcileControlPlaneEndpoint_only (P : Call -> Prop) `{!ReadsIn P} c :
  (forall c', P (KUpdateWaldurCluster c')) ->
  only (S := ctl) P (reconcileControlPlaneEndpoint c).
Proof. intros HP. unfold reconcileControlPlaneEndpoint. ctl_only; by apply reads_in. Qed.

(** The status is patched once, after the loop, with what the loop left. *)
Lemma publish_trace c b :
  wp (publish c b) (fun tr o => exists a rest,
    tr = Evt (KPatchWaldurClusterStatus (setReadyCondition c) b) a :: rest /\
    Forall (fun e : event ctl => is_order_create (ev_call e) = false) rest /\
    Forall (fun e : event ctl => is_cluster_status_patch (ev_call e) = false) rest).
Proof.
  unfold publish. wp_step. wp_step; [|wp_steps; eauto].
  wp_call (wp_and _ _ _
    (only_wp (S := ctl) _ _ (reconcileControlPlaneEndpoint_only
       (fun c => is_order_create c = false) a (fun _ => eq_refl)))
    (only_wp (S := ctl) _ _ (reconcileControlPlaneEndpoint_only
       (fun c => is_cluster_status_patch c = false) a (fun _ => eq_refl)))).
  - intros tr [c' err] [? ?]. wp_steps; rewrite app_nil_r; eauto.
  - intros tr [? ?]. eauto.
Qed.

(** The parts of a reconcile: the datacenters one by one, and what follows. *)
Lemma reconcileNormal_parts c :
  wp (reconcileNormal c) (fun tr o =>
    let before := cst_Tenants (wc_Status c) in
    let dcs := cs_Datacenters (wc_Spec c) in
    exists tr1 tr2, tr = tr1 ++ tr2 /\ per_element (datacenter_calls before) dcs tr1 /\
      Forall (fun e : event ctl => kube_writes (ev_call e) = false) tr1 /\
      (tr2 = [] \/
       exists tenants a rest,
         tr2 = Evt (KPatchWaldurClusterStatus (setReadyCondition (set_wc_Tenants c tenants)) c) a :: rest /\
         Forall (fun e : event ctl => is_order_create (ev_call e) = false) rest /\
         Forall (fun e : event ctl => is_cluster_status_patch (ev_call e) = false) rest /\
         tenants_kept before dcs tenants)).
Proof.
  cbv zeta. unfold reconcileNormal.
  eapply wp_bind_mono; [apply (wp_and _ _ _ (reconcile_datacenters_spec _ _)
    (only_wp (S := ctl) (fun c => kube_writes c = false) _
       (only_for_each (S := ctl) _ _ _ (fun w a _ => reconcile_datacenter_no_kube w a) _)))|..].
  - intros tr tenants [[Hper Hkept] Hkube]. eapply wp_mono; [apply publish_trace|].
    intros tr' o (a & rest & -> & Hno & Hst). exists tr. eexists. split_and!; [done..|]. right.
    exists tenants, a, rest. done.
  - intros tr [[Hper _] Hkube]. exists tr, []. rewrite app_nil_r. auto.
Qed.

Lemma reconcileNormal_trace c :
  wp (reconcileNormal c) (fun tr o =>
    let before := cst_Tenants (wc_Status c) in
    let dcs := cs_Datacenters (wc_Spec c) in
    count (S := ctl) is_order_create tr <= length (List.filter (unordered before) dcs) /\
    (Forall (fun e : event ctl => kube_writes (ev_call e) = false) tr \/
     exists tr1 tenants a rest,
       tr = tr1 ++ Evt (KPatchWaldurClusterStatus (setReadyCondition (set_wc_Tenants c tenants)) c) a
            :: rest /\
       Forall (fun e : event ctl => kube_writes (ev_call e) = false) tr1 /\
       Forall (fun e : event ctl => is_cluster_status_patch (ev_call e) = false) rest /\
       tenants_kept before dcs tenants)).
Proof.
  eapply wp_mono; [apply reconcileNormal_parts|]. cbv zeta.
  intros tr o (tr1 & tr2 & -> & Hper%datacenter_orders & Hkube & [->|(ts & a & rest & -> & Hno%count_0 & Hst & Hk)]).
  - rewrite app_nil_r. auto.
  - rewrite count_app, count_cons. cbn [is_order_create]. split; [lia|]. right. by exists tr1, ts, a, rest.
Qed.

(** The one status patch of a reconcile. *)
Lemma status_patch_content c tr o c' b a :
  execs (reconcileNormal c) tr o ->
  Evt (KPatchWaldurClusterStatus c' b) a ∈ tr ->
  exists tenants, c' = setReadyCondition (set_wc_Tenants c tenants) /\ b = c /\
    tenants_kept (cst_Tenants (wc_Status c)) (cs_Datacenters (wc_Spec c)) tenants.
Proof.
  intros He Hin. pose proof (wp_sound _ _ _ _ (reconcileNormal_trace c) He) as [_ Htr].
  destruct Htr as [Hno|(tr1 & tenants & a1 & rest & -> & Hno & Hrest & Hkept)].
  { by pose proof (trace_without _ _ _ _ Hno Hin). }
  exists tenants. apply elem_of_app in Hin as [Hin|[Hin|Hin]%elem_of_cons].
  - by pose proof (trace_without _ _ _ _ Hno Hin).
  - by apply Evt_inj in Hin as [= -> ->].
  - by pose proof (trace_without _ _ _ _ Hrest Hin).
Qed.

Lemma setReadyCondition_tenants c :
  cst_Tenants (wc_Status (setReadyCondition c)) = cst_Tenants (wc_Status c).
Proof. unfold setReadyCondition. by destruct (cluster_ready _ _). Qed.

(** *** A whole reconcile *)

Definition cluster_read (e : event ctl) : option (result WaldurCluster) :=
  match ev_call e as c return Call_resp c -> option (result WaldurCluster) with
  | KGetWaldurCluster _ => fun a => Some a
  | _ => fun _ => None
  end (ev_resp e).

(** A cluster that a reconcile provisions: not being deleted, with the finalizer and
    its owner. *)
Definition provisionable (c : WaldurCluster) : Prop :=
  Time_IsZero (om_DeletionTimestamp (wc_ObjectMeta c)) = true /\
  ContainsFinalizer (om_Finalizers (wc_ObjectMeta c)) finalizer = true /\
  has_owner "Cluster" (om_OwnerReferences (wc_ObjectMeta c)) = true.

Lemma reconcileDelete_no_order c : only (S := ctl) (fun c => is_order_create c = false) (reconcileDelete c).
Proof.
  unfold reconcileDelete, finishDelete, delete_project_of, deleteProject, delete_tenant. ctl_only.
  by apply submitTerminationOrder_only.
Qed.

(** A reconcile begins by reading the cluster; it orders and patches the status only as
    [reconcileNormal] of a cluster that it provisions, or as [reconcileDelete]. *)
Lemma Reconcile_reads req :
  wp (Reconcile req) (fun tr o => exists a rest, tr = Evt (KGetWaldurCluster req) a :: rest /\
    ((exists c, a = Ok c /\ provisionable c /\ execs (reconcileNormal c) rest o) \/
     Forall (fun e : event ctl => is_order_create (ev_call e) = false) rest /\
     (forall c, a = Ok c -> ~ provisionable c) /\
     ((exists c, a = Ok c /\ Time_IsZero (om_DeletionTimestamp (wc_ObjectMeta c)) = false) \/
      Forall (fun e : event ctl => is_cluster_status_patch (ev_call e) = false) rest))).
Proof.
  unfold Reconcile. apply wp_ask_bind. intros [c|e] _.
  2: { exists (Err e), []. split; [done|]. right. split_and!; [done|done|by right]. }
  cbv zeta. destruct (Time_IsZero _) eqn:Hts; cbn [negb].
  2: { eapply wp_mono; [apply (only_wp (S := ctl)), reconcileDelete_no_order|].
       intros tr o Htr. exists (Ok c), tr. split; [done|]. right. split; [done|].
       split; [|left; by exists c]. intros c0 [= <-] (? & _). congruence. }
  destruct (ContainsFinalizer _ _) eqn:Hfin; cbn [negb].
  2: { wp_steps; eexists _, [_]; (split; [done|]); right; (split; [by repeat constructor|]);
       (split; [intros c0 [= <-] (_ & ? & _); congruence|right; by repeat constructor]). }
  destruct (has_owner _ _) eqn:Hown; cbn [negb].
  2: { exists (Ok c), []. split; [done|]. right. split; [done|].
       split; [intros c0 [= <-] (_ & _ & ?); congruence|by right]. }
  eapply wp_mono; [apply (wp_complete _ (execs (reconcileNormal c))); auto|].
  intros tr o He. exists (Ok c), tr. split; [done|]. left. by exists c.
Qed.

Lemma cluster_read_inj req a a' (tr tr' : list (event ctl)) :
  Evt (KGetWaldurCluster req) a :: tr = Evt (KGetWaldurCluster req) a' :: tr' -> a = a' /\ tr = tr'.
Proof.
  intros Htr. split; [|exact (f_equal (@tail _) Htr)].
  apply (f_equal (fun l => head l ≫= cluster_read)) in Htr. cbn in Htr. by injection Htr.
Qed.

(** A reconcile of a cluster that is not being deleted. *)
Lemma cluster_Reconcile_not_deleting req c tr o :
  execs (Reconcile req) (Evt (KGetWaldurCluster req) (Ok c) :: tr) o ->
  Time_IsZero (om_DeletionTimestamp (wc_ObjectMeta c)) = true ->
  execs (reconcileNormal c) tr o \/
  Forall (fun e : event ctl => is_cluster_status_patch (ev_call e) = false) tr.
Proof.
  intros He Hts. destruct (wp_sound _ _ _ _ (Reconcile_reads req) He) as (a & rest & Htr & Hcase).
  apply cluster_read_inj in Htr as [<- <-].
  destruct Hcase as [(c0 & [= <-] & _ & ?)|(_ & _ & [(c0 & [= <-] & ?)|?])]; [by left|congruence|by right].
Qed.

Lemma cluster_Reconcile_patch_content req c tr o c' b a :
  execs (Reconcile req) (Evt (KGetWaldurCluster req) (Ok c) :: tr) o ->
  Time_IsZero (om_DeletionTimestamp (wc_ObjectMeta c)) = true ->
  Evt (KPatchWaldurClusterStatus c' b) a ∈ tr ->
  exists tenants, c' = setReadyCondition (set_wc_Tenants c tenants) /\ b = c /\
    tenants_kept (cst_Tenants (wc_Status c)) (cs_Datacenters (wc_Spec c)) tenants.
Proof.
  intros He Hts Hin. destruct (cluster_Reconcile_not_deleting _ _ _ _ He Hts) as [Hn|Hno].
  - exact (status_patch_content _ _ _ _ _ _ Hn Hin).
  - by pose proof (trace_without _ _ _ _ Hno Hin).
Qed.

(** C12. A reconcile of a cluster orders nothing unless the cluster it read is not being
    deleted, carries the finalizer and has its owner. If so, the calls after the
    read have one part per datacenter, in the order of the specification, with at
    most one order, for the first offering listed under the datacenter's slug, and
    with none if the status read had a tenant for the offering; no order follows.
    The status it patches keeps every tenant there was, with its project, its
    order's identity and its resource, and adds tenants only under the slugs of the
    cluster's datacenters. *)
Theorem cluster_reconcile_orders_missing_tenants req tr o :
  execs (Reconcile req) tr o ->
  (count (S := ctl) is_order_create tr = 0 /\
   forall c rest, tr = Evt (KGetWaldurCluster req) (Ok c) :: rest -> ~ provisionable c) \/
  exists c tr1 tr2,
    tr = Evt (KGetWaldurCluster req) (Ok c) :: tr1 ++ tr2 /\ provisionable c /\
    let before := cst_Tenants (wc_Status c) in
    let dcs := cs_Datacenters (wc_Spec c) in
    per_element (datacenter_calls before) dcs tr1 /\
    count (S := ctl) is_order_create tr2 = 0 /\
    forall c' b a, Evt (KPatchWaldurClusterStatus c' b) a ∈ tr1 ++ tr2 ->
      b = c /\ tenants_kept before dcs (cst_Tenants (wc_Status c')).
Proof.
  intros He. destruct (wp_sound _ _ _ _ (Reconcile_reads req) He) as (a & rest & -> & Hcase).
  destruct Hcase as [(c & -> & Hc & Hn)|(Hno%count_0 & Hnot & _)];
    [right|left; split; [by rewrite count_cons, Hno|intros c ? [-> _]%cluster_read_inj; auto]].
  pose proof (wp_sound _ _ _ _ (reconcileNormal_parts c) Hn) as (tr1 & tr2 & -> & Hper & _ & Htr2).
  exists c, tr1, tr2. split; [done|]. split; [done|]. cbv zeta. split; [exact Hper|]. split.
  - destruct Htr2 as [->|(ts & a & rest & -> & Hno%count_0 & _)]; [done|]. by rewrite count_cons, Hno.
  - intros c' b a Hin. destruct (status_patch_content _ _ _ _ _ _ Hn Hin) as (ts & -> & -> & Hk).
    split; [done|]. by rewrite setReadyCondition_tenants.
Qed.

(** The UUID of a tenant that exists already ([OpenstackInfrastructure.Uuid]) has
    no effect: whatever it is, [createTenant] makes the same calls. *)
Lemma createTenant_ignores_uuid dc uuid :
  createTenant (mkDatacenterSpec (dc_OfferingSlug dc) (dc_Name dc)
    (mkOpenstackInfrastructure (oi_Name (dc_OpenstackInfrastructure dc))
       (oi_CustomerName (dc_OpenstackInfrastructure dc)) uuid) (dc_NodeGroups dc))
  = createTenant dc.
Proof. reflexivity. Qed.

(** C39. If a tenant order is accepted with a body the client does not decode, the
    reconcile panics instead of reporting an error. *)
Theorem accepted_order_without_body_panics dc tenants tr p resp o :
  execs (reconcile_datacenter tenants dc) tr o ->
  Evt (MarketplaceOrdersCreate p) (Ok resp) ∈ tr ->
  StatusCode resp = 201%Z -> JSON resp = None ->
  o = Panicked.
Proof.
  intros He Hin Hs Hj. revert p resp Hin Hs Hj. revert tr o He. by_wp.
  unfold reconcile_datacenter. destruct (tenants !! _) as [t|].
  { eapply (wp_without is_order_create); [ctl_only|].
    intros tr o Htr p resp Hin. by pose proof (trace_without _ _ _ _ Htr Hin). }
  set (Q := fun (tr : list (event ctl)) (o : outcome (gmap string OpenStackTenant)) => _).
  assert (forall tr o, Forall (fun e : event ctl => is_order_create (ev_call e) = false) tr -> Q tr o)
    as Hnone.
  { intros tr o Htr p resp Hin. by pose proof (trace_without _ _ _ _ Htr Hin). }
  assert (forall pre tr o, Forall (fun e : event ctl => is_order_create (ev_call e) = false) pre ->
    Q tr o -> Q (pre ++ tr) o) as Hpre.
  { intros pre tr o Htr HQ p resp [Hin|Hin]%elem_of_app; [|by apply (HQ p resp)].
    by pose proof (trace_without _ _ _ _ Htr Hin). }
  unfold createTenant, submitTenantCreationOrder.
  skip Hpre Hnone. intros [org|e]; [|by apply Hnone].
  rewrite bind_assoc. apply (wp_bind_skip is_order_create _ _ _ Hpre);
    [by apply getOrCreateProject_only; [apply _|]| |by intros ?; apply Hnone].
  intros [project|e]; [|by apply Hnone].
  skip Hpre Hnone. intros [offering|e]; [|by apply Hnone].
  skip Hpre Hnone. intros slug. skip Hpre Hnone. intros name. skip Hpre Hnone.
  intros [encErr|]; [by apply Hnone|].
  skip Hpre Hnone. intros [limits|e]; [|by apply Hnone].
  skip Hpre Hnone. intros plans. skip Hpre Hnone. intros plan. skip Hpre Hnone. intros offeringUrl.
  skip Hpre Hnone. intros projectUrl.
  rewrite ?bind_assoc. wp_step. wp_step; [|wp_steps; intros p resp Hin; by apply order_at_head in Hin].
  destruct (JSON a) as [od|] eqn:Hjson.
  - eapply (wp_without is_order_create); [ctl_only|].
    intros tr o Htr p resp Hin _ Hj. apply order_at_head in Hin as [= ->]; [congruence|done].
  - wp_steps; try done; intros p resp Hin Hs _; try done.
    apply order_at_head in Hin as [= <-]; [|done]. by rewrite Hs in *.
Qed.
(** The calls that settle whether an order is recorded: the order, and the read of the
    tenant that follows it. *)
Definition order_or_tenant (c : Call) : bool :=
  match c with MarketplaceOrdersCreate _ | OpenstackTenantsRetrieve _ => true | _ => false end.

Definition tenant_answer (e : event ctl) : option (result (response ApiTenant)) :=
  match ev_call e as c return Call_resp c -> option (result (response ApiTenant)) with
  | OpenstackTenantsRetrieve _ => fun a => Some a
  | _ => fun _ => None
  end (ev_resp e).

(** C40. If the order for the tenant of a datacenter is accepted with the tenant's UUID
    in the answer, and the read of that tenant then fails, the datacenter is done
    without a panic and the tenants are what they were, with none for its offering:
    the accepted order is recorded nowhere. *)
Theorem accepted_tenant_order_lost dc tenants tr p resp tenantUuid err o :
  execs (reconcile_datacenter tenants dc) tr o ->
  Evt (MarketplaceOrdersCreate p) (Ok resp) ∈ tr ->
  StatusCode resp = 201%Z ->
  JSON resp ≫= od_ResourceUuid = Some tenantUuid ->
  Evt (OpenstackTenantsRetrieve tenantUuid) (Err err) ∈ tr ->
  o = Done tenants /\ unordered tenants dc = true.
Proof.
  intros He Hin Hs Hj Hget. revert p resp tenantUuid err Hin Hs Hj Hget. revert tr o He. by_wp.
  unfold reconcile_datacenter. destruct (tenants !! _) as [t|] eqn:Hslug.
  { eapply (wp_without is_order_create); [ctl_only|].
    intros tr o Htr p resp tu err Hin. by pose proof (trace_without _ _ _ _ Htr Hin). }
  assert (unordered tenants dc = true) as Hun by by apply bool_decide_eq_true_2.
  set (Q := fun (tr : list (event ctl)) (o : outcome (gmap string OpenStackTenant)) => _).
  assert (forall tr o, Forall (fun e : event ctl => order_or_tenant (ev_call e) = false) tr -> Q tr o)
    as Hnone.
  { intros tr o Htr p resp tu err Hin. by pose proof (trace_without _ _ _ _ Htr Hin). }
  assert (forall pre tr o, Forall (fun e : event ctl => order_or_tenant (ev_call e) = false) pre ->
    Q tr o -> Q (pre ++ tr) o) as Hpre.
  { intros pre tr o Htr HQ p resp tu err [Hin|Hin]%elem_of_app;
      [by pose proof (trace_without _ _ _ _ Htr Hin)|].
    intros Hs Hj [Hget|Hget]%elem_of_app; [by pose proof (trace_without _ _ _ _ Htr Hget)|].
    exact (HQ p resp tu err Hin Hs Hj Hget). }
  unfold createTenant, submitTenantCreationOrder.
  skip_calls order_or_tenant Hpre Hnone. intros [org|e]; [|by apply Hnone].
  skip_calls order_or_tenant Hpre Hnone. intros [project|e]; [|by apply Hnone].
  skip_calls order_or_tenant Hpre Hnone. intros [offering|e]; [|by apply Hnone].
  skip_calls order_or_tenant Hpre Hnone. intros slug. skip_calls order_or_tenant Hpre Hnone. intros name.
  skip_calls order_or_tenant Hpre Hnone. intros [encErr|]; [by apply Hnone|].
  skip_calls order_or_tenant Hpre Hnone. intros [limits|e]; [|by apply Hnone].
  skip_calls order_or_tenant Hpre Hnone. intros plans. skip_calls order_or_tenant Hpre Hnone. intros plan.
  skip_calls order_or_tenant Hpre Hnone. intros offeringUrl.
  skip_calls order_or_tenant Hpre Hnone. intros projectUrl.
  unfold getOpenStackTenant.
  wp_steps; intros ???? Hin Hs Hj Hget;
    trace_case_with tenant_answer; simplify_eq; try done; by split.
Qed.

End TenantOrders.

(** ** Runs *)

Example datacenter_need :
  total_need (zip (dc_NodeGroups (datacenter "dc-one")) [(4, 8192)%Z])
  = mkNeed 22 45056 225280.
Proof. reflexivity. Qed.

Lemma calculateLimits_total_witness :
  let p := calculateLimits offering (datacenter "dc-one") in
  let tr := run_trace (answering (healthy new_machine ready_cluster)) tt p in
  exists limits prices, execs p tr (Done (Ok limits)) /\
    Forall2 (priced offering tr) (dc_NodeGroups (datacenter "dc-one")) prices /\
    limits !! "cores"
    = Some (int_wrap (n_cores (total_need (zip (dc_NodeGroups (datacenter "dc-one")) prices)))).
Proof.
  intros p tr.
  destruct (answering_ok (healthy new_machine ready_cluster) p (fun _ => reflexivity _) eq_refl)
    as [limits He].
  destruct (calculateLimits_total offering (datacenter "dc-one") tr limits He)
    as (prices & Hp & Hc & _).
  by exists limits, prices.
Defined.

(** One of the two datacenters has no tenant yet: one order. *)
Lemma cluster_reconcile_orders_missing_tenants_witness :
  let c := waldur_cluster [datacenter "dc-one"; datacenter "dc-two"]
             {["dc-one" := ready_tenant_status]} None in
  let tr := run_trace (answering (healthy new_machine c)) tt (Reconcile req) in
  count (S := ctl) is_order_create tr = 1 /\
  exists tr1 tr2, tr = Evt (KGetWaldurCluster req) (Ok c) :: tr1 ++ tr2 /\
    per_element (datacenter_calls (cst_Tenants (wc_Status c))) (cs_Datacenters (wc_Spec c)) tr1.
Proof.
  intros c tr.
  assert (count (S := ctl) is_order_create tr = 1 /\ head tr ≫= cluster_read = Some (Ok c))
    as [Hcount Hhead] by (vm_compute; auto).
  split; [exact Hcount|].
  assert (exists o, execs (Reconcile req) tr o) as [o He].
  { eexists. exact (answering_execs (healthy new_machine c) (Reconcile req) (fun _ => reflexivity _)). }
  clearbody tr.
  destruct (cluster_reconcile_orders_missing_tenants req tr o He)
    as [[Hno _]|(c0 & tr1 & tr2 & Htr & _ & Hper & _)]; [congruence|].
  exists tr1, tr2. subst tr. cbn in Hhead. injection Hhead as ->. split; [done|exact Hper].
Defined.

(** A tenant that cannot be read back right after its order was accepted. *)
Definition unreadable_tenant (c : Call) : option (Call_resp c) :=
  match c with
  | MarketplaceOrdersCreate _ =>
      Some (http 201 (mkOrderDetails (Some order_uuid) (Some Create) (Some OrderStateDone)
                        (Some resource_uuid) (Some tenant_uuid) (Some "dc-one-org_one")))
  | OpenstackTenantsRetrieve _ => Some (Err (ErrLib false "timeout"))
  | _ => None
  end.

Lemma accepted_tenant_order_lost_witness :
  let env := but (healthy new_machine ready_cluster) unreadable_tenant in
  let p := reconcile_datacenter ∅ (datacenter "dc-one") in
  count (S := ctl) is_order_create (run_trace (answering env) tt p) = 1 /\
  run_outcome (answering env) tt p = Done ∅.
Proof.
  intros env p. split; [vm_compute; reflexivity|]. set (tr := run_trace (answering env) tt p).
  destruct (order_in_trace tr (fun resp => Z.eqb (StatusCode resp) 201) eq_refl)
    as (payload & resp & Hin & Hs).
  assert (forall e, e ∈ tr -> match order_answer e with
            | Some (Ok a) => JSON a ≫= od_ResourceUuid = Some tenant_uuid | _ => True end) as Hall.
  { apply Forall_forall. vm_compute. repeat constructor. }
  specialize (Hall _ Hin). simpl in Hall.
  assert (Evt (OpenstackTenantsRetrieve tenant_uuid) (Err (ErrLib false "timeout")) ∈ tr) as Hget
    by nth_call 6.
  exact (proj1 (accepted_tenant_order_lost (datacenter "dc-one") ∅ tr payload resp tenant_uuid _ _
           (answering_execs env p (fun _ => reflexivity _)) Hin
           (proj1 (Z.eqb_eq _ _) Hs) Hall Hget)).
Defined.

(** So the next reconcile orders the tenant again. *)
Theorem cluster_tenant_order_lost :
  let env := cluster_server (but (healthy new_machine ready_cluster) unreadable_tenant) in
  let '(tr1, _, w1) := run env (waldur_cluster [datacenter "dc-one"] ∅ None) (Reconcile req) in
  let '(tr2, _, w2) := run env w1 (Reconcile req) in
  count (S := ctl) is_order_create tr1 = 1 /\
  count (S := ctl) is_order_create tr2 = 1 /\
  cst_Tenants (wc_Status w2) = ∅.
Proof. vm_compute. auto. Qed.

(** Waldur answers 201 with a body the client does not decode. *)
Lemma accepted_order_without_body_panics_witness :
  let env := but (healthy new_machine ready_cluster) (fun call =>
    match call with MarketplaceOrdersCreate _ => Some (http_error 201 "") | _ => None end) in
  let p := reconcile_datacenter ∅ (datacenter "dc-one") in
  run_outcome (answering env) tt p = Panicked.
Proof.
  intros env p. set (tr := run_trace (answering env) tt p).
  assert (exists payload, Evt (MarketplaceOrdersCreate payload) (http_error 201 "") ∈ tr)
    as (payload & Hin).
  { destruct (order_in_trace tr (fun resp => Z.eqb (StatusCode resp) 201) eq_refl)
      as (payload & resp & Hin & _). exists payload.
    assert (forall e, e ∈ tr -> match order_answer e with
                                | Some a => a = http_error 201 "" | None => True end) as Hall.
    { apply Forall_forall. vm_compute. repeat constructor. }
    specialize (Hall _ Hin). simpl in Hall. by rewrite Hall in Hin. }
  exact (accepted_order_without_body_panics (datacenter "dc-one") ∅ tr payload _ _
           (answering_execs env p (fun _ => reflexivity _)) Hin eq_refl eq_refl).
Defined.
