(* ===== verification/ClusterStatus.v ===== *)
(** What the cluster controller tells the outside: the Ready condition, the
    control-plane endpoint, and which cluster a machine's event concerns. *)
From S2P Require Import Prelude Prog Types Calls Helpers ClusterController ClusterTenants.
From S2P Require Import Concrete Scenario.
From Stdlib Require Import ZArith Lia.
From stdpp Require Import base gmap strings list.
Local Open Scope string_scope.
Local Open Scope list_scope.
Local Open Scope go_scope.

(** ** Tests on all tenants *)

Lemma any_tenant_false (f : OpenStackTenant -> bool) (ts : gmap string OpenStackTenant) :
  existsb (fun '(_, t) => f t) (map_to_list ts) = false <->
  forall slug t, ts !! slug = Some t -> f t = false.
Proof.
  rewrite existsb_false. split.
  - intros Hf slug t Ht. apply (Hf (slug, t)). by apply elem_of_map_to_list.
  - intros Hf [slug t] Hin. apply elem_of_map_to_list in Hin. eauto.
Qed.

Lemma anyTenantErred_false ts :
  anyTenantErred ts = false <-> forall slug t, ts !! slug = Some t -> t_State t <> CoreStatesERRED.
Proof.
  unfold anyTenantErred. rewrite any_tenant_false.
  split; intros Hf slug t Ht; specialize (Hf slug t Ht); by apply bool_decide_eq_false in Hf || apply bool_decide_eq_false.
Qed.

Lemma anyTenantPending_false ts :
  anyTenantPending ts = false <->
  forall slug t, ts !! slug = Some t -> t_State t = CoreStatesOK \/ t_State t = CoreStatesERRED.
Proof.
  unfold anyTenantPending. rewrite any_tenant_false.
  split; intros Hf slug t Ht; specialize (Hf slug t Ht).
  - apply andb_false_iff in Hf as [Hf|Hf]; apply negb_false_iff, bool_decide_eq_true in Hf; auto.
  - destruct Hf as [Hf|Hf]; rewrite Hf; done.
Qed.

(** The condition says True exactly when there are as many tenants as
    datacenters and every tenant is OK. *)
Lemma cluster_ready_true ts n :
  (cluster_ready ts n).2 = true <->
  n <= size ts /\ forall slug t, ts !! slug = Some t -> t_State t = CoreStatesOK.
Proof.
  unfold cluster_ready. destruct (Nat.ltb _ _) eqn:Hn; [apply Nat.ltb_lt in Hn|apply Nat.ltb_ge in Hn].
  { split; [done|]. intros [? _]. lia. }
  destruct (anyTenantPending ts) eqn:Hp; simpl.
  { split; [done|]. intros [_ Hall].
    enough (anyTenantPending ts = false) by congruence.
    apply anyTenantPending_false. eauto. }
  destruct (anyTenantErred ts) eqn:He; simpl.
  { split; [done|]. intros [_ Hall].
    enough (anyTenantErred ts = false) by congruence.
    apply anyTenantErred_false. intros slug t Ht. by rewrite (Hall _ _ Ht). }
  split; [|done]. intros _. split; [done|]. intros slug t Ht.
  pose proof (proj1 (anyTenantErred_false _) He slug t Ht).
  by destruct (proj1 (anyTenantPending_false _) Hp slug t Ht).
Qed.

Lemma cluster_ready_type ts n : c_Type (cluster_ready ts n).1 = "Ready".
Proof. unfold cluster_ready. by repeat case_match. Qed.

Lemma cluster_ready_status ts n :
  c_Status (cluster_ready ts n).1 = if (cluster_ready ts n).2 then ConditionTrue else ConditionFalse.
Proof. unfold cluster_ready. by repeat case_match. Qed.

(** The reason is a failure when nothing is pending any more and some tenant
    is in error. *)
Lemma cluster_ready_failed ts n :
  c_Reason (cluster_ready ts n).1 = "ProvisioningFailed" <->
  n <= size ts /\
  (exists slug t, ts !! slug = Some t /\ t_State t = CoreStatesERRED) /\
  forall slug t, ts !! slug = Some t -> t_State t = CoreStatesOK \/ t_State t = CoreStatesERRED.
Proof.
  unfold cluster_ready. destruct (Nat.ltb _ _) eqn:Hn; [apply Nat.ltb_lt in Hn|apply Nat.ltb_ge in Hn].
  { split; [done|]. intros [? _]. lia. }
  destruct (anyTenantPending ts) eqn:Hp; simpl.
  { split; [done|]. intros (_ & _ & Hall). apply anyTenantPending_false in Hall. congruence. }
  pose proof (proj1 (anyTenantPending_false _) Hp) as Hall.
  destruct (anyTenantErred ts) eqn:He; simpl.
  - split; [intros _|done]. split_and!; [done| |done].
    apply existsb_true in He as ([slug t] & Hin & Ht). apply elem_of_map_to_list in Hin.
    exists slug, t. split; [done|]. by apply bool_decide_eq_true in Ht.
  - split; [done|]. intros (_ & (slug & t & Ht & Hst) & _).
    by pose proof (proj1 (anyTenantErred_false _) He slug t Ht).
Qed.

(** A set has no more elements than a list it comes from, and fewer if the list
    has duplicates. *)
Lemma size_list_to_set_le (l : list string) : size (list_to_set l : gset string) <= length l.
Proof.
  induction l as [|x l IH]; [done|]. simpl.
  pose proof (size_union_alt (C := gset string) {[x]} (list_to_set l)) as Hsize.
  rewrite size_singleton in Hsize. rewrite Hsize.
  pose proof (subseteq_size (list_to_set l ∖ {[x]} : gset string) (list_to_set l) ltac:(set_solver)).
  lia.
Qed.

Lemma size_list_to_set_lt (l : list string) :
  ~ NoDup l -> size (list_to_set l : gset string) < length l.
Proof.
  induction l as [|x l IH]; intros Hdup; simpl; [destruct Hdup; constructor|].
  destruct (decide (x ∈ l)) as [Hx|Hx].
  - pose proof (size_list_to_set_le l).
    replace ({[x]} ∪ list_to_set l : gset string) with (list_to_set l : gset string) by set_solver.
    lia.
  - assert (~ NoDup l) as Hl by (intros Hl; apply Hdup; by constructor).
    specialize (IH Hl). rewrite size_union by set_solver. rewrite size_singleton. lia.
Qed.

Section ClusterStatus.
Context `{UuidLib} `{KubeLib}.

(** C19. The status that a reconcile patches, of a cluster read as not being deleted,
    has a Ready condition that is True exactly when there are at least as many
    tenants as datacenters and every tenant is OK, with initialization.provisioned
    saying the same; the reason is ProvisioningFailed exactly when there are enough
    tenants, none of them is pending and one is in error. *)
Theorem cluster_ready_published `{!KubeLaws _} req c tr o c' b a :
  execs (Reconcile req) (Evt (KGetWaldurCluster req) (Ok c) :: tr) o ->
  Time_IsZero (om_DeletionTimestamp (wc_ObjectMeta c)) = true ->
  Evt (KPatchWaldurClusterStatus c' b) a ∈ tr ->
  let tenants := cst_Tenants (wc_Status c') in
  let datacenters := length (cs_Datacenters (wc_Spec c)) in
  exists condition (ready : bool),
    FindStatusCondition (cst_Conditions (wc_Status c')) "Ready" = Some condition /\
    c_Status condition = (if ready then ConditionTrue else ConditionFalse) /\
    cst_Initialization (wc_Status c') = Some (mkInitialization (Some ready)) /\
    (ready = true <->
       datacenters <= size tenants /\
       forall slug t, tenants !! slug = Some t -> t_State t = CoreStatesOK) /\
    (c_Reason condition = "ProvisioningFailed" <->
       datacenters <= size tenants /\
       (exists slug t, tenants !! slug = Some t /\ t_State t = CoreStatesERRED) /\
       forall slug t, tenants !! slug = Some t ->
         t_State t = CoreStatesOK \/ t_State t = CoreStatesERRED).
Proof.
  intros He Hts Hin. cbv zeta.
  destruct (cluster_Reconcile_patch_content _ _ _ _ _ _ _ He Hts Hin) as (ts & -> & -> & _).
  unfold setReadyCondition. simpl.
  pose proof (cluster_ready_true ts (length (cs_Datacenters (wc_Spec c)))) as Hready.
  pose proof (cluster_ready_status ts (length (cs_Datacenters (wc_Spec c)))) as Hstatus.
  pose proof (cluster_ready_type ts (length (cs_Datacenters (wc_Spec c)))) as Htype.
  pose proof (cluster_ready_failed ts (length (cs_Datacenters (wc_Spec c)))) as Hfailed.
  destruct (cluster_ready _ _) as [condition ready]. simpl in *.
  exists condition, ready. split_and!; try done. rewrite <- Htype. apply SetStatusCondition_eq.
Qed.

(** C34. If two datacenters name the same offering and every tenant of the status read
    belongs to a datacenter, the status that a reconcile of the cluster patches,
    unless it is being deleted, says that it is not provisioned, whatever the state
    of its tenants: tenants are kept per offering and counted against datacenters. *)
Theorem cluster_never_ready_with_duplicate_slugs req c tr o c' b a :
  execs (Reconcile req) (Evt (KGetWaldurCluster req) (Ok c) :: tr) o ->
  Time_IsZero (om_DeletionTimestamp (wc_ObjectMeta c)) = true ->
  Evt (KPatchWaldurClusterStatus c' b) a ∈ tr ->
  let slugs := dc_OfferingSlug <$> cs_Datacenters (wc_Spec c) in
  (forall slug, is_Some (cst_Tenants (wc_Status c) !! slug) -> slug ∈ slugs) ->
  ~ NoDup slugs ->
  cst_Initialization (wc_Status c') = Some (mkInitialization (Some false)).
Proof.
  intros He Hts Hin slugs Hold Hdup.
  destruct (cluster_Reconcile_patch_content _ _ _ _ _ _ _ He Hts Hin) as (ts & -> & -> & [_ Hnew]).
  assert (forall slug, slug ∈ dom ts -> slug ∈ slugs) as Hsub.
  { intros slug [t Ht]%elem_of_dom.
    destruct (cst_Tenants (wc_Status c) !! slug) as [t0|] eqn:E; [by apply Hold|].
    destruct (Hnew _ _ Ht E) as (dc & Hdc & <-). by apply list_elem_of_fmap_2. }
  assert (size ts < length (cs_Datacenters (wc_Spec c))) as Hlt.
  { rewrite <- size_dom. rewrite <- (length_fmap dc_OfferingSlug). fold slugs.
    assert (size (dom ts) <= size (list_to_set slugs : gset string)) as Hle
      by (apply subseteq_size; intros slug; rewrite elem_of_list_to_set; apply Hsub).
    eapply Nat.le_lt_trans; [exact Hle|]. by apply size_list_to_set_lt. }
  unfold setReadyCondition. simpl.
  pose proof (cluster_ready_true ts (length (cs_Datacenters (wc_Spec c)))) as Hr.
  destruct (cluster_ready _ _) as [condition []]; [|done]. simpl in Hr.
  destruct (proj1 Hr eq_refl). lia.
Qed.

(** ** The control-plane endpoint *)

(** C29. The control-plane endpoint is written only if it was empty, as the first
    internal IP, on port 6443, of the VM of the first machine listed for the cluster
    that is a control-plane node, is OK and has a marketplace resource. *)
Theorem endpoint_set_once_from_control_plane c tr o c' a :
  execs (reconcileControlPlaneEndpoint c) tr o ->
  Evt (KUpdateWaldurCluster c') a ∈ tr ->
  ep_Host (cs_ControlPlaneEndpoint (wc_Spec c)) = "" /\
  exists machines m u resource vm response instance ip ips,
    Evt (KListWaldurMachines (om_Namespace (wc_ObjectMeta c))
           {[ClusterNameLabel := om_Name (wc_ObjectMeta c)]}) (Ok machines) ∈ tr /\
    List.find is_running_control_plane machines = Some m /\
    uuid_Parse (mst_MarketplaceResourceUuid (wm_Status m)) = Ok u /\
    Evt (MarketplaceResourcesRetrieve u) (Ok resource) ∈ tr /\
    JSON resource ≫= r_ResourceUuid = Some vm /\
    Evt (OpenstackInstancesRetrieve vm ["InternalIps"]) (Ok response) ∈ tr /\
    JSON response = Some instance /\ os_InternalIps instance = Some (ip :: ips) /\
    c' = set_wc_ControlPlaneEndpoint c (mkAPIEndpoint ip 6443).
Proof.
  intros He Hin. revert c' a Hin. revert tr o He. by_wp.
  unfold reconcileControlPlaneEndpoint.
  destruct (bool_decide _) eqn:Hhost; cbn [negb]; [|wp_steps; intros ?? Hin; by trace_case].
  apply bool_decide_eq_true in Hhost.
  unfold getMarketplaceResource.
  wp_steps; intros ?? Hin; trace_case; simplify_eq.
  all: split; [done|]; do 9 eexists.
  all: split_and!; [in_trace|eassumption|eassumption|in_trace| |in_trace|eassumption|eassumption|done].
  all: match goal with H : JSON ?x = Some _ |- JSON ?x ≫= _ = _ => rewrite H end; eassumption.
Qed.

(** The machines that a list by namespace and labels selects ([client.InNamespace],
    [client.MatchingLabels]): each of the labels, with its value. *)
Definition selected (namespace : string) (labels : gmap string string) (wm : WaldurMachine) : Prop :=
  om_Namespace (wm_ObjectMeta wm) = namespace /\ labels ⊆ om_Labels (wm_ObjectMeta wm).

(** C33. The watch and the endpoint search agree: an event on a machine requests a
    reconcile of a cluster, one with a name, exactly if the machine is among those
    that the list call of the cluster's endpoint search selects, by namespace and
    labels. *)
Theorem machine_events_reach_cluster c tr o namespace labels a :
  execs (reconcileControlPlaneEndpoint c) tr o ->
  Evt (KListWaldurMachines namespace labels) a ∈ tr ->
  om_Name (wc_ObjectMeta c) <> "" ->
  forall wm,
    mkNamespacedName (om_Namespace (wc_ObjectMeta c)) (om_Name (wc_ObjectMeta c))
      ∈ waldurMachineToCluster (ObjWaldurMachine wm) <->
    selected namespace labels wm.
Proof.
  intros He Hin Hne wm.
  assert (namespace = om_Namespace (wc_ObjectMeta c) /\
          labels = {[ClusterNameLabel := om_Name (wc_ObjectMeta c)]}) as [-> ->].
  { revert namespace labels a Hin. revert tr o He. by_wp.
    unfold reconcileControlPlaneEndpoint, getMarketplaceResource.
    wp_steps; intros ??? Hin; by trace_case; simplify_eq. }
  unfold selected. rewrite map_singleton_subseteq_l. simpl.
  destruct (om_Labels _ !! _) as [name|]; simpl.
  - case_bool_decide as Hname; (split; [|intros [Hns [= Hn]]]); try congruence.
    + by intros ?%not_elem_of_nil.
    + by intros [= -> ->]%list_elem_of_singleton.
    + rewrite Hns, Hn. by left.
  - split; [by intros ?%not_elem_of_nil|]. by intros [_ ?].
Qed.
End ClusterStatus.

(** ** Runs *)

(** The patch is the fourth call of the reconcile: the read of the cluster, then what
    [reconcileNormal] does. *)
Lemma cluster_ready_published_witness :
  let tr := run_trace (answering (healthy new_machine ready_cluster)) tt (Reconcile req) in
  exists c' b a condition, Evt (KPatchWaldurClusterStatus c' b) a ∈ tail tr /\
    FindStatusCondition (cst_Conditions (wc_Status c')) "Ready" = Some condition.
Proof.
  intros tr.
  assert (exists c' b a, Evt (KPatchWaldurClusterStatus c' b) a ∈ tail tr) as (c' & b & a & Hin)
    by nth_call 2.
  assert (tr = Evt (KGetWaldurCluster req) (Ok ready_cluster) :: tail tr) as Htr by (vm_compute; reflexivity).
  pose proof (answering_execs (healthy new_machine ready_cluster) (Reconcile req)
                (fun _ => reflexivity _)) as He. fold tr in He. rewrite Htr in He.
  destruct (cluster_ready_published req ready_cluster _ _ c' b a He eq_refl Hin)
    as (condition & ready & Hc & _).
  exists c', b, a, condition. split; [exact Hin|].
  exact Hc.
Defined.

(** Two datacenters of one offering. *)
Lemma cluster_never_ready_with_duplicate_slugs_witness :
  let c := waldur_cluster [datacenter "dc-one"; datacenter "dc-one"]
             {["dc-one" := ready_tenant_status]} None in
  let tr := run_trace (answering (healthy new_machine c)) tt (Reconcile req) in
  exists c' b a, Evt (KPatchWaldurClusterStatus c' b) a ∈ tail tr /\
    cst_Initialization (wc_Status c') = Some (mkInitialization (Some false)).
Proof.
  intros c tr.
  assert (exists c' b a, Evt (KPatchWaldurClusterStatus c' b) a ∈ tail tr) as (c' & b & a & Hin)
    by nth_call 4.
  assert (tr = Evt (KGetWaldurCluster req) (Ok c) :: tail tr) as Htr by (vm_compute; reflexivity).
  pose proof (answering_execs (healthy new_machine c) (Reconcile req)
                (fun _ => reflexivity _)) as He. fold tr in He. rewrite Htr in He.
  exists c', b, a. split; [exact Hin|].
  apply (cluster_never_ready_with_duplicate_slugs req c _ _ c' b a He eq_refl Hin).
  - intros slug [t Ht]. simpl in Ht. apply lookup_singleton_Some in Ht as [<- _]. left.
  - simpl. intros Hdup. apply NoDup_cons in Hdup as [Hdup _]. apply Hdup. left.
Defined.

Lemma endpoint_set_once_from_control_plane_witness :
  let m := mkWaldurMachine (machine_meta None) machine_spec
             (ordered_status Create OrderStateDone CoreStatesOK (Some (text instance_uuid))) in
  let tr := run_trace (answering (healthy m ready_cluster)) tt
              (reconcileControlPlaneEndpoint ready_cluster) in
  exists c' a ip, Evt (KUpdateWaldurCluster c') a ∈ tr /\
    c' = set_wc_ControlPlaneEndpoint ready_cluster (mkAPIEndpoint ip 6443).
Proof.
  intros m tr.
  assert (exists c' a, Evt (KUpdateWaldurCluster c') a ∈ tr) as (c' & a & Hin) by nth_call 3.
  destruct (endpoint_set_once_from_control_plane ready_cluster tr _ c' a
              (answering_execs (healthy m ready_cluster) _ (fun _ => reflexivity _)) Hin)
    as (_ & ? & ? & ? & ? & ? & ? & ? & ip & ? & _ & _ & _ & _ & _ & _ & _ & _ & Hc).
  by exists c', a, ip.
Defined.

Lemma machine_events_reach_cluster_witness :
  let tr := run_trace (answering (healthy new_machine ready_cluster)) tt
              (reconcileControlPlaneEndpoint ready_cluster) in
  exists namespace labels a, Evt (KListWaldurMachines namespace labels) a ∈ tr /\
    selected namespace labels new_machine.
Proof.
  intros tr.
  assert (exists ns ls a, Evt (KListWaldurMachines ns ls) a ∈ tr) as (ns & ls & a & Hin)
    by nth_call 0.
  exists ns, ls, a. split; [exact Hin|].
  apply (machine_events_reach_cluster ready_cluster tr _ ns ls a
           (answering_execs (healthy new_machine ready_cluster) _ (fun _ => reflexivity _)) Hin ltac:(done)).
  left.
Defined.

(** A cluster whose datacenter was replaced is reported as provisioned although the
    new datacenter has no tenant, because the tenant of the old one is still
    counted. *)
Theorem cluster_ready_with_missing_tenant :
  let c := waldur_cluster [datacenter "dc-two"] {["dc-one" := ready_tenant_status]} None in
  let env := cluster_server (but (healthy new_machine c) (fun call =>
    match call with CustomersList _ _ => Some (http_error 403 "forbidden") | _ => None end)) in
  let '(_, _, c') := run env c (Reconcile req) in
  cst_Tenants (wc_Status c') !! "dc-two" = None /\
  cst_Initialization (wc_Status c') = Some (mkInitialization (Some true)).
Proof. vm_compute. auto. Qed.
