(* ===== verification/ClusterDeletion.v ===== *)
(** Deleting a cluster: every tenant is terminated before a project is destroyed
    or the finalizer goes, each at most once and for its own resource only. *)
From S2P Require Import Prelude Prog Types Calls Helpers ClusterController ClusterTenants.
From S2P Require Import Concrete Scenario.
From Stdlib Require Import ZArith Lia.
From stdpp Require Import base gmap strings list.
Local Open Scope string_scope.
Local Open Scope list_scope.
Local Open Scope go_scope.

#[export] Instance delete_action_eq_dec : EqDecision delete_action.
Proof. solve_decision. Defined.

(** A tenant with nothing left in Waldur: it never had a resource, or its
    termination order is done. *)
Definition terminated (t : OpenStackTenant) : Prop :=
  t_MarketplaceResourceUuid t = "" \/
  exists order, t_Order t = Some order /\ wo_Type order = Terminate /\
    wo_State order = OrderStateDone.

(** A tenant whose termination is under way. *)
Definition terminating (t : OpenStackTenant) : Prop :=
  exists order, t_Order t = Some order /\ wo_Type order = Terminate /\
    isOrderTerminal (wo_State order) = false.

Lemma delete_action_nothing t : delete_action_of t = NothingToDo <-> terminated t.
Proof.
  unfold delete_action_of, terminated, termination_order. case_bool_decide as Hr; [tauto|].
  destruct (t_Order t) as [o|].
  - case_bool_decide as Hty; [|split; [done|naive_solver]].
    destruct (isOrderTerminal (wo_State o)) eqn:Hterm; simpl.
    + case_bool_decide as Hst; [split; eauto|split; [done|naive_solver]].
    + split; [done|]. intros [?|(o' & [= <-] & _ & Hdone)]; [done|].
      rewrite Hdone in Hterm. done.
  - split; [done|]. naive_solver.
Qed.

Lemma delete_action_wait t : delete_action_of t = WaitForTermination -> terminating t.
Proof.
  unfold delete_action_of, terminating, termination_order. case_bool_decide; [done|].
  destruct (t_Order t) as [o|]; [|done]. case_bool_decide; [|done].
  destruct (isOrderTerminal (wo_State o)) eqn:Hterm; simpl; [by case_bool_decide|]. eauto.
Qed.

Lemma delete_action_submit t :
  delete_action_of t = SubmitTermination -> ~ terminated t /\ ~ terminating t.
Proof.
  intros Hs. split; [rewrite <- delete_action_nothing; congruence|].
  intros (o & Ho & Hty & Hterm). unfold delete_action_of, termination_order in Hs.
  rewrite Ho, bool_decide_eq_true_2 with (P := wo_Type o = Terminate), Hterm in Hs by done.
  by case_bool_decide.
Qed.

Section ClusterDeletion.
Context `{UuidLib} `{KubeLib}.

Definition needs_termination (ts : gmap string OpenStackTenant) (slug : string) : bool :=
  match ts !! slug with
  | Some t => bool_decide (delete_action_of t = SubmitTermination)
  | None => false
  end.

Definition settled (ts : gmap string OpenStackTenant) (slug : string) : Prop :=
  forall t, ts !! slug = Some t -> terminated t.

(** The calls of the first loop about one tenant: no write but at most one termination,
    due, of the tenant's own resource. *)
Record tenant_deletion (ts : gmap string OpenStackTenant) (slug : string)
    (tr : list (event ctl)) : Prop := {
  td_writes : Forall (fun e : event ctl => kube_writes (ev_call e) = false /\
                is_project_destroy (ev_call e) = false) tr;
  td_once : count (S := ctl) is_terminate tr <= (if needs_termination ts slug then 1 else 0);
  td_which : forall u a, Evt (MarketplaceResourcesTerminate u) a ∈ tr ->
    exists t, ts !! slug = Some t /\ ~ terminated t /\ ~ terminating t /\
      uuid_Parse (t_MarketplaceResourceUuid t) = Ok u;
}.

(** A termination that is due is submitted. *)
Definition termination_submitted (ts : gmap string OpenStackTenant) (slug : string)
    (tr : list (event ctl)) : Prop :=
  forall t u, ts !! slug = Some t -> delete_action_of t = SubmitTermination ->
    uuid_Parse (t_MarketplaceResourceUuid t) = Ok u ->
    exists a, Evt (MarketplaceResourcesTerminate u) a ∈ tr.

(** The state of the first loop after the keys [done]. *)
Record deletion_state (ts : gmap string OpenStackTenant)
    (done : list string) (st : gmap string OpenStackTenant * bool) : Prop := {
  ds_later : forall slug, slug ∉ done -> st.1 !! slug = ts !! slug;
  ds_done : if st.2 then st.1 = ts /\ Forall (settled ts) done
            else exists slug, slug ∈ done /\ ~ settled ts slug;
}.

Lemma tenant_deletion_reads ts slug tr :
  Forall (fun e : event ctl => reads (ev_call e)) tr -> tenant_deletion ts slug tr.
Proof.
  intros Hr. split.
  - eapply Forall_impl; [exact Hr|]. intros [c a]. by destruct c; intros (? & ? & ?).
  - pose proof (proj2 (count_0 (S := ctl) is_terminate tr) (reads_trace _ _ Hr)). lia.
  - intros u a Hin. by pose proof (trace_without is_terminate _ _ _ (reads_trace _ _ Hr) Hin).
Qed.

(** The state after one more key. *)
Lemma deletion_state_step ts done_ ts' allDone slug t t' :
  deletion_state ts done_ (ts', allDone) -> ts !! slug = Some t -> ~ terminated t ->
  deletion_state ts (done_ ++ [slug]) (<[slug := t']> ts', false).
Proof.
  intros [] Hslug Hterm. split; simpl.
  - intros slug' Hnot. rewrite lookup_insert_ne by set_solver. apply ds_later0. set_solver.
  - exists slug. split; [set_solver|]. intros Hs. by apply Hterm, Hs.
Qed.

Lemma deletion_state_skip ts done_ st slug :
  deletion_state ts done_ st -> settled ts slug -> deletion_state ts (done_ ++ [slug]) st.
Proof.
  intros [] Hs. split; [intros slug' ?; apply ds_later0; set_solver|].
  destruct st as [ts' []]; simpl in *.
  - destruct ds_done0. split; [done|]. apply Forall_app. split; [done|]. by apply Forall_singleton.
  - destruct ds_done0 as (slug' & ? & ?). exists slug'. set_solver.
Qed.

(** One key of the loop. *)
Lemma delete_tenant_spec ts done_ st slug :
  slug ∉ done_ -> deletion_state ts done_ st ->
  wp (delete_tenant st slug) (fun tr o => tenant_deletion ts slug tr /\
    match o with
    | Done st' => deletion_state ts (done_ ++ [slug]) st' /\ termination_submitted ts slug tr
    | Panicked => True
    end).
Proof.
  intros Hnot Hst. pose proof (ds_later _ _ _ Hst slug Hnot) as Hl.
  destruct st as [ts' allDone]. unfold delete_tenant. simpl in Hl. rewrite Hl.
  destruct (ts !! slug) as [t|] eqn:Hslug.
  2: { split; [by apply tenant_deletion_reads|]. split; [|intros t u; congruence].
       apply deletion_state_skip; [done|]. intros t. congruence. }
  destruct (delete_action_of t) eqn:Hact.
  - split; [by apply tenant_deletion_reads|]. split; [|intros t' u; congruence].
    apply deletion_state_skip; [done|].
    intros t0 Ht0. rewrite Hslug in Ht0. injection Ht0 as <-. by apply delete_action_nothing.
  - assert (~ terminated t) as Hnt by (rewrite <- delete_action_nothing; congruence).
    eapply wp_bind_mono; [apply (only_wp (S := ctl) _ _ (refreshTenant_reads t))|..];
      [|intros tr' Hr; split; [by apply tenant_deletion_reads|done]].
    intros tr' [t' err] Hr. wp_steps. rewrite app_nil_r. split; [by apply tenant_deletion_reads|].
    split; [by eapply deletion_state_step|intros t0 u; congruence].
  - pose proof (delete_action_submit t Hact) as [Hnt Hng].
    assert (needs_termination ts slug = true) as Hneeds.
    { unfold needs_termination. rewrite Hslug. by apply bool_decide_eq_true_2. }
    eapply wp_bind_mono; [apply submitTerminationOrder_trace|..]; [|by intros tr' [? _]].
    intros tr' res [_ Htr'].
    assert (tenant_deletion ts slug tr' /\ termination_submitted ts slug tr') as [Hcalls Hsub].
    { destruct (uuid_Parse _) as [u|] eqn:Hu; [destruct Htr' as [a ->]|subst tr'].
      - split; [split; [by repeat constructor|by rewrite Hneeds|]|].
        + intros u' a' Hin. apply list_elem_of_singleton, Evt_inj in Hin as [= ->]. eauto 10.
        + intros t0 u0 Ht0 _ Hu0. simplify_eq. rewrite Hu in Hu0. injection Hu0 as <-. exists a. by left.
      - split; [by apply tenant_deletion_reads|]. intros t0 u0 Ht0 _ Hu0. simplify_eq. congruence. }
    wp_steps; rewrite app_nil_r; (split; [done|]); (split; [by eapply deletion_state_step|done]).
Qed.

Lemma keys_nodup ts order : order ≡ₚ keys ts -> NoDup order.
Proof. intros ->. apply NoDup_fst_map_to_list. Qed.

Lemma keys_lookup ts slug t order : order ≡ₚ keys ts -> ts !! slug = Some t -> slug ∈ order.
Proof.
  intros -> Ht. apply list_elem_of_fmap. exists (slug, t).
  split; [done|]. by apply elem_of_map_to_list.
Qed.

(** The first loop, in whatever order the map is ranged over. *)
Lemma delete_tenants_spec ts order :
  order ≡ₚ keys ts ->
  wp (for_each delete_tenant (ts, true) order) (fun tr o =>
    per_element (tenant_deletion ts) order tr /\
    match o with
    | Done (_, allDone) => per_element (termination_submitted ts) order tr /\
        if allDone then (forall slug, settled ts slug) else exists slug, ~ settled ts slug
    | Panicked => True
    end).
Proof.
  intros Horder. pose proof (keys_nodup _ _ Horder) as Hnd.
  eapply wp_mono; [apply (wp_for_each_parts _ order (tenant_deletion ts) (termination_submitted ts)
    (deletion_state ts))|].
  - intros slug. by apply tenant_deletion_reads.
  - intros done_ slug rest st HL Hst. apply delete_tenant_spec; [|done].
    rewrite HL in Hnd. apply NoDup_app in Hnd as (_ & Hd & _). intros Hin. apply (Hd _ Hin). left.
  - by split; [|split].
  - intros tr o [Hper Ho]. split; [done|]. destruct o as [[ts' allDone]|]; [|done].
    destruct Ho as [[_ Hdone] Hsub]. split; [done|]. destruct allDone; [|naive_solver].
    destruct Hdone as [_ Hall]. intros slug t Ht. rewrite Forall_forall in Hall.
    eapply Hall; [|exact Ht]. by eapply keys_lookup.
Qed.

Lemma settled_needs_no_termination ts slug : settled ts slug -> needs_termination ts slug = false.
Proof.
  intros Hs. unfold needs_termination. destruct (ts !! slug) as [t|] eqn:Ht; [|done].
  apply bool_decide_eq_false. intros [Hact _]%delete_action_submit. by apply Hact, Hs.
Qed.

(** Nothing is terminated when every tenant is. *)
Lemma settled_no_termination ts order tr :
  (forall slug, settled ts slug) -> per_element (tenant_deletion ts) order tr ->
  count (S := ctl) is_terminate tr = 0.
Proof.
  intros Hs (parts & -> & Hp). induction Hp as [|slug tr l parts [_ Hle _] _ IH]; [done|].
  rewrite settled_needs_no_termination in Hle by done. simpl. rewrite count_app. lia.
Qed.

Lemma finishDelete_only (P : Call -> Prop) `{!ReadsIn P} c :
  (forall u, P (ProjectsDestroy u)) -> (forall c', P (KUpdateWaldurCluster c')) ->
  only (S := ctl) P (finishDelete c).
Proof.
  intros Hd Hu. unfold finishDelete, delete_project_of, deleteProject.
  ctl_only; by apply reads_in.
Qed.

(** What a cluster is written as when its finalizer goes. *)
Definition without_finalizer (c : WaldurCluster) : WaldurCluster :=
  set_wc_Finalizers c (RemoveFinalizer (om_Finalizers (wc_ObjectMeta c)) finalizer).

(** A deletion that is finished took the finalizer off, last of all. *)
Lemma finishDelete_outcome c :
  wp (finishDelete c) (fun tr o => answers_ok o (fun res => res = requeue 0 /\
    exists a, last tr = Some (Evt (KUpdateWaldurCluster (without_finalizer c)) (Ok a)))).
Proof.
  unfold finishDelete. apply wp_ask_bind. intros order _.
  wp_call wp_true. intros tr [[]|e] _; [|done].
  wp_steps; simpl; [|done]. split; [done|]. rewrite app_comm_cons, last_app. eauto.
Qed.

(** The phases of a deletion: the loop over the tenants, the status patch, the end. *)
Lemma reconcileDelete_phases c :
  wp (reconcileDelete c) (fun tr o =>
    let ts := cst_Tenants (wc_Status c) in
    exists order tr1 tr2, tr = Evt (Range (keys ts)) order :: tr1 ++ tr2 /\ order ≡ₚ keys ts /\
      per_element (tenant_deletion ts) order tr1 /\
      (o <> Panicked -> per_element (termination_submitted ts) order tr1) /\
      Forall (fun e : event ctl => is_terminate (ev_call e) = false) tr2 /\
      ((Forall (fun e : event ctl => is_project_destroy (ev_call e) = false /\
                                     is_cluster_update (ev_call e) = false) tr2 /\
        answers_ok o (fun res => res = requeue 15 /\ exists slug, ~ settled ts slug)) \/
       ((forall slug, settled ts slug) /\
        answers_ok o (fun res => res = requeue 0 /\
          exists c' patched a, Evt (KPatchWaldurClusterStatus c' c) (Ok patched) ∈ tr2 /\
            last tr2 = Some (Evt (KUpdateWaldurCluster (without_finalizer patched)) (Ok a)))))).
Proof.
  cbv zeta. unfold reconcileDelete. set (ts := cst_Tenants (wc_Status c)).
  apply wp_ask_bind. intros order Horder. simpl in Horder.
  eapply wp_bind_mono; [by apply delete_tenants_spec|..].
  2: { intros tr [Hper _]. exists order, tr, []. rewrite app_nil_r. split_and!; try done. by left. }
  intros tr [ts' allDone] (Hper & Hsub & Hdone).
  wp_step. wp_step.
  2: { wp_steps. eexists order, tr, [_]. split_and!; try done; [by repeat constructor|].
       left. split; [by repeat constructor|done]. }
  destruct allDone; cbn [negb].
  - apply wp_complete. intros tr2 o He. eexists order, tr, (_ :: tr2).
    split_and!; [done..| |].
    + constructor; [done|].
      exact (only_execs (S := ctl) _ _ _ _ (finishDelete_only (fun c => is_terminate c = false) a
        (fun _ => eq_refl) (fun _ => eq_refl)) He).
    + right. split; [done|].
      pose proof (wp_sound _ _ _ _ (finishDelete_outcome _) He) as Hout.
      destruct o as [[res|e]|]; [|done..]. destruct Hout as (-> & a' & Hlast).
      split; [done|]. eexists _, a, a'. split; [by left|]. by rewrite last_cons, Hlast.
  - wp_steps. eexists order, tr, [_]. split_and!; try done; [by repeat constructor|].
    left. split; [by repeat constructor|by split].
Qed.

Definition all_terminated (c : WaldurCluster) : Prop :=
  forall slug t, cst_Tenants (wc_Status c) !! slug = Some t -> terminated t.

(** C11. Deleting a cluster destroys a Waldur project, or takes the finalizer off, only
    if every tenant of the status is terminated (it has no marketplace resource, or
    its termination order is done), and never in a reconcile that submits a
    termination order; this holds in whatever order the tenants are visited. *)
Theorem cluster_cleaned_up_only_when_terminated c tr o (call : Call) (a : Call_resp call) :
  execs (reconcileDelete c) tr o -> Evt call a ∈ tr ->
  is_project_destroy call = true \/ is_cluster_update call = true ->
  all_terminated c /\ count (S := ctl) is_terminate tr = 0.
Proof.
  intros He Hin Hcall.
  pose proof (wp_sound _ _ _ _ (reconcileDelete_phases c) He)
    as (order & tr1 & tr2 & -> & _ & Hper & _ & Hn2%count_0 & Hcases).
  destruct Hcases as [[Hno _]|(Hall & _)].
  - exfalso. rewrite Forall_forall in Hno.
    apply elem_of_cons in Hin as [Hin|[Hin|Hin]%elem_of_app].
    + apply Evt_inj in Hin. subst call. by destruct Hcall.
    + destruct (per_element_in _ _ _ _ Hper Hin) as (slug & tr' & _ & [Hw _ _] & Hin').
      rewrite Forall_forall in Hw. apply Hw in Hin' as [Hk Hd]. simpl in *.
      destruct Hcall as [Hc|Hc]; [congruence|]. by destruct call.
    + apply Hno in Hin as [? ?]. simpl in *. destruct Hcall; congruence.
  - split; [exact Hall|]. rewrite count_cons, count_app, Hn2.
    by rewrite (settled_no_termination _ _ _ Hall Hper).
Qed.

(** C31. A deletion goes over the tenants of the status once, in some order; the calls
    about a tenant have at most one termination order, of that tenant's own
    resource, and only if it is neither terminated nor under termination; no other
    termination follows. Unless the deletion panics, every tenant that is neither,
    and whose resource has a well-formed UUID, gets its termination order. *)
Theorem cluster_deletion_terminates_once c tr o :
  execs (reconcileDelete c) tr o ->
  let ts := cst_Tenants (wc_Status c) in
  (exists order tr1 tr2,
     tr = Evt (Range (keys ts)) order :: tr1 ++ tr2 /\ order ≡ₚ keys ts /\
     per_element (tenant_deletion ts) order tr1 /\
     count (S := ctl) is_terminate tr2 = 0) /\
  (o <> Panicked -> forall slug t u,
     ts !! slug = Some t -> ~ terminated t -> ~ terminating t ->
     uuid_Parse (t_MarketplaceResourceUuid t) = Ok u ->
     exists a, Evt (MarketplaceResourcesTerminate u) a ∈ tr).
Proof.
  intros He ts.
  pose proof (wp_sound _ _ _ _ (reconcileDelete_phases c) He)
    as (order & tr1 & tr2 & -> & Horder & Hper & Hsub & Hn2%count_0 & _).
  split; [by exists order, tr1, tr2|]. intros Ho slug t u Ht Hnt Hng Hu.
  destruct (per_element_part _ _ _ slug (Hsub Ho)) as (tr' & Hdue & Hincl);
    [by eapply keys_lookup|].
  destruct (Hdue t u Ht) as [a Ha]; [|done|].
  - destruct (delete_action_of t) eqn:Hact; [by apply delete_action_nothing in Hact|
      by apply delete_action_wait in Hact|done].
  - exists a. right. apply elem_of_app. left. by apply Hincl.
Qed.

(** C30. A deletion that returns without error either was the last one, every tenant
    being terminated, and its last call updated the cluster that the status patch
    answered with the controller's finalizer taken off and every other finalizer
    kept, or comes back after fifteen seconds because some tenant is not terminated. *)
Theorem cluster_deletion_outcome `{!KubeLaws _} c tr res :
  execs (reconcileDelete c) tr (Done (Ok res)) ->
  (res = requeue 0 /\ all_terminated c /\
   exists c' patched a,
     Evt (KPatchWaldurClusterStatus c' c) (Ok patched) ∈ tr /\
     last tr = Some (Evt (KUpdateWaldurCluster (without_finalizer patched)) (Ok a)) /\
     forall f, f ∈ om_Finalizers (wc_ObjectMeta (without_finalizer patched)) <->
       f <> finalizer /\ f ∈ om_Finalizers (wc_ObjectMeta patched)) \/
  (res = requeue 15 /\ exists slug t, cst_Tenants (wc_Status c) !! slug = Some t /\ ~ terminated t).
Proof.
  intros He.
  pose proof (wp_sound _ _ _ _ (reconcileDelete_phases c) He)
    as (order & tr1 & tr2 & -> & _ & _ & _ & _ & Hcases).
  destruct Hcases as [[_ [-> [slug Hs]]]|(Hall & -> & c' & patched & a & Hpatch & Hlast)].
  - right. split; [done|]. exists slug. unfold settled in Hs.
    destruct (cst_Tenants _ !! slug) as [t|]; [|by destruct Hs].
    exists t. split; [done|]. intros Ht. apply Hs. by intros t' [= <-].
  - left. split_and!; [done|exact Hall|]. exists c', patched, a. split_and!.
    + right. apply elem_of_app. by right.
    + by rewrite app_comm_cons, last_app, Hlast.
    + intros f. apply RemoveFinalizer_spec.
Qed.
End ClusterDeletion.

(** ** Runs *)

Definition gone_tenant : OpenStackTenant :=
  set_t_Order ready_tenant_status (Some (order_of Terminate OrderStateDone)).

Lemma cluster_cleaned_up_only_when_terminated_witness :
  let c := waldur_cluster [datacenter "dc-one"] {["dc-one" := gone_tenant]} (Some 100%Z) in
  let tr := run_trace (answering (healthy new_machine c)) tt (reconcileDelete c) in
  exists u a, Evt (ProjectsDestroy u) a ∈ tr /\ all_terminated c /\
    count (S := ctl) is_terminate tr = 0.
Proof.
  intros c tr.
  assert (exists u a, Evt (ProjectsDestroy u) a ∈ tr) as (u & a & Hin) by nth_call 4.
  exists u, a. split; [exact Hin|].
  exact (cluster_cleaned_up_only_when_terminated c tr _ (ProjectsDestroy u) a
           (answering_execs (healthy new_machine c) _ (fun _ => reflexivity _)) Hin
           (or_introl eq_refl)).
Defined.

(** Two tenants, one of them terminated already: the other one's resource is
    terminated. *)
Lemma cluster_deletion_terminates_once_witness :
  let c := waldur_cluster [datacenter "dc-one"]
             {["dc-one" := ready_tenant_status; "dc-two" := gone_tenant]} (Some 100%Z) in
  let tr := run_trace (answering (healthy new_machine c)) tt (reconcileDelete c) in
  (exists order tr1 tr2,
     tr = Evt (Range (keys (cst_Tenants (wc_Status c)))) order :: tr1 ++ tr2 /\
     per_element (tenant_deletion (cst_Tenants (wc_Status c))) order tr1) /\
  exists a, Evt (MarketplaceResourcesTerminate tenant_resource_uuid) a ∈ tr.
Proof.
  intros c tr.
  assert (run_outcome (answering (healthy new_machine c)) tt (reconcileDelete c)
          = Done (Ok (requeue 15))) as Hres by (vm_compute; reflexivity).
  destruct (cluster_deletion_terminates_once c tr _
              (answering_done (healthy new_machine c) (reconcileDelete c) _
                 (fun _ => reflexivity _) Hres))
    as [(order & tr1 & tr2 & Htr & _ & Hper & _) Hsub].
  split; [exists order, tr1, tr2; split; [exact Htr|exact Hper]|].
  clearbody tr. apply (Hsub ltac:(done) "dc-one" ready_tenant_status).
  - reflexivity.
  - by intros [?|(order' & ? & _)].
  - by intros (order' & ? & _).
  - reflexivity.
Defined.

Lemma cluster_deletion_outcome_witness :
  let c := waldur_cluster [datacenter "dc-one"] {["dc-one" := gone_tenant]} (Some 100%Z) in
  let tr := run_trace (answering (healthy new_machine c)) tt (reconcileDelete c) in
  all_terminated c /\
  exists patched a, last tr = Some (Evt (KUpdateWaldurCluster (without_finalizer patched)) (Ok a)) /\
    finalizer ∉ om_Finalizers (wc_ObjectMeta (without_finalizer patched)).
Proof.
  intros c tr.
  destruct (cluster_deletion_outcome c tr (requeue 0)
              (answering_done (healthy new_machine c) (reconcileDelete c) (Ok (requeue 0))
                 (fun _ => reflexivity _) eq_refl))
    as [(_ & Hall & c' & patched & a & _ & Hlast & Hfs)|[[=] _]].
  split; [exact Hall|]. exists patched, a. split; [exact Hlast|].
  exact (fun Hin => proj1 (proj1 (Hfs finalizer) Hin) eq_refl).
Defined.
