(* ===== verification/ClusterTeardown.v ===== *)
(** The deletion of a cluster terminates: against an API server that takes every
    write and a Waldur that does what it is asked, three reconciles terminate every
    tenant, destroy the projects and release the object, from any well-formed status
    and in whatever order the tenants are visited. *)
From S2P Require Import Prelude Prog Types Calls Helpers Cooperation ClusterController.
From S2P Require Import ClusterTenants ClusterDeletion Concrete Scenario MachineLifecycle MachineTeardown.
From Stdlib Require Import ZArith Lia.
From stdpp Require Import base gmap strings list.
Local Open Scope string_scope.
Local Open Scope list_scope.
Local Open Scope go_scope.

(** ** The API server *)

(** The cluster the server keeps, or the last version of it. *)
Inductive cluster_world := Present (c : WaldurCluster) | Absent (c : WaldurCluster).

Definition cluster_finalizers (c : WaldurCluster) : list string := om_Finalizers (wc_ObjectMeta c).
Definition cluster_deleting (c : WaldurCluster) : bool :=
  negb (Time_IsZero (om_DeletionTimestamp (wc_ObjectMeta c))).

(** A cluster under deletion goes away with its last finalizer. *)
Definition cluster_settle (c : WaldurCluster) : cluster_world :=
  if cluster_deleting c && bool_decide (cluster_finalizers c = []) then Absent c else Present c.

(** The cluster after a write: the main resource and the status are written apart. *)
Definition cluster_stored (c : WaldurCluster) (call : Call) : option WaldurCluster :=
  match call with
  | KUpdateWaldurCluster obj =>
      Some (set_wc_Finalizers (mkWaldurCluster (wc_ObjectMeta c) (wc_Spec obj) (wc_Status c))
              (cluster_finalizers obj))
  | KPatchWaldurClusterStatus obj _ => Some (set_wc_Status c (wc_Status obj))
  | _ => None
  end.

Definition cluster_api (f : forall c : Call, Call_resp c) : environment ctl cluster_world :=
  fun call w =>
  match w with
  | Present c =>
      match cluster_stored c call with
      | Some c' =>
          (match call return Call_resp call with
           | KUpdateWaldurCluster _ | KPatchWaldurClusterStatus _ _ => Ok c'
           | call => f call
           end, cluster_settle c')
      | None =>
          (match call return Call_resp call with KGetWaldurCluster _ => Ok c | call => f call end, w)
      end
  | Absent _ =>
      (match call return Call_resp call with
       | KGetWaldurCluster _ | KUpdateWaldurCluster _ | KPatchWaldurClusterStatus _ _ =>
           Err (ErrLib true "not found")
       | call => f call
       end, w)
  end.

Lemma cluster_api_serves f : serves (cluster_api f) f.
Proof. intros call [c|c] Hc; by destruct call. Qed.

(** ** Cooperation *)

Record cluster_cooperative (f : forall c : Call, Call_resp c) : Prop := {
  cc_orders : honours f;
  cc_tenant : forall u, exists resp t, f (OpenstackTenantsRetrieve u) = Ok resp /\ JSON resp = Some t;
  cc_projects : forall slug, exists resp ps,
    f (ProjectsList None None (Some slug)) = Ok resp /\ JSON resp = Some ps /\
    (forall p, head ps = Some p -> is_Some (p_Uuid p));
  cc_destroy : forall u, exists resp, f (ProjectsDestroy u) = Ok resp /\
    (StatusCode resp = 200 \/ StatusCode resp = 204)%Z;
  cc_range : forall keys, f (Range keys) ≡ₚ keys;
}.

Section ClusterTeardown.
Context `{UuidLib} `{!UuidLaws _} `{KubeLib} `{!KubeLaws _}.
Variable req : NamespacedName.
Implicit Types f : forall c : Call, Call_resp c.

(** The UUIDs of a tenant are UUIDs. *)
Definition tenant_well_formed (t : OpenStackTenant) : Prop :=
  (t_MarketplaceResourceUuid t = "" \/ parses (t_MarketplaceResourceUuid t)) /\
  (forall o, t_Order t = Some o -> parses (wo_Uuid o)).

(** How many reconciles away from being terminated. *)
Definition tenant_phase (t : OpenStackTenant) : nat :=
  match delete_action_of t with
  | NothingToDo => 0
  | WaitForTermination => 1
  | SubmitTermination => 2
  end.

Definition tenants_within (n : nat) (ts : gmap string OpenStackTenant) : Prop :=
  forall slug t, ts !! slug = Some t -> tenant_well_formed t /\ tenant_phase t <= n.

Definition cluster_reconciled f (w : cluster_world) : cluster_world :=
  (run (cluster_api f) w (Reconcile req)).2.

(** *** One tenant *)

Lemma adopt_resource_uuid_id t : t_MarketplaceResourceUuid t <> "" -> adopt_resource_uuid t = t.
Proof.
  intros Hr. unfold adopt_resource_uuid. destruct (t_Order t); [|done].
  by rewrite bool_decide_eq_false_2 by done.
Qed.

(** A pending order is read again and is done; the rest of the answers leave the
    order and the resource alone. *)
Lemma refreshTenant_runs f w t o (Q : outcome (OpenStackTenant * option error) -> cluster_world -> Prop) :
  cluster_cooperative f -> parses (wo_Uuid o) -> t_MarketplaceResourceUuid t <> "" ->
  t_Order t = Some o -> isOrderTerminal (wo_State o) = false ->
  (forall t' e u, t_Order t' = Some (update_order o OrderStateDone u) ->
     t_MarketplaceResourceUuid t' = t_MarketplaceResourceUuid t -> Q (Done (t', e)) w) ->
  runs (cluster_api f) w (refreshTenant t) Q.
Proof.
  intros Hf Hu Hr Ho Hterm HQ. pose proof (cluster_api_serves f) as Hs.
  unfold refreshTenant. runs_step. rewrite Ho.
  apply (refresh_pending_runs _ _ Hs); [done..|]. intros u.
  destruct (hn_order _ (cc_orders _ Hf) u) as (resp & od & Hresp & Hod & Hst).
  exists resp, od, OrderStateDone. split_and!; [done..|]. cbv beta iota zeta.
  rewrite adopt_resource_uuid_id, bool_decide_eq_false_2 by done.
  apply runs_bind. apply (getMarketplaceResource_runs _ _ Hs); [apply Hf|intros e; runs_step; by eapply HQ|].
  intros res. runs_step. cbv beta.
  destruct (r_Scope res), (r_ResourceUuid res) as [tu|];
    try (destruct (r_State res); runs_step; by eapply HQ).
  unfold getOpenStackTenant. apply runs_bind, (runs_served _ _ Hs); [done|].
  destruct (cc_tenant _ Hf tu) as (tresp & at_ & -> & Hat). cbv iota. rewrite Hat. runs_step. runs_step.
  cbv beta. eapply HQ; unfold apply_tenant; destruct (at_State at_), (at_Name at_), (r_State res); reflexivity.
Qed.

(** After a visit: the tenant is well-formed and a step nearer to its end. *)
Definition visited (t t' : OpenStackTenant) : Prop :=
  tenant_well_formed t' /\ tenant_phase t' <= Nat.pred (tenant_phase t).

Lemma tenant_phase_done t o :
  t_Order t = Some o -> wo_Type o = Terminate -> wo_State o = OrderStateDone -> tenant_phase t = 0.
Proof.
  intros Ho Hty Hst. unfold tenant_phase. replace (delete_action_of t) with NothingToDo; [done|].
  symmetry. apply delete_action_nothing. right. by exists o.
Qed.

Lemma delete_tenant_runs f w ts d slug t :
  cluster_cooperative f -> ts !! slug = Some t -> tenant_well_formed t ->
  runs (cluster_api f) w (delete_tenant (ts, d) slug) (fun o w' => w' = w /\
    ((o = Done (ts, d) /\ tenant_phase t = 0) \/
     exists t', o = Done (<[slug := t']> ts, false) /\ visited t t' /\ tenant_phase t <> 0)).
Proof.
  intros Hf Ht [Hres Hord]. pose proof (cluster_api_serves f) as Hs.
  unfold delete_tenant, visited, tenant_phase. rewrite Ht. destruct (delete_action_of t) eqn:Hact.
  - runs_step. auto.
  - pose proof (delete_action_wait t Hact) as (o & Ho & Hty & Hterm).
    assert (t_MarketplaceResourceUuid t <> "") as Hr.
    { intros Hr. unfold delete_action_of in Hact. by rewrite bool_decide_eq_true_2 in Hact. }
    runs_step. apply (refreshTenant_runs f w t o); auto. intros t' e u Ho' Hr'. runs_step.
    split; [done|]. right. exists t'. split_and!; [done| |..|done].
    + split; [rewrite Hr'; auto|]. intros o0 Ho0. rewrite Ho' in Ho0. injection Ho0 as <-. by apply (Hord o).
    + fold (tenant_phase t'). rewrite (tenant_phase_done t' _ Ho'); done.
  - pose proof (delete_action_submit t Hact) as [Hnt _].
    destruct Hres as [Hr|Hres]; [by destruct Hnt; left|].
    runs_step. apply (submitTermination_runs _ _ Hs); [apply Hf|done|]. intros u. runs_step.
    split; [done|]. right. eexists. split_and!; [done| |..|done].
    + split; [by right|]. intros o [= <-]. exists u. apply uuid_Parse_String.
    + unfold delete_action_of, termination_order. simpl. case_bool_decide; simpl; lia.
Qed.

(** The map after the keys [done]. *)
Definition advanced (ts : gmap string OpenStackTenant) (done : list string)
    (ts' : gmap string OpenStackTenant) : Prop :=
  forall slug, option_Forall2
    (fun t t' => if decide (slug ∈ done) then visited t t' else t' = t) (ts !! slug) (ts' !! slug).

Lemma advanced_visit ts done ts' slug t t' :
  advanced ts done ts' -> ts !! slug = Some t -> visited t t' ->
  advanced ts (done ++ [slug]) (<[slug := t']> ts').
Proof.
  intros Ha Ht Hv slug'. specialize (Ha slug'). destruct (decide (slug' = slug)) as [->|Hne].
  - rewrite lookup_insert_eq, Ht. constructor. by rewrite decide_True by set_solver.
  - rewrite lookup_insert_ne by done. destruct Ha as [t0 t1 H01|]; constructor.
    destruct (decide (slug' ∈ done)); [by rewrite decide_True by set_solver|].
    by rewrite decide_False by set_solver.
Qed.

Lemma advanced_later ts done ts' slug t :
  advanced ts done ts' -> slug ∉ done -> ts !! slug = Some t -> ts' !! slug = Some t.
Proof.
  intros Ha Hnot Ht. specialize (Ha slug). rewrite Ht in Ha. inversion Ha as [t0 t1 H01 E0 E1|].
  by rewrite decide_False in H01 by done; subst.
Qed.

Lemma advanced_all ts ts' order n :
  advanced ts order ts' -> order ≡ₚ keys ts -> tenants_within n ts ->
  tenants_within (Nat.pred n) ts'.
Proof.
  intros Ha Horder Hts slug t' Ht'. specialize (Ha slug). rewrite Ht' in Ha.
  inversion Ha as [t0 t1 H01 E0 E1|]. subst. symmetry in E0.
  rewrite decide_True in H01 by (by eapply keys_lookup).
  destruct H01. destruct (Hts _ _ E0). split; [done|lia].
Qed.

(** The loop moves every tenant a step on, in whatever order it visits them. *)
Lemma delete_tenants_runs f w ts n order :
  cluster_cooperative f -> order ≡ₚ keys ts -> tenants_within n ts ->
  runs (cluster_api f) w (for_each delete_tenant (ts, true) order)
    (yields w (fun st => tenants_within (Nat.pred n) st.1 /\ (n = 0 -> st.2 = true))).
Proof.
  intros Hf Horder Hts. pose proof (keys_nodup _ _ Horder) as Hnd.
  eapply runs_mono; [apply (runs_for_each _ _ order
    (fun done_ st => advanced ts done_ st.1 /\ (n = 0 -> st.2 = true)))|].
  - intros done_ slug rest [ts' d] HL [Ha Hd]. simpl in *.
    assert (slug ∉ done_) as Hnot.
    { rewrite HL in Hnd. apply NoDup_app in Hnd as (_ & Hdis & _). intros Hin. apply (Hdis _ Hin). left. }
    assert (slug ∈ order) as Hin by (rewrite HL; set_solver).
    rewrite Horder in Hin. apply list_elem_of_fmap in Hin as ([slug' t] & -> & Ht%elem_of_map_to_list).
    simpl in *. destruct (Hts _ _ Ht) as [Hwf Hle]. pose proof (advanced_later _ _ _ _ _ Ha Hnot Ht) as Ht'.
    eapply runs_mono; [by apply (delete_tenant_runs f w ts' d slug' t)|].
    intros o w' [-> [[-> Hz]|(t' & -> & Hv & Hnz)]]; (split; [done|]); eexists; (split; [done|]); simpl.
    + split; [|done]. rewrite <- (insert_id ts' slug' t) by done. apply (advanced_visit _ _ _ _ t); [done..|].
      split; [done|lia].
    + split; [by apply (advanced_visit _ _ _ _ t)|lia].
  - split; [|done]. intros slug. simpl. by destruct (ts !! slug); constructor.
  - intros o w' (-> & st & -> & Ha & Hd). split; [done|]. exists st.
    split_and!; [done|by eapply advanced_all|done].
Qed.

(** *** The end *)

Lemma deleteProject_runs f w slug :
  cluster_cooperative f ->
  runs (cluster_api f) w (deleteProject slug) (yields w (fun err => err = None)).
Proof.
  intros Hf. pose proof (cluster_api_serves f) as Hs. unfold deleteProject.
  apply (runs_served _ _ Hs); [done|].
  destruct (cc_projects _ Hf slug) as (resp & ps & -> & Hps & Huuid). cbv iota. rewrite Hps. runs_step.
  cbv beta. destruct ps as [|p ps]; [by apply runs_yield|].
  destruct (Huuid p eq_refl) as [u ->]. apply (runs_served _ _ Hs); [done|].
  destruct (cc_destroy _ Hf u) as (dresp & -> & Hst). cbv iota.
  replace (negb _ && negb _) with false; [by apply runs_yield|]. by destruct Hst as [-> | ->].
Qed.

(** A cluster whose deletion waits for the controller alone. *)
Record cluster_waiting (c : WaldurCluster) : Prop := {
  cw_deleting : cluster_deleting c = true;
  cw_finalizers : cluster_finalizers c = [finalizer];
}.

Lemma finishDelete_runs f c :
  cluster_cooperative f -> cluster_waiting c ->
  runs (cluster_api f) (Present c) (finishDelete c) (fun _ w => exists c', w = Absent c').
Proof.
  intros Hf [Hd Hfin]. pose proof (cluster_api_serves f) as Hs. unfold finishDelete.
  apply (runs_served _ _ Hs); [done|].
  eapply runs_bind_yields; [apply (runs_for_each_ok (cluster_api f) _ (fun _ => True)); [|done]|].
  - intros [] slug _ _. unfold delete_project_of.
    destruct (_ ≫= _) as [ps|]; [|by apply runs_yield; exists tt].
    eapply runs_bind_yields; [by apply deleteProject_runs|]. intros err ->. by apply runs_yield; exists tt.
  - intros r (u & -> & _). cbv iota. runs_step. cbn [cluster_api cluster_stored fst snd].
    unfold cluster_settle.
    replace (cluster_finalizers _) with (RemoveFinalizer (cluster_finalizers c) finalizer) by done.
    rewrite Hfin, RemoveFinalizer_only. replace (cluster_deleting _) with true by (by rewrite <- Hd).
    runs_step. simpl. by eexists.
Qed.

(** *** Progress *)

(** A cluster [n] reconciles away from its end. *)
Definition cluster_remaining (n : nat) (w : cluster_world) : Prop :=
  match n with
  | 0 => exists c, w = Absent c
  | Datatypes.S n => exists c, w = Present c /\ cluster_waiting c /\
                       tenants_within n (cst_Tenants (wc_Status c))
  end.

Lemma cluster_progress f n w :
  cluster_cooperative f -> cluster_remaining n w ->
  exists k, k <= Nat.pred n /\ cluster_remaining k (cluster_reconciled f w).
Proof.
  intros Hf. destruct n as [|n]; [intros [c ->]; exists 0; split; [lia|by exists c]|].
  intros (c & -> & Hc & Hts). pose proof (cluster_api_serves f) as Hs.
  pose (Q := fun w => exists k, k <= n /\ cluster_remaining k w). change (Q (cluster_reconciled f (Present c))).
  change (runs (cluster_api f) (Present c) (Reconcile req) (fun _ => Q)).
  unfold Reconcile. runs_step. cbn [cluster_api cluster_stored fst snd]. cbv zeta iota.
  replace (negb _) with true by (by rewrite <- (cw_deleting _ Hc)).
  unfold reconcileDelete. apply (runs_served _ _ Hs); [done|].
  eapply runs_bind_yields; [apply (delete_tenants_runs f _ _ n _ Hf (cc_range _ Hf _) Hts)|].
  intros [ts' d] [Hts' Hd]. simpl in Hts', Hd. cbv iota.
  runs_step. cbn [cluster_api cluster_stored fst snd]. set (c' := set_wc_Status c _).
  assert (cluster_waiting c') as Hc' by (destruct Hc; by split).
  replace (cluster_settle c') with (Present c').
  2: { unfold cluster_settle. rewrite (cw_finalizers _ Hc'). by rewrite andb_false_r. }
  cbv iota. destruct d; cbn [negb].
  - eapply runs_mono; [by apply finishDelete_runs|]. intros _ w [c'' ->]. exists 0. split; [lia|by exists c''].
  - runs_step. destruct n as [|n]; [by specialize (Hd eq_refl)|].
    exists (Datatypes.S n). split; [done|]. by exists c'.
Qed.

(** Reconciles in a row, each with its own answers. *)
Definition cluster_reconciles (fs : list (forall c : Call, Call_resp c)) (w : cluster_world)
    : cluster_world :=
  fold_left (fun w f => cluster_reconciled f w) fs w.

Lemma cluster_deletion_progress fs n w :
  Forall cluster_cooperative fs -> cluster_remaining n w -> n <= length fs ->
  exists c, cluster_reconciles fs w = Absent c.
Proof.
  intros Hfs. revert n w. induction Hfs as [|f fs Hf _ IH]; intros n w Hn Hle; simpl in *.
  - destruct n; [done|lia].
  - destruct (cluster_progress f n w Hf Hn) as (k & Hk & Hrem). apply (IH k); [done|lia].
Qed.

(** C6. Deletion of a cluster completes. A deleted cluster that no other finalizer
    holds, and whose tenants have well-formed UUIDs, is gone after three reconciles
    in a row, whatever its status says of its tenants and their orders, in whatever
    order the tenants are visited, if the API server takes the writes and Waldur
    accepts terminations, answers reads, reports the orders it is asked for as done
    and destroys projects. *)
Theorem cluster_deletion_completes fs c :
  cluster_waiting c -> map_Forall (fun _ t => tenant_well_formed t) (cst_Tenants (wc_Status c)) ->
  Forall cluster_cooperative fs -> 3 <= length fs ->
  exists c', cluster_reconciles fs (Present c) = Absent c'.
Proof.
  intros Hc Hwf Hfs Hlen. apply (cluster_deletion_progress fs 3); [done| |done].
  exists c. split_and!; [done..|]. intros slug t Ht. split; [by apply (Hwf slug)|].
  unfold tenant_phase. destruct (delete_action_of t); lia.
Qed.
End ClusterTeardown.

(** A Waldur that does what it is asked, the tenants visited backwards. *)
Definition willing : forall c : Call, Call_resp c :=
  but obliging (fun c =>
    match c return option (Call_resp c) with
    | Range ks => Some (reverse ks)
    | _ => None
    end).

Lemma willing_cooperative : cluster_cooperative willing.
Proof.
  split; [split; apply obliging_honours|..].
  - intros u. by repeat eexists.
  - intros slug. exists (mkResponse 200 (Some [project]) ""), [project]. split_and!; [done..|]. intros p [= <-]. by eexists.
  - intros u. eexists. split; [done|]. by right.
  - intros ks. apply reverse_Permutation.
Qed.

(** Two tenants, one with no order and one whose termination is pending. *)
Lemma cluster_deletion_completes_witness :
  let c := waldur_cluster [datacenter "dc-one"; datacenter "dc-two"]
             (<["dc-one" := ready_tenant_status]>
              {["dc-two" := set_t_Order ready_tenant_status
                              (Some (order_of Terminate OrderStatePendingProvider))]})
             (Some 100%Z) in
  exists c', cluster_reconciles req (repeat willing 3) (Present c) = Absent c'.
Proof.
  intros c. apply (cluster_deletion_completes req).
  - by split.
  - simpl. apply map_Forall_insert_2; [|apply map_Forall_singleton];
      (split; [right; eexists; vm_compute; reflexivity|]); [done|].
    intros o [= <-]. eexists. vm_compute. reflexivity.
  - simpl. auto using Forall_cons_2, willing_cooperative.
  - simpl. lia.
Defined.
