(* ===== verification/ClusterProvisioning.v ===== *)
(** The provisioning of a cluster terminates: with a Waldur that knows the names in
    the specification and takes orders, two reconciles order a tenant for every
    datacenter, once each, and the first one after Waldur reports the tenants as OK
    publishes the cluster as ready.

    The reconciles are run against the API server of ClusterTeardown.v. *)
From S2P Require Import Prelude Prog Types Calls Helpers Cooperation ClusterController.
From S2P Require Import ClusterTenants ClusterStatus ClusterTeardown Concrete Scenario.
From Stdlib Require Import ZArith Lia.
From stdpp Require Import base gmap strings list.
Local Open Scope string_scope.
Local Open Scope list_scope.
Local Open Scope go_scope.

(** ** A Waldur that provisions *)

Definition usable_customer (org : Customer) : Prop :=
  is_Some (cu_Slug org) /\ is_Some (cu_Uuid org) /\ is_Some (cu_Url org).
Definition usable_project (p : Project) : Prop :=
  is_Some (p_Name p) /\ is_Some (p_Url p) /\ is_Some (p_Slug p).
Definition usable_offering (o : PublicOfferingDetails) : Prop :=
  is_Some (po_Slug o) /\ is_Some (po_Url o) /\ exists plans, po_Plans o = Some plans /\ is_Some (head plans).
Definition usable_flavor (f : OpenStackFlavor) : Prop := is_Some (f_Cores f) /\ is_Some (f_Ram f).
Definition usable_order (od : OrderDetails) : Prop :=
  is_Some (od_Uuid od) /\ is_Some (od_Type od) /\ is_Some (od_State od) /\
  is_Some (od_MarketplaceResourceUuid od) /\ is_Some (od_ResourceName od).

(** The names of the specification are known, orders are taken, and what exists can
    be read. *)
Record provisions (dcs : list DatacenterSpec) (f : forall c : Call, Call_resp c) : Prop := {
  pv_customer : forall dc fields, dc ∈ dcs -> exists resp orgs,
    f (CustomersList (oi_CustomerName (dc_OpenstackInfrastructure dc)) fields) = Ok resp /\
    StatusCode resp = 200%Z /\ JSON resp = Some orgs /\ found usable_customer orgs;
  pv_projects : forall name customers,
    answered (f (ProjectsList (Some name) customers None)) (Forall usable_project);
  pv_project : forall name url, answered (f (ProjectsCreate name url)) usable_project;
  pv_offering : forall dc, dc ∈ dcs ->
    answered (f (MarketplacePublicOfferingsList (dc_OfferingSlug dc))) (found usable_offering);
  pv_flavor : forall dc ng u, dc ∈ dcs -> ng ∈ dc_NodeGroups dc ->
    answered (f (OpenstackFlavorsList u (ng_Flavor ng))) (found usable_flavor);
  pv_encode : forall attrs, f (EncodeAttributes attrs) = None;
  pv_order : forall payload, exists resp od,
    f (MarketplaceOrdersCreate payload) = Ok resp /\ StatusCode resp = 201%Z /\
    JSON resp = Some od /\ usable_order od;
  pv_order_read : forall u, answered (f (MarketplaceOrdersRetrieve u)) (fun od => is_Some (od_State od));
  pv_resource : forall u, answered (f (MarketplaceResourcesRetrieve u)) (fun _ => True);
  pv_tenant : forall u, answered (f (OpenstackTenantsRetrieve u)) (fun t => is_Some (at_State t));
  pv_range : forall ks, f (Range ks) ≡ₚ ks;
}.

(** The tenants are up. *)
Record tenants_up (f : forall c : Call, Call_resp c) : Prop := {
  up_resource : forall u, answered (f (MarketplaceResourcesRetrieve u)) (fun res =>
    r_State res = Some ResourceStateOK /\ is_Some (r_Scope res) /\ is_Some (r_ResourceUuid res));
  up_tenant : forall u, answered (f (OpenstackTenantsRetrieve u)) (fun t =>
    at_State t = Some CoreStatesOK);
}.

Section ClusterProvisioning.
Context `{UuidLib} `{!UuidLaws _} `{KubeLib} `{!KubeLaws _}.
Variable req : NamespacedName.
Implicit Types f : forall c : Call, Call_resp c.

(** A tenant that has been ordered and can be asked for. *)
Definition tracked (t : OpenStackTenant) : Prop :=
  t_MarketplaceResourceUuid t <> "" /\ parses (t_MarketplaceResourceUuid t) /\
  is_Some (t_ProjectSlug t) /\ (forall o, t_Order t = Some o -> parses (wo_Uuid o)).

(** A tenant in which VMs can be ordered. *)
Definition up (t : OpenStackTenant) : Prop :=
  t_State t = CoreStatesOK /\ t_MarketplaceResourceState t = ResourceStateOK /\
  exists u, t_Uuid t = Some (uuid_String u).

Lemma tracked_same t t' :
  tracked t -> t_MarketplaceResourceUuid t' = t_MarketplaceResourceUuid t ->
  t_ProjectSlug t' = t_ProjectSlug t -> t_Order t' = t_Order t -> tracked t'.
Proof. unfold tracked. by intros ? -> -> ->. Qed.

(** *** Ordering a tenant *)

Section Steps.
Variables (dcs : list DatacenterSpec) (f : forall c : Call, Call_resp c) (w : cluster_world).
Hypothesis Hf : provisions dcs f.
Let Hs : serves (cluster_api f) f := cluster_api_serves f.

Ltac answer Hc := served_by Hs Hc.

Lemma getCustomer_runs dc :
  dc ∈ dcs -> runs (cluster_api f) w (getCustomer (oi_CustomerName (dc_OpenstackInfrastructure dc)))
                (yields w (gives usable_customer)).
Proof.
  intros Hdc. unfold getCustomer. apply (runs_served _ _ Hs); [done|].
  destruct (pv_customer _ _ Hf dc ["Url"; "Slug"; "Uuid"] Hdc) as (resp & orgs & -> & -> & -> & org & l & -> & Ho).
  change (negb (200 =? 200)%Z) with false. runs_step. cbv beta iota. apply runs_yield. by exists org.
Qed.

Lemma getOrCreateProject_runs org name :
  usable_customer org ->
  runs (cluster_api f) w (getOrCreateProject org name) (yields w (gives usable_project)).
Proof.
  intros (Hslug & Huuid & Hurl). unfold getOrCreateProject. is_set Hslug. is_set Huuid.
  answer (pv_projects _ _ Hf (Sprintf "%s_%s" [v; name]) (Some [v0])).
  destruct Ha as [|p ps Hp _]; [|apply runs_yield; by exists p].
  is_set Hurl. answer (pv_project _ _ Hf (Sprintf "%s_%s" [v; name]) v1).
  apply runs_yield. by exists a.
Qed.

Lemma getOffering_runs dc :
  dc ∈ dcs -> runs (cluster_api f) w (getOffering (dc_OfferingSlug dc)) (yields w (gives usable_offering)).
Proof.
  intros Hdc. unfold getOffering. answer (pv_offering _ _ Hf dc Hdc).
  destruct Ha as (o & l & -> & Ho). apply runs_yield. by exists o.
Qed.

Lemma calculateLimits_runs offering dc :
  dc ∈ dcs -> runs (cluster_api f) w (calculateLimits offering dc) (yields w (gives (fun _ => True))).
Proof.
  intros Hdc. unfold calculateLimits.
  eapply runs_bind_yields; [apply (runs_for_each_ok (cluster_api f) _ (fun _ => True)); [|done]|].
  - intros l ng Hng _. eapply runs_bind_yields with (P := gives usable_flavor).
    { unfold getFlavor. answer (pv_flavor _ _ Hf dc ng (po_Uuid offering) Hdc Hng).
      destruct Ha as (fl & fls & -> & Hfl). apply runs_yield. by exists fl. }
    intros r (fl & -> & Hcores & Hram). cbv iota. is_set Hcores. is_set Hram.
    apply runs_yield. eauto.
  - intros r (l & -> & _). apply runs_yield. by eexists.
Qed.

Lemma submitTenantCreationOrder_runs offering project dc :
  dc ∈ dcs -> usable_offering offering -> usable_project project ->
  runs (cluster_api f) w (submitTenantCreationOrder offering project dc)
    (yields w (gives (fun od => exists order, od = Some order /\ usable_order order))).
Proof.
  intros Hdc (Hslug & Hurl & plans & Hplans & Hplan) (Hname & Hpurl & _). unfold submitTenantCreationOrder.
  is_set Hslug. is_set Hname. apply (runs_served _ _ Hs); [done|]. rewrite (pv_encode _ _ Hf). cbv iota.
  eapply runs_bind_yields; [by apply calculateLimits_runs|]. intros r (limits & -> & _). cbv iota.
  rewrite Hplans. runs_step. cbv beta. is_set Hplan. is_set Hurl. is_set Hpurl.
  apply (runs_served _ _ Hs); [done|].
  match goal with |- context [f (MarketplaceOrdersCreate ?p)] =>
    destruct (pv_order _ _ Hf p) as (resp & od & -> & Hst & Hod & Hu) end.
  cbv iota. rewrite Hst, Hod. change (negb (201 =? 201)%Z) with false. apply runs_yield. eexists; eauto.
Qed.

Lemma createTenant_runs dc :
  dc ∈ dcs -> runs (cluster_api f) w (createTenant dc)
    (yields w (gives (fun ot => exists t, ot = Some t /\ tracked t))).
Proof.
  intros Hdc. unfold createTenant.
  eapply runs_bind_yields; [by apply getCustomer_runs|]. intros r (org & -> & Horg). cbv iota.
  eapply runs_bind_yields; [by apply getOrCreateProject_runs|]. intros r (project & -> & Hproject). cbv iota.
  eapply runs_bind_yields; [by apply getOffering_runs|]. intros r (offering & -> & Hoff). cbv iota.
  eapply runs_bind_yields; [by apply submitTenantCreationOrder_runs|].
  intros r (ood & -> & od & -> & Huuid & Htype & Hstate & Hres & Hname). cbv iota beta.
  is_set Huuid. is_set Htype. is_set Hstate. is_set Hres. is_set Hname.
  assert (forall st tu, tracked (mkOpenStackTenant st tu v3 (uuid_String v2) (ResourceStateOther "")
            (p_Slug project) (Some (mkWaldurOrder (uuid_String v) v0 v1 (uuid_String v2) tu)))) as Ht.
  { intros st tu. split_and!; [apply uuid_String_nonempty|exists v2; apply uuid_Parse_String|apply Hproject|].
    intros o [= <-]. exists v. apply uuid_Parse_String. }
  destruct (od_ResourceUuid od) as [tu|]; [|apply runs_yield; do 2 (eexists; split; [done|]); apply Ht].
  eapply runs_bind_yields with (P := gives (fun ot => exists t, ot = Some t /\ is_Some (at_State t))).
  { unfold getOpenStackTenant. answer (pv_tenant _ _ Hf tu).
    split; [done|]. exists (Ok (Some a)). split; [done|]. exists (Some a). eauto. }
  intros r (ot & -> & t & -> & Hst). cbv iota. runs_step. cbv beta. is_set Hst.
  apply runs_yield. do 2 (eexists; split; [done|]). apply Ht.
Qed.

(** *** Refreshing one *)

Lemma refreshTenant_tracked t :
  tracked t ->
  runs (cluster_api f) w (refreshTenant t)
    (yields w (fun r => tracked r.1 /\ (tenants_up f -> up r.1))).
Proof.
  intros (Hr & [ru Hru] & Hp & Ho). unfold refreshTenant.
  eapply runs_bind_yields; [by apply (refresh_pending_yields _ _ Hs); [apply Hf|]|].
  intros [order err] [Herr Horder]. simpl in Herr, Horder. subst err. cbv iota zeta.
  assert (tracked (set_t_Order t order)) as Ht by (split_and!; [done|by exists ru|done..]).
  rewrite adopt_resource_uuid_id, bool_decide_eq_false_2 by apply Hr.
  revert Ht. generalize (set_t_Order t order). intros t1 Ht.
  pose proof Ht as (_ & [ru1 Hru1] & _).
  eapply runs_bind_yields with (P := gives (fun ores => exists res, ores = Some res /\
    (tenants_up f -> r_State res = Some ResourceStateOK /\ is_Some (r_Scope res) /\
       is_Some (r_ResourceUuid res)))).
  { unfold getMarketplaceResource. rewrite Hru1.
    answer (answered_if _ _ _ _ (pv_resource _ _ Hf ru1) (fun H => up_resource _ H ru1)).
    split; [done|]. exists (Ok (Some a)). split; [done|]. exists (Some a). naive_solver. }
  intros r (ores & -> & res & -> & Hup). cbv iota. runs_step. cbv beta.
  set (t2 := match r_State res with Some st => _ | None => t1 end).
  assert (tracked t2) as Ht2 by (apply (tracked_same t1); unfold t2; by destruct (r_State res)).
  destruct (r_Scope res) as [scope|], (r_ResourceUuid res) as [tu|];
    try (apply runs_yield; split; [done|intros (_ & [? ?] & [? ?])%Hup; done]).
  eapply runs_bind_yields with (P := gives (fun ot => exists t, ot = Some t /\
    (tenants_up f -> at_State t = Some CoreStatesOK))).
  { unfold getOpenStackTenant.
    answer (answered_if _ _ _ _ (pv_tenant _ _ Hf tu) (fun H => up_tenant _ H tu)).
    split; [done|]. exists (Ok (Some a)). split; [done|]. exists (Some a). naive_solver. }
  intros r (ot & -> & rt & -> & Hst). cbv iota. runs_step. cbv beta.
  apply runs_yield. unfold apply_tenant. split.
  - apply (tracked_same t2); [done|..]; by destruct (at_State rt), (at_Name rt).
  - intros Hu. rewrite (Hst Hu). unfold t2. rewrite (proj1 (Hup Hu)).
    destruct (at_Name rt); split_and!; eauto.
Qed.

(** *** The loop over the datacenters *)

Definition slugs (l : list DatacenterSpec) : gset string := list_to_set (dc_OfferingSlug <$> l).

(** The map [ts'] that the loop has made of [ts] after the datacenters [done]. *)
Record provided (ts : gmap string OpenStackTenant) (done : list DatacenterSpec)
    (ts' : gmap string OpenStackTenant) : Prop := {
  pd_dom : dom ts' = dom ts ∪ slugs done;
  pd_tracked : map_Forall (fun _ t => tracked t) ts';
  pd_up : tenants_up f -> forall slug t, slug ∈ slugs done -> is_Some (ts !! slug) ->
    ts' !! slug = Some t -> up t;
}.

Lemma slugs_snoc done dc : slugs (done ++ [dc]) = slugs done ∪ {[dc_OfferingSlug dc]}.
Proof. unfold slugs. rewrite fmap_app, list_to_set_app_L. simpl. set_solver. Qed.

Lemma provided_step ts done dc ts' t :
  provided ts done ts' -> tracked t ->
  (tenants_up f -> is_Some (ts !! dc_OfferingSlug dc) -> up t) ->
  provided ts (done ++ [dc]) (<[dc_OfferingSlug dc := t]> ts').
Proof.
  intros [Hdom Htr Hup] Ht HtOK. split.
  - rewrite dom_insert_L, slugs_snoc, Hdom. set_solver.
  - by apply map_Forall_insert_2.
  - intros Hu slug t' Hslug Hsome Ht'. rewrite slugs_snoc in Hslug.
    destruct (decide (slug = dc_OfferingSlug dc)) as [->|Hne].
    + rewrite lookup_insert_eq in Ht'. simplify_eq. auto.
    + rewrite lookup_insert_ne in Ht' by done. apply (Hup Hu slug); [set_solver|done..].
Qed.

Lemma reconcile_datacenters_runs ts :
  map_Forall (fun _ t => tracked t) ts ->
  runs (cluster_api f) w (for_each reconcile_datacenter ts dcs) (yields w (provided ts dcs)).
Proof.
  intros Hts. apply (runs_for_each _ _ dcs (provided ts)).
  - intros done dc rest ts' HL Hp. assert (dc ∈ dcs) as Hdc by (rewrite HL; set_solver).
    unfold reconcile_datacenter. destruct (ts' !! _) as [t|] eqn:Ht'.
    + eapply runs_bind_yields; [apply refreshTenant_tracked; by apply (pd_tracked _ _ _ Hp _ t Ht')|].
      intros [t1 err] [Ht1 HOK]. simpl in Ht1, HOK. cbv iota. apply runs_yield, provided_step; auto.
    + eapply runs_bind_yields; [by apply createTenant_runs|].
      intros r (ot & -> & t & -> & Ht). cbv iota. runs_step. cbv beta.
      apply runs_yield, provided_step; [done..|]. intros _ [t0 Ht0].
      apply not_elem_of_dom in Ht'. rewrite (pd_dom _ _ _ Hp) in Ht'.
      destruct Ht'. apply elem_of_union_l, elem_of_dom. by exists t0.
  - split; [set_solver|done|set_solver].
Qed.
End Steps.

(** *** The end of a reconcile *)

(** A cluster that is not being deleted and that its Cluster owns. *)
Record live (c : WaldurCluster) : Prop := {
  lv_deleting : cluster_deleting c = false;
  lv_owner : has_owner "Cluster" (om_OwnerReferences (wc_ObjectMeta c)) = true;
}.

(** What a reconcile leaves alone. *)
Definition same_cluster (c c' : WaldurCluster) : Prop :=
  wc_ObjectMeta c' = wc_ObjectMeta c /\ cs_Datacenters (wc_Spec c') = cs_Datacenters (wc_Spec c).

Lemma cluster_settle_live c : cluster_deleting c = false -> cluster_settle c = Present c.
Proof. intros Hc. unfold cluster_settle. by rewrite Hc. Qed.

(** Whatever Waldur answers, the endpoint is all that is written. *)
Lemma endpoint_runs f c :
  cluster_deleting c = false ->
  runs (cluster_api f) (Present c) (reconcileControlPlaneEndpoint c) (fun _ w =>
    exists c', w = Present c' /\ same_cluster c c' /\ wc_Status c' = wc_Status c).
Proof.
  intros Hc. pose proof (cluster_api_serves f) as Hs.
  assert (exists c', Present c = Present c' /\ same_cluster c c' /\ wc_Status c' = wc_Status c) as Hsame
    by by exists c.
  unfold reconcileControlPlaneEndpoint. destruct (negb _); [by runs_step|].
  runs_step. cbn [cluster_api cluster_stored fst snd].
  destruct (f (KListWaldurMachines _ _)) as [machines|err]; [|by runs_step].
  destruct (List.find _ _) as [cp|]; [|by runs_step]. runs_step.
  eapply runs_mono; [apply (getMarketplaceResource_same _ _ Hs)|]. intros [[ores|err]|] w ->; [|done..].
  destruct ores as [res|]; [|done]. runs_step. cbv beta.
  destruct (r_ResourceUuid res) as [u|]; [|by runs_step].
  apply (runs_served _ _ Hs); [done|]. destruct (f _) as [resp|err]; [|by runs_step].
  destruct (JSON resp) as [instance|]; [|by runs_step].
  destruct (os_InternalIps instance) as [[|ip ips]|]; [by runs_step| |by runs_step].
  runs_step. cbn [cluster_api cluster_stored fst snd]. rewrite cluster_settle_live by done.
  runs_step. eexists. split; [done|]. by destruct c as [[] []].
Qed.

Lemma publish_runs f c ts :
  cluster_deleting c = false ->
  runs (cluster_api f) (Present c) (publish (set_wc_Tenants c ts) c) (fun _ w =>
    exists c', w = Present c' /\ same_cluster c c' /\
      wc_Status c' = wc_Status (setReadyCondition (set_wc_Tenants c ts))).
Proof.
  intros Hc. unfold publish. runs_step. cbn [cluster_api cluster_stored fst snd].
  rewrite cluster_settle_live by done. runs_step.
  eapply runs_mono; [by apply endpoint_runs|].
  intros o w (c' & -> & Hsame & Hst).
  assert (exists c'', Present c' = Present c'' /\ same_cluster c c'' /\
    wc_Status c'' = wc_Status (setReadyCondition (set_wc_Tenants c ts))) as Hdone.
  { exists c'. by rewrite Hst. }
  destruct o as [[c'' err]|]; [|done]. cbv iota. by destruct (anyTenantPending _); runs_step.
Qed.

(** *** One reconcile *)

(** The datacenters without a tenant. *)
Definition missing (c : WaldurCluster) : nat :=
  length (List.filter (unordered (cst_Tenants (wc_Status c))) (cs_Datacenters (wc_Spec c))).

(** A cluster that owes its Cluster the finalizer ([2]), the tenants ([1]) or only
    their state ([0]), or less. *)
Record staged (dcs : list DatacenterSpec) (n : nat) (c : WaldurCluster) : Prop := {
  sg_live : live c;
  sg_datacenters : cs_Datacenters (wc_Spec c) = dcs;
  sg_tracked : map_Forall (fun _ t => tracked t) (cst_Tenants (wc_Status c));
  sg_dom : dom (cst_Tenants (wc_Status c)) ⊆ slugs dcs;
  sg_finalizer : n <= 1 -> finalizer ∈ cluster_finalizers c;
  sg_ordered : n = 0 -> slugs dcs ⊆ dom (cst_Tenants (wc_Status c));
}.

(** The cluster its status says is ready. *)
Record provisioned (c : WaldurCluster) : Prop := {
  pr_tenants : dom (cst_Tenants (wc_Status c)) = slugs (cs_Datacenters (wc_Spec c));
  pr_states : map_Forall (fun _ t => tracked t /\ up t) (cst_Tenants (wc_Status c));
  pr_ready : FindStatusCondition (cst_Conditions (wc_Status c)) "Ready" =
    Some (mkCondition "Ready" ConditionTrue "Provisioned" "All tenants are ready");
  pr_initialized : cst_Initialization (wc_Status c) = Some (mkInitialization (Some true));
}.

Lemma staged_le dcs n n' c : staged dcs n c -> n <= n' -> staged dcs n' c.
Proof. intros [] Hle. split; auto with lia. Qed.

Lemma cluster_ready_ok ts n :
  n <= size ts -> map_Forall (fun _ t => t_State t = CoreStatesOK) ts ->
  cluster_ready ts n = (mkCondition "Ready" ConditionTrue "Provisioned" "All tenants are ready", true).
Proof.
  intros Hn Hall.
  assert ((cluster_ready ts n).2 = true) as Hr by by apply cluster_ready_true.
  unfold cluster_ready in *. by repeat case_match.
Qed.

Lemma provisioned_published c ts :
  NoDup (dc_OfferingSlug <$> cs_Datacenters (wc_Spec c)) ->
  dom ts = slugs (cs_Datacenters (wc_Spec c)) ->
  map_Forall (fun _ t => tracked t /\ up t) ts ->
  forall c', same_cluster c c' -> wc_Status c' = wc_Status (setReadyCondition (set_wc_Tenants c ts)) ->
  provisioned c'.
Proof.
  intros Hnd Hdom Hall c' [_ Hspec] Hst.
  assert (length (cs_Datacenters (wc_Spec c)) <= size ts) as Hsize.
  { rewrite <- size_dom, Hdom. unfold slugs. rewrite size_list_to_set by done. by rewrite length_fmap. }
  unfold setReadyCondition in Hst. cbn in Hst. rewrite cluster_ready_ok in Hst by (done || by intros ? ? [_ [? _]]%Hall).
  split; rewrite Hst; cbn; [by rewrite Hspec|done| |done]. 
  exact (SetStatusCondition_eq _ (mkCondition "Ready" ConditionTrue "Provisioned" "All tenants are ready")).
Qed.

Lemma normal_runs dcs f c :
  provisions dcs f -> live c -> cs_Datacenters (wc_Spec c) = dcs ->
  map_Forall (fun _ t => tracked t) (cst_Tenants (wc_Status c)) ->
  runs (cluster_api f) (Present c) (reconcileNormal c) (fun _ w =>
    exists c' ts, w = Present c' /\ same_cluster c c' /\
      wc_Status c' = wc_Status (setReadyCondition (set_wc_Tenants c ts)) /\
      provided f (cst_Tenants (wc_Status c)) dcs ts).
Proof.
  intros Hf Hlive Hdcs Htr. unfold reconcileNormal. rewrite Hdcs.
  eapply runs_bind_yields; [by apply reconcile_datacenters_runs|]. intros ts Hts.
  eapply runs_mono; [apply publish_runs, Hlive|]. intros _ w (c' & -> & ? & ?). by exists c', ts.
Qed.

Definition cluster_orders f (w : cluster_world) : nat :=
  count (S := ctl) is_order_create (run_trace (cluster_api f) w (Reconcile req)).

(** A reconcile of a live cluster adds the finalizer or provisions. *)
Definition live_program (c : WaldurCluster) : M (result ctrl_Result) :=
  if negb (ContainsFinalizer (cluster_finalizers c) finalizer)
  then let? _ := ask (KUpdateWaldurCluster
                        (set_wc_Finalizers c (AddFinalizer (cluster_finalizers c) finalizer)))
         else err => Ret (Err (Wrap err "unable to add finalizer")) in
       Ret (Ok (requeue 0))
  else reconcileNormal c.

Lemma Reconcile_live f c (Q : cluster_world -> nat -> Prop) :
  live c ->
  Q (run (cluster_api f) (Present c) (live_program c)).2
    (count (S := ctl) is_order_create (run_trace (cluster_api f) (Present c) (live_program c))) ->
  Q (cluster_reconciled req f (Present c)) (cluster_orders f (Present c)).
Proof.
  intros [Hd Ho] HQ. unfold cluster_orders, cluster_reconciled, Reconcile.
  rewrite run_trace_ask, count_cons. cbn [is_order_create Nat.add cluster_api cluster_stored fst snd].
  unfold cluster_deleting in Hd. cbv zeta. rewrite Hd, Ho. unfold live_program in HQ.
  apply (runs_ask (cluster_api f) (Present c) (KGetWaldurCluster req) _ (fun _ w => Q w _)).
  cbn [cluster_api cluster_stored fst snd]. cbv zeta. rewrite Hd, Ho. exact HQ.
Qed.

Lemma cluster_api_allowed f : (forall ks, f (Range ks) ≡ₚ ks) -> env_allowed (cluster_api f).
Proof. intros Hr [] [c|c]; simpl; done. Qed.

Lemma finalizer_step dcs f c :
  staged dcs 2 c -> finalizer ∉ cluster_finalizers c ->
  exists c', cluster_reconciled req f (Present c) = Present c' /\ staged dcs 1 c' /\
    cluster_orders f (Present c) + missing c' <= missing c.
Proof.
  intros Hst Hfin. apply Reconcile_live; [apply Hst|].
  assert (ContainsFinalizer (cluster_finalizers c) finalizer = false) as Hno.
  { destruct (ContainsFinalizer _ _) eqn:E; [|done]. by apply ContainsFinalizer_spec in E. }
  unfold live_program. rewrite Hno. cbn [negb].
  set (c' := set_wc_Finalizers c _).
  assert (cluster_deleting c' = false) as Hd by (rewrite <- (lv_deleting _ (sg_live _ _ _ Hst)); done).
  exists c'. split_and!.
  - apply (runs_ask (cluster_api f) (Present c) _ _ (fun _ w => w = Present c')).
    cbn [cluster_api cluster_stored fst snd]. fold c'. by rewrite cluster_settle_live.
  - destruct Hst as [[Hdel Hown] ? ? ? ? ?]. split; [by split|done..| |done].
    intros _. unfold cluster_finalizers. cbn. apply AddFinalizer_spec. by left.
  - rewrite run_trace_ask, count_cons. exact (le_n (missing c)).
Qed.

Lemma missing_0 dcs c :
  cs_Datacenters (wc_Spec c) = dcs -> slugs dcs ⊆ dom (cst_Tenants (wc_Status c)) -> missing c = 0.
Proof.
  intros <- Hdom. unfold missing. rewrite List.filter_ext_in with (g := fun _ => false).
  { clear. induction (cs_Datacenters _); simpl; auto. }
  intros dc Hdc%list_elem_of_In. unfold unordered. apply bool_decide_eq_false.
  rewrite <- not_elem_of_dom. intros Hn. apply Hn, Hdom. unfold slugs.
  apply elem_of_list_to_set, list_elem_of_fmap. eauto.
Qed.

Lemma provisioning_step dcs f n c :
  provisions dcs f -> staged dcs n c -> finalizer ∈ cluster_finalizers c ->
  exists c', cluster_reconciled req f (Present c) = Present c' /\ staged dcs 0 c' /\
    cluster_orders f (Present c) + missing c' <= missing c /\
    (n = 0 -> NoDup (dc_OfferingSlug <$> dcs) -> tenants_up f -> provisioned c').
Proof.
  intros Hf Hst Hfin. apply Reconcile_live; [apply Hst|].
  unfold live_program. apply ContainsFinalizer_spec in Hfin as Hyes. rewrite Hyes. cbn [negb].
  pose proof (normal_runs dcs f c Hf (sg_live _ _ _ Hst) (sg_datacenters _ _ _ Hst) (sg_tracked _ _ _ Hst))
    as (c' & ts & Hw & Hsame & Hstatus & Hts).
  exists c'. split; [exact Hw|].
  assert (cst_Tenants (wc_Status c') = ts) as Htenants by (by rewrite Hstatus, setReadyCondition_tenants).
  assert (dom ts = slugs dcs) as Hdom.
  { rewrite (pd_dom _ _ _ _ Hts). pose proof (sg_dom _ _ _ Hst). set_solver. }
  destruct Hsame as [Hmeta Hdcs]. assert (cs_Datacenters (wc_Spec c') = dcs) as Hdcs'
    by (by rewrite Hdcs, (sg_datacenters _ _ _ Hst)).
  split_and!.
  - split; rewrite ?Htenants, ?Hdom; try done.
    + destruct (sg_live _ _ _ Hst) as [Hd Ho].
      split; [unfold cluster_deleting in *|]; by rewrite Hmeta.
    + apply Hts.
    + intros _. unfold cluster_finalizers in *. by rewrite Hmeta.
  - rewrite (missing_0 dcs c') by (rewrite ?Htenants, ?Hdom; done). rewrite Nat.add_0_r.
    pose proof (run_execs _ (Present c) (reconcileNormal c) (cluster_api_allowed f (pv_range _ _ Hf))) as He.
    exact (proj1 (wp_sound _ _ _ _ (reconcileNormal_trace c) He)).
  - intros -> Hnd Hup. eapply (provisioned_published c ts); [by rewrite (sg_datacenters _ _ _ Hst)|
      by rewrite (sg_datacenters _ _ _ Hst)| |by split|done].
    intros slug t Ht. assert (slug ∈ slugs dcs) as Hslug by (rewrite <- Hdom; by eapply elem_of_dom_2).
    split; [by apply (pd_tracked _ _ _ _ Hts slug)|].
    apply (pd_up _ _ _ _ Hts Hup slug t Hslug); [|done].
    by apply elem_of_dom, (sg_ordered _ _ _ Hst eq_refl).
Qed.

Lemma cluster_step dcs f n c :
  provisions dcs f -> staged dcs n c ->
  exists c', cluster_reconciled req f (Present c) = Present c' /\ staged dcs (Nat.pred n) c' /\
    cluster_orders f (Present c) + missing c' <= missing c /\
    (n = 0 -> NoDup (dc_OfferingSlug <$> dcs) -> tenants_up f -> provisioned c').
Proof.
  intros Hf Hst. destruct (decide (finalizer ∈ cluster_finalizers c)) as [Hfin|Hfin].
  - destruct (provisioning_step dcs f n c Hf Hst Hfin) as (c' & ? & ? & ? & ?).
    exists c'. split_and!; [done|eapply staged_le; [done|lia]|done..].
  - destruct n as [|[|n]]; [by destruct Hfin; apply (sg_finalizer _ _ _ Hst); lia..|].
    destruct (finalizer_step dcs f c) as (c' & ? & ? & ?); [|done|].
    { destruct Hst. by split; auto; lia. }
    exists c'. split_and!; [done|eapply staged_le; [done|simpl; lia]|done..].
Qed.

(** *** Reconciles in a row *)

(** The orders of the reconciles together. *)
Fixpoint orders_in (fs : list (forall c : Call, Call_resp c)) (w : cluster_world) : nat :=
  match fs with
  | [] => 0
  | f :: fs => cluster_orders f w + orders_in fs (cluster_reconciled req f w)
  end.

Lemma provisioning_progress dcs fs n c :
  Forall (provisions dcs) fs -> staged dcs n c -> n <= length fs ->
  exists c', cluster_reconciles req fs (Present c) = Present c' /\ staged dcs 0 c' /\
    orders_in fs (Present c) + missing c' <= missing c.
Proof.
  intros Hfs. revert n c. induction Hfs as [|f fs Hf _ IH]; intros n c Hst Hn; simpl in *.
  { exists c. split_and!; [done|eapply staged_le; [done|lia]|lia]. }
  destruct (cluster_step dcs f n c Hf Hst) as (c1 & Hr1 & Hst1 & Ho1 & _).
  destruct (IH (Nat.pred n) c1 Hst1) as (c' & Hr & Hst' & Ho); [lia|].
  rewrite Hr1. exists c'. split_and!; [done..|lia].
Qed.

Lemma orders_in_snoc fs f w :
  orders_in (fs ++ [f]) w = orders_in fs w + cluster_orders f (cluster_reconciles req fs w).
Proof. revert w. induction fs as [|g fs IH]; intros w; simpl; [lia|]. rewrite IH. lia. Qed.

(** C4. Provisioning of a cluster completes. A cluster that its Cluster owns, whose
    datacenters have different offerings and whose status has tenants of these only,
    each with a project and well-formed UUIDs (a new cluster has none), ends up
    ready: after two reconciles or more against a Waldur that knows the names of the
    specification and takes orders, the next one at which Waldur reports the tenants
    as OK leaves a status with a tenant for every datacenter, all of them OK and
    ready for machines, the Ready condition True and the cluster provisioned. All
    the reconciles together order no more tenants than were missing. *)
Theorem cluster_provisioning_completes fs f c :
  let dcs := cs_Datacenters (wc_Spec c) in
  live c -> NoDup (dc_OfferingSlug <$> dcs) ->
  dom (cst_Tenants (wc_Status c)) ⊆ slugs dcs ->
  map_Forall (fun _ t => tracked t) (cst_Tenants (wc_Status c)) ->
  Forall (provisions dcs) fs -> 2 <= length fs -> provisions dcs f -> tenants_up f ->
  exists c', cluster_reconciles req (fs ++ [f]) (Present c) = Present c' /\ provisioned c' /\
    orders_in (fs ++ [f]) (Present c) <= missing c.
Proof.
  intros dcs Hlive Hnd Hdom Htr Hfs Hlen Hf Hup.
  assert (staged dcs 2 c) as Hst by (split; [done..|lia|lia]).
  destruct (provisioning_progress dcs fs 2 c Hfs Hst Hlen) as (c1 & Hr1 & Hst1 & Ho1).
  destruct (cluster_step dcs f 0 c1 Hf Hst1) as (c2 & Hr2 & _ & Ho2 & Hready).
  exists c2. rewrite orders_in_snoc. unfold cluster_reconciles in *. rewrite fold_left_app, Hr1. simpl.
  split_and!; [done|by apply Hready|lia].
Qed.
End ClusterProvisioning.

(** A Waldur that has taken the orders but not carried them out. *)
Definition pending_waldur : forall c : Call, Call_resp c :=
  but (healthy new_machine ready_cluster) (fun c =>
    match c return option (Call_resp c) with
    | MarketplaceResourcesRetrieve _ => Some (http 200 (mkResource None None None))
    | OpenstackTenantsRetrieve _ => Some (http 200 (mkApiTenant (Some CoreStatesCREATING) None))
    | _ => None
    end).

Definition two_datacenters : list DatacenterSpec := [datacenter "dc-one"; datacenter "dc-two"].

Lemma healthy_provisions dcs : provisions dcs (healthy new_machine ready_cluster).
Proof.
  split; intros; try done; repeat eexists. constructor; [|done]. by repeat eexists.
Qed.

Lemma pending_provisions dcs : provisions dcs pending_waldur.
Proof.
  split; intros; try done; repeat eexists. constructor; [|done]. by repeat eexists.
Qed.

Lemma healthy_up : tenants_up (healthy new_machine ready_cluster).
Proof. split; intros; repeat eexists. Qed.

(** A new cluster of two datacenters, without its finalizer. *)
Definition new_cluster : WaldurCluster :=
  set_wc_Finalizers (waldur_cluster [datacenter "dc-one"; datacenter "dc-two"] ∅ None) [].

Lemma cluster_provisioning_completes_witness :
  exists c', cluster_reconciles req (repeat pending_waldur 3 ++ [healthy new_machine ready_cluster])
               (Present new_cluster) = Present c' /\ provisioned c' /\
    orders_in req (repeat pending_waldur 3 ++ [healthy new_machine ready_cluster]) (Present new_cluster) <= 2.
Proof.
  apply (cluster_provisioning_completes req).
  - by split.
  - apply (bool_decide_unpack _). vm_compute. exact I.
  - done.
  - done.
  - simpl. auto using Forall_cons_2, pending_provisions.
  - simpl. lia.
  - apply healthy_provisions.
  - apply healthy_up.
Defined.
