(* ===== verification/MachineProvisioning.v ===== *)
(** The provisioning of a machine terminates: a machine of a ready cluster is given
    its finalizer, ordered, and reported as ready once its VM runs.

    The reconciles are run against the server of MachineLifecycle.v; the cluster is
    one that ClusterProvisioning.v leads to. *)
From S2P Require Import Prelude Prog Types Calls Helpers Cooperation CloudInit MachineController.
From S2P Require Import MachineFacts MachineOrder Concrete Scenario MachineLifecycle MachineTeardown.
From S2P Require Import ClusterProvisioning.
From Stdlib Require Import ZArith Lia.
From stdpp Require Import base gmap strings list.
Local Open Scope string_scope.
Local Open Scope list_scope.
Local Open Scope go_scope.

(** ** A Waldur and an API server that provision a machine *)

(** A subresource offering for VMs is listed, and all are complete. *)
Definition offers_vms (l : list SubresourceOffering) : Prop :=
  Forall (fun o => is_Some (so_Type o) /\ is_Some (so_Uuid o)) l /\
  Exists (fun o => so_Type o = Some "OpenStack.Instance") l.

Definition usable_vm_order (od : OrderDetails) : Prop :=
  is_Some (od_Uuid od) /\ is_Some (od_Type od) /\ is_Some (od_State od) /\
  is_Some (od_MarketplaceResourceUuid od).

Section Conditions.
Context `{KubeLib} `{YamlLib}.
Variable r : WaldurMachineReconciler.

(** The bootstrap secret is there. *)
Definition bootstrap (f : forall c : Call, Call_resp c) (machine : Machine) (secret : Secret) : Prop :=
  exists name, m_DataSecretName machine = Some name /\
    f (KGetSecret (mkNamespacedName (m_Namespace machine) name)) = Ok secret.

(** What the user data is made of: the bootstrap secret, and with Vault its
    configuration, a credential and documents that parse. *)
Definition user_data_available (f : forall c : Call, Call_resp c) (machine : Machine) : Prop :=
  if mr_VaultClient r
  then exists config,
    f (KGetSecret (mkNamespacedName (mr_OperatorNamespace r)
                     (Sprintf "vault-config-%s" [m_ClusterName machine]))) = Ok config /\
    (forall role, exists id, f (GenerateSecretID role) = Ok id) /\
    if hasRancherFields config
    then forall p, exists ud,
      BuildRancherAgentUserData (mkRancherAgentInput (mr_BaseTemplate r) p
        (secret_field config "rancher_url")) = Ok ud
    else exists secret ci token,
      bootstrap f machine secret /\
      stripRKE2Token (secret_field secret "value") = Ok (ci, token) /\
      (forall path, exists b, f (SecretExists path) = Ok b) /\
      (forall path fields, f (WriteSecret path fields) = None) /\
      (forall p, exists ud, mergeCloudInit (mkMergeInput ci (mr_BaseTemplate r) p) = Ok ud)
  else exists secret, bootstrap f machine secret.

(** The objects around the machine [m], in the cluster [wc], and the answers to its
    order. *)
Record vm_provisions (m : WaldurMachine) (wc : WaldurCluster) (f : forall c : Call, Call_resp c) : Prop := {
  vp_owners : exists machine cluster name infra,
    f (KGetMachine (mkNamespacedName (om_Namespace (wm_ObjectMeta m))
         (owner_name "Machine" (om_OwnerReferences (wm_ObjectMeta m))))) = Ok machine /\
    m_Labels machine !! ClusterNameLabel = Some name /\ name <> "" /\
    f (KGetCluster (mkNamespacedName (m_Namespace machine) name)) = Ok cluster /\
    cl_InfrastructureRef cluster = Some infra /\
    f (KGetWaldurCluster (mkNamespacedName (cl_Namespace cluster) infra)) = Ok wc /\
    user_data_available f machine;
  vp_projects : forall slug,
    answered (f (ProjectsList None None (Some slug))) (found (fun p => is_Some (p_Url p)));
  vp_offering :
    answered (f (MarketplacePublicOfferingsList (ms_OfferingSlug (wm_Spec m)))) (found (fun _ => True));
  vp_subresources : forall u, exists resp l,
    f (MarketplaceResourcesOfferingForSubresourcesList u) = Ok resp /\ StatusCode resp = 200%Z /\
    JSON resp = Some l /\ offers_vms l;
  vp_vm_offering : forall u,
    answered (f (MarketplacePublicOfferingsRetrieve u)) (fun o => is_Some (po_Url o));
  vp_flavor : forall u, answered (f (OpenstackFlavorsList u (ms_Flavor (wm_Spec m)))) (found (fun _ => True));
  vp_image : forall u, answered (f (OpenstackImagesList u (ms_Image (wm_Spec m)))) (found (fun _ => True));
  vp_groups : forall u,
    answered (f (OpenstackSecurityGroupsList u)) (Forall (fun sg => is_Some (sg_Name sg)));
  vp_subnets : forall u, answered (f (OpenstackSubnetsList u)) (fun _ => True);
  vp_volume_types : forall u, answered (f (OpenstackVolumeTypesList u)) (fun _ => True);
  vp_encode : forall attrs, f (EncodeAttributes attrs) = None;
  vp_order : forall payload, exists resp od,
    f (MarketplaceOrdersCreate payload) = Ok resp /\ StatusCode resp = 201%Z /\
    JSON resp = Some od /\ usable_vm_order od;
  vp_order_read : forall u, answered (f (MarketplaceOrdersRetrieve u)) (fun od => is_Some (od_State od));
  vp_resource : forall u, answered (f (MarketplaceResourcesRetrieve u)) (fun _ => True);
  vp_range : forall ks, f (Range ks) ≡ₚ ks;
}.
End Conditions.

(** The VM runs. *)
Record vm_up (f : forall c : Call, Call_resp c) : Prop := {
  vu_resource : forall u, answered (f (MarketplaceResourcesRetrieve u)) (fun res =>
    is_Some (r_Scope res) /\ is_Some (r_ResourceUuid res));
  vu_instance : forall u, answered (f (OpenstackInstancesRetrieve u ["State"; "Uuid"])) (fun i =>
    os_State i = Some CoreStatesOK /\ is_Some (os_Uuid i));
}.

Section MachineProvisioning.
Context `{UuidLib} `{!UuidLaws _} `{KubeLib} `{!KubeLaws _} `{YamlLib}.
Variable r : WaldurMachineReconciler.
Variable req : NamespacedName.
Implicit Types f : forall c : Call, Call_resp c.

(** *** A cluster that is ready takes machines *)

(** A VM that has been ordered and can be asked for. *)
Definition tracked_vm (s : WaldurMachineStatus) : Prop :=
  mst_MarketplaceResourceUuid s <> "" /\ parses (mst_MarketplaceResourceUuid s) /\
  (forall o, mst_Order s = Some o -> parses (wo_Uuid o)).

(** The VM runs, and the status says so. *)
Definition running (s : WaldurMachineStatus) : Prop :=
  mst_State s = CoreStatesOK /\ is_Some (mst_VmUuid s) /\
  mst_Initialization s = Some (mkInitialization (Some true)).

(** A later version of a machine: the same owner and the same order. *)
Record kin (m m' : WaldurMachine) : Prop := {
  kin_namespace : om_Namespace (wm_ObjectMeta m') = om_Namespace (wm_ObjectMeta m);
  kin_owners : om_OwnerReferences (wm_ObjectMeta m') = om_OwnerReferences (wm_ObjectMeta m);
  kin_offering : ms_OfferingSlug (wm_Spec m') = ms_OfferingSlug (wm_Spec m);
  kin_flavor : ms_Flavor (wm_Spec m') = ms_Flavor (wm_Spec m);
  kin_image : ms_Image (wm_Spec m') = ms_Image (wm_Spec m);
}.

Section Steps.
Variables (m0 : WaldurMachine) (wc : WaldurCluster) (f : forall c : Call, Call_resp c) (w : world).
Hypothesis Hf : vm_provisions r m0 wc f.
Let Hs : serves (machine_server f) f := machine_server_serves f.

Ltac answer Hc := served_by Hs Hc.

(** The API server leaves the reads of other objects to [f]. *)
Lemma get_secret_runs {A} nn secret (k : result Secret -> M A) Q :
  f (KGetSecret nn) = Ok secret -> runs (machine_server f) w (k (Ok secret)) Q ->
  runs (machine_server f) w (bind (ask (KGetSecret nn)) k) Q.
Proof. intros Hn HQ. apply runs_ask. destruct w; cbn [machine_server stored fst snd]; by rewrite Hn. Qed.

Lemma prepareUserData_runs machine m :
  user_data_available r f machine ->
  runs (machine_server f) w (prepareUserData r machine m) (yields w (gives (fun _ => True))).
Proof.
  unfold user_data_available, prepareUserData. destruct (mr_VaultClient r).
  - intros (config & Hconfig & Hsecret & Hdoc).
    eapply runs_bind_yields with (P := fun res => res = Ok config).
    { unfold readVaultConfigSecret. eapply get_secret_runs; [exact Hconfig|]. by apply runs_yield. }
    intros _ ->. cbv iota. destruct (hasRancherFields config).
    + unfold buildUserDataWithRancherAgent. cbv zeta. apply (runs_served _ _ Hs); [done|].
      destruct (Hsecret (secret_field config "role_name")) as [id ->]. cbv iota.
      match goal with |- context [BuildRancherAgentUserData (mkRancherAgentInput _ ?p _)] =>
        destruct (Hdoc p) as [ud ->] end. apply runs_yield. by eexists.
    + destruct Hdoc as (secret & ci & token & (name & Hname & Hboot) & Hstrip & Hexists & Hwrite & Hmerge).
      rewrite Hname. eapply get_secret_runs; [exact Hboot|]. cbv iota.
      unfold buildUserDataWithVault. rewrite Hstrip. cbv zeta. apply (runs_served _ _ Hs); [done|].
      destruct (Hexists (secret_field config "vault_secret_path")) as [b ->]. cbv iota.
      eapply runs_bind_yields with (P := fun res => res = None).
      { destruct b; [by apply runs_yield|]. apply (runs_served_last _ _ Hs _ (WriteSecret _ _)); [done|apply Hwrite]. }
      intros _ ->. cbv iota. apply (runs_served _ _ Hs); [done|].
      destruct (Hsecret (secret_field config "role_name")) as [id ->]. cbv iota.
      match goal with |- context [mergeCloudInit (mkMergeInput _ _ ?p)] =>
        destruct (Hmerge p) as [ud ->] end. apply runs_yield. by eexists.
  - intros (secret & name & -> & Hboot). eapply get_secret_runs; [exact Hboot|].
    apply runs_yield. by eexists.
Qed.

(** *** Ordering the VM *)

Lemma find_vm_offering_runs l :
  offers_vms l ->
  runs (machine_server f) w (find_vm_offering l)
    (yields w (fun res => exists o, res = Some o /\ is_Some (so_Uuid o))).
Proof.
  intros [Hall Hex]. induction Hall as [|o l [Htype Huuid] Hall IH]; [by inversion Hex|].
  simpl. destruct Htype as [ty Hty]. rewrite Hty. runs_step. cbv beta.
  case_bool_decide as Hvm; [apply runs_yield; eauto|]. apply IH.
  inversion Hex as [? ? Ho|]; [|done]. congruence.
Qed.

Lemma getVMOffering_runs s :
  parses s ->
  runs (machine_server f) w (getVMOffering s) (yields w (gives (fun o => is_Some (so_Uuid o)))).
Proof.
  intros [u Hu]. unfold getVMOffering. rewrite Hu. apply (runs_served _ _ Hs); [done|].
  destruct (vp_subresources _ _ _ _ Hf u) as (resp & l & -> & Hst & Hl & Hvm). cbv iota.
  rewrite Hst, Hl. change (negb (200 =? 200)%Z) with false. runs_step. cbv beta.
  eapply runs_bind_yields; [by apply find_vm_offering_runs|]. intros _ (o & -> & Ho). cbv iota.
  apply runs_yield. by exists o.
Qed.

Lemma default_groups_runs groups :
  Forall (fun sg => is_Some (sg_Name sg)) groups ->
  runs (machine_server f) w (default_groups groups) (yields w (fun _ => True)).
Proof.
  intros Hall. rewrite Forall_forall in Hall. unfold default_groups.
  apply (runs_for_each _ _ groups (fun _ _ => True)); [|done].
  intros done sg rest acc HL _. destruct (sg_Url sg); [|by apply runs_yield].
  destruct (Hall sg) as [name ->]; [rewrite HL; set_solver|]. runs_step. cbv beta. by apply runs_yield.
Qed.

(** The machine's tenant in a cluster that is ready. *)
Lemma provisioned_ready_tenant slug :
  provisioned wc -> slug ∈ slugs (cs_Datacenters (wc_Spec wc)) ->
  exists t ps u, ready_tenant wc slug = Ok (t, ps, uuid_String u) /\
    parses (t_MarketplaceResourceUuid t).
Proof.
  intros Hp Hslug. rewrite <- (pr_tenants _ Hp) in Hslug.
  apply elem_of_dom in Hslug as [t Ht].
  destruct (pr_states _ Hp slug t Ht) as [(_ & Hparse & [ps Hps] & _) (_ & Hres & u & Hu)].
  exists t, ps, u. split; [|done]. unfold ready_tenant. by rewrite Ht, Hres, Hps, Hu.
Qed.

Lemma buildOrderPayload_runs m user_data :
  kin m0 m -> provisioned wc -> ms_OfferingSlug (wm_Spec m0) ∈ slugs (cs_Datacenters (wc_Spec wc)) ->
  runs (machine_server f) w (buildOrderPayload m wc user_data) (yields w (gives (fun _ => True))).
Proof.
  intros Hkin Hp Hslug. unfold buildOrderPayload.
  rewrite (kin_offering _ _ Hkin), (kin_flavor _ _ Hkin), (kin_image _ _ Hkin).
  destruct (provisioned_ready_tenant _ Hp Hslug) as (t & ps & u & -> & Ht). cbv iota.
  answer (vp_projects _ _ _ _ Hf ps). destruct Ha as (project & pl & -> & Hpurl).
  eapply runs_bind_yields with (P := gives (fun _ => True)).
  { unfold getOffering. answer (vp_offering _ _ _ _ Hf). destruct Ha as (o & ol & -> & _).
    apply runs_yield. by eexists. }
  intros _ (parent & -> & _). cbv iota.
  eapply runs_bind_yields; [by apply getVMOffering_runs|]. intros _ (sub & -> & Hsub). cbv iota.
  is_set Hsub. eapply runs_bind_yields with (P := gives (fun o => is_Some (po_Url o))).
  { unfold getOfferingByUUID. answer (vp_vm_offering _ _ _ _ Hf v). apply runs_yield. by eexists. }
  intros _ (offering & -> & Hurl). cbv iota. rewrite uuid_Parse_String.
  eapply runs_bind_yields with (P := gives (fun _ => True)).
  { unfold getFlavor. answer (vp_flavor _ _ _ _ Hf (po_Uuid parent)). destruct Ha as (o & ol & -> & _).
    apply runs_yield. by eexists. }
  intros _ (flavor & -> & _). cbv iota.
  eapply runs_bind_yields with (P := gives (fun _ => True)).
  { unfold getImage. answer (vp_image _ _ _ _ Hf (po_Uuid parent)). destruct Ha as (o & ol & -> & _).
    apply runs_yield. by eexists. }
  intros _ (image & -> & _). cbv iota.
  eapply runs_bind_yields with (P := gives (Forall (fun sg => is_Some (sg_Name sg)))).
  { unfold getTenantSecurityGroups. answer (vp_groups _ _ _ _ Hf u). apply runs_yield. by eexists. }
  intros _ (groups & -> & Hgroups). cbv iota.
  eapply runs_bind_yields; [by apply default_groups_runs|]. intros sgs _.
  eapply runs_bind_yields with (P := gives (fun _ => True)).
  { unfold getTenantSubnets. answer (vp_subnets _ _ _ _ Hf u). apply runs_yield. by eexists. }
  intros _ (subnets & -> & _). cbv iota.
  eapply runs_bind_yields with (P := gives (fun _ => True)).
  { unfold getTenantVolumeTypes. answer (vp_volume_types _ _ _ _ Hf u). apply runs_yield. by eexists. }
  intros _ (types & -> & _). cbv iota zeta. apply (runs_served _ _ Hs); [done|].
  rewrite (vp_encode _ _ _ _ Hf). cbv iota. is_set Hurl. is_set Hpurl. apply runs_yield. by eexists.
Qed.

Lemma createVM_runs machine m :
  kin m0 m -> provisioned wc -> ms_OfferingSlug (wm_Spec m0) ∈ slugs (cs_Datacenters (wc_Spec wc)) ->
  user_data_available r f machine ->
  runs (machine_server f) w (createVM r machine m wc)
    (yields w (fun res => res.2 = None /\ exists s, res.1 = set_wm_Status m s /\ tracked_vm s /\
      mst_State s = CoreStatesCREATING)).
Proof.
  intros Hkin Hp Hslug Hud. unfold createVM.
  eapply runs_bind_yields; [by apply prepareUserData_runs|]. intros _ (ud & -> & _). cbv iota.
  eapply runs_bind_yields; [by apply buildOrderPayload_runs|]. intros _ (payload & -> & _). cbv iota.
  unfold submitVMOrder. apply (runs_served _ _ Hs); [done|].
  destruct (vp_order _ _ _ _ Hf payload) as (resp & od & -> & Hst & Hod & Hu & Hty & Hstate & Hres). cbv iota.
  rewrite Hst, Hod. change (negb (201 =? 201)%Z) with false. runs_step. cbv beta.
  is_set Hu. is_set Hty. is_set Hstate. is_set Hres. apply runs_yield. split; [done|].
  eexists. split; [done|]. split; [|done]. split_and!; [apply uuid_String_nonempty|eexists; apply uuid_Parse_String|].
  intros o [= <-]. eexists. apply uuid_Parse_String.
Qed.

(** *** Refreshing it *)

Lemma tracked_apply_instance s i : tracked_vm s -> tracked_vm (apply_instance s i).
Proof.
  unfold tracked_vm. rewrite apply_instance_order. intros Ht.
  replace (mst_MarketplaceResourceUuid (apply_instance s i)) with (mst_MarketplaceResourceUuid s); [done|].
  unfold apply_instance. by destruct (os_State i), (os_Uuid i), (bool_decide _).
Qed.

Lemma running_apply_instance s i :
  os_State i = Some CoreStatesOK -> is_Some (os_Uuid i) -> running (apply_instance s i).
Proof. intros Hst [u Hu]. unfold apply_instance. rewrite Hst, Hu. simpl. split_and!; [done|by eexists|done]. Qed.

Lemma refreshVM_tracked m :
  tracked_vm (wm_Status m) ->
  runs (machine_server f) w (refreshVM m)
    (yields w (fun res => exists s, res.1 = set_wm_Status m s /\ tracked_vm s /\ (vm_up f -> running s))).
Proof.
  intros (Hr & [ru Hru] & Ho). unfold refreshVM. cbv zeta.
  eapply runs_bind_yields; [by apply (refresh_pending_yields _ _ Hs); [apply Hf|]|].
  intros [order err] [Herr Horder]. simpl in Herr, Horder. subst err. cbv iota.
  eapply runs_bind_yields with (P := gives (fun ores => exists res, ores = Some res /\
    (vm_up f -> is_Some (r_Scope res) /\ is_Some (r_ResourceUuid res)))).
  { unfold getMarketplaceResource. cbn [mst_MarketplaceResourceUuid set_mst_Order]. rewrite Hru.
    answer (answered_if _ _ _ _ (vp_resource _ _ _ _ Hf ru) (fun H => vu_resource _ H ru)).
    split; [done|]. exists (Ok (Some a)). split; [done|]. exists (Some a). naive_solver. }
  intros _ (ores & -> & res & -> & Hup). cbv iota. runs_step. cbv beta zeta.
  set (s2 := match r_State res with Some st => _ | None => set_mst_Order _ order end).
  assert (tracked_vm s2) as Hs2 by (unfold s2; destruct (r_State res); (split; [done|split; [by exists ru|done]])).
  destruct (r_Scope res) as [scope|], (r_ResourceUuid res) as [iu|];
    try (apply runs_yield; exists s2; split; [done|]; split; [done|]; intros [[? ?] [? ?]]%Hup; done).
  apply (runs_served _ _ Hs); [done|].
  destruct (f (OpenstackInstancesRetrieve iu ["State"; "Uuid"])) as [resp|e] eqn:Hresp; cbv iota.
  2: { apply runs_yield. exists s2. split; [done|]. split; [done|]. intros Hu.
       destruct (vu_instance _ Hu iu) as (? & ? & ? & _). congruence. }
  destruct (JSON resp) as [i|] eqn:Hi; cbv iota; apply runs_yield.
  - exists (apply_instance s2 i). split; [done|]. split; [by apply tracked_apply_instance|]. intros Hu.
    destruct (vu_instance _ Hu iu) as (resp' & i' & Hr' & Hi' & Hst & Huuid).
    assert (resp' = resp) as -> by congruence. assert (i' = i) as -> by congruence.
    by apply running_apply_instance.
  - exists s2. split; [done|]. split; [done|]. intros Hu.
    destruct (vu_instance _ Hu iu) as (resp' & i' & ? & ? & _). congruence.
Qed.
End Steps.

(** *** The end of a reconcile *)

(** The object after a reconcile that leaves the status [s]. The reconcile that sets
    the provider ID goes on with the object of the API server's answer, and [s] is
    lost: the next one sets it again. *)
Definition published (m : WaldurMachine) (s : WaldurMachineStatus) : WaldurMachine :=
  setMachineReadyCondition
    match mst_State s, ms_ProviderID (wm_Spec m), mst_VmUuid s with
    | CoreStatesOK, None, Some vmUuid =>
        set_wm_ProviderID m (Some (Sprintf "waldur://%s" [vmUuid]))
    | _, _, _ => set_wm_Status m s
    end.

Lemma settle_live m : deleting m = false -> settle m = Alive m.
Proof. intros Hd. unfold settle. by rewrite Hd. Qed.

Lemma vm_publish_runs f m s :
  deleting m = false ->
  runs (machine_server f) (Alive m) (publish (set_wm_Status m s) m) (fun _ w => w = Alive (published m s)).
Proof.
  intros Hd. unfold publish.
  apply runs_bind. eapply runs_mono with (Q := fun o w => exists m1 base, w = Alive m1 /\
    deleting m1 = false /\ exists m2, o = Done (Ok (m2, base)) /\
    set_wm_Status m1 (wm_Status (setMachineReadyCondition m2)) = published m s).
  - unfold setProviderID, published. cbn [wm_Status wm_Spec set_wm_Status].
    assert (runs (machine_server f) (Alive m) (Ret (Ok (set_wm_Status m s, m))) (fun o w =>
      exists m1 base, w = Alive m1 /\ deleting m1 = false /\ exists m2, o = Done (Ok (m2, base)) /\
        set_wm_Status m1 (wm_Status (setMachineReadyCondition m2))
        = setMachineReadyCondition (set_wm_Status m s))) as Hsame by (runs_step; eauto 10).
    destruct (mst_State s), (ms_ProviderID (wm_Spec m)), (mst_VmUuid s); try exact Hsame.
    server_step. rewrite settle_live by done. runs_step. eauto 10.
  - intros o w (m1 & base & -> & Hd1 & m2 & -> & Hm). cbv iota zeta. server_step.
    rewrite settle_live, Hm by done. by destruct (bool_decide _); runs_step.
Qed.

(** *** One reconcile *)

Lemma provision_runs m0 wc f m machine :
  vm_provisions r m0 wc f -> kin m0 m -> provisioned wc ->
  ms_OfferingSlug (wm_Spec m0) ∈ slugs (cs_Datacenters (wc_Spec wc)) ->
  user_data_available r f machine ->
  resource m = "" \/ tracked_vm (wm_Status m) ->
  runs (machine_server f) (Alive m) (provision r machine m wc)
    (yields (Alive m) (fun res => exists s, res = Some (set_wm_Status m s) /\ tracked_vm s /\
      (resource m = "" -> mst_State s = CoreStatesCREATING) /\
      (resource m <> "" -> vm_up f -> running s))).
Proof.
  intros Hf Hkin Hp Hslug Hud Hst. unfold provision, resource in *.
  destruct (decide (mst_MarketplaceResourceUuid (wm_Status m) = "")) as [Hr|Hr].
  - rewrite bool_decide_eq_true_2 by done.
    eapply runs_bind_yields; [by eapply (createVM_runs m0 wc f)|].
    intros [m' err] (Herr & s & Hm & Ht & Hc). simpl in *. subst. apply runs_yield.
    exists s. do 2 (split; [done|]). done.
  - rewrite bool_decide_eq_false_2 by done. destruct Hst as [|Ht]; [done|].
    eapply runs_bind_yields; [by apply (refreshVM_tracked m0 wc)|].
    intros [m' err] (s & Hm & Hs & Hup). simpl in *. subst. apply runs_yield.
    exists s. do 2 (split; [done|]). done.
Qed.

Lemma vm_normal_runs m0 wc f m :
  vm_provisions r m0 wc f -> kin m0 m -> provisioned wc -> deleting m = false ->
  owner_name "Machine" (om_OwnerReferences (wm_ObjectMeta m0)) <> "" ->
  ms_OfferingSlug (wm_Spec m0) ∈ slugs (cs_Datacenters (wc_Spec wc)) ->
  resource m = "" \/ tracked_vm (wm_Status m) ->
  runs (machine_server f) (Alive m) (reconcileNormal r m) (fun _ w => exists s,
    w = Alive (published m s) /\ tracked_vm s /\
    (resource m = "" -> mst_State s = CoreStatesCREATING) /\
    (resource m <> "" -> vm_up f -> running s)).
Proof.
  intros Hf Hkin Hp Hd Hown Hslug Hst. unfold reconcileNormal. cbv zeta.
  destruct (vp_owners _ _ _ _ Hf)
    as (machine & cluster & name & infra & Hmachine & Hname & Hne & Hcluster & Hinfra & Hwc & Hud).
  rewrite (kin_owners _ _ Hkin), (kin_namespace _ _ Hkin), bool_decide_eq_false_2 by done.
  server_step. rewrite Hmachine. cbv iota. rewrite Hname. simpl default.
  rewrite bool_decide_eq_false_2 by done. server_step. rewrite Hcluster. cbv iota.
  rewrite Hinfra. runs_step. cbv beta. server_step. rewrite Hwc. cbv iota.
  eapply runs_bind_yields; [by eapply provision_runs|]. intros _ (s & -> & Hs & Hc & Hup). cbv iota.
  eapply runs_mono; [by apply vm_publish_runs|]. intros _ w ->. by exists s.
Qed.

(** A machine that waits for its finalizer ([3]), its order ([2]), the provider ID
    ([1]) or only the state of its VM ([0]), or for less. *)
Record vm_staged (m0 : WaldurMachine) (n : nat) (m : WaldurMachine) : Prop := {
  vs_deleting : deleting m = false;
  vs_kin : kin m0 m;
  vs_status : resource m = "" \/ tracked_vm (wm_Status m);
  vs_finalizer : n <= 2 -> machineFinalizer ∈ finalizers m;
  vs_ordered : n <= 1 -> resource m <> "";
  vs_provider : n = 0 -> is_Some (ms_ProviderID (wm_Spec m));
}.

Lemma vm_staged_le m0 n n' m : vm_staged m0 n m -> n <= n' -> vm_staged m0 n' m.
Proof. intros [] Hle. split; auto with lia. Qed.

(** The machine its status says is ready. *)
Record vm_ready (m : WaldurMachine) : Prop := {
  vr_running : running (wm_Status m);
  vr_provider : is_Some (ms_ProviderID (wm_Spec m));
  vr_condition : FindStatusCondition (mst_Conditions (wm_Status m)) "Ready" =
    Some (mkCondition "Ready" ConditionTrue "Provisioned" "VM is running");
}.

(** The machine still has to be ordered. *)
Definition owed (m : WaldurMachine) : nat := if decide (resource m = "") then 1 else 0.

(** What a reconcile publishes is one stage on, at least. *)
Lemma published_staged m0 n m s :
  vm_staged m0 n m -> machineFinalizer ∈ finalizers m -> tracked_vm s ->
  (resource m = "" -> mst_State s = CoreStatesCREATING) ->
  vm_staged m0 1 (published m s) /\
  (running s -> vm_staged m0 0 (published m s)) /\
  (running s -> n = 0 -> vm_ready (published m s)).
Proof.
  intros [Hd [] Hst _ Hord Hprov] Hfin Hs Hc. unfold published.
  assert (vm_staged m0 1 (setMachineReadyCondition (set_wm_Status m s))) as Hplain.
  { split; [done|by split|right; apply Hs|done|intros _; apply Hs|done]. }
  assert (is_Some (ms_ProviderID (wm_Spec m)) -> running s ->
    vm_staged m0 0 (setMachineReadyCondition (set_wm_Status m s)) /\
    vm_ready (setMachineReadyCondition (set_wm_Status m s))) as Hzero.
  { intros Hp Hrun. split; [destruct Hplain; by split; auto|]. split; [done|done|].
    destruct Hrun as [Hok _]. unfold setMachineReadyCondition. cbn. rewrite Hok. cbn.
    exact (SetStatusCondition_eq _ (mkCondition "Ready" ConditionTrue "Provisioned" "VM is running")). }
  destruct (mst_State s) eqn:Hok; try (split_and!; [done|by intros [? _]; congruence..]).
  destruct (ms_ProviderID (wm_Spec m)) as [id|] eqn:Hid.
  { split_and!; [done|intros Hrun; by apply Hzero|intros Hrun _; by apply Hzero]. }
  destruct (mst_VmUuid s) as [v|] eqn:Hv.
  2: { split_and!; [done|by intros (_ & [? ?] & _); congruence..]. }
  assert (vm_staged m0 0 (setMachineReadyCondition
    (set_wm_ProviderID m (Some (Sprintf "waldur://%s" [v]))))) as Hset.
  { assert (resource m <> "") as Hr by (intros Hr; by specialize (Hc Hr)).
    destruct Hst as [?|Ht]; [done|]. split; [done|by split|by right|done|done|]. intros _. by eexists. }
  split_and!; [apply (vm_staged_le m0 0); [exact Hset|lia]|done|]. intros _ ->. by destruct Hprov.
Qed.

Definition vm_orders f (w : world) : nat :=
  count (S := ctl) is_order_create (run_trace (machine_server f) w (Reconcile r req)).

(** A reconcile of a machine that is not being deleted. *)
Definition vm_live_program (m : WaldurMachine) : M (result ctrl_Result) :=
  if negb (ContainsFinalizer (finalizers m) machineFinalizer)
  then let? _ := ask (KUpdateWaldurMachine
                        (set_wm_Finalizers m (AddFinalizer (finalizers m) machineFinalizer)))
         else err => Ret (Err (Wrap err "unable to add finalizer")) in
       Ret (Ok (requeue 0))
  else reconcileNormal r m.

Lemma vm_Reconcile_live f m (Q : world -> nat -> Prop) :
  deleting m = false ->
  Q (run (machine_server f) (Alive m) (vm_live_program m)).2
    (count (S := ctl) is_order_create (run_trace (machine_server f) (Alive m) (vm_live_program m))) ->
  Q (reconciled r req f (Alive m)) (vm_orders f (Alive m)).
Proof.
  intros Hd HQ. unfold vm_orders, reconciled, Reconcile.
  rewrite run_trace_ask, count_cons. cbn [is_order_create Nat.add machine_server stored fst snd].
  unfold deleting in Hd. cbv zeta. rewrite Hd. unfold vm_live_program in HQ.
  apply (runs_ask (machine_server f) (Alive m) (KGetWaldurMachine req) _ (fun _ w => Q w _)).
  cbn [machine_server stored fst snd]. cbv zeta. rewrite Hd. exact HQ.
Qed.

Lemma vm_finalizer_step m0 f m :
  vm_staged m0 3 m -> machineFinalizer ∉ finalizers m ->
  exists m', reconciled r req f (Alive m) = Alive m' /\
    vm_staged m0 2 m' /\
    vm_orders f (Alive m) + owed m' <= owed m.
Proof.
  intros Hst Hfin. apply vm_Reconcile_live; [apply Hst|].
  assert (ContainsFinalizer (finalizers m) machineFinalizer = false) as Hno.
  { destruct (ContainsFinalizer _ _) eqn:E; [|done]. by apply ContainsFinalizer_spec in E. }
  unfold vm_live_program. rewrite Hno. cbn [negb]. set (m' := set_wm_Finalizers m _).
  assert (deleting m' = false) as Hd by (rewrite <- (vs_deleting _ _ _ Hst); done).
  assert (machineFinalizer ∈ finalizers m') as Hfin'
    by (unfold finalizers; cbn; apply AddFinalizer_spec; by left).
  exists m'. split_and!.
  - apply (runs_ask (machine_server f) (Alive m) _ _ (fun _ w => w = Alive m')).
    cbn [machine_server stored fst snd]. by rewrite settle_live.
  - destruct Hst as [_ [] Hs _ _ _]. split; [done|by split|done|done|lia|lia].
  - rewrite run_trace_ask, count_cons. exact (le_n (owed m)).
Qed.

Lemma vm_provisioning_step m0 wc f n m :
  vm_provisions r m0 wc f -> provisioned wc ->
  owner_name "Machine" (om_OwnerReferences (wm_ObjectMeta m0)) <> "" ->
  ms_OfferingSlug (wm_Spec m0) ∈ slugs (cs_Datacenters (wc_Spec wc)) ->
  vm_staged m0 n m -> machineFinalizer ∈ finalizers m ->
  exists m', reconciled r req f (Alive m) = Alive m' /\ vm_staged m0 1 m' /\
    vm_orders f (Alive m) + owed m' <= owed m /\
    (vm_up f -> resource m <> "" -> vm_staged m0 0 m' /\ (n = 0 -> vm_ready m')).
Proof.
  intros Hf Hp Hown Hslug Hst Hfin. apply vm_Reconcile_live; [apply Hst|].
  unfold vm_live_program. apply ContainsFinalizer_spec in Hfin as Hyes. rewrite Hyes. cbn [negb].
  pose proof (vm_normal_runs m0 wc f m Hf (vs_kin _ _ _ Hst) Hp (vs_deleting _ _ _ Hst) Hown Hslug (vs_status _ _ _ Hst))
    as (s & Hw & Hs & Hc & Hup).
  destruct (published_staged m0 n m s Hst Hfin Hs Hc) as (Hone & Hzero & Hready).
  exists (published m s). split; [exact Hw|]. split; [exact Hone|]. split.
  - replace (owed (published m s)) with 0 by (unfold owed; by rewrite decide_False by (by apply (vs_ordered _ _ _ Hone))).
    rewrite Nat.add_0_r.
    pose proof (run_execs _ (Alive m) (reconcileNormal r m) (machine_server_allowed f (vp_range _ _ _ _ Hf))) as He.
    exact (at_most_execs _ _ _ _ _ (reconcileNormal_at_most r m) He).
  - intros Hvm Hr. split; [apply Hzero; auto|intros Hn; apply Hready; auto].
Qed.

Lemma vm_step m0 wc f n m :
  vm_provisions r m0 wc f -> provisioned wc ->
  owner_name "Machine" (om_OwnerReferences (wm_ObjectMeta m0)) <> "" ->
  ms_OfferingSlug (wm_Spec m0) ∈ slugs (cs_Datacenters (wc_Spec wc)) ->
  vm_staged m0 n m -> n <= 3 ->
  exists m', reconciled r req f (Alive m) = Alive m' /\ vm_staged m0 (Nat.max 1 (Nat.pred n)) m' /\
    vm_orders f (Alive m) + owed m' <= owed m /\
    (vm_up f -> n <= 1 -> vm_staged m0 0 m' /\ (n = 0 -> vm_ready m')).
Proof.
  intros Hf Hp Hown Hslug Hst Hn. destruct (decide (machineFinalizer ∈ finalizers m)) as [Hfin|Hfin].
  - destruct (vm_provisioning_step m0 wc f n m Hf Hp Hown Hslug Hst Hfin) as (m' & ? & ? & ? & Hup).
    exists m'. split_and!; [done|eapply vm_staged_le; [done|lia]|done|]. intros Hvm Hn'.
    apply Hup; [done|]. by apply (vs_ordered _ _ _ Hst).
  - destruct n as [|[|[|[|n]]]]; [by destruct Hfin; apply (vs_finalizer _ _ _ Hst); lia..| |lia].
    destruct (vm_finalizer_step m0 f m Hst Hfin) as (m' & ? & ? & ?).
    exists m'. split_and!; [done|done|done|lia].
Qed.

(** *** Reconciles in a row *)

(** The orders of the reconciles together. *)
Fixpoint vm_orders_in (fs : list (forall c : Call, Call_resp c)) (w : world) : nat :=
  match fs with
  | [] => 0
  | f :: fs => vm_orders f w + vm_orders_in fs (reconciled r req f w)
  end.

Lemma vm_orders_in_app fs fs' w :
  vm_orders_in (fs ++ fs') w = vm_orders_in fs w + vm_orders_in fs' (reconciles r req fs w).
Proof. revert w. induction fs as [|f fs IH]; intros w; simpl; [lia|]. rewrite IH. lia. Qed.

Section Progress.
Variables (m0 : WaldurMachine) (wc : WaldurCluster).
Hypothesis Hcluster : provisioned wc.
Hypothesis Howner : owner_name "Machine" (om_OwnerReferences (wm_ObjectMeta m0)) <> "".
Hypothesis Hoffering : ms_OfferingSlug (wm_Spec m0) ∈ slugs (cs_Datacenters (wc_Spec wc)).

Lemma vm_progress fs n m :
  Forall (vm_provisions r m0 wc) fs -> vm_staged m0 n m -> n <= 3 -> n <= Datatypes.S (length fs) ->
  exists m', reconciles r req fs (Alive m) = Alive m' /\ vm_staged m0 1 m' /\
    vm_orders_in fs (Alive m) + owed m' <= owed m.
Proof.
  intros Hfs. revert n m. induction Hfs as [|f fs Hf _ IH]; intros n m Hst Hn3 Hn; simpl in *.
  { exists m. split_and!; [done|eapply vm_staged_le; [done|lia]|lia]. }
  destruct (vm_step m0 wc f n m Hf Hcluster Howner Hoffering Hst Hn3) as (m1 & Hr1 & Hst1 & Ho1 & _).
  destruct (IH _ m1 Hst1) as (m' & Hr & Hst' & Ho); [lia..|].
  rewrite Hr1. exists m'. split_and!; [done..|lia].
Qed.
End Progress.

(** C3. Provisioning of a machine completes. A machine with an owner, in a datacenter of
    a cluster that is ready (as [cluster_provisioning_completes] leaves it), not yet
    ordered or ordered with well-formed UUIDs, ends up ready: after two reconciles
    or more that find the user data and a Waldur that takes the order, two
    reconciles at which Waldur reports the VM as OK leave a status with the VM's
    UUID, the machine provisioned and the Ready condition True, and a provider ID.
    All the reconciles together submit no more than the one order that was owed. *)
Theorem machine_provisioning_completes fs f1 f2 m wc :
  provisioned wc -> ms_OfferingSlug (wm_Spec m) ∈ slugs (cs_Datacenters (wc_Spec wc)) ->
  deleting m = false -> owner_name "Machine" (om_OwnerReferences (wm_ObjectMeta m)) <> "" ->
  resource m = "" \/ tracked_vm (wm_Status m) ->
  Forall (vm_provisions r m wc) (fs ++ [f1; f2]) -> 2 <= length fs -> vm_up f1 -> vm_up f2 ->
  exists m', reconciles r req (fs ++ [f1; f2]) (Alive m) = Alive m' /\ vm_ready m' /\
    vm_orders_in (fs ++ [f1; f2]) (Alive m) <= owed m.
Proof.
  intros Hwc Hslug Hd Hown Hst [Hfs [Hf1 [Hf2 _]%Forall_cons]%Forall_cons]%Forall_app Hlen Hup1 Hup2.
  assert (vm_staged m 3 m) as Hst3 by (split; [done|done|done|lia|lia|lia]).
  destruct (vm_progress m wc Hwc Hown Hslug fs 3 m Hfs Hst3) as (m1 & Hr1 & Hst1 & Ho1); [lia..|].
  destruct (vm_step m wc f1 1 m1 Hf1 Hwc Hown Hslug Hst1) as (m2 & Hr2 & _ & Ho2 & Hz2); [lia|].
  destruct (Hz2 Hup1) as [Hst2 _]; [lia|].
  destruct (vm_step m wc f2 0 m2 Hf2 Hwc Hown Hslug Hst2) as (m3 & Hr3 & _ & Ho3 & Hz3); [lia|].
  exists m3. rewrite vm_orders_in_app, Hr1. unfold reconciles in *. rewrite fold_left_app, Hr1. simpl.
  rewrite Hr2, Hr3. split_and!; [done|apply Hz3; [done|lia|done]|lia].
Qed.
End MachineProvisioning.

(** A cluster that is ready. *)
Definition up_cluster : WaldurCluster :=
  ClusterController.setReadyCondition (waldur_cluster [datacenter "dc-one"] {["dc-one" := ready_tenant_status]} None).

Lemma up_cluster_provisioned : provisioned up_cluster.
Proof.
  split; [vm_compute; reflexivity| |vm_compute; reflexivity..].
  apply map_Forall_singleton. split; [|split_and!; [done|done|by exists tenant_uuid]].
  split; [done|]. split; [exists tenant_resource_uuid; vm_compute; reflexivity|].
  split; [by eexists|done].
Qed.

(** A Waldur that has taken the order but not carried it out. *)
Definition vm_pending : forall c : Call, Call_resp c :=
  but (healthy new_machine up_cluster) (fun c =>
    match c return option (Call_resp c) with
    | MarketplaceResourcesRetrieve _ => Some (http 200 (mkResource None None None))
    | _ => None
    end).

(** The cases that [eexists] leaves: lists of complete objects. *)
Ltac complete_lists :=
  repeat first [apply Forall_cons_2|apply Forall_nil_2|by apply Exists_cons_hd|apply Exists_cons_tl];
  by repeat eexists.

Lemma healthy_vm : vm_provisions plain fresh_machine up_cluster (healthy new_machine up_cluster).
Proof. split; intros; try done; repeat eexists; try done; complete_lists. Qed.

Lemma pending_vm : vm_provisions plain fresh_machine up_cluster vm_pending.
Proof. split; intros; try done; repeat eexists; try done; complete_lists. Qed.

Lemma healthy_vm_up : vm_up (healthy new_machine up_cluster).
Proof. split; intros; repeat eexists. Qed.

(** A new machine, without its finalizer. *)
Lemma machine_provisioning_completes_witness :
  let fs := repeat vm_pending 3 ++ repeat (healthy new_machine up_cluster) 2 in
  exists m', reconciles plain req fs (Alive fresh_machine) = Alive m' /\ vm_ready m' /\
    vm_orders_in plain req fs (Alive fresh_machine) <= 1.
Proof.
  intros fs.
  apply (machine_provisioning_completes plain req (repeat vm_pending 3)
           (healthy new_machine up_cluster) (healthy new_machine up_cluster) fresh_machine up_cluster).
  - apply up_cluster_provisioned.
  - apply (bool_decide_unpack _). vm_compute. exact I.
  - done.
  - done.
  - by left.
  - simpl. auto 8 using Forall_cons_2, healthy_vm, pending_vm.
  - simpl. lia.
  - apply healthy_vm_up.
  - apply healthy_vm_up.
Defined.

(** The reconcile that first finds the VM running sets the provider ID and publishes
    the state there was before: only the next one publishes that the machine is ready. *)
Lemma first_running_status_lost :
  exists m1 m2,
    reconciled plain req (healthy new_machine up_cluster) (Alive ordered_machine) = Alive m1 /\
    ms_ProviderID (wm_Spec m1) = Some ("waldur://" ++ text instance_uuid)%string /\
    mst_State (wm_Status m1) = CoreStatesCREATING /\ mst_VmUuid (wm_Status m1) = None /\
    reconciled plain req (healthy new_machine up_cluster) (Alive m1) = Alive m2 /\
    mst_State (wm_Status m2) = CoreStatesOK.
Proof.
  eexists _, _. split_and!; [vm_compute; reflexivity|reflexivity..|vm_compute; reflexivity|reflexivity].
Qed.
