(* ===== verification/Startup.v ===== *)
(** Start-up: src/cmd/main.go, from the parsed command line to the running manager.

    Everything it asks of the outside is a call of the signature [boot]: the
    environment, the API reader, controller-runtime, and the requests of the Vault
    client. [os.Exit(1)] ends the program with [Exit 1]. [Start] is [mgr.Start]: it
    answers when the manager has stopped, so an execution is a run of main that ends,
    and what the theorems say of [Start] they say of such runs. *)
From S2P Require Import Prelude Prog Vault VaultFacts Types.
From Stdlib Require Import ZArith Lia.
From stdpp Require Import base gmap strings list.
Local Open Scope string_scope.
Local Open Scope list_scope.
Local Open Scope go_scope.

(** ** Command line *)

Record Flags := mkFlags {
  metricsAddr : string;
  probeAddr : string;
  enableLeaderElection : bool;
  secureMetrics : bool;
  webhookCertPath : string;
  webhookCertName : string;
  webhookCertKey : string;
  metricsCertPath : string;
  metricsCertName : string;
  metricsCertKey : string;
  enableHTTP2 : bool;
}.

(** The values of the flags that are not given. *)
Definition default_flags : Flags :=
  mkFlags "0" ":8081" false true "" "tls.crt" "tls.key" "" "tls.crt" "tls.key" false.

(** A server's certificate: directory, certificate and key. *)
Record CertOptions := mkCertOptions { CertDir : string; CertName : string; KeyName : string }.

(** The options of the manager. The one TLS option there is sets the next protocols
    to HTTP/1.1; [FilterProvider] is authentication and authorization. *)
Record ManagerOptions := mkManagerOptions {
  mo_WebhookNextProtos : list (list string);
  mo_WebhookCert : option CertOptions;
  mo_MetricsBindAddress : string;
  mo_MetricsSecureServing : bool;
  mo_MetricsNextProtos : list (list string);
  mo_MetricsFilterProvider : bool;
  mo_MetricsCert : option CertOptions;
  mo_HealthProbeBindAddress : string;
  mo_LeaderElection : bool;
  mo_LeaderElectionID : string;
}.

Definition disableHTTP2 : list string := ["http/1.1"].

Definition cert_options (path name key : string) : option CertOptions :=
  if Nat.ltb 0 (String.length path) then Some (mkCertOptions path name key) else None.

Definition manager_options (f : Flags) : ManagerOptions :=
  let tlsOpts := if negb (enableHTTP2 f) then [disableHTTP2] else [] in
  mkManagerOptions tlsOpts
    (cert_options (webhookCertPath f) (webhookCertName f) (webhookCertKey f))
    (metricsAddr f) (secureMetrics f) tlsOpts (secureMetrics f)
    (cert_options (metricsCertPath f) (metricsCertName f) (metricsCertKey f))
    (probeAddr f) (enableLeaderElection f) "c2cd5ec4.cluster.waldur.com".

(** ** Calls *)

(** The machine reconciler as it is set up: its Vault client, its base template
    and the operator's namespace. *)
Record MachineSetup := mkMachineSetup {
  ms_Vault : option client;
  ms_BaseTemplate : string;
  ms_OperatorNamespace : string;
}.

Inductive BootCall :=
| NewManager (options : ManagerOptions)
| Getenv (name : string)
| NewTokenAuth (token : string)
| NewClientWithResponses (url : string)
| GetConfigMap (nn : NamespacedName)
| GetSecret (nn : NamespacedName)
| Net (c : NetCall)
| SetupWaldurCluster
| SetupWaldurMachine (r : MachineSetup)
| AddHealthzCheck
| AddReadyzCheck
| Start.

(** A ConfigMap is its data; a call without a value answers its error. *)
Definition BootCall_resp (c : BootCall) : Type :=
  match c with
  | Getenv _ => string
  | GetConfigMap _ => result (gmap string string)
  | GetSecret _ => result Secret
  | Net c => NetCall_resp c
  | _ => option error
  end.

Definition boot : sig := Sig BootCall BootCall_resp (fun _ _ => True).

Abbreviation B := (prog boot).

Definition boot_ask (c : BootCall) : B (BootCall_resp c) := perform (S := boot) c.

#[global] Arguments boot_ask : simpl never.

(** The requests of the Vault client among the calls of [main]. *)
Fixpoint in_boot {A} (p : V A) : B A :=
  match p with
  | Ret a => Ret a
  | Panic => Panic
  | Vis c k => Vis (S := boot) (Net c) (fun r => in_boot (k r))
  end.

Inductive exit := Exit (code : Z) | Returned.

(** [if err := m; err != nil { os.Exit(1) }]. *)
Definition or_exit (m : B (option error)) (k : B exit) : B exit :=
  let* err := m in
  match err with
  | Some _ => Ret (Exit 1)
  | None => k
  end.

(** ** The steps of main *)

Definition initWaldurClient (apiUrl apiToken : string) : B (option error) :=
  let* err := boot_ask (NewTokenAuth apiToken) in
  match err with
  | Some e => Ret (Some e)
  | None => boot_ask (NewClientWithResponses apiUrl)
  end.

Definition defaultNamespace : string := "cluster-api-provider-waldur-system".
Definition defaultAppRoleSecret : string := "waldur-vault-approle".

(** The optional base template, from a ConfigMap. *)
Definition loadBaseTemplate (operatorNamespace : string) : B (result string) :=
  let* configMap := boot_ask (Getenv "BASE_TEMPLATE_CONFIGMAP") in
  if bool_decide (configMap = "") then Ret (Ok "")
  else
    let? data := boot_ask (GetConfigMap (mkNamespacedName operatorNamespace configMap))
      else err => Ret (Err err) in
    Ret (Ok (default "" (data !! "cloud-init.yaml"))).

(** AppRole: the credentials are read from a Secret. *)
Definition initAppRole (vaultAddr appRoleSecret operatorNamespace : string) : B (result client) :=
  let? secret := boot_ask (GetSecret (mkNamespacedName operatorNamespace appRoleSecret))
    else err => Ret (Err err) in
  let roleID := secret_field secret "role_id" in
  let secretID := secret_field secret "secret_id" in
  if bool_decide (roleID = "") || bool_decide (secretID = "")
  then Ret (Err (Errorf "Vault AppRole secret must contain non-empty role_id and secret_id" []))
  else in_boot (NewClientWithAppRole vaultAddr roleID secretID).

(** The Vault client, when [VAULT_ADDR] is set. *)
Definition initVault (operatorNamespace : string) : B (result (option client)) :=
  let* vaultAddr := boot_ask (Getenv "VAULT_ADDR") in
  if bool_decide (vaultAddr = "") then Ret (Ok None)
  else
    let* vaultK8sRole := boot_ask (Getenv "VAULT_K8S_ROLE") in
    let* vaultAppRoleSecret := boot_ask (Getenv "VAULT_APPROLE_SECRET") in
    let vaultAppRoleSecret := or_default vaultAppRoleSecret defaultAppRoleSecret in
    let? vc :=
      (if negb (bool_decide (vaultK8sRole = ""))
       then in_boot (NewClient (mkConfig vaultAddr "" vaultK8sRole ""))
       else initAppRole vaultAddr vaultAppRoleSecret operatorNamespace)
      else err => Ret (Err err) in
    Ret (Ok (Some vc)).

(** From the configuration to the end of the process. *)
Definition runControllers (r : MachineSetup) : B exit :=
  or_exit (boot_ask SetupWaldurCluster)
    (or_exit (boot_ask (SetupWaldurMachine r))
      (or_exit (boot_ask AddHealthzCheck)
        (or_exit (boot_ask AddReadyzCheck)
          (or_exit (boot_ask Start) (Ret Returned))))).

Definition main (f : Flags) : B exit :=
  or_exit (boot_ask (NewManager (manager_options f)))
    (let* waldurApiUrl := boot_ask (Getenv "WALDUR_API_URL") in
     if bool_decide (waldurApiUrl = "") then Ret (Exit 1)
     else
       let* waldurApiToken := boot_ask (Getenv "WALDUR_API_TOKEN") in
       if bool_decide (waldurApiToken = "") then Ret (Exit 1)
       else
         or_exit (initWaldurClient waldurApiUrl waldurApiToken)
           (let* podNamespace := boot_ask (Getenv "POD_NAMESPACE") in
            let operatorNamespace := or_default podNamespace defaultNamespace in
            let? baseTemplate := loadBaseTemplate operatorNamespace
              else err => Ret (Exit 1) in
            let? vaultClient := initVault operatorNamespace
              else err => Ret (Exit 1) in
            runControllers (mkMachineSetup vaultClient baseTemplate operatorNamespace))).

(** ** What main does *)

Lemma wp_boot_bind {A} (c : BootCall) (f : BootCall_resp c -> B A) Q :
  (forall r, wp (f r) (fun tr o => Q (@Ev boot c r :: tr) o)) -> wp (bind (boot_ask c) f) Q.
Proof. intros H r _. apply H. Qed.

(** A call/answer pair of start-up. *)
Abbreviation BEvt c r := (@Ev boot c r).

Ltac boot_step :=
  cbv beta iota zeta;
  lazymatch goal with
  | |- wp (bind (boot_ask _) _) _ => apply wp_boot_bind; intros ?
  | |- wp (boot_ask _) _ => intros ? _
  | |- _ => wp_pure_step
  end.

Ltac boot_steps := repeat boot_step.

(** The calls that bring the controllers up. *)
Definition brings_up (c : BootCall) : bool :=
  match c with
  | SetupWaldurCluster | SetupWaldurMachine _ | AddHealthzCheck | AddReadyzCheck | Start => true
  | _ => false
  end.

Definition prepares (c : BootCall) : Prop := brings_up c = false.

Lemma in_boot_wp {A} (p : V A) :
  wp (in_boot p) (fun tr o => Forall (fun e : event boot => prepares (ev_call e)) tr /\ exists t, execs p t o).
Proof.
  induction p as [a| |c k IH]; simpl; [by eauto..|].
  intros r _. eapply wp_mono; [apply IH|]. intros tr o (Htr & t & Ht).
  split; [by constructor|]. exists (NEvt c r :: t). by constructor.
Qed.

(** The configuration of a Vault client that [main] made from the environment. *)
Definition vault_configured (tr : list (event boot)) (vault : option client) : Prop :=
  exists address, BEvt (Getenv "VAULT_ADDR") address ∈ tr /\
    match vault with
    | None => address = ""
    | Some c =>
        address <> "" /\ addr c = address /\ vaultToken c <> "" /\
        exists role, BEvt (Getenv "VAULT_K8S_ROLE") role ∈ tr /\
          ((role <> "" /\ method c = authMethodKubernetes /\ k8sRole c = role) \/
           (role = "" /\ method c = authMethodAppRole /\ appRoleID c <> "" /\ appSecretID c <> ""))
    end.

Definition prepared {A} (Q : list (event boot) -> A -> Prop) (tr : list (event boot))
    (o : outcome (result A)) : Prop :=
  Forall (fun e : event boot => prepares (ev_call e)) tr /\
  match o with Done (Ok a) => Q tr a | Done (Err _) => True | Panicked => False end.

Lemma initAppRole_spec address secret ns :
  wp (initAppRole address secret ns) (prepared (fun _ c =>
    addr c = address /\ vaultToken c <> "" /\ method c = authMethodAppRole /\
    appRoleID c <> "" /\ appSecretID c <> "")).
Proof.
  unfold initAppRole, prepared. boot_step. boot_step; [|by boot_steps; split; [repeat constructor|]].
  boot_step; [by boot_steps; split; [repeat constructor|]|].
  match goal with H : _ || _ = false |- _ =>
    apply orb_false_iff in H as [Hr%bool_decide_eq_false Hs%bool_decide_eq_false] end.
  eapply wp_mono; [apply in_boot_wp|]. intros tr o (Htr & t & Ht).
  apply (wp_sound _ _ _ _ (NewClientWithAppRole_spec _ _ _)) in Ht.
  split; [by constructor|]. destruct o as [[c|e]|]; [|done|done].
  destruct Ht as [Hne ->]. by split_and!.
Qed.

Lemma initVault_spec ns : wp (initVault ns) (prepared vault_configured).
Proof.
  unfold initVault, prepared. boot_step. boot_step.
  { boot_steps. split; [by constructor|]. eexists. split; [apply list_elem_of_here|].
    by apply bool_decide_eq_true in Heqb. }
  match goal with H : bool_decide _ = false |- _ => apply bool_decide_eq_false in H end.
  boot_step. boot_step.
  (* with the client of either method *)
  eapply (wp_bind_mono _ _ (prepared (fun _ c =>
    addr c = r /\ vaultToken c <> "" /\
    ((r0 <> "" /\ method c = authMethodKubernetes /\ k8sRole c = r0) \/
     (r0 = "" /\ method c = authMethodAppRole /\ appRoleID c <> "" /\ appSecretID c <> ""))))).
  - boot_step.
    + eapply wp_mono; [apply in_boot_wp|]. intros tr o (Htr & t & Ht).
      apply (wp_sound _ _ _ _ (NewClient_spec _)) in Ht. split; [done|].
      destruct o as [[c|e]|]; [|done|done]. destruct Ht as [Hne ->].
      match goal with H : negb _ = true |- _ => apply negb_true_iff, bool_decide_eq_false in H end.
      split_and!; [done|done|]. by left.
    + match goal with H : negb _ = false |- _ => apply negb_false_iff, bool_decide_eq_true in H end.
      eapply wp_mono; [apply initAppRole_spec|]. intros tr o [Htr Ho]. split; [done|].
      destruct o as [[c|e]|]; [|done|done]. destruct Ho as (? & ? & ? & ? & ?).
      split_and!; [done|done|]. by right.
  - intros tr [c|e] [Htr Hc]; boot_steps; (split; [by repeat constructor; rewrite app_nil_r|]);
      [|done]. destruct Hc as (Ha & Ht & Hm). exists r. split; [apply list_elem_of_here|].
    split_and!; [done..|]. exists r0. split; [|done].
    apply list_elem_of_further, list_elem_of_here.
  - by intros tr [_ ?].
Qed.

Lemma loadBaseTemplate_spec ns :
  wp (loadBaseTemplate ns) (prepared (fun tr template =>
    template <> "" -> exists name data,
      BEvt (Getenv "BASE_TEMPLATE_CONFIGMAP") name ∈ tr /\
      BEvt (GetConfigMap (mkNamespacedName ns name)) (Ok data) ∈ tr /\
      data !! "cloud-init.yaml" = Some template)).
Proof.
  unfold loadBaseTemplate, prepared. boot_steps.
  all: split; [by repeat constructor|]; try done.
  intros Hne. exists r, a. split_and!; [set_solver|set_solver|].
  by destruct (_ !! _).
Qed.

(** What [main] has established before it sets up the controllers. *)
Record configured (f : Flags) (tr : list (event boot)) (s : MachineSetup) : Prop := {
  conf_manager : BEvt (NewManager (manager_options f)) None ∈ tr;
  conf_api : exists url token,
    BEvt (Getenv "WALDUR_API_URL") url ∈ tr /\ url <> "" /\
    BEvt (Getenv "WALDUR_API_TOKEN") token ∈ tr /\ token <> "" /\
    BEvt (NewTokenAuth token) None ∈ tr /\ BEvt (NewClientWithResponses url) None ∈ tr;
  conf_namespace : exists ns,
    BEvt (Getenv "POD_NAMESPACE") ns ∈ tr /\
    ms_OperatorNamespace s = or_default ns defaultNamespace;
  conf_template : ms_BaseTemplate s <> "" -> exists name data,
    BEvt (Getenv "BASE_TEMPLATE_CONFIGMAP") name ∈ tr /\
    BEvt (GetConfigMap (mkNamespacedName (ms_OperatorNamespace s) name)) (Ok data) ∈ tr /\
    data !! "cloud-init.yaml" = Some (ms_BaseTemplate s);
  conf_vault : vault_configured tr (ms_Vault s);
}.

Lemma vault_configured_mono tr tr' vault :
  tr ⊆ tr' -> vault_configured tr vault -> vault_configured tr' vault.
Proof.
  intros Hsub (address & Hin & Hc). exists address. split; [auto|]. destruct vault as [c|]; [|done].
  destruct Hc as (? & ? & ? & role & Hrole & ?). split_and!; [done..|]. exists role. auto.
Qed.

Lemma main_spec f :
  wp (main f) (fun tr o =>
    (o = Done (Exit 1) /\ Forall (fun e : event boot => prepares (ev_call e)) tr) \/
    (exists pre s rest, tr = pre ++ rest /\
       Forall (fun e : event boot => prepares (ev_call e)) pre /\
       configured f pre s /\ execs (runControllers s) rest o)).
Proof.
  unfold main, or_exit, initWaldurClient.
  repeat lazymatch goal with
    | |- wp (bind (loadBaseTemplate _) _) _ => fail
    | |- _ => boot_step
    end.
  all: try (left; split; [done|by repeat constructor]).
  eapply wp_bind_mono; [apply loadBaseTemplate_spec| |by intros tr [_ ?]].
  intros tr1 [template|e] [Htr1 Htemplate]; cbv beta iota;
    [|boot_steps; left; split; [done|]; repeat constructor; by rewrite app_nil_r].
  eapply wp_bind_mono; [apply initVault_spec| |by intros tr [_ ?]].
  intros tr2 [vault|e] [Htr2 Hvault]; cbv beta iota;
    [|boot_steps; left; split; [done|]; repeat constructor; rewrite app_nil_r; by apply Forall_app].
  apply wp_complete. intros rest o Hrest. right.
  repeat match goal with H : bool_decide _ = false |- _ => apply bool_decide_eq_false in H end.
  eexists (_ :: _ :: _ :: _ :: _ :: _ :: tr1 ++ tr2), _, rest.
  split; [by simpl; rewrite <- app_assoc|]. split; [repeat constructor; by apply Forall_app|].
  split; [|exact Hrest]. split; simpl.
  - set_solver.
  - exists r, r0. set_solver.
  - exists r1. set_solver.
  - intros Hne. destruct (Htemplate Hne) as (name & data & H1 & H2 & H3).
    exists name, data. set_solver.
  - eapply vault_configured_mono; [|exact Hvault]. set_solver.
Qed.

(** The calls of a start that got as far as the manager. *)
Definition bring_up (s : MachineSetup) (a : option error) : list (event boot) :=
  [BEvt SetupWaldurCluster None; BEvt (SetupWaldurMachine s) None; BEvt AddHealthzCheck None;
   BEvt AddReadyzCheck None; BEvt Start a].

(** The answer of the manager, if the event is its start. *)
Definition start_answer (e : event boot) : option (option error) :=
  match ev_call e as c return BootCall_resp c -> option (option error) with
  | Start => fun a => Some a
  | _ => fun _ => None
  end (ev_resp e).

Lemma start_event e a : e = BEvt Start a -> start_answer e = Some a.
Proof. by intros ->. Qed.

Lemma prepares_no_start tr a :
  Forall (fun e : event boot => prepares (ev_call e)) tr -> BEvt Start a ∉ tr.
Proof. rewrite Forall_forall. intros H Hin. by pose proof (H _ Hin). Qed.

Lemma runControllers_spec s :
  wp (runControllers s) (fun tr o =>
    (exists a, tr = bring_up s a /\
       o = Done match a with None => Returned | Some _ => Exit 1 end) \/
    (o = Done (Exit 1) /\ forall a, BEvt Start a ∉ tr)).
Proof.
  unfold runControllers, or_exit. boot_steps.
  all: first [by left; eexists; split; [reflexivity|]|right; split; [done|]].
  all: intros a Hin.
  all: repeat (apply elem_of_cons in Hin as [Hin|Hin];
    [by apply eq_sym, start_event in Hin|]); by apply not_elem_of_nil in Hin.
Qed.

(** C20. The manager is started only after both controllers are set up, with a Waldur
    URL and token that are not empty, the namespace of the pod or the default one,
    the base template of the named ConfigMap or none, and a Vault client exactly if
    VAULT_ADDR is set: logged in, by the Kubernetes method if VAULT_K8S_ROLE is set,
    else by AppRole with non-empty credentials. *)
Theorem provider_starts_configured f tr o a :
  execs (main f) tr o -> BEvt Start a ∈ tr ->
  exists pre s, tr = pre ++ bring_up s a /\
    Forall (fun e : event boot => prepares (ev_call e)) pre /\ configured f pre s.
Proof.
  intros He Hin.
  apply (wp_sound _ _ _ _ (main_spec f)) in He as [[_ Hp]|(pre & s & rest & -> & Hp & Hc & He)].
  { by destruct (prepares_no_start _ _ Hp Hin). }
  apply elem_of_app in Hin as [Hin|Hin]; [by destruct (prepares_no_start _ _ Hp Hin)|].
  apply (wp_sound _ _ _ _ (runControllers_spec s)) in He as [(a' & -> & _)|[_ Hno]];
    [|by destruct (Hno a Hin)].
  exists pre, s. split_and!; [|done..]. do 2 f_equal.
  repeat (apply elem_of_cons in Hin as [Hin|Hin];
    [apply (f_equal start_answer) in Hin; try discriminate Hin; by injection Hin as ->|]).
  by apply not_elem_of_nil in Hin.
Qed.

(** C26. A run of main that ends, ends in one of two ways: it returns after a manager
    that ran without error, which was its last call, or it exits with status 1, and
    then no manager ran without error. It never panics. That the manager's Start
    answers is no part of the claim: while the manager runs, so does main. *)
Theorem main_exit_status f tr o :
  execs (main f) tr o ->
  (o = Done Returned /\ last tr = Some (BEvt Start None)) \/
  (o = Done (Exit 1) /\ BEvt Start None ∉ tr).
Proof.
  intros He.
  apply (wp_sound _ _ _ _ (main_spec f)) in He as [[-> Hp]|(pre & s & rest & -> & Hp & _ & He)].
  { right. split; [done|]. by apply prepares_no_start. }
  apply (wp_sound _ _ _ _ (runControllers_spec s)) in He as [([e|] & -> & ->)|[-> Hno]].
  - right. split; [done|]. intros [Hin|Hin]%elem_of_app; [by destruct (prepares_no_start _ _ Hp Hin)|].
    repeat (apply elem_of_cons in Hin as [Hin|Hin];
      [by apply (f_equal start_answer) in Hin|]). by apply not_elem_of_nil in Hin.
  - left. split; [done|]. by rewrite last_app.
  - right. split; [done|]. intros [Hin|Hin]%elem_of_app; [by destruct (prepares_no_start _ _ Hp Hin)|].
    by destruct (Hno _ Hin).
Qed.

(** ** A concrete start *)

(** An environment for AppRole, with a Vault that accepts the credentials. *)
Definition approle_host : environment boot unit := fun c w =>
  match c with
  | Getenv name =>
      (if bool_decide (name = "VAULT_ADDR") then "https://v"
       else if bool_decide (name = "WALDUR_API_URL") then "https://w"
       else if bool_decide (name = "WALDUR_API_TOKEN") then "token"
       else "", w)
  | GetConfigMap _ => (Ok ∅, w)
  | GetSecret _ => (Ok (mkSecret {["role_id" := "role"; "secret_id" := "secret"]}), w)
  | Net c => vault_server "new" c w
  | NewManager _ | NewTokenAuth _ | NewClientWithResponses _ | SetupWaldurCluster
  | SetupWaldurMachine _ | AddHealthzCheck | AddReadyzCheck | Start => (None, w)
  end.

Definition approle_start : list (event boot) := run_trace approle_host tt (main default_flags).

Lemma approle_execs :
  execs (main default_flags) approle_start (run_outcome approle_host tt (main default_flags)).
Proof. by apply run_execs. Qed.

Lemma provider_starts_configured_witness :
  exists pre s, approle_start = pre ++ bring_up s None /\ configured default_flags pre s.
Proof.
  assert (BEvt Start None ∈ approle_start) as Hin.
  { apply (list_elem_of_lookup_2 _ (length approle_start - 1)). vm_compute. reflexivity. }
  destruct (provider_starts_configured default_flags approle_start _ None approle_execs Hin)
    as (pre & s & Heq & _ & Hc).
  by exists pre, s.
Defined.

Lemma main_exit_status_witness :
  last approle_start = Some (BEvt Start None).
Proof.
  destruct (main_exit_status default_flags approle_start _ approle_execs) as [[_ Hl]|[Ho _]];
    [exact Hl|vm_compute in Ho; discriminate Ho].
Defined.
