(* ===== verification/Memory.v ===== *)
(** The memory of a Go program, as far as copying needs it: cells at locations,
    nil pointers, allocation, and what it means that memory represents a value.

    A [representation] relates a heap and a value in memory, whose pointers are
    locations, to a value without pointers; it stands if the heap grows. [copies c]
    says that the copying function [c] leaves the heap there was alone and gives a
    value that the new cells alone represent, so that the copy shares no cell with
    the original. *)
From S2P Require Import Prelude.
From Stdlib Require Import ZArith.
From stdpp Require Import base gmap strings list.

Definition loc := positive.

(** Pointers, slices and maps are nil or a location: of a [T], of the elements, of the
    entries. *)
Inductive ptr (T : Type) := nil_ptr | ptr_to (l : loc).
Inductive slice (T : Type) := nil_slice | slice_at (l : loc).
Inductive gomap (T : Type) := nil_map | map_at (l : loc).
Arguments nil_ptr {T}.
Arguments ptr_to {T} _.
Arguments nil_slice {T}.
Arguments slice_at {T} _.
Arguments nil_map {T}.
Arguments map_at {T} _.

(** ** Heaps that grow *)

Section Heaps.
Context {C : Type}.
Implicit Types h : gmap loc C.

Lemma heap_difference_mono h0 h1 h2 : h1 ⊆ h2 -> h1 ∖ h0 ⊆ h2 ∖ h0.
Proof.
  intros Hsub. apply map_subseteq_spec. intros l x [Hx Hn]%lookup_difference_Some.
  apply lookup_difference_Some. split; [by eapply lookup_weaken|done].
Qed.

Lemma heap_difference_anti h0 h1 h : h0 ⊆ h1 -> h ∖ h1 ⊆ h ∖ h0.
Proof.
  intros Hsub. apply map_subseteq_spec. intros l x [Hx Hn]%lookup_difference_Some.
  apply lookup_difference_Some. split; [done|]. by eapply lookup_weaken_None.
Qed.

(** What a part of the heap holds, the heap holds. *)
Lemma lookup_new {T} h0 h l (f : C -> option T) t :
  (h ∖ h0) !! l ≫= f = Some t -> h !! l ≫= f = Some t.
Proof.
  destruct ((h ∖ h0) !! l) as [x|] eqn:Hl; [|done].
  by apply lookup_difference_Some in Hl as [-> _].
Qed.
End Heaps.

(** ** Computations on the heap *)

(** [None] is a nil dereference, or a cell of another type. *)
Definition mem (C A : Type) : Type := gmap loc C -> option (A * gmap loc C).

#[export] Instance mem_ret C : MRet (mem C) := fun A a h => Some (a, h).
#[export] Instance mem_bind C : MBind (mem C) := fun A B k m h =>
  match m h with Some (a, h') => k a h' | None => None end.

(** Cells that hold values of type [T]. *)
Class Stored (T C : Type) := {
  to_cell : T -> C;
  of_cell : C -> option T;
  of_to_cell : forall t, of_cell (to_cell t) = Some t;
}.

Definition load `{Stored T C} (l : loc) : mem C T := fun h =>
  t ← h !! l ≫= of_cell; Some (t, h).

(** [new(T)] or [make], and the value put into it. *)
Definition new `{Stored T C} (t : T) : mem C loc := fun h =>
  let l := fresh (dom h) in Some (l, <[l := to_cell t]> h).

(** ** Representations *)

Class Rep (C M V : Type) := {
  rep : gmap loc C -> M -> V -> Prop;
  rep_mono : forall h h' m v, h ⊆ h' -> rep h m v -> rep h' m v;
}.

(** Data without pointers represents itself. *)
Definition flat {C A} : Rep C A A.
Proof. by refine {| rep := fun _ m v => m = v |}. Defined.

Section Pointers.
Context {C T V : Type} `{!Stored T C} `{!Rep C T V}.
Implicit Types h : gmap loc C.

(** What the cell at a location holds. *)
Definition rep_cell h (l : loc) (v : V) : Prop := exists t, h !! l ≫= of_cell = Some t /\ rep h t v.

Lemma rep_cell_mono h h' l v : h ⊆ h' -> rep_cell h l v -> rep_cell h' l v.
Proof.
  intros Hsub (t & Ht & Hr). exists t. split; [|by eapply rep_mono].
  destruct (h !! l) as [c|] eqn:Hl; [|done]. by rewrite (lookup_weaken _ _ _ _ Hl Hsub).
Qed.

(** A pointer. *)
#[export] Instance rep_ptr : Rep C (ptr T) (option V).
Proof.
  refine {| rep := fun h p v =>
    match p, v with
    | nil_ptr, None => True
    | ptr_to l, Some v => rep_cell h l v
    | _, _ => False
    end |}.
  intros h h' [|l] [v|] Hsub; try done. by apply rep_cell_mono.
Defined.
End Pointers.

Section Collections.
Context {C T V : Type} `{!Rep C T V}.
Implicit Types h : gmap loc C.

#[export] Instance rep_list : Rep C (list T) (list V).
Proof.
  refine {| rep := fun h ts vs => Forall2 (rep h) ts vs |}.
  intros h h' ts vs Hsub Hr. eapply Forall2_impl; [exact Hr|]. intros t v. by apply rep_mono.
Defined.

#[export] Instance rep_map : Rep C (gmap string T) (gmap string V).
Proof.
  refine {| rep := fun h ts vs => map_Forall2 (fun _ => rep h) ts vs |}.
  intros h h' ts vs Hsub Hr. eapply map_Forall2_impl; [exact Hr|]. intros k t v. by apply rep_mono.
Defined.

(** A slice: a nil slice has no elements. *)
#[export] Instance rep_slice `{!Stored (list T) C} : Rep C (slice T) (list V).
Proof.
  refine {| rep := fun h p vs =>
    match p with nil_slice => vs = [] | slice_at l => rep_cell h l vs end |}.
  intros h h' [|l] vs Hsub; [done|by apply rep_cell_mono].
Defined.

(** A map: a nil map has no entries. *)
#[export] Instance rep_gomap `{!Stored (gmap string T) C} : Rep C (gomap T) (gmap string V).
Proof.
  refine {| rep := fun h p vs =>
    match p with nil_map => vs = ∅ | map_at l => rep_cell h l vs end |}.
  intros h h' [|l] vs Hsub; [done|by apply rep_cell_mono].
Defined.
End Collections.

(** ** Copying *)

(** [c] copies what its argument represents into new cells. *)
Definition copies {C M V} `{!Rep C M V} (c : M -> mem C M) : Prop :=
  forall h m v, rep h m v ->
  exists m' h', c m h = Some (m', h') /\ h ⊆ h' /\ rep (h' ∖ h) m' v.

(** [m], run in [h], succeeds, keeps [h], and [Q] holds of the cells that are new
    since [h0] and of the answer. *)
Definition builds {C A} (h0 h : gmap loc C) (m : mem C A) (Q : gmap loc C -> A -> Prop) : Prop :=
  exists a h', m h = Some (a, h') /\ h ⊆ h' /\ Q (h' ∖ h0) a.

Section Builds.
Context {C : Type}.
Implicit Types h : gmap loc C.

Lemma builds_ret {A} h0 h (a : A) Q : Q (h ∖ h0) a -> builds h0 h (mret a) Q.
Proof. intros HQ. by exists a, h. Qed.

Lemma builds_bind {A B} h0 h (m : mem C A) (k : A -> mem C B) Q1 Q :
  builds h0 h m Q1 ->
  (forall a h', h ⊆ h' -> Q1 (h' ∖ h0) a -> builds h0 h' (k a) Q) ->
  builds h0 h (m ≫= k) Q.
Proof.
  intros (a & h1 & Hm & Hsub & Ha) Hk. destruct (Hk a h1 Hsub Ha) as (b & h2 & Hb & Hsub' & HQ).
  exists b, h2. split; [|split; [by etrans|done]].
  unfold mbind, mem_bind. by rewrite Hm.
Qed.

Lemma builds_copies {M V} `{!Rep C M V} (c : M -> mem C M) h0 h m v :
  copies c -> h0 ⊆ h -> rep h m v -> builds h0 h (c m) (fun h' m' => rep h' m' v).
Proof.
  intros Hc Hsub Hr. destruct (Hc h m v Hr) as (m' & h' & Hm & Hh & Hr').
  exists m', h'. split_and!; [done..|]. eapply rep_mono; [|exact Hr'].
  by apply heap_difference_anti.
Qed.

Lemma builds_load `{!Stored T C} h0 h l t Q :
  h !! l ≫= of_cell = Some t -> Q (h ∖ h0) t -> builds h0 h (load l) Q.
Proof. intros Ht HQ. exists t, h. split_and!; [|done..]. unfold load. by rewrite Ht. Qed.

Lemma builds_new `{!Stored T C} h0 h (t : T) Q :
  (forall h' l, h ⊆ h' -> (h' ∖ h0) !! l ≫= of_cell = Some t -> Q (h' ∖ h0) l) ->
  h0 ⊆ h -> builds h0 h (new t) Q.
Proof.
  intros HQ Hsub. unfold builds, new. set (l := fresh (dom h)).
  assert (h !! l = None) as Hl by (apply not_elem_of_dom, is_fresh).
  exists l, (<[l := to_cell t]> h). split; [done|].
  assert (h ⊆ <[l := to_cell t]> h) as Hins by (by apply insert_subseteq).
  split; [done|]. apply HQ; [done|].
  rewrite (proj2 (lookup_difference_Some _ _ _ (to_cell t))); [simpl; apply of_to_cell|].
  split; [by rewrite lookup_insert_eq|]. by eapply lookup_weaken_None.
Qed.

(** [copies] from [builds]. *)
Lemma copies_builds {M V} `{!Rep C M V} (c : M -> mem C M) :
  (forall h m v, rep h m v -> builds h h (c m) (fun h' m' => rep h' m' v)) -> copies c.
Proof. intros Hc h m v Hr. apply Hc, Hr. Qed.
End Builds.

(** Data without pointers is copied by assignment. *)
Lemma copies_flat {C A} : copies (Rep0 := flat) (mret (M := mem C) (A := A)).
Proof. intros h m v ->. exists v, h. done. Qed.

(** A new cell for the copy of the one at [l]. *)
Definition copy_cell `{Stored T C} (c : T -> mem C T) (l : loc) : mem C loc :=
  t ← load l; t' ← c t; new t'.

Section Copy.
Context {C T : Type}.

(** Copying what a pointer points to, nil being nil. *)
Definition copy_ptr `{!Stored T C} (c : T -> mem C T) (p : ptr T) : mem C (ptr T) :=
  match p with
  | nil_ptr => mret nil_ptr
  | ptr_to l => l' ← copy_cell c l; mret (ptr_to l')
  end.

(** The elements of a slice, from the first. *)
Fixpoint copy_list (c : T -> mem C T) (ts : list T) : mem C (list T) :=
  match ts with
  | [] => mret []
  | t :: ts => t' ← c t; ts' ← copy_list c ts; mret (t' :: ts')
  end.

(** [make], and the elements in turn. *)
Definition copy_slice `{!Stored (list T) C} (c : T -> mem C T) (p : slice T) : mem C (slice T) :=
  match p with
  | nil_slice => mret nil_slice
  | slice_at l => l' ← copy_cell (copy_list c) l; mret (slice_at l')
  end.

(** The entries of a map, in the order in which they are visited, into [acc]. *)
Fixpoint copy_entries (c : T -> mem C T) (kts : list (string * T)) (acc : gmap string T)
    : mem C (gmap string T) :=
  match kts with
  | [] => mret acc
  | (k, t) :: kts => t' ← c t; copy_entries c kts (<[k := t']> acc)
  end.

(** [range] visits the entries in an order of its own. *)
Definition copy_map `{!Stored (gmap string T) C} (order : gmap string T -> list (string * T))
    (c : T -> mem C T) (p : gomap T) : mem C (gomap T) :=
  match p with
  | nil_map => mret nil_map
  | map_at l =>
      l' ← copy_cell (fun m => copy_entries c (order m) ∅) l;
      mret (map_at l')
  end.

(** The value behind [val.DeepCopy()], of a loop's variable: through a pointer to a copy of its own. *)
Definition copy_value `{!Stored T C} (c : T -> mem C T) (t : T) : mem C T :=
  l ← new t; l' ← copy_cell c l; load l'.

End Copy.

Section Copying.
Context {C T V : Type} `{!Rep C T V}.
Implicit Types h : gmap loc C.

Lemma copy_cell_builds `{!Stored T C} c h0 h l v :
  copies c -> h0 ⊆ h -> rep_cell h l v ->
  builds h0 h (copy_cell c l) (fun h' l' => rep_cell h' l' v).
Proof.
  intros Hc Hsub (t & Ht & Hr). unfold copy_cell.
  eapply (builds_bind _ _ _ _ (fun _ t' => t' = t)); [by apply (builds_load _ _ _ t)|].
  intros ? h1 Hh1 ->. eapply builds_bind.
  { eapply builds_copies; [exact Hc|by etrans|]. by eapply rep_mono. }
  cbv beta. intros t' h2 Hh2 Hr'. apply builds_new; [|by etrans; [|etrans]].
  intros h3 l' Hh3 Hl'. exists t'. split; [done|]. eapply rep_mono; [|exact Hr'].
  by apply heap_difference_mono.
Qed.

Lemma copies_ptr `{!Stored T C} c : copies c -> copies (copy_ptr c).
Proof.
  intros Hc. apply copies_builds. intros h [|l] [v|]; try done; intros Hr.
  { by exists nil_ptr, h. }
  eapply builds_bind; [apply (copy_cell_builds c h h l v); done|].
  intros l' h' Hh' Hl'. by apply builds_ret.
Qed.

Lemma copies_list c : copies c -> copies (copy_list c).
Proof.
  intros Hc. apply copies_builds. intros h ts vs Hr.
  enough (forall h1, h ⊆ h1 -> builds h h1 (copy_list c ts) (fun h' ts' => rep h' ts' vs)) as Hb by auto.
  induction Hr as [|t v ts vs Ht Hr IH]; intros h1 Hh1; simpl; [by apply builds_ret|].
  eapply builds_bind.
  { eapply builds_copies; [exact Hc|done|]. by eapply rep_mono. }
  cbv beta. intros t' h2 Hh2 Ht'. eapply builds_bind; [apply IH; by etrans|].
  cbv beta. intros ts' h3 Hh3 Hts'. apply builds_ret. constructor; [|done].
  eapply rep_mono; [|exact Ht']. by apply heap_difference_mono.
Qed.
Lemma copies_entries c kts : forall vs acc vacc h0 h,
  copies c -> NoDup kts.*1 -> h0 ⊆ h ->
  rep h0 (list_to_map kts : gmap string T) vs -> (forall k, k ∈ kts.*1 -> vacc !! k = None) ->
  rep (h ∖ h0) acc vacc ->
  builds h0 h (copy_entries c kts acc) (fun h' m => rep h' m (vacc ∪ vs)).
Proof.
  induction kts as [|[k t] kts IH]; intros vs acc vacc h0 h Hc Hnd Hsub Hr Hfresh Hacc.
  - change (map_Forall2 (fun _ => rep h0) (∅ : gmap string T) vs) in Hr.
    apply map_Forall2_empty_inv_l in Hr as ->. apply builds_ret. by rewrite (right_id_L ∅ (∪)).
  - apply NoDup_cons in Hnd as [Hk Hnd]. simpl in Hr.
    assert ((list_to_map kts : gmap string T) !! k = None) as Hlk by by apply not_elem_of_list_to_map_1.
    apply map_Forall2_insert_inv_l in Hr as (v & vs' & -> & Hvs' & Ht & Hr); [|done].
    simpl. eapply builds_bind.
    { eapply builds_copies; [exact Hc|done|]. by eapply rep_mono. }
    cbv beta. intros t' h1 Hh1 Ht'.
    rewrite <- insert_union_r by (apply Hfresh; by left).
    rewrite insert_union_l.
    apply IH; [done..|by etrans|exact Hr| |].
    + intros k' Hk'. rewrite lookup_insert_ne by (intros ->; done). apply Hfresh. by right.
    + apply map_Forall2_insert_2; [done|].
      eapply (rep_mono (Rep := rep_map)); [|exact Hacc]. by apply heap_difference_mono.
Qed.
End Copying.

Section CopyingPointers.
Context {C T V : Type} `{!Rep C T V}.

Lemma copies_slice `{!Stored (list T) C} (c : T -> mem C T) : copies c -> copies (copy_slice c).
Proof.
  intros Hc. apply copies_builds. intros h [|l] vs Hr; [by exists nil_slice, h|].
  eapply builds_bind; [apply (copy_cell_builds _ h h l vs); [by apply copies_list|done..]|].
  intros l' h' Hh' Hl'. by apply builds_ret.
Qed.

Lemma copies_map `{!Stored (gmap string T) C} order (c : T -> mem C T) :
  (forall m, order m ≡ₚ map_to_list m) -> copies c -> copies (copy_map order c).
Proof.
  intros Horder Hc.
  assert (copies (V := gmap string V) (fun m => copy_entries c (order m) ∅)) as Hentries.
  { apply copies_builds. intros h m vs Hr.
    assert (NoDup (order m).*1) as Hnd by (rewrite Horder; apply NoDup_fst_map_to_list).
    rewrite <- (left_id_L ∅ (∪) vs). apply copies_entries; [done..| |done|].
    - rewrite (list_to_map_proper _ _ Hnd (Horder m)). by rewrite list_to_map_to_list.
    - apply map_Forall2_empty. }
  apply copies_builds. intros h [|l] vs Hr; [by exists nil_map, h|].
  eapply builds_bind; [by apply (copy_cell_builds _ h h l vs)|].
  intros l' h' Hh' Hl'. by apply builds_ret.
Qed.

Lemma copies_value `{!Stored T C} (c : T -> mem C T) : copies c -> copies (copy_value c).
Proof.
  intros Hc. apply copies_builds. intros h t v Hr. unfold copy_value.
  eapply (builds_bind _ _ _ _ (fun h' l => h' !! l ≫= of_cell = Some t)); [by apply builds_new|].
  cbv beta. intros l h1 Hh1 Hl. eapply builds_bind.
  { apply (copy_cell_builds c h h1 l v); [done..|].
    exists t. split; [by eapply lookup_new|by eapply rep_mono]. }
  cbv beta. intros l' h2 Hh2 (t' & Ht' & Hr'). eapply builds_load; [by eapply lookup_new|exact Hr'].
Qed.
End CopyingPointers.
