(* ===== verification/MemoryTypes.v ===== *)
(** The structs of src/api/v1beta2 as memory holds them.

    A type [X] of Types.v is a value; [XM] is the struct with pointers, slices and
    maps where the source has them. [cell] is what a location may hold, and the
    instances of [Rep] say which value a struct in memory represents: field by field,
    through the pointers. Of the metadata of Kubernetes only the interface is known
    ([MetaMem], [MetaLib]). *)
From S2P Require Import Prelude Types Memory.
From Stdlib Require Import ZArith.
From stdpp Require Import base gmap strings list.
Local Open Scope string_scope.
Local Open Scope list_scope.

(** ** Structs in memory *)

(** [metav1.TypeMeta]. *)
Record TypeMeta := mkTypeMeta { tm_Kind : string; tm_APIVersion : string }.

Record WaldurOrderM := mkWaldurOrderM {
  wom_Uuid : string;
  wom_Type : RequestTypes;
  wom_State : OrderState;
  wom_MarketplaceResourceUuid : string;
  wom_ResourceUuid : ptr string;
}.

Record OpenStackTenantM := mkOpenStackTenantM {
  tm_State : CoreStates;
  tm_Uuid : ptr string;
  tm_Name : string;
  tm_MarketplaceResourceUuid : string;
  tm_MarketplaceResourceState : ResourceState;
  tm_ProjectSlug : ptr string;
  tm_Order : ptr WaldurOrderM;
}.

Record InitializationM := mkInitializationM { im_Provisioned : ptr bool }.

Record OpenstackInfrastructureM := mkOpenstackInfrastructureM {
  oim_Name : string;
  oim_CustomerName : string;
  oim_Uuid : ptr string;
}.

Record NodeGroupSpecM := mkNodeGroupSpecM {
  ngm_Type : NodeType;
  ngm_Flavor : string;
  ngm_Count : Z;
  ngm_DataDiskSize : ptr Z;
  ngm_VsanDiskSize : ptr Z;
}.

Record DatacenterSpecM := mkDatacenterSpecM {
  dcm_OfferingSlug : string;
  dcm_Name : string;
  dcm_OpenstackInfrastructure : OpenstackInfrastructureM;
  dcm_NodeGroups : slice NodeGroupSpecM;
}.

Record SecurityRuleM := mkSecurityRuleM {
  srm_Direction : string;
  srm_CIDR : string;
  srm_Port : ptr string;
  srm_Protocol : ptr string;
}.

Record WaldurClusterSpecM := mkWaldurClusterSpecM {
  csm_KubernetesVersion : string;
  csm_Topology : string;
  csm_Datacenters : slice DatacenterSpecM;
  csm_SecurityRules : slice SecurityRuleM;
  csm_ControlPlaneEndpoint : APIEndpoint;
}.

Record WaldurClusterStatusM := mkWaldurClusterStatusM {
  cstm_Conditions : slice Condition;
  cstm_Initialization : ptr InitializationM;
  cstm_Tenants : gomap OpenStackTenantM;
}.

Record WaldurMachineSpecM := mkWaldurMachineSpecM {
  msm_ProviderID : ptr string;
  msm_OfferingSlug : string;
  msm_NodeType : NodeType;
  msm_Flavor : string;
  msm_Image : string;
  msm_SystemDiskSize : ptr Z;
  msm_DataDiskSize : ptr Z;
  msm_VsanDiskSize : ptr Z;
}.

Record WaldurMachineStatusM := mkWaldurMachineStatusM {
  mstm_Conditions : slice Condition;
  mstm_Initialization : ptr InitializationM;
  mstm_VmUuid : ptr string;
  mstm_State : CoreStates;
  mstm_MarketplaceResourceUuid : string;
  mstm_MarketplaceResourceState : ResourceState;
  mstm_Order : ptr WaldurOrderM;
}.

(** Metadata, as its library lays it out: with cells of its own. *)
Class MetaMem := {
  lib_cell : Type;
  ObjectMetaM : Type;
  ListMetaM : Type;
  ListMeta : Type;
}.

Section Structs.
Context `{MetaMem}.

Record WaldurClusterM := mkWaldurClusterM {
  wcm_TypeMeta : TypeMeta;
  wcm_ObjectMeta : ObjectMetaM;
  wcm_Spec : WaldurClusterSpecM;
  wcm_Status : WaldurClusterStatusM;
}.

Record WaldurMachineM := mkWaldurMachineM {
  wmm_TypeMeta : TypeMeta;
  wmm_ObjectMeta : ObjectMetaM;
  wmm_Spec : WaldurMachineSpecM;
  wmm_Status : WaldurMachineStatusM;
}.

Record WaldurMachineTemplateResourceM := mkWaldurMachineTemplateResourceM {
  wtrm_ObjectMeta : ObjectMetaM;
  wtrm_Spec : WaldurMachineSpecM;
}.

Record WaldurMachineTemplateSpecM := mkWaldurMachineTemplateSpecM {
  wtsm_Template : WaldurMachineTemplateResourceM;
}.

Record WaldurMachineTemplateM := mkWaldurMachineTemplateM {
  wtm_TypeMeta : TypeMeta;
  wtm_ObjectMeta : ObjectMetaM;
  wtm_Spec : WaldurMachineTemplateSpecM;
}.

(** The three list types differ in their items. *)
Record ListM (T : Type) := mkListM {
  lm_TypeMeta : TypeMeta;
  lm_ListMeta : ListMetaM;
  lm_Items : slice T;
}.

(** *** Cells *)

Inductive cell :=
| CString (s : string) | CInt (z : Z) | CBool (b : bool)
| COrder (o : WaldurOrderM) | CTenant (t : OpenStackTenantM) | CInitialization (i : InitializationM)
| CInfrastructure (o : OpenstackInfrastructureM) | CNodeGroup (g : NodeGroupSpecM)
| CDatacenter (d : DatacenterSpecM) | CRule (r : SecurityRuleM)
| CClusterSpec (s : WaldurClusterSpecM) | CClusterStatus (s : WaldurClusterStatusM)
| CMachineSpec (s : WaldurMachineSpecM) | CMachineStatus (s : WaldurMachineStatusM)
| CCluster (c : WaldurClusterM) | CMachine (m : WaldurMachineM)
| CTemplate (t : WaldurMachineTemplateM) | CTemplateSpec (s : WaldurMachineTemplateSpecM)
| CTemplateResource (s : WaldurMachineTemplateResourceM)
| CClusterList (l : ListM WaldurClusterM) | CMachineList (l : ListM WaldurMachineM)
| CTemplateList (l : ListM WaldurMachineTemplateM)
| CConditions (cs : list Condition) | CNodeGroups (gs : list NodeGroupSpecM)
| CDatacenters (ds : list DatacenterSpecM) | CRules (rs : list SecurityRuleM)
| CClusters (cs : list WaldurClusterM) | CMachines (ms : list WaldurMachineM)
| CTemplates (ts : list WaldurMachineTemplateM)
| CTenants (m : gmap string OpenStackTenantM)
| CLib (x : lib_cell).
End Structs.

Arguments lm_TypeMeta {_ T} _.
Arguments lm_ListMeta {_ T} _.
Arguments lm_Items {_ T} _.
Arguments mkListM {_ T} _ _ _.

Section Cells.
Context `{MetaMem}.

#[export] Instance stored_String : Stored string cell :=
  {| to_cell := CString; of_cell x := match x with CString t => Some t | _ => None end; of_to_cell _ := eq_refl |}.
#[export] Instance stored_Int : Stored Z cell :=
  {| to_cell := CInt; of_cell x := match x with CInt t => Some t | _ => None end; of_to_cell _ := eq_refl |}.
#[export] Instance stored_Bool : Stored bool cell :=
  {| to_cell := CBool; of_cell x := match x with CBool t => Some t | _ => None end; of_to_cell _ := eq_refl |}.
#[export] Instance stored_Order : Stored WaldurOrderM cell :=
  {| to_cell := COrder; of_cell x := match x with COrder t => Some t | _ => None end; of_to_cell _ := eq_refl |}.
#[export] Instance stored_Tenant : Stored OpenStackTenantM cell :=
  {| to_cell := CTenant; of_cell x := match x with CTenant t => Some t | _ => None end; of_to_cell _ := eq_refl |}.
#[export] Instance stored_Initialization : Stored InitializationM cell :=
  {| to_cell := CInitialization; of_cell x := match x with CInitialization t => Some t | _ => None end; of_to_cell _ := eq_refl |}.
#[export] Instance stored_Infrastructure : Stored OpenstackInfrastructureM cell :=
  {| to_cell := CInfrastructure; of_cell x := match x with CInfrastructure t => Some t | _ => None end; of_to_cell _ := eq_refl |}.
#[export] Instance stored_NodeGroup : Stored NodeGroupSpecM cell :=
  {| to_cell := CNodeGroup; of_cell x := match x with CNodeGroup t => Some t | _ => None end; of_to_cell _ := eq_refl |}.
#[export] Instance stored_Datacenter : Stored DatacenterSpecM cell :=
  {| to_cell := CDatacenter; of_cell x := match x with CDatacenter t => Some t | _ => None end; of_to_cell _ := eq_refl |}.
#[export] Instance stored_Rule : Stored SecurityRuleM cell :=
  {| to_cell := CRule; of_cell x := match x with CRule t => Some t | _ => None end; of_to_cell _ := eq_refl |}.
#[export] Instance stored_ClusterSpec : Stored WaldurClusterSpecM cell :=
  {| to_cell := CClusterSpec; of_cell x := match x with CClusterSpec t => Some t | _ => None end; of_to_cell _ := eq_refl |}.
#[export] Instance stored_ClusterStatus : Stored WaldurClusterStatusM cell :=
  {| to_cell := CClusterStatus; of_cell x := match x with CClusterStatus t => Some t | _ => None end; of_to_cell _ := eq_refl |}.
#[export] Instance stored_MachineSpec : Stored WaldurMachineSpecM cell :=
  {| to_cell := CMachineSpec; of_cell x := match x with CMachineSpec t => Some t | _ => None end; of_to_cell _ := eq_refl |}.
#[export] Instance stored_MachineStatus : Stored WaldurMachineStatusM cell :=
  {| to_cell := CMachineStatus; of_cell x := match x with CMachineStatus t => Some t | _ => None end; of_to_cell _ := eq_refl |}.
#[export] Instance stored_Cluster : Stored WaldurClusterM cell :=
  {| to_cell := CCluster; of_cell x := match x with CCluster t => Some t | _ => None end; of_to_cell _ := eq_refl |}.
#[export] Instance stored_Machine : Stored WaldurMachineM cell :=
  {| to_cell := CMachine; of_cell x := match x with CMachine t => Some t | _ => None end; of_to_cell _ := eq_refl |}.
#[export] Instance stored_Template : Stored WaldurMachineTemplateM cell :=
  {| to_cell := CTemplate; of_cell x := match x with CTemplate t => Some t | _ => None end; of_to_cell _ := eq_refl |}.
#[export] Instance stored_TemplateSpec : Stored WaldurMachineTemplateSpecM cell :=
  {| to_cell := CTemplateSpec; of_cell x := match x with CTemplateSpec t => Some t | _ => None end; of_to_cell _ := eq_refl |}.
#[export] Instance stored_TemplateResource : Stored WaldurMachineTemplateResourceM cell :=
  {| to_cell := CTemplateResource; of_cell x := match x with CTemplateResource t => Some t | _ => None end; of_to_cell _ := eq_refl |}.
#[export] Instance stored_ClusterList : Stored (ListM WaldurClusterM) cell :=
  {| to_cell := CClusterList; of_cell x := match x with CClusterList t => Some t | _ => None end; of_to_cell _ := eq_refl |}.
#[export] Instance stored_MachineList : Stored (ListM WaldurMachineM) cell :=
  {| to_cell := CMachineList; of_cell x := match x with CMachineList t => Some t | _ => None end; of_to_cell _ := eq_refl |}.
#[export] Instance stored_TemplateList : Stored (ListM WaldurMachineTemplateM) cell :=
  {| to_cell := CTemplateList; of_cell x := match x with CTemplateList t => Some t | _ => None end; of_to_cell _ := eq_refl |}.
#[export] Instance stored_Conditions : Stored (list Condition) cell :=
  {| to_cell := CConditions; of_cell x := match x with CConditions t => Some t | _ => None end; of_to_cell _ := eq_refl |}.
#[export] Instance stored_NodeGroups : Stored (list NodeGroupSpecM) cell :=
  {| to_cell := CNodeGroups; of_cell x := match x with CNodeGroups t => Some t | _ => None end; of_to_cell _ := eq_refl |}.
#[export] Instance stored_Datacenters : Stored (list DatacenterSpecM) cell :=
  {| to_cell := CDatacenters; of_cell x := match x with CDatacenters t => Some t | _ => None end; of_to_cell _ := eq_refl |}.
#[export] Instance stored_Rules : Stored (list SecurityRuleM) cell :=
  {| to_cell := CRules; of_cell x := match x with CRules t => Some t | _ => None end; of_to_cell _ := eq_refl |}.
#[export] Instance stored_Clusters : Stored (list WaldurClusterM) cell :=
  {| to_cell := CClusters; of_cell x := match x with CClusters t => Some t | _ => None end; of_to_cell _ := eq_refl |}.
#[export] Instance stored_Machines : Stored (list WaldurMachineM) cell :=
  {| to_cell := CMachines; of_cell x := match x with CMachines t => Some t | _ => None end; of_to_cell _ := eq_refl |}.
#[export] Instance stored_Templates : Stored (list WaldurMachineTemplateM) cell :=
  {| to_cell := CTemplates; of_cell x := match x with CTemplates t => Some t | _ => None end; of_to_cell _ := eq_refl |}.
#[export] Instance stored_Tenants : Stored (gmap string OpenStackTenantM) cell :=
  {| to_cell := CTenants; of_cell x := match x with CTenants t => Some t | _ => None end; of_to_cell _ := eq_refl |}.
#[export] Instance stored_Lib : Stored lib_cell cell :=
  {| to_cell := CLib; of_cell x := match x with CLib t => Some t | _ => None end; of_to_cell _ := eq_refl |}.
End Cells.

(** ** What memory represents *)

(** The representation of a struct: of its fields. *)
Ltac rep_fields :=
  let Hsub := fresh in let Hr := fresh in
  intros ? ? ? ? Hsub Hr; repeat match goal with Hr : _ /\ _ |- _ => destruct Hr end;
  split_and!; try done; (eapply rep_mono; [exact Hsub|eassumption]).

(** The library's part: what its structs represent, how it copies them, and the order
    in which [range] visits a map of tenants. *)
Class MetaLib `{MetaMem} := {
  ObjectMeta_rep :: Rep cell ObjectMetaM ObjectMeta;
  ListMeta_rep :: Rep cell ListMetaM ListMeta;
  ObjectMeta_DeepCopyInto : ObjectMetaM -> mem cell ObjectMetaM;
  ListMeta_DeepCopyInto : ListMetaM -> mem cell ListMetaM;
  Condition_DeepCopyInto : Condition -> mem cell Condition;
  tenants_order : gmap string OpenStackTenantM -> list (string * OpenStackTenantM);
}.

#[export] Instance rep_Condition `{MetaMem} : Rep cell Condition Condition := flat.
#[export] Instance rep_string `{MetaMem} : Rep cell string string := flat.
#[export] Instance rep_Z `{MetaMem} : Rep cell Z Z := flat.
#[export] Instance rep_bool `{MetaMem} : Rep cell bool bool := flat.

#[export] Instance rep_WaldurOrder `{MetaMem} : Rep cell WaldurOrderM WaldurOrder.
Proof.
  refine {| rep := fun h m v =>
    wom_Uuid m = wo_Uuid v /\
    wom_Type m = wo_Type v /\
    wom_State m = wo_State v /\
    wom_MarketplaceResourceUuid m = wo_MarketplaceResourceUuid v /\
    rep h (wom_ResourceUuid m) (wo_ResourceUuid v) |}.
  rep_fields.
Defined.

#[export] Instance rep_OpenStackTenant `{MetaMem} : Rep cell OpenStackTenantM OpenStackTenant.
Proof.
  refine {| rep := fun h m v =>
    tm_State m = t_State v /\
    rep h (tm_Uuid m) (t_Uuid v) /\
    tm_Name m = t_Name v /\
    tm_MarketplaceResourceUuid m = t_MarketplaceResourceUuid v /\
    tm_MarketplaceResourceState m = t_MarketplaceResourceState v /\
    rep h (tm_ProjectSlug m) (t_ProjectSlug v) /\
    rep h (tm_Order m) (t_Order v) |}.
  rep_fields.
Defined.

#[export] Instance rep_Initialization `{MetaMem} : Rep cell InitializationM Initialization.
Proof.
  refine {| rep := fun h m v => rep h (im_Provisioned m) (i_Provisioned v) |}.
  intros h h' m v. apply rep_mono.
Defined.

#[export] Instance rep_OpenstackInfrastructure `{MetaMem} : Rep cell OpenstackInfrastructureM OpenstackInfrastructure.
Proof.
  refine {| rep := fun h m v =>
    oim_Name m = oi_Name v /\
    oim_CustomerName m = oi_CustomerName v /\
    rep h (oim_Uuid m) (oi_Uuid v) |}.
  rep_fields.
Defined.

#[export] Instance rep_NodeGroupSpec `{MetaMem} : Rep cell NodeGroupSpecM NodeGroupSpec.
Proof.
  refine {| rep := fun h m v =>
    ngm_Type m = ng_Type v /\
    ngm_Flavor m = ng_Flavor v /\
    ngm_Count m = ng_Count v /\
    rep h (ngm_DataDiskSize m) (ng_DataDiskSize v) /\
    rep h (ngm_VsanDiskSize m) (ng_VsanDiskSize v) |}.
  rep_fields.
Defined.

#[export] Instance rep_DatacenterSpec `{MetaMem} : Rep cell DatacenterSpecM DatacenterSpec.
Proof.
  refine {| rep := fun h m v =>
    dcm_OfferingSlug m = dc_OfferingSlug v /\
    dcm_Name m = dc_Name v /\
    rep h (dcm_OpenstackInfrastructure m) (dc_OpenstackInfrastructure v) /\
    rep h (dcm_NodeGroups m) (dc_NodeGroups v) |}.
  rep_fields.
Defined.

#[export] Instance rep_SecurityRule `{MetaMem} : Rep cell SecurityRuleM SecurityRule.
Proof.
  refine {| rep := fun h m v =>
    srm_Direction m = sr_Direction v /\
    srm_CIDR m = sr_CIDR v /\
    rep h (srm_Port m) (sr_Port v) /\
    rep h (srm_Protocol m) (sr_Protocol v) |}.
  rep_fields.
Defined.

#[export] Instance rep_WaldurClusterSpec `{MetaMem} : Rep cell WaldurClusterSpecM WaldurClusterSpec.
Proof.
  refine {| rep := fun h m v =>
    csm_KubernetesVersion m = cs_KubernetesVersion v /\
    csm_Topology m = cs_Topology v /\
    rep h (csm_Datacenters m) (cs_Datacenters v) /\
    rep h (csm_SecurityRules m) (cs_SecurityRules v) /\
    csm_ControlPlaneEndpoint m = cs_ControlPlaneEndpoint v |}.
  rep_fields.
Defined.

#[export] Instance rep_WaldurClusterStatus `{MetaMem} : Rep cell WaldurClusterStatusM WaldurClusterStatus.
Proof.
  refine {| rep := fun h m v =>
    rep h (cstm_Conditions m) (cst_Conditions v) /\
    rep h (cstm_Initialization m) (cst_Initialization v) /\
    rep h (cstm_Tenants m) (cst_Tenants v) |}.
  rep_fields.
Defined.

#[export] Instance rep_WaldurMachineSpec `{MetaMem} : Rep cell WaldurMachineSpecM WaldurMachineSpec.
Proof.
  refine {| rep := fun h m v =>
    rep h (msm_ProviderID m) (ms_ProviderID v) /\
    msm_OfferingSlug m = ms_OfferingSlug v /\
    msm_NodeType m = ms_NodeType v /\
    msm_Flavor m = ms_Flavor v /\
    msm_Image m = ms_Image v /\
    rep h (msm_SystemDiskSize m) (ms_SystemDiskSize v) /\
    rep h (msm_DataDiskSize m) (ms_DataDiskSize v) /\
    rep h (msm_VsanDiskSize m) (ms_VsanDiskSize v) |}.
  rep_fields.
Defined.

#[export] Instance rep_WaldurMachineStatus `{MetaMem} : Rep cell WaldurMachineStatusM WaldurMachineStatus.
Proof.
  refine {| rep := fun h m v =>
    rep h (mstm_Conditions m) (mst_Conditions v) /\
    rep h (mstm_Initialization m) (mst_Initialization v) /\
    rep h (mstm_VmUuid m) (mst_VmUuid v) /\
    mstm_State m = mst_State v /\
    mstm_MarketplaceResourceUuid m = mst_MarketplaceResourceUuid v /\
    mstm_MarketplaceResourceState m = mst_MarketplaceResourceState v /\
    rep h (mstm_Order m) (mst_Order v) |}.
  rep_fields.
Defined.

(** An object of the API is a type and a value. *)
#[export] Instance rep_WaldurCluster `{MetaLib} : Rep cell WaldurClusterM (TypeMeta * WaldurCluster).
Proof.
  refine {| rep := fun h m v =>
    wcm_TypeMeta m = (v.1) /\
    rep h (wcm_ObjectMeta m) ((wc_ObjectMeta v.2)) /\
    rep h (wcm_Spec m) ((wc_Spec v.2)) /\
    rep h (wcm_Status m) ((wc_Status v.2)) |}.
  rep_fields.
Defined.

#[export] Instance rep_WaldurMachine `{MetaLib} : Rep cell WaldurMachineM (TypeMeta * WaldurMachine).
Proof.
  refine {| rep := fun h m v =>
    wmm_TypeMeta m = (v.1) /\
    rep h (wmm_ObjectMeta m) ((wm_ObjectMeta v.2)) /\
    rep h (wmm_Spec m) ((wm_Spec v.2)) /\
    rep h (wmm_Status m) ((wm_Status v.2)) |}.
  rep_fields.
Defined.

#[export] Instance rep_TemplateResource `{MetaLib} : Rep cell WaldurMachineTemplateResourceM WaldurMachineTemplateResource.
Proof.
  refine {| rep := fun h m v =>
    rep h (wtrm_ObjectMeta m) (wtr_ObjectMeta v) /\
    rep h (wtrm_Spec m) (wtr_Spec v) |}.
  rep_fields.
Defined.

#[export] Instance rep_TemplateSpec `{MetaLib} : Rep cell WaldurMachineTemplateSpecM WaldurMachineTemplateSpec.
Proof.
  refine {| rep := fun h m v => rep h (wtsm_Template m) (wts_Template v) |}.
  intros h h' m v. apply rep_mono.
Defined.

#[export] Instance rep_Template `{MetaLib} : Rep cell WaldurMachineTemplateM (TypeMeta * WaldurMachineTemplate).
Proof.
  refine {| rep := fun h m v =>
    wtm_TypeMeta m = (v.1) /\
    rep h (wtm_ObjectMeta m) ((wt_ObjectMeta v.2)) /\
    rep h (wtm_Spec m) ((wt_Spec v.2)) |}.
  rep_fields.
Defined.

(** A list of objects: its type, its metadata and the items. *)
#[export] Instance rep_ListM `{MetaLib} {T V} `{!Stored (list T) cell} `{!Rep cell T V} :
  Rep cell (ListM T) (TypeMeta * ListMeta * list V).
Proof.
  refine {| rep := fun h m v =>
    lm_TypeMeta m = v.1.1 /\ rep h (lm_ListMeta m) v.1.2 /\ rep h (lm_Items m) v.2 |}.
  rep_fields.
Defined.
