(* ===== verification/DeepCopy.v ===== *)
(** The generated deep copies of src/api/v1beta2 (zz_generated.deepcopy.go), on
    memory with pointers.

    [X_DeepCopyInto] gives the new struct, whose pointers are those of new cells;
    [X_DeepCopy] is the method on pointers. The controllers copy an object before they
    change it in place, to tell a patch what has changed; that the models of the
    controllers take the copy for the value is what [deep_copies_isolated] justifies.

    The copies of metadata ([ObjectMeta], [ListMeta], [Condition]) are a library's:
    a class, with their documented law. *)
From S2P Require Import Prelude Types Memory MemoryTypes.
From Stdlib Require Import ZArith.
From stdpp Require Import base gmap strings list.
Local Open Scope string_scope.
Local Open Scope list_scope.

(** ** The copies *)

Section DeepCopies.
Context `{MetaLib}.

(** [copy_ptr mret] copies a pointer to a string, an int or a bool. *)
Definition WaldurOrder_DeepCopyInto (m : WaldurOrderM) : mem cell WaldurOrderM :=
  resourceUuid ← copy_ptr mret (wom_ResourceUuid m);
  mret (mkWaldurOrderM (wom_Uuid m) (wom_Type m) (wom_State m) (wom_MarketplaceResourceUuid m) resourceUuid).

Definition WaldurOrder_DeepCopy : ptr WaldurOrderM -> mem cell (ptr WaldurOrderM) :=
  copy_ptr WaldurOrder_DeepCopyInto.

Definition OpenStackTenant_DeepCopyInto (m : OpenStackTenantM) : mem cell OpenStackTenantM :=
  uuid ← copy_ptr mret (tm_Uuid m);
  projectSlug ← copy_ptr mret (tm_ProjectSlug m);
  order ← copy_ptr WaldurOrder_DeepCopyInto (tm_Order m);
  mret (mkOpenStackTenantM (tm_State m) uuid (tm_Name m) (tm_MarketplaceResourceUuid m)
          (tm_MarketplaceResourceState m) projectSlug order).

Definition OpenStackTenant_DeepCopy : ptr OpenStackTenantM -> mem cell (ptr OpenStackTenantM) :=
  copy_ptr OpenStackTenant_DeepCopyInto.

Definition WaldurClusterInitialization_DeepCopyInto (m : InitializationM) : mem cell InitializationM :=
  provisioned ← copy_ptr mret (im_Provisioned m);
  mret (mkInitializationM provisioned).

Definition WaldurClusterInitialization_DeepCopy : ptr InitializationM -> mem cell (ptr InitializationM) :=
  copy_ptr WaldurClusterInitialization_DeepCopyInto.

Definition WaldurMachineInitialization_DeepCopyInto (m : InitializationM) : mem cell InitializationM :=
  provisioned ← copy_ptr mret (im_Provisioned m);
  mret (mkInitializationM provisioned).

Definition WaldurMachineInitialization_DeepCopy : ptr InitializationM -> mem cell (ptr InitializationM) :=
  copy_ptr WaldurMachineInitialization_DeepCopyInto.

Definition OpenstackInfrastructure_DeepCopyInto (m : OpenstackInfrastructureM) : mem cell OpenstackInfrastructureM :=
  uuid ← copy_ptr mret (oim_Uuid m);
  mret (mkOpenstackInfrastructureM (oim_Name m) (oim_CustomerName m) uuid).

Definition OpenstackInfrastructure_DeepCopy : ptr OpenstackInfrastructureM -> mem cell (ptr OpenstackInfrastructureM) :=
  copy_ptr OpenstackInfrastructure_DeepCopyInto.

Definition NodeGroupSpec_DeepCopyInto (m : NodeGroupSpecM) : mem cell NodeGroupSpecM :=
  dataDiskSize ← copy_ptr mret (ngm_DataDiskSize m);
  vsanDiskSize ← copy_ptr mret (ngm_VsanDiskSize m);
  mret (mkNodeGroupSpecM (ngm_Type m) (ngm_Flavor m) (ngm_Count m) dataDiskSize vsanDiskSize).

Definition NodeGroupSpec_DeepCopy : ptr NodeGroupSpecM -> mem cell (ptr NodeGroupSpecM) :=
  copy_ptr NodeGroupSpec_DeepCopyInto.

Definition DatacenterSpec_DeepCopyInto (m : DatacenterSpecM) : mem cell DatacenterSpecM :=
  infrastructure ← OpenstackInfrastructure_DeepCopyInto (dcm_OpenstackInfrastructure m);
  nodeGroups ← copy_slice NodeGroupSpec_DeepCopyInto (dcm_NodeGroups m);
  mret (mkDatacenterSpecM (dcm_OfferingSlug m) (dcm_Name m) infrastructure nodeGroups).

Definition DatacenterSpec_DeepCopy : ptr DatacenterSpecM -> mem cell (ptr DatacenterSpecM) :=
  copy_ptr DatacenterSpec_DeepCopyInto.

Definition SecurityRule_DeepCopyInto (m : SecurityRuleM) : mem cell SecurityRuleM :=
  port ← copy_ptr mret (srm_Port m);
  protocol ← copy_ptr mret (srm_Protocol m);
  mret (mkSecurityRuleM (srm_Direction m) (srm_CIDR m) port protocol).

Definition SecurityRule_DeepCopy : ptr SecurityRuleM -> mem cell (ptr SecurityRuleM) :=
  copy_ptr SecurityRule_DeepCopyInto.

Definition WaldurClusterSpec_DeepCopyInto (m : WaldurClusterSpecM) : mem cell WaldurClusterSpecM :=
  datacenters ← copy_slice DatacenterSpec_DeepCopyInto (csm_Datacenters m);
  securityRules ← copy_slice SecurityRule_DeepCopyInto (csm_SecurityRules m);
  mret (mkWaldurClusterSpecM (csm_KubernetesVersion m) (csm_Topology m) datacenters securityRules
          (csm_ControlPlaneEndpoint m)).

Definition WaldurClusterSpec_DeepCopy : ptr WaldurClusterSpecM -> mem cell (ptr WaldurClusterSpecM) :=
  copy_ptr WaldurClusterSpec_DeepCopyInto.

Definition WaldurClusterStatus_DeepCopyInto (m : WaldurClusterStatusM) : mem cell WaldurClusterStatusM :=
  conditions ← copy_slice Condition_DeepCopyInto (cstm_Conditions m);
  initialization ← copy_ptr WaldurClusterInitialization_DeepCopyInto (cstm_Initialization m);
  tenants ← copy_map tenants_order (copy_value OpenStackTenant_DeepCopyInto) (cstm_Tenants m);
  mret (mkWaldurClusterStatusM conditions initialization tenants).

Definition WaldurClusterStatus_DeepCopy : ptr WaldurClusterStatusM -> mem cell (ptr WaldurClusterStatusM) :=
  copy_ptr WaldurClusterStatus_DeepCopyInto.

Definition WaldurCluster_DeepCopyInto (m : WaldurClusterM) : mem cell WaldurClusterM :=
  meta ← ObjectMeta_DeepCopyInto (wcm_ObjectMeta m);
  spec ← WaldurClusterSpec_DeepCopyInto (wcm_Spec m);
  status ← WaldurClusterStatus_DeepCopyInto (wcm_Status m);
  mret (mkWaldurClusterM (wcm_TypeMeta m) meta spec status).

Definition WaldurCluster_DeepCopy : ptr WaldurClusterM -> mem cell (ptr WaldurClusterM) :=
  copy_ptr WaldurCluster_DeepCopyInto.

Definition WaldurMachineSpec_DeepCopyInto (m : WaldurMachineSpecM) : mem cell WaldurMachineSpecM :=
  providerID ← copy_ptr mret (msm_ProviderID m);
  systemDiskSize ← copy_ptr mret (msm_SystemDiskSize m);
  dataDiskSize ← copy_ptr mret (msm_DataDiskSize m);
  vsanDiskSize ← copy_ptr mret (msm_VsanDiskSize m);
  mret (mkWaldurMachineSpecM providerID (msm_OfferingSlug m) (msm_NodeType m) (msm_Flavor m)
          (msm_Image m) systemDiskSize dataDiskSize vsanDiskSize).

Definition WaldurMachineSpec_DeepCopy : ptr WaldurMachineSpecM -> mem cell (ptr WaldurMachineSpecM) :=
  copy_ptr WaldurMachineSpec_DeepCopyInto.

Definition WaldurMachineStatus_DeepCopyInto (m : WaldurMachineStatusM) : mem cell WaldurMachineStatusM :=
  conditions ← copy_slice Condition_DeepCopyInto (mstm_Conditions m);
  initialization ← copy_ptr WaldurMachineInitialization_DeepCopyInto (mstm_Initialization m);
  vmUuid ← copy_ptr mret (mstm_VmUuid m);
  order ← copy_ptr WaldurOrder_DeepCopyInto (mstm_Order m);
  mret (mkWaldurMachineStatusM conditions initialization vmUuid (mstm_State m)
          (mstm_MarketplaceResourceUuid m) (mstm_MarketplaceResourceState m) order).

Definition WaldurMachineStatus_DeepCopy : ptr WaldurMachineStatusM -> mem cell (ptr WaldurMachineStatusM) :=
  copy_ptr WaldurMachineStatus_DeepCopyInto.

Definition WaldurMachine_DeepCopyInto (m : WaldurMachineM) : mem cell WaldurMachineM :=
  meta ← ObjectMeta_DeepCopyInto (wmm_ObjectMeta m);
  spec ← WaldurMachineSpec_DeepCopyInto (wmm_Spec m);
  status ← WaldurMachineStatus_DeepCopyInto (wmm_Status m);
  mret (mkWaldurMachineM (wmm_TypeMeta m) meta spec status).

Definition WaldurMachine_DeepCopy : ptr WaldurMachineM -> mem cell (ptr WaldurMachineM) :=
  copy_ptr WaldurMachine_DeepCopyInto.

Definition WaldurMachineTemplateResource_DeepCopyInto (m : WaldurMachineTemplateResourceM) : mem cell WaldurMachineTemplateResourceM :=
  meta ← ObjectMeta_DeepCopyInto (wtrm_ObjectMeta m);
  spec ← WaldurMachineSpec_DeepCopyInto (wtrm_Spec m);
  mret (mkWaldurMachineTemplateResourceM meta spec).

Definition WaldurMachineTemplateResource_DeepCopy : ptr WaldurMachineTemplateResourceM -> mem cell (ptr WaldurMachineTemplateResourceM) :=
  copy_ptr WaldurMachineTemplateResource_DeepCopyInto.

Definition WaldurMachineTemplateSpec_DeepCopyInto (m : WaldurMachineTemplateSpecM) : mem cell WaldurMachineTemplateSpecM :=
  template ← WaldurMachineTemplateResource_DeepCopyInto (wtsm_Template m);
  mret (mkWaldurMachineTemplateSpecM template).

Definition WaldurMachineTemplateSpec_DeepCopy : ptr WaldurMachineTemplateSpecM -> mem cell (ptr WaldurMachineTemplateSpecM) :=
  copy_ptr WaldurMachineTemplateSpec_DeepCopyInto.

Definition WaldurMachineTemplate_DeepCopyInto (m : WaldurMachineTemplateM) : mem cell WaldurMachineTemplateM :=
  meta ← ObjectMeta_DeepCopyInto (wtm_ObjectMeta m);
  spec ← WaldurMachineTemplateSpec_DeepCopyInto (wtm_Spec m);
  mret (mkWaldurMachineTemplateM (wtm_TypeMeta m) meta spec).

Definition WaldurMachineTemplate_DeepCopy : ptr WaldurMachineTemplateM -> mem cell (ptr WaldurMachineTemplateM) :=
  copy_ptr WaldurMachineTemplate_DeepCopyInto.

Definition WaldurClusterList_DeepCopyInto (m : (ListM WaldurClusterM)) : mem cell (ListM WaldurClusterM) :=
  meta ← ListMeta_DeepCopyInto (lm_ListMeta m);
  items ← copy_slice WaldurCluster_DeepCopyInto (lm_Items m);
  mret (mkListM (lm_TypeMeta m) meta items).

Definition WaldurClusterList_DeepCopy : ptr (ListM WaldurClusterM) -> mem cell (ptr (ListM WaldurClusterM)) :=
  copy_ptr WaldurClusterList_DeepCopyInto.

Definition WaldurMachineList_DeepCopyInto (m : (ListM WaldurMachineM)) : mem cell (ListM WaldurMachineM) :=
  meta ← ListMeta_DeepCopyInto (lm_ListMeta m);
  items ← copy_slice WaldurMachine_DeepCopyInto (lm_Items m);
  mret (mkListM (lm_TypeMeta m) meta items).

Definition WaldurMachineList_DeepCopy : ptr (ListM WaldurMachineM) -> mem cell (ptr (ListM WaldurMachineM)) :=
  copy_ptr WaldurMachineList_DeepCopyInto.

Definition WaldurMachineTemplateList_DeepCopyInto (m : (ListM WaldurMachineTemplateM)) : mem cell (ListM WaldurMachineTemplateM) :=
  meta ← ListMeta_DeepCopyInto (lm_ListMeta m);
  items ← copy_slice WaldurMachineTemplate_DeepCopyInto (lm_Items m);
  mret (mkListM (lm_TypeMeta m) meta items).

Definition WaldurMachineTemplateList_DeepCopy : ptr (ListM WaldurMachineTemplateM) -> mem cell (ptr (ListM WaldurMachineTemplateM)) :=
  copy_ptr WaldurMachineTemplateList_DeepCopyInto.

(** A [runtime.Object] that is not nil: the type behind the interface, and the pointer. *)
Inductive runtime_Object :=
| ClusterObject (p : loc) | ClusterListObject (p : loc)
| MachineObject (p : loc) | MachineListObject (p : loc)
| TemplateObject (p : loc) | TemplateListObject (p : loc).

(** [if c := in.DeepCopy(); c != nil { return c }; return nil]. *)
Definition as_object {T} (o : loc -> runtime_Object) (copy : ptr T -> mem cell (ptr T)) (p : ptr T)
    : mem cell (option runtime_Object) :=
  c ← copy p;
  mret match c with ptr_to l => Some (o l) | nil_ptr => None end.

Definition WaldurCluster_DeepCopyObject := as_object ClusterObject WaldurCluster_DeepCopy.
Definition WaldurClusterList_DeepCopyObject := as_object ClusterListObject WaldurClusterList_DeepCopy.
Definition WaldurMachine_DeepCopyObject := as_object MachineObject WaldurMachine_DeepCopy.
Definition WaldurMachineList_DeepCopyObject := as_object MachineListObject WaldurMachineList_DeepCopy.
Definition WaldurMachineTemplate_DeepCopyObject := as_object TemplateObject WaldurMachineTemplate_DeepCopy.
Definition WaldurMachineTemplateList_DeepCopyObject := as_object TemplateListObject WaldurMachineTemplateList_DeepCopy.
End DeepCopies.

(** ** The copies are isolated *)

(** The documented behaviour of the library. *)
Class MetaLaws `(MetaLib) : Prop := {
  ObjectMeta_copies : copies ObjectMeta_DeepCopyInto;
  ListMeta_copies : copies ListMeta_DeepCopyInto;
  Condition_copies : copies Condition_DeepCopyInto;
  tenants_order_permutation : forall m, tenants_order m ≡ₚ map_to_list m;
}.

Create HintDb copies.
#[export] Hint Resolve copies_flat copies_ptr copies_slice copies_value
  ObjectMeta_copies ListMeta_copies Condition_copies : copies.

(** The chain of heaps a copy goes through. *)
Ltac heap_chain := first [reflexivity|assumption|etrans; [|eassumption]; heap_chain].

(** One field after the other, then the struct. *)
Ltac copy_fields :=
  repeat (eapply builds_bind;
    [eapply builds_copies; [solve [eauto with copies]|heap_chain
                           |eapply rep_mono; [|eassumption]; heap_chain]
    |cbv beta; intros]);
  apply builds_ret; split; repeat match goal with |- _ /\ _ => split end; try done;
  (eapply rep_mono; [|eassumption]; apply heap_difference_mono; heap_chain).

Tactic Notation "copy_struct" reference(f) :=
  apply copies_builds; intros h m v Hr; unfold f;
  try (destruct Hr as [? Hr]); repeat match goal with Hr : _ /\ _ |- _ => destruct Hr end;
  copy_fields.

Section Isolation.
Context `{MetaLaws}.

Lemma tenants_copies (c : OpenStackTenantM -> mem cell OpenStackTenantM) :
  copies c -> copies (copy_map tenants_order c).
Proof. apply copies_map, tenants_order_permutation. Qed.
#[local] Hint Resolve tenants_copies : copies.

(** A struct of one field. *)
Lemma copies_wrapped {M V M1 V1} `{!Rep cell M V} `{!Rep cell M1 V1} (c : M -> mem cell M)
    (unwrap : M1 -> M) (wrap : M -> M1) (field : V1 -> V) :
  (forall h m v, rep h m v <-> rep h (unwrap m) (field v)) -> (forall a, unwrap (wrap a) = a) ->
  copies c -> copies (fun m => a ← c (unwrap m); mret (wrap a)).
Proof.
  intros Hrep Hwrap Hc. apply copies_builds. intros h m v Hr%Hrep.
  eapply builds_bind; [by eapply builds_copies|]. cbv beta. intros a h' Hh' Ha.
  apply builds_ret, Hrep. by rewrite Hwrap.
Qed.

Lemma WaldurOrder_copies : copies WaldurOrder_DeepCopyInto.
Proof. copy_struct WaldurOrder_DeepCopyInto. Qed.
#[local] Hint Resolve WaldurOrder_copies : copies.

Lemma OpenStackTenant_copies : copies OpenStackTenant_DeepCopyInto.
Proof. copy_struct OpenStackTenant_DeepCopyInto. Qed.
#[local] Hint Resolve OpenStackTenant_copies : copies.

Lemma WaldurClusterInitialization_copies : copies WaldurClusterInitialization_DeepCopyInto.
Proof. apply (copies_wrapped _ im_Provisioned mkInitializationM i_Provisioned); [done|done|auto with copies]. Qed.
#[local] Hint Resolve WaldurClusterInitialization_copies : copies.

Lemma WaldurMachineInitialization_copies : copies WaldurMachineInitialization_DeepCopyInto.
Proof. apply (copies_wrapped _ im_Provisioned mkInitializationM i_Provisioned); [done|done|auto with copies]. Qed.
#[local] Hint Resolve WaldurMachineInitialization_copies : copies.

Lemma OpenstackInfrastructure_copies : copies OpenstackInfrastructure_DeepCopyInto.
Proof. copy_struct OpenstackInfrastructure_DeepCopyInto. Qed.
#[local] Hint Resolve OpenstackInfrastructure_copies : copies.

Lemma NodeGroupSpec_copies : copies NodeGroupSpec_DeepCopyInto.
Proof. copy_struct NodeGroupSpec_DeepCopyInto. Qed.
#[local] Hint Resolve NodeGroupSpec_copies : copies.

Lemma DatacenterSpec_copies : copies DatacenterSpec_DeepCopyInto.
Proof. copy_struct DatacenterSpec_DeepCopyInto. Qed.
#[local] Hint Resolve DatacenterSpec_copies : copies.

Lemma SecurityRule_copies : copies SecurityRule_DeepCopyInto.
Proof. copy_struct SecurityRule_DeepCopyInto. Qed.
#[local] Hint Resolve SecurityRule_copies : copies.

Lemma WaldurClusterSpec_copies : copies WaldurClusterSpec_DeepCopyInto.
Proof. copy_struct WaldurClusterSpec_DeepCopyInto. Qed.
#[local] Hint Resolve WaldurClusterSpec_copies : copies.

Lemma WaldurClusterStatus_copies : copies WaldurClusterStatus_DeepCopyInto.
Proof. copy_struct WaldurClusterStatus_DeepCopyInto. Qed.
#[local] Hint Resolve WaldurClusterStatus_copies : copies.

Lemma WaldurCluster_copies : copies WaldurCluster_DeepCopyInto.
Proof. copy_struct WaldurCluster_DeepCopyInto. Qed.
#[local] Hint Resolve WaldurCluster_copies : copies.

Lemma WaldurMachineSpec_copies : copies WaldurMachineSpec_DeepCopyInto.
Proof. copy_struct WaldurMachineSpec_DeepCopyInto. Qed.
#[local] Hint Resolve WaldurMachineSpec_copies : copies.

Lemma WaldurMachineStatus_copies : copies WaldurMachineStatus_DeepCopyInto.
Proof. copy_struct WaldurMachineStatus_DeepCopyInto. Qed.
#[local] Hint Resolve WaldurMachineStatus_copies : copies.

Lemma WaldurMachine_copies : copies WaldurMachine_DeepCopyInto.
Proof. copy_struct WaldurMachine_DeepCopyInto. Qed.
#[local] Hint Resolve WaldurMachine_copies : copies.

Lemma WaldurMachineTemplateResource_copies : copies WaldurMachineTemplateResource_DeepCopyInto.
Proof. copy_struct WaldurMachineTemplateResource_DeepCopyInto. Qed.
#[local] Hint Resolve WaldurMachineTemplateResource_copies : copies.

Lemma WaldurMachineTemplateSpec_copies : copies WaldurMachineTemplateSpec_DeepCopyInto.
Proof. apply (copies_wrapped _ wtsm_Template mkWaldurMachineTemplateSpecM wts_Template); [done|done|auto with copies]. Qed.
#[local] Hint Resolve WaldurMachineTemplateSpec_copies : copies.

Lemma WaldurMachineTemplate_copies : copies WaldurMachineTemplate_DeepCopyInto.
Proof. copy_struct WaldurMachineTemplate_DeepCopyInto. Qed.
#[local] Hint Resolve WaldurMachineTemplate_copies : copies.

Lemma WaldurClusterList_copies : copies WaldurClusterList_DeepCopyInto.
Proof. copy_struct WaldurClusterList_DeepCopyInto. Qed.
#[local] Hint Resolve WaldurClusterList_copies : copies.

Lemma WaldurMachineList_copies : copies WaldurMachineList_DeepCopyInto.
Proof. copy_struct WaldurMachineList_DeepCopyInto. Qed.
#[local] Hint Resolve WaldurMachineList_copies : copies.

Lemma WaldurMachineTemplateList_copies : copies WaldurMachineTemplateList_DeepCopyInto.
Proof. copy_struct WaldurMachineTemplateList_DeepCopyInto. Qed.
#[local] Hint Resolve WaldurMachineTemplateList_copies : copies.

(** [copy] gives a pointer of its own: the heap only grows; the original stands on any
    heap with the cells there were, whatever the others hold; and the copy stands on
    any heap with the cells that are new, whatever becomes of the original's. *)
Definition isolated {T V} `{!Stored T cell} `{!Rep cell T V} (copy : ptr T -> mem cell (ptr T)) : Prop :=
  forall h l v, rep_cell h l v ->
  exists l' h', copy (ptr_to l) h = Some (ptr_to l', h') /\ h ⊆ h' /\
    (forall h2, h ⊆ h2 -> rep_cell h2 l v) /\ (forall h2, h' ∖ h ⊆ h2 -> rep_cell h2 l' v).

Lemma isolated_copy_ptr {T V} `{!Stored T cell} `{!Rep cell T V} (c : T -> mem cell T) :
  copies c -> isolated (copy_ptr c).
Proof.
  intros Hc h l v Hr.
  destruct (copies_ptr c Hc h (ptr_to l) (Some v) Hr) as ([|l'] & h' & Hcopy & Hsub & Hr'); [done|].
  exists l', h'. split_and!; [done..| |]; intros h2 Hh2; by eapply rep_cell_mono.
Qed.

(** The copy of an object of the API, by [DeepCopy] or as a [runtime.Object]. *)
Definition object_isolated {T V} `{!Stored T cell} `{!Rep cell T V} (o : loc -> runtime_Object)
    (copy : ptr T -> mem cell (ptr T)) (copy_object : ptr T -> mem cell (option runtime_Object))
    : Prop :=
  isolated copy /\ (forall h, copy nil_ptr h = Some (nil_ptr, h)) /\
  (forall h p p' h', copy p h = Some (p', h') ->
     copy_object p h = Some (match p' with ptr_to l => Some (o l) | nil_ptr => None end, h')).

Lemma object_isolated_copy {T V} `{!Stored T cell} `{!Rep cell T V} o (c : T -> mem cell T) :
  copies c -> object_isolated o (copy_ptr c) (as_object o (copy_ptr c)).
Proof.
  intros Hc. split; [by apply isolated_copy_ptr|]. split; [done|].
  intros h p p' h' Hp. unfold as_object, mbind, mem_bind. by rewrite Hp.
Qed.

(** C21. On memory with pointers, DeepCopy of every kind of object of the API, and of
    every list, refines the identity on values: from an object that represents a
    value it gives one that represents the same value in new cells alone, and
    changes no cell there was. So neither object sees what is later written through
    the other. DeepCopy of nil is nil, and DeepCopyObject is DeepCopy behind an
    interface that is nil exactly if the pointer is. *)
Theorem deep_copies_isolated :
  object_isolated ClusterObject WaldurCluster_DeepCopy WaldurCluster_DeepCopyObject /\
  object_isolated MachineObject WaldurMachine_DeepCopy WaldurMachine_DeepCopyObject /\
  object_isolated TemplateObject WaldurMachineTemplate_DeepCopy WaldurMachineTemplate_DeepCopyObject /\
  object_isolated ClusterListObject WaldurClusterList_DeepCopy WaldurClusterList_DeepCopyObject /\
  object_isolated MachineListObject WaldurMachineList_DeepCopy WaldurMachineList_DeepCopyObject /\
  object_isolated TemplateListObject WaldurMachineTemplateList_DeepCopy
    WaldurMachineTemplateList_DeepCopyObject.
Proof. split_and!; apply object_isolated_copy; auto with copies. Qed.
End Isolation.

(** ** A concrete library *)

Module ConcreteMeta.
Inductive lib :=
| LLabels (m : gmap string string) | LStrings (l : list string) | LOwners (l : list OwnerReference).

Record meta := mkmeta {
  cm_Name : string;
  cm_Namespace : string;
  cm_Labels : gomap string;
  cm_Finalizers : slice string;
  cm_OwnerReferences : slice OwnerReference;
  cm_DeletionTimestamp : ptr Z;
}.

#[export] Instance mem_layout : MetaMem :=
  {| lib_cell := lib; ObjectMetaM := meta; ListMetaM := string; ListMeta := string |}.

#[export] Instance stored_labels : Stored (gmap string string) cell.
Proof.
  by refine {| to_cell m := CLib (LLabels m : lib_cell);
    of_cell x := match x with CLib (LLabels m) => Some m | _ => None end |}.
Defined.
#[export] Instance stored_strings : Stored (list string) cell.
Proof.
  by refine {| to_cell m := CLib (LStrings m : lib_cell);
    of_cell x := match x with CLib (LStrings m) => Some m | _ => None end |}.
Defined.
#[export] Instance stored_owners : Stored (list OwnerReference) cell.
Proof.
  by refine {| to_cell m := CLib (LOwners m : lib_cell);
    of_cell x := match x with CLib (LOwners m) => Some m | _ => None end |}.
Defined.

#[export] Instance rep_OwnerReference : Rep cell OwnerReference OwnerReference := flat.

#[export] Instance rep_meta : Rep cell meta ObjectMeta.
Proof.
  refine {| rep := fun h m v =>
    cm_Name m = om_Name v /\ cm_Namespace m = om_Namespace v /\
    rep h (cm_Labels m) (om_Labels v) /\ rep h (cm_Finalizers m) (om_Finalizers v) /\
    rep h (cm_OwnerReferences m) (om_OwnerReferences v) /\
    rep h (cm_DeletionTimestamp m) (om_DeletionTimestamp v) |}.
  rep_fields.
Defined.

Definition copy_meta (m : meta) : mem cell meta :=
  labels ← copy_map map_to_list mret (cm_Labels m);
  finalizers ← copy_slice mret (cm_Finalizers m);
  owners ← copy_slice mret (cm_OwnerReferences m);
  deletion ← copy_ptr mret (cm_DeletionTimestamp m);
  mret (mkmeta (cm_Name m) (cm_Namespace m) labels finalizers owners deletion).

Lemma labels_copies : copies (copy_map (C := cell) (T := string) map_to_list mret).
Proof. by apply copies_map; [|apply copies_flat]. Qed.
#[local] Hint Resolve labels_copies : copies.

Lemma meta_copies : copies copy_meta.
Proof. copy_struct copy_meta. Qed.

#[export] Instance impl : MetaLib := {|
  ObjectMeta_rep := rep_meta;
  ListMeta_rep := (flat : Rep cell string string);
  ObjectMeta_DeepCopyInto := copy_meta;
  ListMeta_DeepCopyInto := (mret : string -> mem cell string);
  Condition_DeepCopyInto := mret;
  tenants_order := map_to_list;
|}.

#[export] Instance laws : MetaLaws impl.
Proof.
  split; [apply meta_copies|apply copies_flat|apply copies_flat|done].
Qed.
End ConcreteMeta.

(** ** A machine in memory *)

Section Example.
Import ConcreteMeta.

Definition order_in_memory (state : OrderState) : WaldurOrderM :=
  mkWaldurOrderM "o" Create state "r" nil_ptr.

(** The machine at 1, its order at 2, the order's resource nowhere. *)
Definition machine_in_memory : gmap loc cell :=
  <[1%positive := CMachine (mkWaldurMachineM (mkTypeMeta "WaldurMachine" "v1beta2")
       (mkmeta "m0" "default" nil_map nil_slice nil_slice nil_ptr)
       (mkWaldurMachineSpecM nil_ptr "dc-one" WorkerNode "m1" "ubuntu" nil_ptr nil_ptr nil_ptr)
       (mkWaldurMachineStatusM nil_slice nil_ptr nil_ptr CoreStatesCREATING "r"
          (ResourceStateOther "") (ptr_to 2%positive)))]>
  {[2%positive := COrder (order_in_memory OrderStatePendingProvider)]}.

Definition machine_value : TypeMeta * WaldurMachine :=
  (mkTypeMeta "WaldurMachine" "v1beta2",
   mkWaldurMachine (mkObjectMeta "m0" "default" ∅ [] [] None)
     (mkWaldurMachineSpec None "dc-one" WorkerNode "m1" "ubuntu" None None None)
     (mkWaldurMachineStatus [] None None CoreStatesCREATING "r" (ResourceStateOther "")
        (Some (mkWaldurOrder "o" Create OrderStatePendingProvider "r" None)))).

Lemma machine_in_memory_value : rep_cell machine_in_memory 1%positive machine_value.
Proof.
  eexists. split; [reflexivity|]. repeat split. eexists. split; [reflexivity|]. by repeat split.
Qed.

(** The base of a patch survives the change of the machine's order in place. *)
Lemma deep_copies_isolated_witness :
  exists base h', WaldurMachine_DeepCopy (ptr_to 1%positive) machine_in_memory = Some (ptr_to base, h') /\
    rep_cell (<[2%positive := COrder (order_in_memory OrderStateDone)]> h') base machine_value.
Proof.
  destruct (proj1 (proj2 deep_copies_isolated)) as [Hiso _].
  destruct (Hiso _ _ _ machine_in_memory_value) as (base & h' & Hcopy & Hsub & _ & Hbase).
  exists base, h'. split; [exact Hcopy|]. apply Hbase.
  apply insert_subseteq_r; [|apply map_subseteq_difference_l; reflexivity].
  apply lookup_difference_None. right. by eexists.
Defined.
End Example.
